(* ===== verification/_CoqProject ===== *)
-Q . S2P
Prelude.v
CLib.v
Def.v
Client.v
Kernel.v
Mem.v
MemSpec.v
Memp.v
Alloc.v
Timeouts.v
Pbuf.v
PbufChain.v
PbufWrite.v
PbufOwn.v
PbufOps.v
PbufSpec.v
PbufRam.v
Chksum.v
Ip4Addr.v
TcpRaw.v
TcpRawSpec.v
ServerSpec.v
System.v
TcpOut.v
TcpQueue.v
TcpWrite.v
TcpWriteSpec.v
TcpSendSpec.v
Link.v
LinkSpec.v
Etharp.v
EtharpTable.v
EtharpSpec.v
EtharpInput.v
ArpSpec.v
Ip4.v
Ip4Reass.v
Ip4Input.v
Ip4Spec.v
Ip4InputSpec.v
IcmpSpec.v
IpSpec.v
ReassSpec.v
