(* ===== verification/Prelude.v ===== *)
(** * Deep-Forensics: a verification library

    ** The program

    Deep-Forensics dumps physical memory of a remote machine.  A client
    ([src/client_dir]) reads commands, sends requests of 8 bytes (address, length)
    over TCP and prints the bytes that come back.  The server
    ([src/server_dir/minimal/tcp_raw.c]) runs on lwIP in user space, over a tap
    device: it is a set of callbacks on the raw TCP API.  For each request it writes
    the address and the length as text into a netlink message; a kernel module
    ([src/kernel_dir]) reads that text, copies physical memory and answers.  The
    lwIP sources ([src/server_dir/lwip/src]) are part of the tree, and the server
    stands on their heap, pools, packet buffers, timers, checksums, ARP, IPv4, ICMP
    and TCP.

    ** The files

    - [Prelude]: machine integers as [Z] with explicit wrap-around, faults, the error
      monad [res] and the state and error monad [M], tactics and shared lemmas.
    - [CLib]: what the sources use of the C library ([strtol], [atoi], [sscanf],
      [printf] of fixed formats, [strtok], little-endian words).
    - [Def]: [core/def.c].  Byte order, [lwip_itoa], string search and comparison.
    - [Client]: [client.c], [utilities.h].  Modules [Split], [Parse], [Dump], [Main]:
      the tokenizer, the command parser, the dump printer and the command loop.
    - [Kernel]: [kernel_module.c].  Module [KernelModule]; physical memory is a partial
      map from addresses to bytes.
    - [Mem], [MemSpec]: [core/mem.c].  The first-fit heap as an array of headers; its
      contract is an abstract allocator on a tiling of the heap, and the functions
      refine it.
    - [Memp]: [core/memp.c].  Fixed-size pools with free lists.
    - [Alloc]: the class [Alloc] of the two allocators, the class [AllocLaws] of what
      they promise (blocks are handed out once), and the instance for [Mem] and [Memp].
    - [Timeouts]: [core/timeouts.c].  The ordered list of relative timeouts.
    - [Pbuf]: [core/pbuf.c], every operation.  A pbuf is a struct at a location; bytes
      live in regions, so a payload pointer is a region and an offset, and dangling,
      NULL and out-of-bounds accesses are faults of the model.  [PbufChain],
      [PbufWrite], [PbufOwn], [PbufOps] hold the lemmas: chains and their bytes,
      writing, ownership of blocks, and the operations one by one; [PbufSpec] the
      claims.  [PbufRam] is about worlds that grow: blocks added to a world whose other
      packets keep their bytes.
    - [Chksum]: [core/inet_chksum.c].  The three checksum algorithms and the entry
      points on chains, against RFC 1071.
    - [Ip4Addr]: [core/ipv4/ip4_addr.c].  Parsing, printing and testing addresses.
    - [TcpRaw]: [tcp_raw.c], every callback and helper, with the functions of
      [core/tcp.c] it uses to register callbacks and to open the receive window, and
      the event macros of [tcp_priv.h].  Writing, output and closing are the class
      [TcpCore].
    - [TcpRawSpec]: the class [TcpLaws], what the server relies on of that part of
      TCP; the receive window; the transmission of a held chain.
    - [ServerSpec]: connections, and the claims about the callbacks.
    - [System]: client, server and kernel module composed.
    - [TcpOut]: the output queue of [core/tcp_out.c]: [tcp_write], [tcp_create_segment],
      [tcp_pbuf_prealloc], [tcp_enqueue_flags], [tcp_send_fin].  [TcpQueue] is its
      invariant (segments, headers and bytes), [TcpWrite] follows the three phases of
      [tcp_write], [TcpWriteSpec] the commit and its undo, [TcpSendSpec] has the claims.
    - [Link]: the state of the link layer (interfaces, ARP table, frames on the wire),
      [ethernet_output] and the tap driver's output.  [Etharp]: [core/ipv4/etharp.c],
      [ethernet_input] and the tap driver's input.  [LinkSpec], [EtharpTable],
      [EtharpSpec] and [EtharpInput] hold the lemmas (frames, the table's invariant and
      the packets it owns, requests, queries and output, input), [ArpSpec] the claims.
    - [Ip4]: routing and output of [core/ipv4/ip4.c], fragmentation of outgoing packets
      ([ip4_frag] of [core/ipv4/ip4_frag.c]) and the errors of [core/ipv4/icmp.c].
      [Ip4Reass]: the reassembly half of [ip4_frag.c]; the list of fragments lives in
      the packets' own headers, as in the code.  [Ip4Input]: [ip4_input], [icmp_input]
      and the path of a frame from the driver to them.  [Ip4Spec] (headers, checksums,
      output, routing), [Ip4InputSpec] (the checks, acceptance and delivery) and
      [IcmpSpec] (the copy and the answer of an echo request) hold the lemmas, [IpSpec]
      the claims; [ReassSpec] relates the fragment list to a list of ranges and has
      the claims about reassembly.

    ** The theorems

    [System] shows that a dump command ends with exactly the requested bytes of
    memory offered to TCP by the server and, when TCP takes them at once, on the
    client's screen.  [ServerSpec] shows that a request is answered by exactly the
    bytes asked for, handed to TCP unless TCP refuses them in that very state, that
    what waits is sent in order and once until nothing is left or TCP refuses, that a
    connection opens well formed and gives all its memory back however it ends, that
    other connections are untouched, and which requests the server does not survive.
    [Client] bounds and round-trips the command parser,
    characterises the dump and its failures, and shows the loop terminates.  [Kernel]
    gives the bytes the module answers with, and the requests that pass its limit.
    [MemSpec] shows the heap refines an allocator: blocks are disjoint, freeing undoes
    allocating, and an empty heap is one block.  [Memp] shows no element is handed out
    twice.  [PbufSpec] gives each operation's effect on the bytes of a packet and on
    the memory it takes, for every segmentation.  [Chksum] proves the three
    algorithms equal to RFC 1071 and the checksum of a chain independent of its
    segmentation.  [Timeouts] shows the timers stay armed within the size of their
    pool, and where deadlines go.  [TcpSendSpec] shows that [tcp_write] passes its
    assertions and adds exactly its bytes to the stream or leaves everything as it was,
    when a FIN goes on the last segment and when on one of its own, and the windows of
    the peer after which [tcp_write] aborts.  [ArpSpec] shows that packets leave to the
    address of their next hop, at once or when the answer to the request comes, that
    requests are answered and how long entries live.  [IpSpec] shows which packets
    [ip4_input] takes and that it releases the others and changes nothing else but the
    globals with the current addresses, that an echo request is answered by its own bytes with
    checksums that verify, and that output leaves over the routed interface behind a
    header that verifies, with the next identification.  [ReassSpec] shows that the fragment list in memory refines an
    ordered list of ranges, an order of arrival in which a missing fragment is not
    noticed, and overlapping fragments that abort the program.  [Ip4Addr] and [Def] are
    round trips and exact characterisations.

    ** Bounds and fuel

    Loops along pbuf chains carry fuel [S (size (live w))]: a chain without a cycle
    visits each live pbuf once, so the bound is never the reason to stop, and the
    theorems prove that the loops return.  The loops along a fragment list use the same
    fuel, one fragment being one packet, and the loop of [ip4_frag] the number of bytes
    left: with an MTU of 28 or more every round sends at least one (with less the code
    does not end either).  The fragment list keeps pointers
    in packets; their 8 bytes are a parameter ([ptr_bytes], [ptr_of]) whose law is that
    a stored pointer reads back.  Loops over strings and buffers are
    structural or bounded by the length of the buffer; [sys_check_timeouts] takes its
    fuel as an argument, since the number of rounds depends on the clock, and its
    rounds are total.  The configuration is that of [minimal/lwipopts.h] (no operating
    system, IPv4 and TCP only, [MEM_ALIGNMENT] 1, [MEM_SIZE] 16000, [TCP_MSS] 536, a
    window of four segments) on a little-endian 64-bit machine.  [LWIP_ASSERT] and
    [LWIP_ERROR] stop the program and are the fault [AssertFail].  The build defines
    [LWIP_DEBUG], so the checks of [TCP_OVERSIZE_DBGCHECK] are part of the model.

    ** Not modelled

    Sending the queue and its retransmission ([tcp_output] and after in [tcp_out.c]), TCP
    input ([tcp_in.c]) and the rest of [tcp.c], which the server's theorems use through
    [TcpLaws]; [tcp_input] is a parameter of [ip4_input].  The set-up of interfaces
    ([netif.c]); opening the tap device, signals and the
    polling loop of the port; the socket calls of the client and of netlink, which
    are parameters of the models; what [lwipopts.h] switches off (UDP, DHCP, DNS,
    IPv6, raw sockets, the sequential API) and what is vendored but not linked
    (applications, PPP, SLIP, 6LoWPAN).  [pbuf_free_ooseq], [mem_calloc] and the
    overflow checks of the pools are outside the build or need the parts above. *)

From Stdlib Require Export ZArith Lia.
From stdpp Require Export base gmap list strings numbers functions.

#[global] Set Default Goal Selector "!".

(** ** Scopes and notations *)

Declare Scope c_scope.
Delimit Scope c_scope with C.
Open Scope Z_scope.

(** ** Machine integers

    A C integer of width [w] is a [Z] kept in range by the conversions below;
    the model writes one of them wherever the source converts or wraps. *)

Definition u8 (z : Z) : Z := z mod 2 ^ 8.
Definition u16 (z : Z) : Z := z mod 2 ^ 16.
Definition u32 (z : Z) : Z := z mod 2 ^ 32.
Definition u64 (z : Z) : Z := z mod 2 ^ 64.
Definition s16 (z : Z) : Z := (z + 2 ^ 15) mod 2 ^ 16 - 2 ^ 15.
Definition s32 (z : Z) : Z := (z + 2 ^ 31) mod 2 ^ 32 - 2 ^ 31.

Definition is_u8 (z : Z) : Prop := 0 ≤ z < 2 ^ 8.
Definition is_u16 (z : Z) : Prop := 0 ≤ z < 2 ^ 16.
Definition is_u32 (z : Z) : Prop := 0 ≤ z < 2 ^ 32.

Notation "x +₁₆ y" := (u16 (x + y)) (at level 50, left associativity) : c_scope.
Notation "x -₁₆ y" := (u16 (x - y)) (at level 50, left associativity) : c_scope.
Notation "x +₃₂ y" := (u32 (x + y)) (at level 50, left associativity) : c_scope.
Notation "x -₃₂ y" := (u32 (x - y)) (at level 50, left associativity) : c_scope.
Open Scope c_scope.

(** Sequence of bytes; a C string is the bytes before its terminating NUL. *)
Abbreviation bytes := (list Z).

Definition wf_bytes (l : bytes) : Prop := Forall is_u8 l.

Definition cstr (s : string) : bytes :=
  (λ a, Z.of_N (Ascii.N_of_ascii a)) <$> String.list_ascii_of_string s.
Arguments cstr : simpl never.

(** ** Faults and the error monad

    What the C program does when it leaves its defined behaviour, or stops:
    the model returns the fault instead of a value. *)

Inductive fault :=
  | NullDeref        (* read or write through NULL *)
  | OutOfBounds      (* access outside the object *)
  | DanglingPtr      (* access to a freed object *)
  | AssertFail       (* LWIP_ASSERT / LWIP_ERROR: the port prints and aborts *)
  | Exits            (* exit(1) *)
  | Diverges.        (* loop bound exhausted, or a call that blocks for ever *)

#[global] Instance fault_eq_dec : EqDecision fault.
Proof. solve_decision. Defined.

Inductive res (A : Type) :=
  | Ret (a : A)
  | Err (f : fault).
Arguments Ret {A} a.
Arguments Err {A} f.

#[global] Instance res_ret : MRet res := λ A a, Ret a.
#[global] Instance res_bind : MBind res := λ A B k m,
  match m with Ret a => k a | Err f => Err f end.

(** [x ← m; k] is stdpp's notation for [mbind]. *)

Definition is_Ret {A} (m : res A) : Prop := ∃ a, m = Ret a.

(** State and error monad: a computation over a state [S]. *)
Definition M (S A : Type) : Type := S → res (A * S).

#[global] Instance M_ret {S} : MRet (M S) := λ A a s, Ret (a, s).
#[global] Instance M_bind {S} : MBind (M S) := λ A B k m s,
  match m s with Ret (a, s') => k a s' | Err f => Err f end.

Definition get {S} : M S S := λ s, Ret (s, s).
Definition put {S} (s' : S) : M S () := λ _, Ret ((), s').
Definition modify {S} (f : S → S) : M S () := λ s, Ret ((), f s).
Definition fail {S A} (f : fault) : M S A := λ _, Err f.
Definition assert_ {S} (b : bool) : M S () :=
  λ s, if b then Ret ((), s) else Err AssertFail.
Definition of_option {S A} (f : fault) (o : option A) : M S A :=
  λ s, match o with Some a => Ret (a, s) | None => Err f end.

Lemma bind_Ret {S A B} (m : M S A) (k : A → M S B) s a s' :
  m s = Ret (a, s') → (m ≫= k) s = k a s'.
Proof. intros H. unfold mbind, M_bind. by rewrite H. Qed.

Lemma bind_Err {S A B} (m : M S A) (k : A → M S B) s f :
  m s = Err f → (m ≫= k) s = Err f.
Proof. intros H. unfold mbind, M_bind. by rewrite H. Qed.

Lemma bind_ret {S A B} (a : A) (k : A → M S B) s : (mret a ≫= k) s = k a s.
Proof. done. Qed.

Lemma bind_modify {S B} (f : S → S) (k : () → M S B) s : (modify f ≫= k) s = k () (f s).
Proof. done. Qed.

Lemma bind_assert {S B} (b : bool) (k : () → M S B) s :
  b = true → (assert_ b ≫= k) s = k () s.
Proof. by intros ->. Qed.

Lemma bind_inv {S A B} (m : M S A) (k : A → M S B) s r :
  (m ≫= k) s = Ret r → ∃ a s', m s = Ret (a, s') ∧ k a s' = Ret r.
Proof.
  unfold mbind, M_bind. destruct (m s) as [[a s']|f] eqn:E; naive_solver.
Qed.

(** ** Hint databases and tactics *)

Create HintDb cint discriminated.
Create Rewrite HintDb clen.

Ltac Zify.zify_post_hook ::= idtac.

(** Arithmetic with the width conversions unfolded and division and modulo
    turned into equations. *)
Ltac cunfold := unfold u8, u16, u32, u64, s16, s32, is_u8, is_u16, is_u32 in *.
Ltac clia := cunfold; change (2 ^ 8) with 256 in *; change (2 ^ 16) with 65536 in *;
  change (2 ^ 32) with 4294967296 in *; change (2 ^ 31) with 2147483648 in *;
  change (2 ^ 15) with 32768 in *;
  Z.div_mod_to_equations; lia.

(** Case analysis on the boolean comparisons of the goal or of a hypothesis. *)
Ltac cases_if :=
  repeat match goal with
  | |- context [if ?b then _ else _] =>
      lazymatch b with context [if _ then _ else _] => fail | _ => destruct b eqn:? end
  end.

(** ** Generic lemmas *)

Lemma u16_id z : is_u16 z → u16 z = z.
Proof. intros H. by apply Z.mod_small. Qed.
Lemma u32_id z : is_u32 z → u32 z = z.
Proof. intros H. by apply Z.mod_small. Qed.
Lemma u8_id z : is_u8 z → u8 z = z.
Proof. intros H. by apply Z.mod_small. Qed.
Lemma u16_range z : is_u16 (u16 z).
Proof. by apply Z.mod_pos_bound. Qed.
Lemma u32_range z : is_u32 (u32 z).
Proof. by apply Z.mod_pos_bound. Qed.
Lemma u32_add_l a b : u32 (u32 a + b) = u32 (a + b).
Proof. unfold u32. by rewrite Zplus_mod_idemp_l. Qed.
Lemma u8_range z : is_u8 (u8 z).
Proof. by apply Z.mod_pos_bound. Qed.
Lemma s32_id z : - 2 ^ 31 ≤ z < 2 ^ 31 → s32 z = z.
Proof. intros H. clia. Qed.
#[export] Hint Resolve u8_range u16_range u32_range : cint.

(** ** Bit operations as arithmetic *)

Lemma lor_shiftl_add a b n : 0 ≤ n → 0 ≤ b < 2 ^ n → Z.lor (Z.shiftl a n) b = a * 2 ^ n + b.
Proof.
  intros Hn Hb. rewrite <- Z.shiftl_mul_pow2 by done. rewrite <- Z.add_lor_land.
  assert (Z.land (Z.shiftl a n) b = 0) as ->; [|lia].
  apply Z.bits_inj'. intros i Hi. rewrite Z.land_spec, Z.bits_0.
  destruct (decide (i < n)).
  - by rewrite Z.shiftl_spec_low.
  - replace b with (b mod 2 ^ n) by (by apply Z.mod_small).
    rewrite Z.mod_pow2_bits_high by lia. by rewrite andb_false_r.
Qed.

Lemma land_ff x : Z.land x 0xff = x mod 256.
Proof. change 0xff with (Z.ones 8). by rewrite Z.land_ones. Qed.
Lemma land_ffff x : Z.land x 0xffff = x mod 65536.
Proof. change 0xffff with (Z.ones 16). by rewrite Z.land_ones. Qed.

(** A field of [k] bits at position [n]. *)
Lemma land_field x n k : 0 ≤ n → 0 ≤ k →
  Z.shiftr (Z.land x (Z.shiftl (Z.ones k) n)) n = (x / 2 ^ n) mod 2 ^ k.
Proof.
  intros Hn Hk. rewrite Z.shiftr_land, Z.shiftr_shiftl_l, Z.sub_diag, Z.shiftl_0_r by done.
  by rewrite Z.land_ones, Z.shiftr_div_pow2.
Qed.

Lemma land_field_shiftl x n k : 0 ≤ n → 0 ≤ k →
  Z.land x (Z.shiftl (Z.ones k) n) = Z.shiftl ((x / 2 ^ n) mod 2 ^ k) n.
Proof.
  intros Hn Hk. rewrite <- Z.land_ones, <- Z.shiftr_div_pow2 by done.
  apply Z.bits_inj'. intros i Hi. rewrite Z.land_spec.
  destruct (decide (i < n)) as [H|H].
  - rewrite !Z.shiftl_spec_low by lia. by rewrite andb_false_r.
  - rewrite !Z.shiftl_spec_high, Z.land_spec, Z.shiftr_spec by lia. do 2 f_equal. lia.
Qed.
