(* ===== verification/CLib.v ===== *)
(** * The C library functions the program calls

    Strings are the bytes before the terminating NUL ([bytes]).  The functions
    follow the C standard; where the standard leaves a case to the
    implementation, glibc on LP64 (client and server) and Linux's
    [lib/vsprintf.c] (kernel module) are followed:
    - [strtol] saturates at [LONG_MIN]/[LONG_MAX];
    - [atoi] is [strtol] in base 10 truncated to [int];
    - [sscanf]'s [%8x] skips white space, accepts an optional [0x] and reads at
      most 8 characters. *)

From S2P Require Import Prelude.

(** ** Character classes *)

Definition isspace (c : Z) : bool := (c =? 32) || ((9 <=? c) && (c <=? 13)).
Definition isprint (c : Z) : bool := (32 <=? c) && (c <=? 126).

(** Value of a digit character in bases up to 36. *)
Definition digit_val (c : Z) : option Z :=
  if (48 <=? c) && (c <=? 57) then Some (c - 48)
  else if (97 <=? c) && (c <=? 122) then Some (c - 87)
  else if (65 <=? c) && (c <=? 90) then Some (c - 55)
  else None.

Definition digit_in (base c : Z) : option Z :=
  match digit_val c with
  | Some d => if d <? base then Some d else None
  | None => None
  end.

Definition hex_char (d : Z) : Z := if d <? 10 then 48 + d else 87 + d.

(** ** printf: [%0nx] of a value below [16 ^ n] *)

Fixpoint hex_fixed (n : nat) (v : Z) : bytes :=
  match n with
  | O => []
  | S n' => hex_fixed n' (v / 16) ++ [hex_char (v mod 16)]
  end.

(** Zero-padded digits in any base up to 16 ([%0nd], [%0no]). *)
Fixpoint num_fixed (base : Z) (n : nat) (v : Z) : bytes :=
  match n with
  | O => []
  | S n' => num_fixed base n' (v / base) ++ [hex_char (v mod base)]
  end.

(** ** strtol / atoi *)

Fixpoint skip_spaces (s : bytes) : bytes :=
  match s with
  | c :: s' => if isspace c then skip_spaces s' else s
  | [] => []
  end.

(** Digits of [base] at the head of [s]: their value on top of [acc]. *)
Fixpoint scan_digits (base acc : Z) (s : bytes) : Z :=
  match s with
  | [] => acc
  | c :: s' =>
      match digit_in base c with
      | Some d => scan_digits base (acc * base + d) s'
      | None => acc
      end
  end.

Definition LONG_MAX : Z := 2 ^ 63 - 1.
Definition LONG_MIN : Z := - 2 ^ 63.

Definition scan_sign (s : bytes) : bool * bytes :=
  match s with
  | c :: s' => if c =? 45 then (true, s') else if c =? 43 then (false, s') else (false, s)
  | [] => (false, s)
  end.

(** Base detection of [strtol (_, NULL, 0)]: [0x] needs a hex digit after it. *)
Definition scan_base (base : Z) (s : bytes) : Z * bytes :=
  if base =? 0 then
    match s with
    | 48 :: x :: d :: s' =>
        if ((x =? 120) || (x =? 88)) && bool_decide (is_Some (digit_in 16 d))
        then (16, d :: s') else (8, s)
    | 48 :: _ => (8, s)
    | _ => (10, s)
    end
  else (base, s).

Definition strtol (s : bytes) (base : Z) : Z :=
  let '(neg, s1) := scan_sign (skip_spaces s) in
  let '(b, s2) := scan_base base s1 in
  let v := scan_digits b 0 s2 in
  if neg then Z.max LONG_MIN (- v) else Z.min LONG_MAX v.

Definition atoi (s : bytes) : Z := s32 (strtol s 10).

(** ** strcmp, strstr, strtok *)

Definition strcmp_eq (a b : bytes) : bool := bool_decide (a = b).

(** [strstr]: the rest of [s] from the first occurrence of [needle]. *)
Definition is_prefix (p s : bytes) : bool := bool_decide (take (length p) s = p).

Fixpoint strstr (s needle : bytes) : option bytes :=
  if is_prefix needle s then Some s
  else match s with
       | [] => None
       | _ :: s' => strstr s' needle
       end.

(** The tokens [strtok (s, delims)] returns one after the other: the maximal
    runs of characters outside [delims].  [cur] is the token being read. *)
Fixpoint strtok_all (delims cur s : bytes) : list bytes :=
  match s with
  | [] => match cur with [] => [] | _ => [cur] end
  | c :: s' =>
      if bool_decide (c ∈ delims)
      then match cur with
           | [] => strtok_all delims [] s'
           | _ => cur :: strtok_all delims [] s'
           end
      else strtok_all delims (cur ++ [c]) s'
  end.

(** ** sscanf *)

(** Up to [w] hexadecimal digits: value, number of digits read and the rest. *)
Fixpoint scan_hex_digits (w : nat) (acc : Z) (s : bytes) : Z * bytes :=
  match w, s with
  | S w', c :: s' =>
      match digit_in 16 c with
      | Some d => scan_hex_digits w' (acc * 16 + d) s'
      | None => (acc, s)
      end
  | _, _ => (acc, s)
  end.

(** One [%wx] conversion: [None] when no digit can be read. *)
Definition scan_hex (w : nat) (s : bytes) : option (Z * bytes) :=
  let s := skip_spaces s in
  match s with
  | 48 :: x :: d :: s' =>
      if ((x =? 120) || (x =? 88)) && bool_decide (is_Some (digit_in 16 d))
      then Some (scan_hex_digits (w - 2) 0 (d :: s'))
      else Some (scan_hex_digits w 0 s)
  | c :: _ => match digit_in 16 c with
              | Some _ => Some (scan_hex_digits w 0 s)
              | None => None
              end
  | [] => None
  end.

(** ** Little-endian words (the x86 hosts of the client, server and kernel) *)

Fixpoint le_bytes (n : nat) (v : Z) : bytes :=
  match n with
  | O => []
  | S n' => v mod 256 :: le_bytes n' (v / 256)
  end.

Fixpoint le_word (l : bytes) : Z :=
  match l with
  | [] => 0
  | b :: l' => b + 256 * le_word l'
  end.

(** ** Lemmas *)

Lemma length_hex_fixed n v : length (hex_fixed n v) = n.
Proof. revert v. induction n; intros; simpl; [done|]. rewrite length_app, IHn. simpl. lia. Qed.

Lemma digit_in_hex_char d : 0 ≤ d < 16 → digit_in 16 (hex_char d) = Some d.
Proof.
  intros H. assert (d ∈ seqZ 0 16) as Hin by (apply elem_of_seqZ; lia).
  assert (Forall (λ d, digit_in 16 (hex_char d) = Some d) (seqZ 0 16)) as Hall
    by (vm_compute; repeat constructor).
  rewrite list.Forall_forall in Hall. exact (Hall d Hin).
Qed.

Lemma hex_char_range d : 0 ≤ d < 16 → 48 ≤ hex_char d ≤ 102 ∧ hex_char d ≠ 88.
Proof. intros. unfold hex_char. destruct (d <? 10) eqn:E; lia. Qed.

Lemma scan_hex_digits_app w w' acc s1 s2 :
  Forall (λ c, is_Some (digit_in 16 c)) s1 → w = (length s1 + w')%nat →
  scan_hex_digits w acc (s1 ++ s2) =
  scan_hex_digits w' (scan_hex_digits (length s1) acc s1).1 s2.
Proof.
  intros Hs. revert w acc. induction Hs as [|c s1 [d Hd] _ IH]; intros w acc ->; simpl; [done|].
  rewrite Hd. by apply IH.
Qed.

Lemma hex_fixed_digits n v : 0 ≤ v → Forall (λ c, is_Some (digit_in 16 c)) (hex_fixed n v).
Proof.
  revert v. induction n as [|n IH]; intros v Hv; simpl; [constructor|].
  apply Forall_app. split; [apply IH, Z.div_pos; lia|].
  repeat constructor. exists (v mod 16). apply digit_in_hex_char. apply Z.mod_pos_bound. lia.
Qed.

Lemma scan_hex_fixed n acc v : 0 ≤ v < 16 ^ Z.of_nat n →
  (scan_hex_digits n acc (hex_fixed n v)).1 = acc * 16 ^ Z.of_nat n + v.
Proof.
  revert acc v. induction n as [|n IH]; intros acc v Hv; [simpl in *; lia|].
  rewrite Nat2Z.inj_succ, Z.pow_succ_r in * by lia.
  assert (Hm := Z.mod_pos_bound v 16).
  simpl hex_fixed. rewrite (scan_hex_digits_app _ 1); cycle 1.
  { apply hex_fixed_digits, Z.div_pos; lia. }
  { rewrite length_hex_fixed. lia. }
  rewrite length_hex_fixed, IH by (split; [apply Z.div_pos; lia|apply Z.div_lt_upper_bound; lia]).
  cbn [scan_hex_digits]. rewrite digit_in_hex_char by lia. simpl.
  rewrite (Z.div_mod v 16) at 3 by lia. lia.
Qed.

Lemma hex_fixed_num n v : hex_fixed n v = num_fixed 16 n v.
Proof. revert v. induction n as [|n IH]; intros v; simpl; [done|]. by rewrite IH. Qed.

Lemma digit_in_num base d : 0 ≤ d < base → base ≤ 16 → digit_in base (hex_char d) = Some d.
Proof.
  intros Hd Hb. pose proof (digit_in_hex_char d ltac:(lia)) as H. unfold digit_in in *.
  destruct (digit_val (hex_char d)) as [d'|]; [|done].
  destruct (d' <? 16); simplify_eq. by rewrite (proj2 (Z.ltb_lt d base)) by lia.
Qed.

Lemma scan_digits_num base n acc v rest :
  2 ≤ base ≤ 16 → 0 ≤ v < base ^ Z.of_nat n →
  scan_digits base acc (num_fixed base n v ++ rest) =
  scan_digits base (acc * base ^ Z.of_nat n + v) rest.
Proof.
  intros Hb. revert acc v rest. induction n as [|n IH]; intros acc v rest Hv.
  { simpl in *. f_equal. lia. }
  rewrite Nat2Z.inj_succ, Z.pow_succ_r in * by lia.
  assert (Hm := Z.mod_pos_bound v base ltac:(lia)).
  simpl num_fixed. rewrite <- (assoc app).
  rewrite IH by (split; [apply Z.div_pos; lia|apply Z.div_lt_upper_bound; lia]).
  simpl. rewrite digit_in_num by lia. f_equal.
  rewrite (Z.div_mod v base) at 3 by lia. lia.
Qed.

Lemma num_fixed_chars base n v : 2 ≤ base ≤ 16 → 0 ≤ v →
  Forall (λ c, 48 ≤ c ≤ 102 ∧ is_Some (digit_in base c)) (num_fixed base n v).
Proof.
  intros Hb. revert v. induction n as [|n IH]; intros v Hv; simpl; [constructor|].
  apply list.Forall_app. split; [apply IH, Z.div_pos; lia|].
  assert (Hm := Z.mod_pos_bound v base ltac:(lia)).
  repeat constructor; [| |exists (v mod base); apply digit_in_num; lia];
    pose proof (hex_char_range (v mod base)); lia.
Qed.

Lemma length_num_fixed base n v : length (num_fixed base n v) = n.
Proof. revert v. induction n; intros; simpl; [done|]. rewrite length_app, IHn. simpl. lia. Qed.

Lemma skip_spaces_digit c s d : digit_in 16 c = Some d → skip_spaces (c :: s) = c :: s.
Proof.
  intros H. simpl. destruct (isspace c) eqn:E; [|done].
  unfold isspace in E. unfold digit_in, digit_val in H.
  repeat case_match; simplify_eq; lia.
Qed.

(** Printing 8 hex digits and scanning them back is the identity on 32-bit
    values, whatever follows (a byte that is not a digit is never needed:
    the field width stops the scan). *)
Lemma scan_hex_hex8 v rest : is_u32 v → scan_hex 8 (hex_fixed 8 v ++ rest) = Some (v, rest).
Proof.
  intros Hv. pose proof (hex_fixed_digits 8 v ltac:(clia)) as Hd.
  assert (scan_hex_digits 8 0 (hex_fixed 8 v ++ rest) = (v, rest)) as Hs.
  { rewrite (scan_hex_digits_app _ 0) by (auto || by rewrite length_hex_fixed).
    rewrite length_hex_fixed, scan_hex_fixed by (unfold is_u32 in Hv; lia).
    simpl. destruct rest; f_equal; lia. }
  revert Hs Hd. pose proof (length_hex_fixed 8 v) as Hl. revert Hl.
  generalize (hex_fixed 8 v). intros l Hl Hs Hd.
  destruct l as [|c0 [|c1 [|c2 l]]]; try done. simpl app in *.
  apply list.Forall_cons in Hd as [[d0 H0] Hd]. apply list.Forall_cons in Hd as [[d1 H1] _].
  unfold scan_hex. rewrite (skip_spaces_digit _ _ d0) by done.
  assert ((c1 =? 120) || (c1 =? 88) = false) as Hx.
  { unfold digit_in, digit_val in H1. repeat case_match; simplify_eq; lia. }
  rewrite Hx. simpl andb. rewrite H0, Hs. repeat case_match; done.
Qed.

Lemma scan_sign_digit c s : 48 ≤ c → scan_sign (c :: s) = (false, c :: s).
Proof. intros H. simpl. by rewrite !(proj2 (Z.eqb_neq c _)) by lia. Qed.

(** [strtol(s, NULL, 0)] reads back [0x%08x]. *)
Lemma strtol_hex8 v : is_u32 v → strtol (cstr "0x" ++ hex_fixed 8 v) 0 = v.
Proof.
  intros Hv. unfold is_u32 in Hv. unfold strtol.
  change (cstr "0x" ++ hex_fixed 8 v) with (48 :: 120 :: hex_fixed 8 v).
  rewrite (skip_spaces_digit 48 _ 0) by done. rewrite scan_sign_digit by lia.
  pose proof (hex_fixed_digits 8 v ltac:(lia)) as Hd.
  assert (scan_digits 16 0 (hex_fixed 8 v) = v) as Hs.
  { pose proof (scan_digits_num 16 8 0 v [] ltac:(lia) ltac:(lia)) as H.
    rewrite app_nil_r, <- hex_fixed_num in H. rewrite H. simpl. lia. }
  revert Hs Hd. pose proof (length_hex_fixed 8 v) as Hl. revert Hl.
  generalize (hex_fixed 8 v). intros [|c l] Hl Hs Hd; [done|].
  apply list.Forall_cons in Hd as [Hc _].
  unfold scan_base. simpl. rewrite bool_decide_true by done.
  rewrite Hs. unfold LONG_MAX. lia.
Qed.

(** [atoi] reads back [%0nd]. *)
Lemma atoi_dec n v : (0 < n ≤ 9)%nat → 0 ≤ v < 10 ^ Z.of_nat n →
  atoi (num_fixed 10 n v) = v.
Proof.
  intros Hn Hv. unfold atoi, strtol.
  pose proof (num_fixed_chars 10 n v ltac:(lia) ltac:(lia)) as Hc.
  assert (scan_digits 10 0 (num_fixed 10 n v) = v) as Hs.
  { pose proof (scan_digits_num 10 n 0 v [] ltac:(lia) ltac:(lia)) as H.
    rewrite app_nil_r in H. rewrite H. simpl. lia. }
  pose proof (length_num_fixed 10 n v) as Hl. revert Hl Hs Hc.
  generalize (num_fixed 10 n v). intros [|c l] Hl Hs Hc; [simpl in Hl; lia|].
  apply list.Forall_cons in Hc as [[Hr [d Hd]] _].
  assert (skip_spaces (c :: l) = c :: l) as ->.
  { simpl. destruct (isspace c) eqn:E; [|done]. unfold isspace in E. lia. }
  rewrite scan_sign_digit by lia. unfold scan_base. change (10 =? 0) with false.
  cbv iota beta. rewrite Hs.
  assert (10 ^ Z.of_nat n ≤ 10 ^ 9) by (apply Z.pow_le_mono_r; lia).
  unfold LONG_MAX. rewrite Z.min_r by lia. apply s32_id. lia.
Qed.

Lemma length_le_bytes n v : length (le_bytes n v) = n.
Proof. revert v. induction n; intros; simpl; auto. Qed.

Lemma le_bytes_wf n v : wf_bytes (le_bytes n v).
Proof.
  revert v. induction n as [|n IH]; intros v; simpl; constructor; [|apply IH].
  by apply Z.mod_pos_bound.
Qed.

Lemma le_word_bytes n v : 0 ≤ v < 256 ^ Z.of_nat n → le_word (le_bytes n v) = v.
Proof.
  revert v. induction n as [|n IH]; intros v Hv; [simpl in *; lia|].
  rewrite Nat2Z.inj_succ, Z.pow_succ_r in Hv by lia. simpl.
  rewrite IH by (split; [apply Z.div_pos; lia|apply Z.div_lt_upper_bound; lia]).
  rewrite (Z.div_mod v 256) at 3 by lia. lia.
Qed.

Lemma le_word_range l : wf_bytes l → 0 ≤ le_word l < 256 ^ Z.of_nat (length l).
Proof.
  induction 1 as [|b l Hb _ IH]; simpl length; [simpl; lia|].
  rewrite Nat2Z.inj_succ, Z.pow_succ_r by lia. simpl le_word. clia.
Qed.

#[export] Hint Rewrite length_hex_fixed length_le_bytes : clen.
