(* ===== verification/Def.v ===== *)
(** * Byte order and string helpers: [lwip/src/core/def.c]

    The machine is little-endian, so the conversions swap bytes.  A C string is
    the list of its bytes before the NUL. *)

From S2P Require Import Prelude CLib.

Module Def.

(** [PP_HTONS] and [PP_HTONL] of [def.h] *)
Definition PP_HTONS (x : Z) : Z :=
  Z.lor (Z.shiftl (Z.land x 0x00ff) 8) (Z.shiftr (Z.land x 0xff00) 8).
Definition PP_HTONL (x : Z) : Z :=
  Z.lor (Z.lor (Z.lor (Z.shiftl (Z.land x 0x000000ff) 24) (Z.shiftl (Z.land x 0x0000ff00) 8))
    (Z.shiftr (Z.land x 0x00ff0000) 8)) (Z.shiftr (Z.land x 0xff000000) 24).

Definition lwip_htons (n : Z) : Z := u16 (PP_HTONS n).
Definition lwip_htonl (n : Z) : Z := u32 (PP_HTONL n).

(** The character a string starts with, the NUL at its end. *)
Definition char0 (s : bytes) : Z := match s with c :: _ => c | [] => 0 end.

(** ** Strings *)

Definition tokenlen (token : bytes) : Z := Z.of_nat (length token).

(** The loop of [lwip_strnstr], at [p = buffer + off]. *)
Fixpoint strnstr_loop (p token : bytes) (off n : Z) : option Z :=
  match p with
  | [] => None
  | c :: p' =>
      if off + tokenlen token <=? n then
        if (c =? char0 token) && is_prefix token p then Some off
        else strnstr_loop p' token (off + 1) n
      else None
  end.

(** [lwip_strnstr(buffer, token, n)]: the offset of the result in [buffer]. *)
Definition lwip_strnstr (buffer token : bytes) (n : Z) : option Z :=
  if tokenlen token =? 0 then Some 0 else strnstr_loop buffer token 0 n.

(** The comparison in the loops of [lwip_stricmp] and [lwip_strnicmp]: [true]
    when they return 1. *)
Definition chars_differ (c1 c2 : Z) : bool :=
  negb (c1 =? c2) &&
  (let c1_upc := Z.lor c1 0x20 in
   if (97 <=? c1_upc) && (c1_upc <=? 122)
   then let c2_upc := Z.lor c2 0x20 in negb (c1_upc =? c2_upc)
   else true).

Fixpoint lwip_stricmp (str1 str2 : bytes) : Z :=
  if chars_differ (char0 str1) (char0 str2) then 1
  else match str1 with
       | [] => 0
       | _ :: s1 => lwip_stricmp s1 (tail str2)
       end.

Fixpoint lwip_strnicmp (str1 str2 : bytes) (len : nat) : Z :=
  if chars_differ (char0 str1) (char0 str2) then 1
  else match len, str1 with
       | O, _ | _, [] => 0
       | S len', _ :: s1 => lwip_strnicmp s1 (tail str2) len'
       end.

(** ** [lwip_itoa] *)

Definition itoa_chars : bytes :=
  cstr "zyxwvutsrqponmlkjihgfedcba9876543210123456789abcdefghijklmnopqrstuvwxyz".

(** The [do] loop: the last [tmp_value] and what has been written; an [int] has
    at most ten digits. *)
Fixpoint itoa_loop (fuel : nat) (number : Z) (out : bytes) : res (Z * bytes) :=
  let tmp_value := number in
  let number := Z.quot number 10 in
  match itoa_chars !! Z.to_nat (35 + (tmp_value - number * 10)) with
  | None => Err OutOfBounds
  | Some c =>
      let out := out ++ [c] in
      if number =? 0 then Ret (tmp_value, out)
      else match fuel with
           | O => Err Diverges
           | S fuel' => itoa_loop fuel' number out
           end
  end.

(** The loop that reverses the text in place, [ptr1 = i] and [ptr = j]. *)
Fixpoint swap_loop (fuel : nat) (out : bytes) (i j : nat) : res bytes :=
  if (i <? j)%nat then
    match fuel, out !! i, out !! j with
    | S fuel', Some a, Some b => swap_loop fuel' (<[i := b]> (<[j := a]> out)) (S i) (j - 1)
    | O, _, _ => Err Diverges
    | _, _, _ => Err OutOfBounds
    end
  else Ret out.

(** [lwip_itoa(result, bufsize, number)]: the string in [result]; [bufsize] is
    not used. *)
Definition lwip_itoa (number : Z) : res bytes :=
  '(tmp_value, out) ← itoa_loop 9 number [];
  let out := if tmp_value <? 0 then out ++ [45] else out in
  swap_loop (length out) out 0 (length out - 1).

End Def.
Import Def.

(** ** Byte order *)

Lemma htons_eq n : is_u16 n → Def.lwip_htons n = 256 * (n mod 256) + n / 256.
Proof.
  intros Hn. unfold Def.lwip_htons, Def.PP_HTONS. rewrite land_ff.
  change 0xff00 with (Z.shiftl (Z.ones 8) 8). rewrite land_field by lia.
  rewrite lor_shiftl_add by clia. clia.
Qed.

Lemma htons_range n : is_u16 (Def.lwip_htons n).
Proof. apply u16_range. Qed.

Lemma htons_involutive n : is_u16 n → Def.lwip_htons (Def.lwip_htons n) = n.
Proof. intros Hn. rewrite (htons_eq (Def.lwip_htons n)) by apply htons_range. rewrite htons_eq by done. clia. Qed.

(** [lwip_htonl] reverses the four bytes. *)
Lemma htonl_bytes a b c d : is_u8 a → is_u8 b → is_u8 c → is_u8 d →
  lwip_htonl (a + 256 * (b + 256 * (c + 256 * d))) = d + 256 * (c + 256 * (b + 256 * a)).
Proof.
  intros Ha Hb Hc Hd. set (x := a + _). unfold lwip_htonl, PP_HTONL.
  change 0xff000000 with (Z.shiftl (Z.ones 8) 24). change 0x00ff0000 with (Z.shiftl (Z.ones 8) 16).
  change 0x0000ff00 with (Z.shiftl (Z.ones 8) 8). change 0x000000ff with (Z.shiftl (Z.ones 8) 0).
  rewrite !land_field_shiftl by lia. rewrite Z.shiftl_0_r.
  replace (x / 2 ^ 0 mod 2 ^ 8) with a by (unfold x; clia).
  replace (x / 2 ^ 8 mod 2 ^ 8) with b by (unfold x; clia).
  replace (x / 2 ^ 16 mod 2 ^ 8) with c by (unfold x; change (2 ^ 16) with 65536; clia).
  replace (x / 2 ^ 24 mod 2 ^ 8) with d by (unfold x; change (2 ^ 24) with 16777216; clia).
  rewrite Z.shiftl_shiftl by lia. rewrite (Z.shiftr_shiftl_l c) by lia.
  rewrite (Z.shiftr_shiftl_l d), Z.sub_diag, Z.shiftl_0_r by lia.
  change (8 + 8) with 16. change (16 - 8) with 8.
  replace (Z.shiftl a 24) with (Z.shiftl (Z.shiftl a 8) 16) by (by rewrite Z.shiftl_shiftl).
  rewrite <- Z.shiftl_lor. rewrite (lor_shiftl_add a b 8) by clia.
  replace (Z.shiftl (a * 2 ^ 8 + b) 16) with (Z.shiftl (Z.shiftl (a * 2 ^ 8 + b) 8) 8) by
    (by rewrite Z.shiftl_shiftl).
  rewrite <- Z.shiftl_lor. rewrite (lor_shiftl_add _ c 8) by clia.
  rewrite (lor_shiftl_add _ d 8) by clia. clia.
Qed.

Lemma htonl_range n : is_u32 (lwip_htonl n).
Proof. apply u32_range. Qed.

(** ** Comparison without case *)

Definition tolower (c : Z) : Z := if (65 <=? c) && (c <=? 90) then c + 32 else c.

Lemma chars_differ_ok c1 c2 : is_u8 c1 → is_u8 c2 →
  chars_differ c1 c2 = negb (tolower c1 =? tolower c2).
Proof.
  intros H1 H2.
  assert (forallb (λ x, forallb (λ y, eqb (chars_differ x y) (negb (tolower x =? tolower y)))
    (seqZ 0 256)) (seqZ 0 256) = true) as H by (vm_compute; reflexivity).
  rewrite forallb_forall in H. specialize (H c1). rewrite forallb_forall in H.
  apply eqb_prop, H; apply list_elem_of_In, elem_of_seqZ; unfold is_u8 in *; lia.
Qed.

(** A C string: no NUL inside. *)
Definition c_str (s : bytes) : Prop := Forall (λ c, 0 < c < 256) s.

Lemma char0_u8 s : c_str s → is_u8 (char0 s).
Proof. intros Hs. destruct Hs; cbn; unfold is_u8; lia. Qed.

Lemma tolower_nonzero c : 0 < c → tolower c ≠ 0.
Proof. unfold tolower. destruct ((65 <=? c) && (c <=? 90)); lia. Qed.

Lemma stricmp_ok s1 s2 : c_str s1 → c_str s2 →
  lwip_stricmp s1 s2 = if bool_decide (tolower <$> s1 = tolower <$> s2) then 0 else 1.
Proof.
  intros H1. revert s2. induction H1 as [|c1 s1 Hc1 H1 IH]; intros s2 H2; cbn [lwip_stricmp];
    rewrite chars_differ_ok by (apply char0_u8; (done || by constructor)); cbn [char0].
  - destruct H2 as [|c2 s2 Hc2 H2]; cbn [char0]; [done|]. change (tolower 0) with 0.
    pose proof (tolower_nonzero c2). rewrite (proj2 (Z.eqb_neq _ _)) by lia. done.
  - destruct H2 as [|c2 s2 Hc2 H2]; cbn [char0 tail].
    { change (tolower 0) with 0. pose proof (tolower_nonzero c1).
      rewrite (proj2 (Z.eqb_neq _ _)) by lia. done. }
    destruct (Z.eqb_spec (tolower c1) (tolower c2)) as [E|E]; cbn [negb].
    + rewrite IH by done. cbn. rewrite E.
      do 2 case_bool_decide; try done; simplify_eq; congruence.
    + rewrite bool_decide_false; [done|]. cbn. congruence.
Qed.

Lemma strnicmp_ok s1 s2 len : c_str s1 → c_str s2 →
  lwip_strnicmp s1 s2 len =
  if bool_decide (take (S len) (tolower <$> s1) = take (S len) (tolower <$> s2)) then 0 else 1.
Proof.
  intros H1. revert s2 len. induction H1 as [|c1 s1 Hc1 H1 IH]; intros s2 len H2;
    destruct len as [|len]; cbn [lwip_strnicmp];
    rewrite chars_differ_ok by (apply char0_u8; (done || by constructor)); cbn [char0];
    destruct H2 as [|c2 s2 Hc2 H2]; cbn [char0 tail fmap list_fmap take]; change (tolower 0) with 0;
    try done;
    try (pose proof (tolower_nonzero c1 ltac:(lia))); try (pose proof (tolower_nonzero c2 ltac:(lia)));
    try (rewrite (proj2 (Z.eqb_neq _ _)) by lia; done);
    (destruct (Z.eqb_spec (tolower c1) (tolower c2)) as [E|E]; cbn [negb];
      [rewrite E|rewrite bool_decide_false; [done|congruence]]).
  - by rewrite bool_decide_true.
  - rewrite IH by done. cbn. do 2 case_bool_decide; try done; simplify_eq; congruence.
Qed.

(** ** Decimal text *)

Lemma strtol_dec k v : (0 < k ≤ 18)%nat → 0 ≤ v < 10 ^ Z.of_nat k →
  strtol (num_fixed 10 k v) 10 = v ∧ strtol (45 :: num_fixed 10 k v) 10 = - v.
Proof.
  intros Hk Hv. pose proof (scan_digits_num 10 k 0 v [] ltac:(lia) Hv) as Hs.
  rewrite app_nil_r in Hs. cbn [scan_digits] in Hs. rewrite Z.mul_0_l, Z.add_0_l in Hs.
  pose proof (num_fixed_chars 10 k v ltac:(lia) ltac:(lia)) as Hc.
  assert (10 ^ Z.of_nat k ≤ 10 ^ 18) as Hp by (apply Z.pow_le_mono_r; lia).
  unfold strtol. split.
  - destruct (num_fixed 10 k v) as [|c s] eqn:E.
    { apply (f_equal length) in E. rewrite length_num_fixed in E. simpl in E. lia. }
    apply list.Forall_cons in Hc as [[Hc [d Hd]] _].
    assert (digit_in 16 c = Some d) as Hd16.
    { unfold digit_in in *. destruct (digit_val c) as [x|]; [|done].
      destruct (Z.ltb_spec x 10); [|done]. by rewrite (proj2 (Z.ltb_lt x 16)) by lia. }
    rewrite (skip_spaces_digit _ _ _ Hd16), scan_sign_digit by lia. cbn [scan_base Z.eqb].
    rewrite Hs. unfold LONG_MAX. lia.
  - change (skip_spaces (45 :: num_fixed 10 k v)) with (45 :: num_fixed 10 k v).
    cbn [scan_sign Z.eqb Pos.eqb scan_base]. rewrite Hs. unfold LONG_MIN. lia.
Qed.

Lemma swap_loop_rev fuel pre mid post : (length mid ≤ fuel)%nat →
  swap_loop fuel (pre ++ mid ++ post) (length pre) (length pre + length mid - 1) =
  Ret (pre ++ rev mid ++ post).
Proof.
  revert pre mid post. induction fuel as [|fuel IH]; intros pre mid post Hf.
  { destruct mid; [|simpl in Hf; lia]. cbn [swap_loop length app rev].
    rewrite (proj2 (Nat.ltb_ge _ _)) by lia. done. }
  destruct mid as [|a mid]; [cbn [swap_loop length app rev]; by rewrite (proj2 (Nat.ltb_ge _ _)) by lia|].
  destruct mid as [|b mid' _] using rev_ind.
  { cbn [swap_loop length app rev]. by rewrite (proj2 (Nat.ltb_ge _ _)) by lia. }
  cbn [swap_loop]. cbn [length] in *. rewrite length_app in *. cbn [length] in *.
  rewrite (proj2 (Nat.ltb_lt _ _)) by lia.
  replace (length pre + S (length mid' + 1) - 1)%nat with (length (pre ++ a :: mid')) by
    (rewrite length_app; simpl; lia).
  assert (pre ++ (a :: mid' ++ [b]) ++ post = (pre ++ a :: mid') ++ b :: post) as E.
  { rewrite <- !(assoc_L app). simpl. by rewrite <- (assoc_L app). }
  rewrite E. rewrite (list_lookup_middle (pre ++ a :: mid') post b (length (pre ++ a :: mid'))) by done.
  assert (((pre ++ a :: mid') ++ b :: post) !! length pre = Some a) as ->.
  { rewrite <- (assoc_L app). by apply list_lookup_middle. }
  rewrite (insert_app_r_alt _ _ (length (pre ++ a :: mid'))) by done. rewrite Nat.sub_diag. cbn [insert list_insert].
  rewrite <- (assoc_L app pre). rewrite (insert_app_r_alt pre _ (length pre)) by done.
  rewrite Nat.sub_diag. cbn [insert list_insert app].
  replace (pre ++ b :: mid' ++ a :: post) with ((pre ++ [b]) ++ mid' ++ a :: post) by
    (by rewrite <- (assoc_L app)).
  replace (S (length pre)) with (length (pre ++ [b])) by (rewrite length_app; simpl; lia).
  replace (length (pre ++ a :: mid') - 1)%nat with (length (pre ++ [b]) + length mid' - 1)%nat by
    (rewrite !length_app; simpl; lia).
  rewrite IH by lia. cbn [rev]. rewrite rev_app_distr. cbn [rev app].
  by rewrite <- !(assoc_L app).
Qed.

Lemma itoa_char d : -9 ≤ d ≤ 9 → itoa_chars !! Z.to_nat (35 + d) = Some (hex_char (Z.abs d)).
Proof.
  intros Hd. assert (d ∈ seqZ (-9) 19) as Hin by (apply elem_of_seqZ; lia).
  assert (Forall (λ d, itoa_chars !! Z.to_nat (35 + d) = Some (hex_char (Z.abs d))) (seqZ (-9) 19))
    as Hall by (vm_compute; repeat constructor).
  by eapply list.Forall_forall in Hall.
Qed.

Lemma itoa_loop_ok fuel n out : Z.abs n < 10 ^ Z.of_nat (S fuel) →
  ∃ k t, (0 < k ≤ S fuel)%nat ∧
    itoa_loop fuel n out = Ret (t, out ++ rev (num_fixed 10 k (Z.abs n))) ∧
    Z.abs n < 10 ^ Z.of_nat k ∧ (t < 0 ↔ n < 0).
Proof.
  revert n out. induction fuel as [|fuel IH]; intros n out Hn; cbn [itoa_loop];
    pose proof (Z.quot_rem' n 10) as Hq; pose proof (Z.rem_bound_abs n 10 ltac:(lia)) as Hr;
    rewrite (itoa_char (n - Z.quot n 10 * 10)) by lia.
  - change (10 ^ Z.of_nat 1) with 10 in *. assert (Z.quot n 10 = 0) as E by (Z.quot_rem_to_equations; lia).
    rewrite E. cbn [Z.eqb]. exists 1%nat, n. split_and!; [lia..| |done|done].
    cbn [num_fixed rev app]. rewrite (Z.mod_small (Z.abs n) 10) by lia. do 5 f_equal. lia.
  - destruct (Z.eqb_spec (Z.quot n 10) 0) as [E|E].
    + exists 1%nat, n. assert (Z.abs n < 10) by (Z.quot_rem_to_equations; lia).
      split_and!; [lia..| |done|done].
      cbn [num_fixed rev app]. rewrite (Z.mod_small (Z.abs n) 10), E by lia. do 5 f_equal. lia.
    + rewrite Nat2Z.inj_succ, Z.pow_succ_r in Hn by lia.
      assert (Z.abs (Z.quot n 10) = Z.abs n / 10) as Ea by
        (rewrite Z.quot_abs_l || idtac; Z.quot_rem_to_equations; Z.div_mod_to_equations; lia).
      destruct (IH (Z.quot n 10) (out ++ [hex_char (Z.abs (n - Z.quot n 10 * 10))])) as (k & t & Hk & -> & Hb & Ht).
      { rewrite Ea. apply Z.div_lt_upper_bound; lia. }
      exists (S k), t. split_and!; [lia..| | |].
      * cbn [num_fixed]. rewrite rev_app_distr, <- (assoc_L app). cbn [rev app]. rewrite <- Ea.
        do 5 f_equal. Z.quot_rem_to_equations; Z.div_mod_to_equations; lia.
      * rewrite Nat2Z.inj_succ, Z.pow_succ_r by lia. Z.div_mod_to_equations; lia.
      * rewrite Ht. Z.quot_rem_to_equations; lia.
Qed.

(** ** Theorems *)

(** [lwip_itoa] writes the decimal text of every [int], the least one
    included: the loops end, the text fits in 12 bytes with its NUL and [atoi]
    reads the number back. *)
Theorem lwip_itoa_roundtrip n : - 2 ^ 31 ≤ n < 2 ^ 31 →
  ∃ s, lwip_itoa n = Ret s ∧ atoi s = n ∧ (length s ≤ 11)%nat.
Proof.
  intros Hn. destruct (itoa_loop_ok 9 n []) as (k & t & Hk & Hrun & Hb & Ht); [simpl; lia|].
  unfold lwip_itoa. rewrite Hrun. cbn [mbind res_bind app].
  destruct (strtol_dec k (Z.abs n)) as [Hpos Hneg]; [lia..|].
  assert (∀ m, swap_loop (length m) m 0 (length m - 1) = Ret (rev m)) as Hrev.
  { intros m. pose proof (swap_loop_rev (length m) [] m [] ltac:(done)) as H. cbn in H.
    by rewrite !app_nil_r in H. }
  rewrite Hrev. eexists. split; [done|]. unfold atoi.
  destruct (Z.ltb_spec t 0) as [H|H].
  - rewrite rev_app_distr, rev_involutive. cbn [rev app length]. rewrite Hneg, length_num_fixed.
    split; [rewrite s32_id by lia; lia|lia].
  - rewrite rev_involutive, Hpos, length_num_fixed. split; [rewrite s32_id by lia; lia|lia].
Qed.

(** [lwip_stricmp] compares without case; [lwip_strnicmp(.., len)] looks at one
    character more than [len]. *)
Theorem case_insensitive_compare s1 s2 len : c_str s1 → c_str s2 →
  (lwip_stricmp s1 s2 = 0 ↔ tolower <$> s1 = tolower <$> s2) ∧
  (lwip_strnicmp s1 s2 len = 0 ↔
    take (S len) (tolower <$> s1) = take (S len) (tolower <$> s2)).
Proof.
  intros H1 H2. rewrite stricmp_ok, strnicmp_ok by done. split; case_bool_decide; naive_solver.
Qed.

(** [lwip_strnstr] finds the first occurrence that ends within [n] bytes. *)
Theorem lwip_strnstr_first s t n i : t ≠ [] → lwip_strnstr s t n = Some i →
  0 ≤ i ∧ i + tokenlen t ≤ n ∧ is_prefix t (drop (Z.to_nat i) s) ∧
  ∀ j, 0 ≤ j < i → ¬ is_prefix t (drop (Z.to_nat j) s).
Proof.
  intros Ht. unfold lwip_strnstr. rewrite (proj2 (Z.eqb_neq _ _)).
  2:{ unfold tokenlen. destruct t; [done|]. simpl. lia. }
  assert (∀ p off, 0 ≤ off → p = drop (Z.to_nat off) s → strnstr_loop p t off n = Some i →
    off ≤ i ∧ i + tokenlen t ≤ n ∧ is_prefix t (drop (Z.to_nat i) s) ∧
    ∀ j, off ≤ j < i → ¬ is_prefix t (drop (Z.to_nat j) s)) as H.
  { induction p as [|c p IH]; intros off Ho Hp; cbn [strnstr_loop]; [done|].
    destruct (Z.leb_spec (off + tokenlen t) n) as [Hn|]; [|done].
    assert ((c =? char0 t) && is_prefix t (c :: p) = is_prefix t (c :: p)) as ->.
    { destruct (is_prefix t (c :: p)) eqn:E; [|by rewrite andb_false_r]. rewrite andb_true_r.
      apply bool_decide_eq_true in E. destruct t; [done|]. cbn in *. apply Z.eqb_eq. congruence. }
    destruct (is_prefix t (c :: p)) eqn:E.
    - intros [= <-]. rewrite <- Hp, E. split_and!; [lia|done|done|lia].
    - intros Hr. apply IH in Hr as (H1 & H2 & H3 & H4); [|lia|].
      + split_and!; [lia|done|done|]. intros j Hj. destruct (decide (j = off)) as [->|]; [|apply H4; lia].
        rewrite <- Hp, E. by intros [].
      + rewrite Z2Nat.inj_add, <- drop_drop, <- Hp by lia. done. }
  apply (H s 0); [lia|done].
Qed.
