(* ===== verification/Client.v ===== *)
(** * The client: [client_dir/client.c] and [client_dir/utilities.h]

    - [Split]: [split], the tokeniser of [utilities.h];
    - [Parse]: [parse_input], which turns a command line into a request;
    - [Dump]: [print_mem], the hex dump on the terminal;
    - [Main]: the read-parse-send-receive-print loop of [main].

    A C string is the list of its bytes; what the program prints is the list of
    the bytes written to stdout.  Running through NULL, past an array or for
    ever is a [fault]. *)

From S2P Require Import Prelude CLib.

(** ** Constants of [client.h] *)

Definition MAXDATASIZE : Z := 256.
Definition INVALID_INPUT : bytes := cstr "invalid input".
Definition EXIT : bytes := cstr "exit".
Definition MEM_DUMP : bytes := cstr "d".

Record mem_dump_request := mk_request {
  starting_address : Z;   (* unsigned int *)
  length_ : Z;            (* unsigned int *)
}.

Module Split.

(** The first loop of [split]: how often [strstr] finds the delimiter, each
    search starting [strlen(delimiter)] bytes after the last hit. *)
Fixpoint count_delims (fuel : nat) (ptr delimiter : bytes) : res nat :=
  match fuel with
  | O => Err Diverges
  | S fuel' =>
      match strstr ptr delimiter with
      | None => Ret 0%nat
      | Some p =>
          counter ← count_delims fuel' (drop (length delimiter) p) delimiter;
          Ret (S counter)
      end
  end.

(** The second loop: store the tokens in the array of [counter + 1] pointers. *)
Fixpoint fill_parts (parts : list (option bytes)) (i : nat) (tokens : list bytes)
    : res (list (option bytes)) :=
  match tokens with
  | [] => Ret parts
  | token :: tokens' =>
      if (i <? length parts)%nat
      then fill_parts (<[i := Some token]> parts) (S i) tokens'
      else Err OutOfBounds
  end.

(** [split(&parts, str, delimiter)]: the array and the value returned. *)
Definition split (str delimiter : bytes) : res (list (option bytes) * Z) :=
  counter ← count_delims (S (length str)) str delimiter;
  parts ← fill_parts (replicate (counter + 1) None) 0 (strtok_all delimiter [] str);
  Ret (parts, Z.of_nat counter + 1).

End Split.

Module Parse.
Import Split.

(** [parts[i]] used as a string: the array has [size] entries, and [strcmp],
    [strtol] and [atoi] dereference it. *)
Definition part (parts : list (option bytes)) (i : nat) : res bytes :=
  match parts !! i with
  | None => Err OutOfBounds
  | Some None => Err NullDeref
  | Some (Some s) => Ret s
  end.

(** [parse_input]: the request as the function leaves it and the command it
    returns.  [temp] is an [unsigned int], so the tests [temp < 0] never hold
    and [temp <= 0] is [temp == 0]. *)
Definition parse_input (input : bytes) : res (mem_dump_request * bytes) :=
  '(parts, size) ← split input (cstr " ");
  let request := mk_request (u32 (-1)) (u32 (-1)) in
  p0 ← part parts 0;
  if strcmp_eq p0 MEM_DUMP then
    if size =? 5 then
      p1 ← part parts 1;
      if strcmp_eq p1 (cstr "-a") then
        p2 ← part parts 2;
        let temp := u32 (strtol p2 0) in
        if temp <? 0 then Ret (request, INVALID_INPUT) else
        let request := mk_request temp (length_ request) in
        p3 ← part parts 3;
        if strcmp_eq p3 (cstr "-a") then
          p4 ← part parts 4;
          let temp := u32 (strtol p4 0) -₃₂ starting_address request in
          if temp <=? 0 then Ret (request, INVALID_INPUT) else
          let request := mk_request (starting_address request) temp in
          if length_ request >? MAXDATASIZE then Ret (request, INVALID_INPUT)
          else Ret (request, MEM_DUMP)
        else if strcmp_eq p3 (cstr "-l") then
          p4 ← part parts 4;
          let temp := u32 (atoi p4) in
          if temp <=? 0 then Ret (request, INVALID_INPUT) else
          let request := mk_request (starting_address request) temp in
          if length_ request >? MAXDATASIZE then Ret (request, INVALID_INPUT)
          else Ret (request, MEM_DUMP)
        else Ret (request, INVALID_INPUT)
      else Ret (request, INVALID_INPUT)
    else Ret (request, INVALID_INPUT)
  else if strcmp_eq p0 EXIT then Ret (request, EXIT)
  else Ret (request, INVALID_INPUT).

End Parse.

Module Dump.

(** [data[k]]: a read outside the array is a fault. *)
Definition data_at (data : bytes) (k : Z) : res Z :=
  match data !! Z.to_nat k with
  | Some b => Ret b
  | None => Err OutOfBounds
  end.

(** An inner loop over the columns [j = 0 .. 7]: [fmt] is what it prints for a
    byte of the request and [pad] what it prints after the last one. *)
Fixpoint cols (fmt : Z → bytes) (pad : bytes) (n : nat) (i j len : Z) (data : bytes)
    : res bytes :=
  match n with
  | O => Ret []
  | S n' =>
      col ← (if u32 (i + j) <? len
             then d ← data_at data (u32 (i + j)); Ret (fmt d)
             else Ret pad);
      rest ← cols fmt pad n' i (j + 1) len data;
      Ret (col ++ rest)
  end.

(** [%02x ] or [.. ] in the first loop, the character or a dot in the second. *)
Definition hex_col (d : Z) : bytes := hex_fixed 2 d ++ cstr " ".
Definition chr_col (d : Z) : bytes := if isprint d then [d] else cstr ".".
Definition hex_cols := cols hex_col (cstr ".. ").
Definition chr_cols := cols chr_col (cstr ".").

Definition tab : bytes := [9].
Definition newline : bytes := [10].

(** The outer loop from [i]; [i] and [starting_address + i] wrap at 32 bits. *)
Fixpoint print_lines (fuel : nat) (i : Z) (request : mem_dump_request) (data : bytes)
    : res bytes :=
  if i <? length_ request then
    match fuel with
    | O => Err Diverges
    | S fuel' =>
        h ← hex_cols 8 i 0 (length_ request) data;
        c ← chr_cols 8 i 0 (length_ request) data;
        rest ← print_lines fuel' (u32 (i + 8)) request data;
        Ret (cstr "0x" ++ hex_fixed 8 (u32 (starting_address request + i)) ++ tab
             ++ h ++ tab ++ c ++ newline ++ rest)
    end
  else Ret [].

(** One line per 8 bytes requested: that many iterations are enough unless [i]
    wraps around before it reaches [length]. *)
Definition print_mem (request : mem_dump_request) (data : bytes) : res bytes :=
  print_lines (Z.to_nat (length_ request / 8 + 1)) 0 request data.

End Dump.

Module Main.
Import Parse Dump.

(** [fgets(buffer, n + 1, stdin)]: at most [n] bytes, up to and with the first
    newline; at the end of the input nothing is stored and the buffer keeps
    the zeros [memset] put there. *)
Fixpoint fgets (n : nat) (stdin : bytes) : bytes * bytes :=
  match n, stdin with
  | S n', c :: s =>
      if c =? 10 then ([c], s)
      else let '(line, rest) := fgets n' s in (c :: line, rest)
  | _, _ => ([], stdin)
  end.

(** [strlen] of a buffer: the bytes before the first NUL. *)
Fixpoint strlen (s : bytes) : nat :=
  match s with
  | [] => 0
  | c :: s' => if c =? 0 then 0 else S (strlen s')
  end.

Record client_state := mk_client {
  c_stdin : bytes;         (* what is left to read *)
  c_stdout : bytes;        (* what has been printed *)
  c_sent : list bytes;     (* the messages passed to send, oldest first *)
}.

Inductive iteration :=
  | Continue (st : client_state)
  | Break (st : client_state)                       (* close and return 0 *)
  | Failure (failing_function : bytes) (st : client_state).  (* perror, exit(1) *)

(** [buffer] after [memset] and [recv(sockfd, buffer, length, 0)]: [data] is what
    the socket delivers, never more than [length] bytes. *)
Definition recv_buffer (len : Z) (data : bytes) : res bytes :=
  let got := take (Z.to_nat len) data in
  if (length got <=? Z.to_nat MAXDATASIZE)%nat
  then Ret (got ++ replicate (Z.to_nat MAXDATASIZE - length got) 0)
  else Err OutOfBounds.

(** The wire format of a request: two [unsigned int] in host order. *)
Definition parsed_request (r : mem_dump_request) : bytes :=
  le_bytes 4 (starting_address r) ++ le_bytes 4 (length_ r).

Section Main.

(** The peer: whether [send] accepts a message after those already sent, and
    what [recv] delivers once they are sent ([None] is a return value of -1). *)
Context (send_ok : list bytes → bytes → bool).
Context (recv : list bytes → Z → option bytes).

(** One iteration of the [while (1)] loop of [main]. *)
Definition main_step (st : client_state) : res iteration :=
  let out := c_stdout st ++ cstr ">>" in
  let '(buffer, stdin) := fgets (Z.to_nat MAXDATASIZE - 1) (c_stdin st) in
  match strlen buffer with
  | O => Err OutOfBounds                       (* buffer[-1] = 0 *)
  | S n =>
      '(request, command) ← parse_input (take n buffer);
      if strcmp_eq command INVALID_INPUT then
        Ret (Continue (mk_client stdin (out ++ command ++ newline) (c_sent st)))
      else if strcmp_eq command EXIT then
        Ret (Break (mk_client stdin out (c_sent st)))
      else
        let msg := parsed_request request in
        if send_ok (c_sent st) msg then
          let sent := c_sent st ++ [msg] in
          match recv sent (length_ request) with
          | None => Ret (Failure (cstr "recv") (mk_client stdin out sent))
          | Some data =>
              buffer ← recv_buffer (length_ request) data;
              text ← print_mem request buffer;
              Ret (Continue (mk_client stdin (out ++ text) sent))
          end
        else Ret (Failure (cstr "send") (mk_client stdin out (c_sent st)))
  end.

Fixpoint main_loop (fuel : nat) (st : client_state) : res iteration :=
  match fuel with
  | O => Err Diverges
  | S fuel' =>
      it ← main_step st;
      match it with
      | Continue st' => main_loop fuel' st'
      | _ => Ret it
      end
  end.

(** Every iteration that goes on has read at least one byte. *)
Definition main (stdin : bytes) : res iteration :=
  main_loop (S (length stdin)) (mk_client stdin [] []).

End Main.
End Main.

(** ** Properties of [split] *)

Section SplitFacts.
Import Split.
Context (c : Z).   (* a delimiter of one character *)

Definition occurrences (s : bytes) : nat := length (filter (λ x, x = c) s).

Lemma is_prefix_one x s : is_prefix [c] (x :: s) = bool_decide (x = c).
Proof. unfold is_prefix. cbn [length take]. rewrite take_0. apply bool_decide_ext. split; congruence. Qed.

Lemma strstr_one_occ s :
  match strstr s [c] with
  | None => occurrences s = 0%nat
  | Some p => ∃ s', p = c :: s' ∧ occurrences s = S (occurrences s') ∧
                    (length s' < length s)%nat
  end.
Proof.
  induction s as [|x s IH]; simpl strstr; [done|].
  rewrite is_prefix_one. unfold occurrences in *. rewrite filter_cons.
  case_bool_decide as Hx; [subst; rewrite decide_True by done; eexists; simpl; eauto with lia|].
  rewrite decide_False by done.
  destruct (strstr s [c]) as [p|]; [|done].
  destruct IH as (s' & -> & -> & ?). eexists. split; [done|]. simpl. lia.
Qed.

Lemma count_delims_occ fuel s : (length s < fuel)%nat →
  count_delims fuel s [c] = Ret (occurrences s).
Proof.
  revert s. induction fuel as [|fuel IH]; intros s Hf; [lia|]. simpl.
  pose proof (strstr_one_occ s) as Hs. destruct (strstr s [c]) as [p|]; [|by rewrite Hs].
  destruct Hs as (s' & -> & Ho & Hlt). simpl. unfold drop. rewrite IH by lia. by rewrite Ho.
Qed.

Lemma strtok_all_length cur s :
  (length (strtok_all [c] cur s) ≤ occurrences s + (if decide (cur = []) then
     (if decide (occurrences s = length s) then 0 else 1) else 1))%nat.
Proof.
  unfold occurrences. revert cur.
  induction s as [|x s IH]; intros cur; [destruct cur; simpl; lia|].
  pose proof (length_filter (λ x, x = c) s) as Hle.
  simpl strtok_all. rewrite filter_cons.
  case_bool_decide as Hx.
  - apply list_elem_of_singleton in Hx as ->. rewrite decide_True by done.
    specialize (IH []). rewrite decide_True in IH by done.
    destruct cur; simpl length in *; repeat case_decide; simplify_eq; lia.
  - rewrite decide_False by (intros ->; by apply Hx, list_elem_of_singleton).
    specialize (IH (cur ++ [x])). rewrite decide_False in IH by by destruct cur.
    simpl length. repeat case_decide; lia.
Qed.

Lemma fill_parts_ok pre k toks : (length toks ≤ k)%nat →
  fill_parts ((Some <$> pre) ++ replicate k None) (length pre) toks =
  Ret ((Some <$> (pre ++ toks)) ++ replicate (k - length toks) None).
Proof.
  revert pre k. induction toks as [|t toks IH]; intros pre k Hk; simpl in *.
  { by rewrite app_nil_r, Nat.sub_0_r. }
  destruct k as [|k]; [lia|].
  assert ((length pre <? length ((Some <$> pre) ++ replicate (S k) None))%nat = true) as ->.
  { apply Nat.ltb_lt. rewrite length_app, length_fmap, length_replicate. lia. }
  replace (<[length pre:=Some t]> ((Some <$> pre) ++ replicate (S k) None))
    with ((Some <$> (pre ++ [t])) ++ replicate k None).
  - replace (S (length pre)) with (length (pre ++ [t])) by (rewrite length_app; simpl; lia).
    rewrite IH by lia. by rewrite <- (assoc app).
  - rewrite insert_app_r_alt by (rewrite length_fmap; lia).
    rewrite length_fmap, Nat.sub_diag. simpl. by rewrite fmap_app, <- (assoc app).
Qed.

(** [split] on a delimiter of one character terminates inside its array: the
    tokens come first, the entries left over stay NULL, and the size returned is
    the number of delimiters plus one. *)
Lemma split_one s :
  split s [c] = Ret ((Some <$> strtok_all [c] [] s)
      ++ replicate (occurrences s + 1 - length (strtok_all [c] [] s)) None,
    Z.of_nat (occurrences s) + 1).
Proof.
  unfold split. rewrite count_delims_occ by lia. simpl.
  pose proof (strtok_all_length [] s) as Hl.
  rewrite (fill_parts_ok [] (occurrences s + 1)); [done|].
  revert Hl. repeat case_decide; simplify_eq; lia.
Qed.

Lemma strtok_all_token cur t s : c ∉ t → cur ++ t ≠ [] →
  strtok_all [c] cur (t ++ c :: s) = (cur ++ t) :: strtok_all [c] [] s.
Proof.
  revert cur. induction t as [|x t IH]; intros cur Ht Hne; simpl.
  - rewrite app_nil_r in *. rewrite bool_decide_true by by apply list_elem_of_singleton.
    by destruct cur.
  - apply not_elem_of_cons in Ht as [Hx Ht].
    rewrite bool_decide_false by (rewrite list_elem_of_singleton; congruence).
    rewrite IH by (done || by destruct cur). by rewrite <- (assoc app).
Qed.

Lemma strtok_all_last cur t : c ∉ t → cur ++ t ≠ [] → strtok_all [c] cur t = [cur ++ t].
Proof.
  revert cur. induction t as [|x t IH]; intros cur Ht Hne; simpl.
  - rewrite app_nil_r in *. by destruct cur.
  - apply not_elem_of_cons in Ht as [Hx Ht].
    rewrite bool_decide_false by (rewrite list_elem_of_singleton; congruence).
    rewrite IH by (done || by destruct cur). by rewrite <- (assoc app).
Qed.

Lemma occurrences_none t : c ∉ t → occurrences t = 0%nat.
Proof.
  intros Ht. unfold occurrences.
  induction t as [|x t IH]; [done|]. apply not_elem_of_cons in Ht as [Hx Ht].
  rewrite filter_cons, decide_False by congruence. by apply IH.
Qed.

Lemma occurrences_app s t : occurrences (s ++ t) = (occurrences s + occurrences t)%nat.
Proof. unfold occurrences. by rewrite list.filter_app, length_app. Qed.

(** A line that joins non-empty tokens with single delimiters. *)
Fixpoint join_tokens (toks : list bytes) : bytes :=
  match toks with
  | [] => []
  | [t] => t
  | t :: toks' => t ++ c :: join_tokens toks'
  end.

Definition token (t : bytes) : Prop := t ≠ [] ∧ c ∉ t.

Lemma join_tokens_spec toks : Forall token toks →
  strtok_all [c] [] (join_tokens toks) = toks ∧
  occurrences (join_tokens toks) = pred (length toks).
Proof.
  induction 1 as [|t toks [Hne Ht] Hf IH]; [done|].
  destruct toks as [|t' toks].
  - simpl. rewrite strtok_all_last, occurrences_none by done. done.
  - destruct IH as [IH1 IH2].
    change (join_tokens (t :: t' :: toks)) with (t ++ c :: join_tokens (t' :: toks)).
    rewrite strtok_all_token, IH1 by done. split; [done|].
    rewrite occurrences_app, occurrences_none by done.
    change (c :: ?l) with ([c] ++ l). rewrite occurrences_app, IH2.
    unfold occurrences at 1. rewrite filter_cons, decide_True by done. done.
Qed.

(** Splitting what was joined gives back the tokens, with no NULL entry. *)
Lemma split_join toks : toks ≠ [] → Forall token toks →
  split (join_tokens toks) [c] = Ret (Some <$> toks, Z.of_nat (length toks)).
Proof.
  intros Hne Hf. rewrite split_one. destruct (join_tokens_spec toks Hf) as [-> ->].
  destruct toks as [|t toks]; [done|]. simpl length. simpl pred.
  replace (length toks + 1 - S (length toks))%nat with 0%nat by lia.
  rewrite app_nil_r. do 2 f_equal. lia.
Qed.

End SplitFacts.

(** ** Properties of [parse_input] *)

Section ParseFacts.
Import Split Parse.

Abbreviation tokens := (strtok_all [32] []).

Lemma part_app toks n i :
  part ((Some <$> toks) ++ replicate n None) i =
  match toks !! i with
  | Some t => Ret t
  | None => if (i <? length toks + n)%nat then Err NullDeref else Err OutOfBounds
  end.
Proof.
  unfold part. rewrite lookup_app, list_lookup_fmap.
  destruct (toks !! i) as [t|] eqn:E; simpl; [done|].
  apply lookup_ge_None in E. rewrite length_fmap.
  destruct (Nat.ltb_spec i (length toks + n)) as [Hlt|Hge].
  - by rewrite lookup_replicate_2 by lia.
  - by rewrite lookup_ge_None_2 by (rewrite length_replicate; lia).
Qed.

(** Case analysis on the tests and the binds of [parse_input]. *)
Ltac parse_cases H :=
  repeat match type of H with
  | mbind _ ?m = _ => destruct m as [?|?] eqn:?; simpl in H
  | (if ?b then _ else _) = _ => destruct b eqn:?; simpl in H
  end.

Lemma parse_input_accepts s r :
  parse_input s = Ret (r, MEM_DUMP) →
  is_u32 (starting_address r) ∧ 1 ≤ length_ r ≤ MAXDATASIZE.
Proof.
  unfold parse_input. change (cstr " ") with [32]. rewrite split_one. intros H. simpl mbind in H.
  parse_cases H; simplify_eq; simpl;
    unfold MAXDATASIZE in *; (split; [apply u32_range|clia]).
Qed.

Lemma parse_input_commands s r cmd : parse_input s = Ret (r, cmd) →
  cmd = INVALID_INPUT ∨ cmd = EXIT ∨ cmd = MEM_DUMP.
Proof.
  unfold parse_input. change (cstr " ") with [32]. rewrite split_one. intros H.
  simpl mbind in H. parse_cases H; simplify_eq; auto.
Qed.

Lemma parse_input_fault s f : parse_input s = Err f →
  f = NullDeref ∧
  (tokens s = [] ∨ (occurrences 32 s = 4%nat ∧ (length (tokens s) < 5)%nat)).
Proof.
  unfold parse_input. change (cstr " ") with [32]. rewrite split_one. set (k := (_ - _)%nat). intros H.
  assert (Hlen : (occurrences 32 s + 1 ≤ length (tokens s) + k)%nat) by lia.
  cbn [mbind res_bind] in H. rewrite !part_app in H.
  assert (Hpart : ∀ i e, match tokens s !! i with
      | Some t => Ret t
      | None => if (i <? length (tokens s) + k)%nat then Err NullDeref else Err OutOfBounds
      end = Err e → (i < occurrences 32 s + 1)%nat →
      e = NullDeref ∧ (length (tokens s) ≤ i)%nat).
  { intros i e He Hi. destruct (tokens s !! i) eqn:E; [done|].
    apply lookup_ge_None in E. destruct (Nat.ltb_spec i (length (tokens s) + k)); [|lia].
    naive_solver. }
  parse_cases H; simplify_eq.
  all: match goal with E : _ = Err _ |- _ => apply Hpart in E as [-> E]; [|lia] end.
  all: split; [done|].
  all: first [right; lia | left; apply length_zero_iff_nil; lia].
Qed.

Lemma strcmp_eq_refl s : strcmp_eq s s = true.
Proof. by apply bool_decide_true. Qed.

(** The three shapes of the result once the line has five tokens. *)
Lemma parse_input_five a kind b :
  token 32 a → token 32 kind → token 32 b →
  parse_input (join_tokens 32 [MEM_DUMP; cstr "-a"; a; kind; b]) =
  let start := u32 (strtol a 0) in
  let answer temp :=
    if temp =? 0 then (mk_request start (u32 (-1)), INVALID_INPUT)
    else if temp >? MAXDATASIZE then (mk_request start temp, INVALID_INPUT)
    else (mk_request start temp, MEM_DUMP) in
  Ret (if strcmp_eq kind (cstr "-a") then answer (u32 (strtol b 0) -₃₂ start)
       else if strcmp_eq kind (cstr "-l") then answer (u32 (atoi b))
       else (mk_request start (u32 (-1)), INVALID_INPUT)).
Proof.
  intros Ha Hk Hb. unfold parse_input. change (cstr " ") with [32].
  rewrite split_join; [|done|].
  2:{ repeat (apply list.Forall_cons; split); try done; by (split; apply (bool_decide_unpack _); vm_compute). }
  cbn -[strtol atoi u32 join_tokens Z.leb Z.ltb Z.gtb Z.eqb strcmp_eq cstr MEM_DUMP EXIT INVALID_INPUT].
  rewrite !strcmp_eq_refl. change (Z.of_nat 5 =? 5) with true. cbv iota.
  pose proof (u32_range (strtol a 0)). unfold is_u32 in *.
  assert (∀ x, (u32 x <=? 0) = (u32 x =? 0)) as Hle.
  { intros x. pose proof (u32_range x). unfold is_u32 in *. lia. }
  rewrite (proj2 (Z.ltb_ge _ _)) by lia. rewrite !Hle.
  cases_if; reflexivity.
Qed.

Lemma token_hex v : is_u32 v → token 32 (cstr "0x" ++ hex_fixed 8 v).
Proof.
  intros Hv. split; [done|]. rewrite not_elem_of_app. split; [by apply (bool_decide_unpack _); vm_compute|].
  intros Hin. rewrite hex_fixed_num in Hin.
  pose proof (num_fixed_chars 16 8 v ltac:(lia) ltac:(clia)) as Hc.
  rewrite list.Forall_forall in Hc. apply Hc in Hin. lia.
Qed.

Lemma token_dec n v : (0 < n)%nat → 0 ≤ v → token 32 (num_fixed 10 n v).
Proof.
  intros Hn Hv. split.
  - intros H. pose proof (length_num_fixed 10 n v) as Hl. rewrite H in Hl. simpl in Hl. lia.
  - intros Hin. pose proof (num_fixed_chars 10 n v ltac:(lia) ltac:(lia)) as Hc.
    rewrite list.Forall_forall in Hc. apply Hc in Hin. lia.
Qed.

End ParseFacts.

(** ** Properties of [print_mem] *)

Section DumpFacts.
Import Dump.

(** Reference: the dump of a list of bytes, 8 to a line. *)
Definition ref_cols (fmt : Z → bytes) (pad : bytes) (n : nat) (chunk : bytes) : bytes :=
  concat (fmt <$> chunk) ++ concat (replicate (n - length chunk) pad).

Definition ref_line (addr : Z) (chunk : bytes) : bytes :=
  cstr "0x" ++ hex_fixed 8 (u32 addr) ++ tab ++ ref_cols hex_col (cstr ".. ") 8 chunk
  ++ tab ++ ref_cols chr_col (cstr ".") 8 chunk ++ newline.

Fixpoint ref_dump (lines : nat) (addr : Z) (l : bytes) : bytes :=
  match lines, l with
  | S n, _ :: _ => ref_line addr (take 8 l) ++ ref_dump n (addr + 8) (drop 8 l)
  | _, _ => []
  end.

Lemma cols_ref fmt pad n i j len data :
  0 ≤ i → 0 ≤ j → i + j + Z.of_nat n ≤ 2 ^ 32 → len ≤ Z.of_nat (length data) →
  cols fmt pad n i j len data =
  Ret (ref_cols fmt pad n (take n (drop (Z.to_nat (i + j)) (take (Z.to_nat len) data)))).
Proof.
  intros Hi. revert j. induction n as [|n IH]; intros j Hj Hn Hlen.
  { by rewrite take_0. }
  cbn [cols]. rewrite u32_id by (unfold is_u32; lia). rewrite IH by lia.
  replace (Z.to_nat (i + (j + 1))) with (S (Z.to_nat (i + j))) by lia.
  set (k := Z.to_nat (i + j)). set (l := take (Z.to_nat len) data).
  assert (length l = Z.to_nat len) as Hl by (unfold l; rewrite length_take; lia).
  destruct (Z.ltb_spec (i + j) len) as [Hlt|Hge].
  - destruct (lookup_lt_is_Some_2 l k ltac:(unfold k; lia)) as [d Hd].
    assert (data_at data (i + j) = Ret d) as ->.
    { unfold data_at. fold k. unfold l in Hd. rewrite lookup_take_lt in Hd by (unfold k; lia).
      by rewrite Hd. }
    rewrite (drop_S l d k Hd). unfold ref_cols. simpl. by rewrite (assoc app).
  - rewrite !(drop_ge l) by (unfold k; lia). unfold ref_cols. rewrite !take_nil. simpl.
    by rewrite Nat.sub_0_r.
Qed.

Lemma print_lines_ref fuel i addr len data :
  0 ≤ i → len ≤ 2 ^ 32 - 8 → len ≤ Z.of_nat (length data) → len - i ≤ 8 * Z.of_nat fuel →
  print_lines fuel i (mk_request addr len) data =
  Ret (ref_dump fuel (addr + i) (drop (Z.to_nat i) (take (Z.to_nat len) data))).
Proof.
  revert i. induction fuel as [|fuel IH]; intros i Hi Hmax Hlen Hfuel;
    cbn [print_lines length_ starting_address].
  { rewrite (proj2 (Z.ltb_ge i len)) by lia. done. }
  set (l := take (Z.to_nat len) data).
  assert (length l = Z.to_nat len) as Hl by (unfold l; rewrite length_take; lia).
  destruct (Z.ltb_spec i len) as [Hlt|Hge].
  2:{ rewrite drop_ge by lia. done. }
  unfold hex_cols, chr_cols. rewrite !cols_ref by lia.
  rewrite (u32_id (i + 8)) by (unfold is_u32; lia). rewrite IH by lia.
  fold l. rewrite !Z.add_0_r. unfold mbind, res_bind. f_equal.
  destruct (drop (Z.to_nat i) l) as [|b l'] eqn:E.
  { apply (f_equal length) in E. rewrite length_drop in E. simpl in E. lia. }
  cbn [ref_dump]. rewrite <- E. unfold ref_line. rewrite <- !(assoc app).
  rewrite drop_drop, <- Z.add_assoc.
  by replace (Z.to_nat (i + 8)) with (Z.to_nat i + 8)%nat by lia.
Qed.

Lemma ref_dump_enough n m addr l :
  (length l ≤ 8 * n)%nat → (n ≤ m)%nat → ref_dump m addr l = ref_dump n addr l.
Proof.
  revert m addr l. induction n as [|n IH]; intros m addr l Hn Hm.
  { destruct l; [|simpl in Hn; lia]. by destruct m. }
  destruct m as [|m]; [lia|]. destruct l as [|b l]; [done|].
  cbn [ref_dump]. f_equal. apply IH; [|lia]. rewrite length_drop. simpl in *. lia.
Qed.

(** Two chunks of the same length with the same hex columns are the same. *)
Lemma hex_fixed2_inj a b : is_u8 a → is_u8 b → hex_fixed 2 a = hex_fixed 2 b → a = b.
Proof.
  intros Ha Hb E. unfold is_u8 in *.
  pose proof (scan_hex_fixed 2 0 a ltac:(lia)) as H1.
  pose proof (scan_hex_fixed 2 0 b ltac:(lia)) as H2.
  rewrite E, H2 in H1. lia.
Qed.

Lemma hex_cols_inj l1 l2 r1 r2 :
  length l1 = length l2 → wf_bytes l1 → wf_bytes l2 →
  concat (hex_col <$> l1) ++ r1 = concat (hex_col <$> l2) ++ r2 → l1 = l2 ∧ r1 = r2.
Proof.
  intros Hl H1. revert l2 Hl. induction H1 as [|a l1 Ha _ IH]; intros [|b l2] Hl H2 E;
    try (simpl in Hl; lia); [by simpl in E|].
  apply list.Forall_cons in H2 as [Hb H2]. injection Hl as Hl.
  rewrite !fmap_cons in E. cbn [concat] in E. rewrite <- !(assoc app) in E. unfold hex_col at 1 3 in E. rewrite <- !(assoc app) in E.
  apply app_inj_1 in E as [E1 E]; [|by rewrite !length_hex_fixed].
  apply hex_fixed2_inj in E1 as ->; [|done..].
  apply app_inj_1 in E as [_ E]; [|done].
  destruct (IH l2) as [-> ->]; done.
Qed.

Lemma ref_dump_inj n addr l1 l2 :
  length l1 = length l2 → (length l1 ≤ 8 * n)%nat → wf_bytes l1 → wf_bytes l2 →
  ref_dump n addr l1 = ref_dump n addr l2 → l1 = l2.
Proof.
  revert addr l1 l2. induction n as [|n IH]; intros addr l1 l2 Hl Hn H1 H2 E.
  { destruct l1, l2; simplify_eq/=; done || lia. }
  destruct l1 as [|a1 l1], l2 as [|a2 l2]; try done. cbn [ref_dump] in E.
  set (L1 := a1 :: l1) in *. set (L2 := a2 :: l2) in *.
  unfold ref_line in E. rewrite <- !(assoc app) in E.
  do 3 (apply app_inj_1 in E as [_ E]; [|by rewrite ?length_hex_fixed]).
  unfold ref_cols in E. rewrite <- !(assoc app) in E.
  apply hex_cols_inj in E as [E1 E]; [|by rewrite !length_take, Hl|by apply Forall_take..].
  rewrite E1 in E.
  do 5 (apply app_inj_1 in E as [_ E]; [|done]).
  apply IH in E; [|rewrite ?length_drop; lia|rewrite ?length_drop; lia|by apply Forall_drop..].
  by rewrite <- (take_drop 8 L1), <- (take_drop 8 L2), E1, E.
Qed.

End DumpFacts.

(** ** Properties of [main] *)

Section MainFacts.
Import Parse Dump Main.

Lemma fgets_app n s : (fgets n s).1 ++ (fgets n s).2 = s.
Proof.
  revert s. induction n as [|n IH]; intros [|c s]; simpl; try done.
  destruct (c =? 10); [done|]. specialize (IH s). destruct (fgets n s). simpl in *. by f_equal.
Qed.

Lemma strlen_le s : (strlen s ≤ length s)%nat.
Proof. induction s as [|c s IH]; simpl; [lia|]. destruct (c =? 0); lia. Qed.

Lemma recv_buffer_ok len data : len ≤ MAXDATASIZE →
  ∃ b, recv_buffer len data = Ret b ∧ length b = Z.to_nat MAXDATASIZE ∧
       take (Z.to_nat len) b =
         take (Z.to_nat len) data ++
         replicate (Z.to_nat len - length (take (Z.to_nat len) data)) 0.
Proof.
  intros Hlen. unfold recv_buffer.
  assert (length (take (Z.to_nat len) data) ≤ Z.to_nat len)%nat as Hl
    by (rewrite length_take; lia).
  rewrite (proj2 (Nat.leb_le _ _)) by lia. eexists. split; [done|]. split.
  - rewrite length_app, length_replicate. lia.
  - rewrite take_app, take_take, take_replicate, Nat.min_id. do 2 f_equal. lia.
Qed.

Lemma print_mem_returns r data :
  0 ≤ length_ r ≤ 2 ^ 32 - 8 → length_ r ≤ Z.of_nat (length data) →
  print_mem r data =
  Ret (ref_dump (Z.to_nat (length_ r)) (starting_address r) (take (Z.to_nat (length_ r)) data)).
Proof.
  intros Hr Hd. unfold print_mem. destruct r as [addr len]; simpl in *.
  rewrite print_lines_ref; [|lia|lia|lia|clia].
  rewrite Z.add_0_r, drop_0. f_equal.
  assert (length (take (Z.to_nat len) data) = Z.to_nat len) as Hl by (rewrite length_take; lia).
  trans (ref_dump (Z.to_nat ((len + 7) / 8)) addr (take (Z.to_nat len) data)).
  - apply ref_dump_enough; rewrite ?Hl; clia.
  - symmetry. apply ref_dump_enough; rewrite ?Hl; clia.
Qed.

Context (send_ok : list bytes → bytes → bool) (recv : list bytes → Z → option bytes).

(** One iteration either reads an empty line, trips over the tokeniser, or
    completes and has consumed input. *)
Lemma main_step_cases st :
  let buffer := (fgets (Z.to_nat MAXDATASIZE - 1) (c_stdin st)).1 in
  (strlen buffer = 0%nat ∧ main_step send_ok recv st = Err OutOfBounds) ∨
  (∃ n, strlen buffer = S n ∧
    ((∃ f, parse_input (take n buffer) = Err f ∧ main_step send_ok recv st = Err f) ∨
     (∃ it, main_step send_ok recv st = Ret it ∧
        match it with
        | Continue st' => (length (c_stdin st') < length (c_stdin st))%nat
        | _ => True
        end))).
Proof.
  unfold main_step. pose proof (fgets_app (Z.to_nat MAXDATASIZE - 1) (c_stdin st)) as Happ.
  destruct (fgets _ _) as [buffer stdin]; simpl in *. pose proof (strlen_le buffer) as Hs.
  destruct (strlen buffer) as [|n]; [by left|]. right. exists n. split; [done|].
  assert (length stdin < length (c_stdin st))%nat as Hlt.
  { rewrite <- Happ, length_app. lia. }
  destruct (parse_input (take n buffer)) as [[r cmd]|f] eqn:Hp; [right|left; eauto].
  simpl. destruct (parse_input_commands _ _ _ Hp) as [-> | [-> | ->]];
    [eexists; done|eexists; done|].
  change (strcmp_eq MEM_DUMP INVALID_INPUT) with false.
  change (strcmp_eq MEM_DUMP EXIT) with false. cbv iota.
  destruct (send_ok _ _); [|eexists; done].
  destruct (recv _ _) as [data|]; [|eexists; done].
  apply parse_input_accepts in Hp as [_ Hr].
  destruct (recv_buffer_ok (length_ r) data ltac:(lia)) as (b & -> & Hb & _). simpl.
  rewrite print_mem_returns by (unfold MAXDATASIZE in *; lia). eexists; done.
Qed.

Lemma main_loop_terminates fuel st : (length (c_stdin st) < fuel)%nat →
  main_loop send_ok recv fuel st ≠ Err Diverges.
Proof.
  revert st. induction fuel as [|fuel IH]; intros st Hf; [lia|]. cbn [main_loop].
  destruct (main_step_cases st) as [[_ ->]|(n & _ & [(f & Hp & ->)|(it & -> & Hit)])];
    [done| |].
  - apply parse_input_fault in Hp as [-> _]. done.
  - simpl. destruct it; try done. apply IH. lia.
Qed.

End MainFacts.

(** ** The theorems of the client *)

(** C22: every request [parse_input] accepts has a 32-bit address and a length
    between 1 and [MAXDATASIZE]: the tests on unsigned values reject zero, and
    negative or huge lengths fall to the final bound.  So a range of more than 256
    bytes is refused, also the 4096 bytes of the second command in the README. *)
Theorem parse_input_bounds (s : bytes) (r : mem_dump_request) :
  Parse.parse_input s = Ret (r, MEM_DUMP) →
  is_u32 (starting_address r) ∧ 1 ≤ length_ r ≤ MAXDATASIZE.
Proof. apply parse_input_accepts. Qed.

Lemma parse_input_bounds_witness :
  is_u32 4096 ∧ 1 ≤ 256 ≤ MAXDATASIZE.
Proof.
  apply (parse_input_bounds (cstr "d -a 0x1000 -l 256") (mk_request 4096 256)).
  vm_compute. reflexivity.
Defined.

(** The second command of the README, word for word, is refused. *)
Example readme_range_refused :
  match Parse.parse_input (cstr "d -a 0x1000 -a 0x2000") with Ret (_, k) => k ≠ MEM_DUMP | Err _ => False end.
Proof. vm_compute. discriminate. Qed.

(** C23: the two forms of the command in the README are read back: for every address and
    every length from 1 to 256, the line with the address in hexadecimal and the
    length in decimal gives exactly that request, and so does the line with the
    first address and the one after the last byte. *)
Theorem parse_input_roundtrip (a len : Z) :
  is_u32 a → 1 ≤ len ≤ MAXDATASIZE →
  let hex v := cstr "0x" ++ hex_fixed 8 v in
  let line kind last := join_tokens 32 [MEM_DUMP; cstr "-a"; hex a; kind; last] in
  Parse.parse_input (line (cstr "-l") (num_fixed 10 3 len)) =
    Ret (mk_request a len, MEM_DUMP) ∧
  Parse.parse_input (line (cstr "-a") (hex (a +₃₂ len))) =
    Ret (mk_request a len, MEM_DUMP).
Proof.
  intros Ha Hlen hex line. subst hex line. cbv beta. unfold MAXDATASIZE in Hlen.
  rewrite !parse_input_five; auto using token_hex, token_dec, u32_range with lia;
    try (by split; apply (bool_decide_unpack _); vm_compute).
  all: cbv zeta beta.
  all: rewrite ?strtol_hex8 by auto using u32_range.
  all: rewrite ?atoi_dec by lia.
  all: rewrite ?(u32_id a) by done.
  all: rewrite ?(u32_id (u32 (a + len))) by apply u32_range.
  rewrite (u32_id len) by (unfold is_u32; lia).
  replace (a +₃₂ len -₃₂ a) with len by clia.
  rewrite !(proj2 (Z.eqb_neq len 0)) by lia.
  rewrite !(Z.gtb_ltb len). rewrite !(proj2 (Z.ltb_ge _ len)) by (unfold MAXDATASIZE; lia).
  change (strcmp_eq (cstr "-l") (cstr "-a")) with false.
  by rewrite !strcmp_eq_refl.
Qed.

Lemma parse_input_roundtrip_witness :
  Parse.parse_input (cstr "d -a 0x00001000 -l 256") = Ret (mk_request 4096 256, MEM_DUMP).
Proof.
  destruct (parse_input_roundtrip 4096 256) as [H _];
    [by split|unfold MAXDATASIZE; lia|exact H].
Defined.

(** C24: [parse_input] can only fail by passing a NULL entry of the array to
    [strcmp], [strtol] or [atoi], and only on a line without a token or on one
    with exactly four blanks and fewer than five tokens: every other line is
    answered, and the array is never overrun. *)
Theorem parse_input_faults (s : bytes) (f : fault) :
  Parse.parse_input s = Err f →
  f = NullDeref ∧
  (strtok_all [32] [] s = [] ∨
   (occurrences 32 s = 4%nat ∧ (length (strtok_all [32%Z] [] s) < 5)%nat)).
Proof. apply parse_input_fault. Qed.

Lemma parse_input_faults_witness :
  NullDeref = NullDeref ∧
  (strtok_all [32] [] (cstr "d -a 0x1000 -l ") = [] ∨
   (occurrences 32 (cstr "d -a 0x1000 -l ") = 4%nat ∧
    (length (strtok_all [32%Z] [] (cstr "d -a 0x1000 -l ")) < 5)%nat)).
Proof. apply (parse_input_faults (cstr "d -a 0x1000 -l ")). vm_compute. reflexivity. Defined.

(** C25: [print_mem] terminates and prints the reference dump (one line of
    address, hex and character columns per 8 bytes, the last one padded) of the
    first [length] bytes of its buffer, for every buffer that holds them. *)
Theorem print_mem_correct (r : mem_dump_request) (data : bytes) :
  0 ≤ length_ r ≤ 2 ^ 32 - 8 → length_ r ≤ Z.of_nat (length data) →
  Dump.print_mem r data =
  Ret (ref_dump (Z.to_nat (length_ r)) (starting_address r)
         (take (Z.to_nat (length_ r)) data)).
Proof. apply print_mem_returns. Qed.

Lemma print_mem_correct_witness :
  Dump.print_mem (mk_request 16 3) [65; 0; 66; 7] =
  Ret (ref_dump 3 16 [65; 0; 66]).
Proof. apply (print_mem_correct (mk_request 16 3) [65; 0; 66; 7]); simpl; lia. Defined.

(** The dump loses nothing: two buffers that print the same text for one
    request agree on every byte of the request. *)
Theorem print_mem_lossless (r : mem_dump_request) (d1 d2 : bytes) :
  0 ≤ length_ r ≤ 2 ^ 32 - 8 →
  length_ r ≤ Z.of_nat (length d1) → length_ r ≤ Z.of_nat (length d2) →
  wf_bytes d1 → wf_bytes d2 →
  Dump.print_mem r d1 = Dump.print_mem r d2 →
  take (Z.to_nat (length_ r)) d1 = take (Z.to_nat (length_ r)) d2.
Proof.
  intros Hr H1 H2 W1 W2. rewrite !print_mem_returns by lia. intros [= E].
  apply ref_dump_inj in E; try done; rewrite ?length_take; try lia; by apply Forall_take.
Qed.

Lemma print_mem_lossless_witness : take 1 [65; 1] = take 1 [65; 2].
Proof.
  apply (print_mem_lossless (mk_request 0 1) [65; 1] [65; 2]); simpl; try lia;
    try (repeat constructor; unfold is_u8; lia).
Defined.

(** C26: the command loop always ends, whatever is typed and whatever the server
    answers: each round that goes on has consumed input, and the only ways to
    end other than [exit] and a socket error are the faults of an empty line
    (end of input, or a line starting with NUL: [buffer[-1]] is written) and of
    the tokeniser. *)
Theorem main_terminates send_ok recv (stdin : bytes) :
  Main.main send_ok recv stdin ≠ Err Diverges ∧
  ∀ st f, Main.main_step send_ok recv st = Err f →
    let buffer := (Main.fgets (Z.to_nat MAXDATASIZE - 1) (Main.c_stdin st)).1 in
    (Main.strlen buffer = 0%nat ∧ f = OutOfBounds) ∨
    Parse.parse_input (take (pred (Main.strlen buffer)) buffer) = Err f.
Proof.
  split; [apply main_loop_terminates; simpl; lia|]. intros st f Hst. cbv zeta.
  destruct (main_step_cases send_ok recv st)
    as [[H0 H]|(n & Hn & [(f' & Hp & H)|(it & H & _)])]; cbv zeta in *.
  - left. rewrite H in Hst. naive_solver.
  - right. rewrite Hn. cbn [pred]. etrans; [exact Hp|]. congruence.
  - congruence.
Qed.

Lemma main_terminates_witness :
  Main.main (λ _ _, true) (λ _ _, Some []) (cstr "d -a 0x10 -l 8") ≠ Err Diverges.
Proof. apply (main_terminates (λ _ _, true) (λ _ _, Some []) (cstr "d -a 0x10 -l 8")). Defined.
