(* ===== verification/Kernel.v ===== *)
(** * The kernel module: [kernel_dir/kernel_module.c]

    A netlink message carries the text [%08x,%08x] of a start address and a
    length; the module answers with the bytes of physical memory it copied.

    The kernel's own code is a parameter: [phys a] is the byte [phys_to_virt(a)]
    points at for the 64-bit physical address [a], [None] when the access faults;
    [alloc_ok n] tells whether [nlmsg_new] finds room for [n] bytes. *)

From S2P Require Import Prelude CLib.

Module KernelModule.

Definition SIZE : Z := 256.
Definition LAST_READABLE_ADDRESS : Z := 0x37bfdfff.
Definition EFAULT : Z := 14.

(** ** Module state: the netlink socket *)

Record module_state := mk_module { nl_sk : option Z }.

(** [init_module]: [created] is what [netlink_kernel_create] returns. *)
Definition init_module (created : option Z) (st : module_state) : Z * module_state :=
  let st := mk_module created in
  match nl_sk st with
  | None => (- EFAULT, st)
  | Some _ => (0, st)
  end.

(** [sscanf(input, "%08x,%08x", start, length)]: a conversion that fails leaves
    its variable, and the ones after it, as they were. *)
Definition parse_input (input : bytes) (start length : Z) : Z * Z :=
  match scan_hex 8 input with
  | None => (start, length)
  | Some (v, rest) =>
      let start := s32 v in
      match rest with
      | 44 :: rest' =>
          match scan_hex 8 rest' with
          | None => (start, length)
          | Some (w, _) => (start, s32 w)
          end
      | _ => (start, length)
      end
  end.

Section Memory.
Context (phys : Z → option Z).

(** The loop of [copy_data_from_memory] from [count] on; [start_address + count]
    is an [int] and [phys_to_virt] takes it as a 64-bit address. *)
Fixpoint copy_loop (fuel : nat) (start_address length : Z) (data : bytes)
    (buffer_length count : Z) : res (bytes * Z) :=
  if (count <? length) && (count <? buffer_length) then
    match fuel with
    | O => Err Diverges
    | S fuel' =>
        if LAST_READABLE_ADDRESS <=? s32 (start_address + count) then Ret (data, count)
        else match phys (u64 (s32 (start_address + count))) with
             | None => Err DanglingPtr
             | Some b =>
                 if (Z.to_nat count <? List.length data)%nat
                 then copy_loop fuel' start_address length (<[Z.to_nat count := b]> data)
                        buffer_length (count + 1)
                 else Err OutOfBounds
             end
    end
  else Ret (data, count).

(** [copy_data_from_memory]: the buffer after the call and the value returned. *)
Definition copy_data_from_memory (start_address length : Z) (data : bytes)
    (buffer_length : Z) : res (bytes * Z) :=
  copy_loop (Z.to_nat buffer_length) start_address length data buffer_length 0.

(** [strcpy(msg, payload)] into a zeroed array of [n] bytes. *)
Fixpoint strcpy (n : nat) (payload : bytes) : res bytes :=
  match payload with
  | [] => Err OutOfBounds                     (* no NUL in the message *)
  | c :: payload' =>
      match n with
      | O => Err OutOfBounds                  (* the string does not fit *)
      | S n' => if c =? 0 then Ret (replicate n 0)
                else msg ← strcpy n' payload'; Ret (c :: msg)
      end
  end.

(** The string [parse_input] sees in the buffer [msg]. *)
Fixpoint c_string (s : bytes) : bytes :=
  match s with
  | [] => []
  | c :: s' => if c =? 0 then [] else c :: c_string s'
  end.

(** [nl_recv_msg]: the answer sent to the process the message came from, or none
    when it cannot be allocated. *)
Definition nl_recv_msg (alloc_ok : Z → bool) (payload : bytes) : res (option bytes) :=
  msg ← strcpy (Z.to_nat SIZE) payload;
  let '(start, length) := parse_input (c_string msg) 0x0000 1 in
  '(msg, msg_size) ← copy_data_from_memory start length msg SIZE;
  if alloc_ok msg_size then Ret (Some (take (Z.to_nat msg_size) msg))
  else Ret None.

End Memory.

(** [cleanup_module]: the socket is released. *)
Definition cleanup_module (st : module_state) : module_state := mk_module None.

End KernelModule.
Import KernelModule.

(** ** Lemmas *)

(** How many bytes the guard lets through. *)
Definition readable (start length : Z) : Z :=
  Z.max 0 (Z.min (Z.min length SIZE) (LAST_READABLE_ADDRESS - start)).

(** The physical address the module reads for an [int] start address. *)
Definition phys_addr (a : Z) : Z := u64 (s32 a).

(** The addresses a request reads are mapped. *)
Definition mapped (phys : Z → option Z) (start len : Z) : Prop :=
  ∀ i, 0 ≤ i < readable start len → is_Some (phys (phys_addr (start + i))).

(** The loop, for any start: it stops by itself and stores the bytes it read. *)
Lemma copy_loop_spec phys fuel start len data count :
  mapped phys start len →
  - 2 ^ 31 ≤ start < 2 ^ 31 → 0 ≤ count ≤ SIZE → length data = Z.to_nat SIZE →
  SIZE ≤ count + Z.of_nat fuel →
  (count ≤ LAST_READABLE_ADDRESS - start ∨ count = 0) →
  let n := Z.max count (Z.min (Z.min len SIZE) (LAST_READABLE_ADDRESS - start)) in
  ∃ data', copy_loop phys fuel start len data SIZE count = Ret (data', n) ∧
    length data' = Z.to_nat SIZE ∧
    (∀ i, (i < Z.to_nat count)%nat → data' !! i = data !! i) ∧
    (∀ i, (Z.to_nat count ≤ i < Z.to_nat n)%nat →
       data' !! i = phys (phys_addr (start + Z.of_nat i))).
Proof.
  intros Hphys Hs. revert data count.
  induction fuel as [|fuel IH]; intros data count Hc Hd Hf Hle n; cbn [copy_loop].
  - destruct ((count <? len) && (count <? SIZE)) eqn:E; [lia|].
    exists data. unfold n. rewrite Z.max_l by lia. split_and!; auto. lia.
  - destruct ((count <? len) && (count <? SIZE)) eqn:E.
    2:{ exists data. unfold n. rewrite Z.max_l by lia. split_and!; auto. lia. }
    unfold SIZE, LAST_READABLE_ADDRESS in *.
    destruct (Z.leb_spec 0x37bfdfff (s32 (start + count))) as [Hg|Hg].
    { exists data. assert (count = n) as <- by (revert Hg; unfold n; clia).
      split_and!; auto. lia. }
    assert (count < 0x37bfdfff - start) by (revert Hg; clia).
    destruct (Hphys count) as [b Hb];
      [unfold readable, SIZE, LAST_READABLE_ADDRESS; lia|].
    unfold phys_addr in Hb. rewrite Hb.
    rewrite (proj2 (Nat.ltb_lt _ _)) by lia.
    destruct (IH (<[Z.to_nat count:=b]> data) (count + 1)) as (data' & Hr & Hl & Hlow & Hhi);
      [lia|by rewrite length_insert|lia|lia|].
    rewrite Z.max_r in Hr, Hhi by lia.
    exists data'. unfold n. rewrite Z.max_r by lia. rewrite Hr. split_and!; [done|done| |].
    + intros i Hi. rewrite Hlow by lia. apply list_lookup_insert_ne. lia.
    + intros i Hi. destruct (decide (i = Z.to_nat count)) as [->|Hne].
      * rewrite Hlow by lia. rewrite list_lookup_insert_eq by lia.
        unfold phys_addr. rewrite Z2Nat.id by lia. by rewrite Hb.
      * apply Hhi. lia.
Qed.

Lemma c_string_app s rest : Forall (λ c, c ≠ 0) s → c_string (s ++ 0 :: rest) = s.
Proof.
  induction 1 as [|c s Hc _ IH]; simpl; [done|].
  rewrite (proj2 (Z.eqb_neq c 0)) by done. by f_equal.
Qed.

Lemma strcpy_app n s rest : Forall (λ c, c ≠ 0) s → (length s < n)%nat →
  strcpy n (s ++ 0 :: rest) = Ret (s ++ replicate (n - length s) 0).
Proof.
  intros Hs. revert n. induction Hs as [|c s Hc _ IH]; intros n Hn; simpl in *.
  - destruct n; [lia|done].
  - destruct n as [|n]; [lia|]. cbn [strcpy app length]. rewrite (proj2 (Z.eqb_neq c 0)) by done.
    rewrite IH by lia. done.
Qed.

(** The text the server sends. *)
Definition request_text (address length : Z) : bytes :=
  hex_fixed 8 address ++ cstr "," ++ hex_fixed 8 length.

Lemma hex_fixed_nonzero n v : 0 ≤ v → Forall (λ c, c ≠ 0) (hex_fixed n v).
Proof.
  intros Hv. rewrite hex_fixed_num.
  eapply list.Forall_impl; [apply (num_fixed_chars 16); lia|].
  simpl. intros c [Hc _]. lia.
Qed.

Lemma request_text_nonzero a l : is_u32 a → is_u32 l → Forall (λ c, c ≠ 0) (request_text a l).
Proof.
  intros Ha Hl. unfold is_u32, request_text in *. rewrite !list.Forall_app.
  split_and!; try (apply hex_fixed_nonzero; lia). by repeat constructor.
Qed.

Lemma length_request_text a l : length (request_text a l) = 17%nat.
Proof. unfold request_text. rewrite !length_app, !length_hex_fixed. done. Qed.

(** The module's scan is the inverse of the server's format. *)
Lemma parse_request_text a l s0 l0 : is_u32 a → is_u32 l →
  parse_input (request_text a l) s0 l0 = (s32 a, s32 l).
Proof.
  intros Ha Hl. unfold parse_input, request_text.
  rewrite scan_hex_hex8 by done.
  change (cstr "," ++ hex_fixed 8 l) with (44 :: hex_fixed 8 l).
  rewrite <- (app_nil_r (hex_fixed 8 l)), scan_hex_hex8 by done. done.
Qed.

Lemma strcpy_request a l rest : is_u32 a → is_u32 l →
  strcpy (Z.to_nat SIZE) (request_text a l ++ 0 :: rest) =
  Ret (request_text a l ++ replicate (Z.to_nat SIZE - 17) 0).
Proof.
  intros Ha Hl. rewrite strcpy_app; rewrite ?length_request_text; auto using request_text_nonzero.
  unfold SIZE. lia.
Qed.

Lemma c_string_request a l n : is_u32 a → is_u32 l →
  c_string (request_text a l ++ replicate (S n) 0) = request_text a l.
Proof. intros. by apply c_string_app, request_text_nonzero. Qed.

(** What the module answers to the server's text. *)
Lemma nl_recv_request phys a l rest :
  mapped phys (s32 a) (s32 l) → is_u32 a → is_u32 l →
  ∃ reply,
    nl_recv_msg phys (λ _, true) (request_text a l ++ 0 :: rest) = Ret (Some reply) ∧
    length reply = Z.to_nat (readable (s32 a) (s32 l)) ∧
    ∀ i, (i < length reply)%nat → reply !! i = phys (phys_addr (s32 a + Z.of_nat i)).
Proof.
  intros Hphys Ha Hl. unfold nl_recv_msg. rewrite strcpy_request by done.
  change (Z.to_nat SIZE - 17)%nat with (S 238). cbn [mbind res_bind].
  set (msg := request_text a l ++ replicate (S 238) 0).
  assert (length msg = Z.to_nat SIZE) as Hm.
  { unfold msg. by rewrite length_app, length_request_text, length_replicate. }
  unfold mbind, res_bind. unfold msg at 1. rewrite c_string_request, parse_request_text by done.
  unfold copy_data_from_memory.
  destruct (copy_loop_spec phys (Z.to_nat SIZE) (s32 a) (s32 l) msg 0)
    as (d & -> & Hd & _ & Hi); [done|clia|unfold SIZE; lia|done|unfold SIZE; lia|by right|].
  fold (readable (s32 a) (s32 l)) in *.
  assert (0 ≤ readable (s32 a) (s32 l) ≤ SIZE) by (unfold readable, SIZE; lia).
  eexists. split; [done|]. rewrite length_take. split; [lia|].
  intros i Hlt. rewrite lookup_take_lt by lia. apply Hi. lia.
Qed.

(** ** The theorems of the kernel module *)

(** C27: for every start address and length whose bytes are mapped, the copy loop
    terminates, writes only inside the buffer and returns [readable]: never more than the
    buffer or the length asked for, and never past [LAST_READABLE_ADDRESS] for a
    start below it; the bytes stored are those of physical memory, in order. *)
Theorem copy_data_correct (phys : Z → option Z) (start len : Z) (data : bytes) :
  mapped phys start len →
  - 2 ^ 31 ≤ start < 2 ^ 31 → length data = Z.to_nat SIZE →
  ∃ data', copy_data_from_memory phys start len data SIZE =
             Ret (data', readable start len) ∧
    length data' = Z.to_nat SIZE ∧
    ∀ i, (i < Z.to_nat (readable start len))%nat →
      data' !! i = phys (phys_addr (start + Z.of_nat i)).
Proof.
  intros Hphys Hs Hd. unfold copy_data_from_memory, readable.
  destruct (copy_loop_spec phys (Z.to_nat SIZE) start len data 0)
    as (d & Hr & Hl & _ & Hi); [done|done|unfold SIZE; lia|done|unfold SIZE; lia|by right|].
  exists d. split_and!; [done|done|]. intros i Hlt. apply Hi. lia.
Qed.

Lemma copy_data_correct_witness :
  ∃ data', copy_data_from_memory (λ a, Some (a mod 256)) 0x37bfdffd 16
             (replicate 256 0) SIZE = Ret (data', 2).
Proof.
  destruct (copy_data_correct (λ a, Some (a mod 256)) 0x37bfdffd 16 (replicate 256 0))
    as (d & H & _); [by intros ? _; eexists|lia|by rewrite length_replicate|].
  exists d. exact H.
Defined.

(** C28: the text format of the server and the module's [sscanf] are inverse: for
    every 32-bit address and length below 2^31 the module answers with exactly
    the bytes of physical memory from that address on, as many as were asked
    for, cut at 256 and at [LAST_READABLE_ADDRESS]. *)
Theorem nl_recv_msg_answers (phys : Z → option Z) (a l : Z) (rest : bytes) :
  mapped phys a l → 0 ≤ a < 2 ^ 31 → 0 ≤ l < 2 ^ 31 →
  ∃ reply,
    nl_recv_msg phys (λ _, true) (request_text a l ++ 0 :: rest) = Ret (Some reply) ∧
    Z.of_nat (length reply) = readable a l ∧
    ∀ i, (i < length reply)%nat → reply !! i = phys (a + Z.of_nat i).
Proof.
  intros Hphys Ha Hl.
  destruct (nl_recv_request phys a l rest) as (reply & H & Hlen & Hi);
    [by rewrite !s32_id by lia|clia..|]. rewrite !s32_id in * by lia.
  assert (0 ≤ readable a l ≤ SIZE) by (unfold readable, SIZE; lia).
  exists reply. split_and!; [done|lia|]. intros i Hlt. rewrite Hi by done.
  f_equal. unfold phys_addr. unfold readable, LAST_READABLE_ADDRESS in *.
  rewrite s32_id by lia. apply Z.mod_small. lia.
Qed.

Lemma nl_recv_msg_answers_witness :
  ∃ reply,
    nl_recv_msg (λ a, Some (a mod 256)) (λ _, true)
      (request_text 4096 16 ++ 0 :: replicate 238 0) = Ret (Some reply) ∧
    Z.of_nat (length reply) = readable 4096 16 ∧
    ∀ i, (i < length reply)%nat →
      reply !! i = (λ a, Some (a mod 256)) (4096 + Z.of_nat i).
Proof.
  apply (nl_recv_msg_answers (λ a, Some (a mod 256)) 4096 16 (replicate 238 0));
    [by intros ? _; eexists|lia..].
Defined.

(** C29: the check against [LAST_READABLE_ADDRESS] is made on a signed value: for
    every address from 2^31 up, it does not stop the copy, and the module reads
    the full length at the sign-extended 64-bit address (2^64 - 2^32 above the
    one asked for), up to the wrap at 2^32. *)
Theorem guard_bypassed_above_2_31 (phys : Z → option Z) (a l : Z) (rest : bytes) :
  mapped phys (a - 2 ^ 32) l → 2 ^ 31 ≤ a < 2 ^ 32 → 0 ≤ l ≤ SIZE →
  ∃ reply,
    nl_recv_msg phys (λ _, true) (request_text a l ++ 0 :: rest) = Ret (Some reply) ∧
    Z.of_nat (length reply) = l ∧
    ∀ i, (i < length reply)%nat →
      reply !! i = phys (u64 (a - 2 ^ 32 + Z.of_nat i)).
Proof.
  unfold SIZE. intros Hphys Ha Hl.
  assert (s32 a = a - 2 ^ 32) as Es by clia.
  destruct (nl_recv_request phys a l rest) as (reply & H & Hlen & Hi);
    [by rewrite Es, s32_id by lia|clia..|]. rewrite (s32_id l) in * by lia.
  rewrite Es in *. unfold readable, SIZE, LAST_READABLE_ADDRESS in Hlen.
  exists reply. split_and!; [done|lia|]. intros i Hlt. rewrite Hi by done.
  unfold phys_addr. rewrite s32_id by lia. done.
Qed.

Lemma guard_bypassed_witness :
  ∃ reply,
    nl_recv_msg (λ a, Some (a mod 256)) (λ _, true)
      (request_text 0xc0000000 16 ++ [0]) = Ret (Some reply) ∧
    Z.of_nat (length reply) = 16.
Proof.
  destruct (guard_bypassed_above_2_31 (λ a, Some (a mod 256)) 0xc0000000 16 [])
    as (r & H & Hl & _); [by intros ? _; eexists|lia|unfold SIZE; lia|].
  exists r. split; assumption.
Defined.
