(* ===== verification/Mem.v ===== *)
(** * The heap allocator: [lwip/src/core/mem.c]

    The heap [ram] of [MEM_SIZE] bytes is tiled by blocks, each behind a
    [struct mem] that holds the offsets of the next and the previous header.  A
    pointer is its offset in [ram]; [ram_end] is the header at [MEM_SIZE].  The
    headers live in a map from offsets; those of merged blocks stay behind, as
    they do in memory.  The configuration is the one of [minimal/lwipopts.h]:
    no libc malloc, no pools, no frees from another context, [MEM_STATS] on, so
    [mem_size_t] is [u16_t] and the lock is empty ([NO_SYS]). *)

From S2P Require Import Prelude.

Module Mem.

(** ** Configuration *)

Definition MEM_ALIGNMENT : Z := 1.
Definition MEM_SIZE : Z := 16000.
Definition LWIP_MEM_ALIGN_SIZE (size : Z) : Z :=
  Z.land (u32 (size + MEM_ALIGNMENT - 1)) (u32 (Z.lnot (MEM_ALIGNMENT - 1))).
Definition MIN_SIZE_ALIGNED : Z := LWIP_MEM_ALIGN_SIZE 12.
Definition SIZEOF_STRUCT_MEM : Z := LWIP_MEM_ALIGN_SIZE 6.
Definition MEM_SIZE_ALIGNED : Z := LWIP_MEM_ALIGN_SIZE MEM_SIZE.

(** ** State *)

Record mem := mk_mem {
  next : Z;      (* mem_size_t *)
  prev : Z;      (* mem_size_t *)
  used : bool;   (* u8_t, 0 or 1 *)
}.

Abbreviation struct_mem := mem.

Record heap := mk_heap {
  ram : gmap Z mem;
  lfree : Z;
  stat_used : Z; stat_max : Z; stat_err : Z; stat_avail : Z;   (* lwip_stats.mem *)
}.

Definition ram_end : Z := MEM_SIZE_ALIGNED.

Definition set_ram (f : gmap Z mem → gmap Z mem) (h : heap) : heap :=
  mk_heap (f (ram h)) (lfree h) (stat_used h) (stat_max h) (stat_err h) (stat_avail h).
Definition set_lfree (l : Z) (h : heap) : heap :=
  mk_heap (ram h) l (stat_used h) (stat_max h) (stat_err h) (stat_avail h).
Definition set_used (z : Z) (h : heap) : heap :=
  mk_heap (ram h) (lfree h) z (stat_max h) (stat_err h) (stat_avail h).

(** Access to the header at an offset. *)
Definition rd (p : Z) : M heap mem := λ h,
  match ram h !! p with Some m => Ret (m, h) | None => Err OutOfBounds end.
Definition wr (p : Z) (m : mem) : M heap () := modify (set_ram <[p := m]>).
Definition get_lfree : M heap Z := λ h, Ret (lfree h, h).
Definition put_lfree (l : Z) : M heap () := modify (set_lfree l).

Definition with_next (n : Z) (m : mem) : mem := mk_mem n (prev m) (used m).
Definition with_prev (p : Z) (m : mem) : mem := mk_mem (next m) p (used m).
Definition with_used (u : bool) (m : mem) : mem := mk_mem (next m) (prev m) u.

Definition when (b : bool) (m : M heap ()) : M heap () := if b then m else mret ().

(** [lwip_stats.mem]: [MEM_STATS_INC_USED], [MEM_STATS_DEC_USED] and
    [MEM_STATS_INC(err)]; the counters are [mem_size_t] and [STAT_COUNTER] (u16). *)
Definition MEM_STATS_INC_USED (y : Z) : M heap () := modify (λ h,
  let u := u16 (stat_used h + y) in
  mk_heap (ram h) (lfree h) u (if stat_max h <? u then u else stat_max h)
    (stat_err h) (stat_avail h)).
Definition MEM_STATS_DEC_USED (y : Z) : M heap () := modify (λ h,
  set_used (u16 (stat_used h - y)) h).
Definition MEM_STATS_INC_err : M heap () := modify (λ h,
  mk_heap (ram h) (lfree h) (stat_used h) (stat_max h) (u16 (stat_err h + 1)) (stat_avail h)).

(** ** Operations *)

(** [plug_holes(mem)]: the forward hole, ... *)
Definition plug_forward (mem : Z) (m : struct_mem) : M heap () :=
  let nmem := next m in
  n ← rd nmem;
  when (negb (mem =? nmem) && negb (used n) && negb (nmem =? ram_end))
    (l ← get_lfree;
     _ ← when (l =? nmem) (put_lfree mem);
     _ ← wr mem (with_next (next n) m);
     x ← rd (next n);
     wr (next n) (with_prev (u16 mem) x)).

(** ... the backward hole ... *)
Definition plug_backward (mem : Z) : M heap () :=
  m ← rd mem;
  let pmem := prev m in
  p ← rd pmem;
  when (negb (pmem =? mem) && negb (used p))
    (l ← get_lfree;
     _ ← when (l =? mem) (put_lfree pmem);
     _ ← wr pmem (with_next (next m) p);
     x ← rd (next m);
     wr (next m) (with_prev (u16 pmem) x)).

(** ... one after the other, behind the checks on [mem]. *)
Definition plug_holes (mem : Z) : M heap () :=
  _ ← assert_ (0 <=? mem);
  _ ← assert_ (mem <? ram_end);
  m ← rd mem;
  _ ← assert_ (negb (used m));
  _ ← assert_ (next m <=? MEM_SIZE_ALIGNED);
  _ ← plug_forward mem m;
  plug_backward mem.

(** [mem_init()] *)
Definition mem_init : heap :=
  mk_heap (<[MEM_SIZE_ALIGNED := mk_mem MEM_SIZE_ALIGNED MEM_SIZE_ALIGNED true]>
             (<[0 := mk_mem MEM_SIZE_ALIGNED 0 false]> ∅))
    0 0 0 0 MEM_SIZE_ALIGNED.

(** [mem_free(rmem)] *)
Definition mem_free (rmem : option Z) : M heap () :=
  match rmem with
  | None => mret ()
  | Some rmem =>
      _ ← assert_ (Z.land rmem (MEM_ALIGNMENT - 1) =? 0);
      _ ← assert_ ((0 <=? rmem) && (rmem <? ram_end));
      let mem := rmem - SIZEOF_STRUCT_MEM in
      m ← rd mem;
      _ ← assert_ (used m);
      _ ← wr mem (with_used false m);
      l ← get_lfree;
      _ ← when (mem <? l) (put_lfree mem);
      _ ← MEM_STATS_DEC_USED (next m - u16 mem);
      plug_holes mem
  end.

(** [mem_trim(rmem, newsize)] *)
Definition mem_trim (rmem newsize : Z) : M heap (option Z) :=
  let newsize := u16 (LWIP_MEM_ALIGN_SIZE newsize) in
  let newsize := if newsize <? MIN_SIZE_ALIGNED then MIN_SIZE_ALIGNED else newsize in
  if newsize >? MEM_SIZE_ALIGNED then mret None else
  _ ← assert_ ((0 <=? rmem) && (rmem <? ram_end));
  let mem := rmem - SIZEOF_STRUCT_MEM in
  let ptr := u16 mem in
  m ← rd mem;
  let size := u16 (next m - ptr - SIZEOF_STRUCT_MEM) in
  _ ← assert_ (newsize <=? size);
  if newsize >? size then mret None else
  if newsize =? size then mret (Some rmem) else
  m2 ← rd (next m);
  if negb (used m2) then
    let next2 := next m2 in
    let ptr2 := u16 (ptr + SIZEOF_STRUCT_MEM + newsize) in
    l ← get_lfree;
    _ ← when (l =? next m) (put_lfree ptr2);
    _ ← wr ptr2 (mk_mem next2 ptr false);
    m ← rd mem;
    _ ← wr mem (with_next ptr2 m);
    _ ← when (negb (next2 =? MEM_SIZE_ALIGNED))
          (x ← rd next2; wr next2 (with_prev ptr2 x));
    _ ← MEM_STATS_DEC_USED (size - newsize);
    mret (Some rmem)
  else if newsize + SIZEOF_STRUCT_MEM + MIN_SIZE_ALIGNED <=? size then
    let ptr2 := u16 (ptr + SIZEOF_STRUCT_MEM + newsize) in
    l ← get_lfree;
    _ ← when (ptr2 <? l) (put_lfree ptr2);
    let next2 := next m in
    _ ← wr ptr2 (mk_mem next2 ptr false);
    m ← rd mem;
    _ ← wr mem (with_next ptr2 m);
    _ ← when (negb (next2 =? MEM_SIZE_ALIGNED))
          (x ← rd next2; wr next2 (with_prev ptr2 x));
    _ ← MEM_STATS_DEC_USED (size - newsize);
    mret (Some rmem)
  else mret (Some rmem).

(** The user data size of a header, as [size_t] arithmetic computes it. *)
Definition data_size (m : mem) (ptr : Z) : Z := u64 (next m - (ptr + SIZEOF_STRUCT_MEM)).

(** The [while] loop that looks for the next free block after [cur]. *)
Fixpoint next_free (fuel : nat) (cur : Z) : M heap Z :=
  m ← rd cur;
  if used m && negb (cur =? ram_end) then
    match fuel with
    | O => fail Diverges
    | S fuel' => next_free fuel' (next m)
    end
  else mret cur.

(** Blocks are at least 18 bytes apart: more rounds than there are blocks. *)
Definition max_blocks : nat := 1000.

(** The body of the loop of [mem_malloc] once the block at [ptr] is chosen:
    first the block is split or taken whole, ... *)
Definition malloc_take (ptr size : Z) (m : mem) : M heap () :=
  if data_size m ptr >=? size + SIZEOF_STRUCT_MEM + MIN_SIZE_ALIGNED then
    let ptr2 := u16 (ptr + SIZEOF_STRUCT_MEM + size) in
    _ ← wr ptr2 (mk_mem (next m) ptr false);
    _ ← wr ptr (mk_mem ptr2 (prev m) true);
    _ ← when (negb (next m =? MEM_SIZE_ALIGNED))
          (x ← rd (next m); wr (next m) (with_prev ptr2 x));
    MEM_STATS_INC_USED (size + SIZEOF_STRUCT_MEM)
  else
    _ ← wr ptr (with_used true m);
    MEM_STATS_INC_USED (next m - ptr).

(** ... then [lfree] moves on if it was the block taken ... *)
Definition malloc_lfree (ptr : Z) : M heap () :=
  l ← get_lfree;
  when (ptr =? l)
    (cur ← next_free max_blocks l;
     _ ← put_lfree cur;
     c ← rd cur;
     assert_ ((cur =? ram_end) || negb (used c))).

(** ... and the checks on the result follow. *)
Definition malloc_at (ptr size : Z) (m : mem) : M heap (option Z) :=
  _ ← malloc_take ptr size m;
  _ ← malloc_lfree ptr;
  _ ← assert_ (ptr + SIZEOF_STRUCT_MEM + size <=? ram_end);
  _ ← assert_ ((ptr + SIZEOF_STRUCT_MEM) mod MEM_ALIGNMENT =? 0);
  _ ← assert_ (Z.land ptr (MEM_ALIGNMENT - 1) =? 0);
  mret (Some (ptr + SIZEOF_STRUCT_MEM)).

(** The [for] loop of [mem_malloc]: first fit from [lfree] on. *)
Fixpoint malloc_scan (fuel : nat) (ptr size : Z) : M heap (option Z) :=
  if ptr <? MEM_SIZE_ALIGNED - size then
    match fuel with
    | O => fail Diverges
    | S fuel' =>
        m ← rd ptr;
        if negb (used m) && (data_size m ptr >=? size) then malloc_at ptr size m
        else malloc_scan fuel' (next m) size
    end
  else
    _ ← MEM_STATS_INC_err;
    mret None.

(** [mem_malloc(size)], [size] a [mem_size_t] *)
Definition mem_malloc (size : Z) : M heap (option Z) :=
  if size =? 0 then mret None else
  let size := u16 (LWIP_MEM_ALIGN_SIZE size) in
  let size := if size <? MIN_SIZE_ALIGNED then MIN_SIZE_ALIGNED else size in
  if size >? MEM_SIZE_ALIGNED then mret None else
  ptr ← get_lfree;
  malloc_scan max_blocks ptr size.

End Mem.

(** With [MEM_ALIGNMENT] 1 every size is aligned. *)
Lemma align_size z : is_u32 z → Mem.LWIP_MEM_ALIGN_SIZE z = z.
Proof.
  intros Hz. unfold Mem.LWIP_MEM_ALIGN_SIZE, Mem.MEM_ALIGNMENT. rewrite Z.add_simpl_r.
  rewrite (u32_id z) by done. change (u32 (Z.lnot (1 - 1))) with (Z.ones 32).
  rewrite Z.land_ones by lia. by apply Z.mod_small.
Qed.
