(* ===== verification/MemSpec.v ===== *)
(** * The heap allocator: contract, refinement and properties

    The heap as a list of blocks is the contract of [mem.c] ([a_alloc],
    [a_free], [a_trim_at]); [wf] relates the headers of a heap to its blocks.
    Every call of the code refines the call of the contract; the claims are at
    the end of the file. *)

From S2P Require Import Prelude Mem.

Import Mem.

(** ** Abstract allocator

    The heap as the list of its blocks: size with header, and whether it is in
    use.  [a_alloc], [a_free] and [a_trim] are the contract of the component. *)

Abbreviation block := (Z * bool)%type.

Fixpoint total (bs : list block) : Z :=
  match bs with [] => 0 | (n, _) :: t => n + total t end.

Fixpoint used_total (bs : list block) : Z :=
  match bs with [] => 0 | (n, u) :: t => (if u then n else 0) + used_total t end.

(** Offset of the lowest free block, [ptr] being that of the first one. *)
Fixpoint first_free (ptr : Z) (bs : list block) : Z :=
  match bs with
  | [] => ptr
  | (n, u) :: t => if u then first_free (ptr + n) t else ptr
  end.

Definition head_free (bs : list block) : bool :=
  match bs with (_, u) :: _ => negb u | [] => false end.
Fixpoint last_free (bs : list block) : bool :=
  match bs with [] => false | [(_, u)] => negb u | _ :: t => last_free t end.

(** No free block follows a free block. *)
Fixpoint no_adj (bs : list block) : bool :=
  match bs with
  | [] => true
  | (_, u) :: t => negb (negb u && head_free t) && no_adj t
  end.

(** What the chosen block of [n] bytes becomes. *)
Definition a_split (n size : Z) : list block :=
  if size + 24 <=? n then [(size + 6, true); (n - (size + 6), false)] else [(n, true)].

(** First fit: the address of the data and the blocks after the call. *)
Fixpoint a_alloc (size ptr : Z) (bs : list block) : option (Z * list block) :=
  match bs with
  | [] => None
  | (n, u) :: t =>
      if negb u && (size + 6 <=? n) then Some (ptr + 6, a_split n size ++ t)
      else match a_alloc size (ptr + n) t with
           | Some (q, t') => Some (q, (n, u) :: t')
           | None => None
           end
  end.

(** A free block of [n] bytes in front of [bs], merged with a free head. *)
Definition absorb (n : Z) (bs : list block) : list block :=
  match bs with
  | (m, false) :: t => (n + m, false) :: t
  | _ => (n, false) :: bs
  end.

Fixpoint a_free (target ptr : Z) (bs : list block) : option (list block) :=
  match bs with
  | [] => None
  | (n, u) :: t =>
      if target =? ptr then (if u then Some (absorb n t) else None)
      else match a_free target (ptr + n) t with
           | Some t' => Some (if u then (n, u) :: t' else absorb n t')
           | None => None
           end
  end.

(** Shrinking a used block of [n] bytes followed by [t] to [size] data bytes. *)
Definition a_trim_at (n size : Z) (t : list block) : list block :=
  if size + 6 =? n then (n, true) :: t
  else match t with
       | (m, false) :: t' => (size + 6, true) :: (n - (size + 6) + m, false) :: t'
       | _ => if size + 24 <=? n then (size + 6, true) :: (n - (size + 6), false) :: t
              else (n, true) :: t
       end.

(** ** Representation *)

(** The headers from offset [q] to [q'], the first with back link [p]. *)
Fixpoint seg (r : gmap Z mem) (p q : Z) (bs : list block) (p' q' : Z) : Prop :=
  match bs with
  | [] => p = p' ∧ q = q'
  | (n, u) :: t => r !! q = Some (mk_mem (q + n) p u) ∧ 18 ≤ n ∧ seg r q (q + n) t p' q'
  end.

(** The headers of the heap [r] are those of the blocks [bs]. *)
Definition tiles (r : gmap Z mem) (bs : list block) : Prop :=
  (∃ p', seg r 0 0 bs p' MEM_SIZE) ∧
  (∃ p, r !! MEM_SIZE = Some (mk_mem MEM_SIZE p true)).

(** The invariant: the headers tile the heap, [lfree] is the lowest free block,
    no two free blocks touch, and the statistics count the used bytes. *)
Record wf (h : heap) (bs : list block) : Prop := mk_wf {
  wf_tiles : tiles (ram h) bs;
  wf_holes : no_adj bs = true;
  wf_lfree : lfree h = first_free 0 bs;
  wf_used : stat_used h = used_total bs;
}.

(** ** Block lists *)

Lemma total_app a b : total (a ++ b) = total a + total b.
Proof. induction a as [|[n u] a IH]; simpl; lia. Qed.
Lemma used_total_app a b : used_total (a ++ b) = used_total a + used_total b.
Proof. induction a as [|[n u] a IH]; simpl; lia. Qed.

Lemma first_free_app p a b :
  first_free p (a ++ b) =
  if forallb snd a then first_free (p + total a) b else first_free p a.
Proof.
  revert p. induction a as [|[n u] a IH]; intros p; simpl; [by rewrite Z.add_0_r|].
  destruct u; simpl; [|done]. rewrite IH. by rewrite Z.add_assoc.
Qed.

Lemma head_free_app a b : a ≠ [] → head_free (a ++ b) = head_free a.
Proof. by destruct a. Qed.

Lemma no_adj_app a b :
  no_adj (a ++ b) = no_adj a && no_adj b && negb (last_free a && head_free b).
Proof.
  induction a as [|[n u] a IH]; simpl; [by rewrite andb_true_r|]. rewrite IH.
  destruct a as [|[m v] a]; simpl; [destruct u, (head_free b), (no_adj b); done|].
  destruct u, v, (no_adj b), (head_free a), (no_adj a), (head_free b); simpl; try done;
    rewrite ?andb_true_r, ?andb_false_r; done.
Qed.

Lemma first_free_lt p a : forallb snd a = false → Forall (λ b : block, 18 ≤ b.1) a →
  p ≤ first_free p a < p + total a.
Proof.
  intros Hf Ha. revert p Hf. induction Ha as [|[n u] a Hn Ha IH]; intros p Hf; [done|].
  assert (0 ≤ total a) by (clear -Ha; induction Ha as [|[??]]; simpl in *; lia).
  simpl in *. destruct u; simpl in *; [|lia]. specialize (IH (p + n) Hf). lia.
Qed.

(** ** Segments *)

Lemma seg_app r p q a b p' q' :
  seg r p q (a ++ b) p' q' ↔
  ∃ p1, seg r p q a p1 (q + total a) ∧ seg r p1 (q + total a) b p' q'.
Proof.
  revert p q. induction a as [|[n u] a IH]; intros p q; simpl.
  - rewrite Z.add_0_r. split; [intros H; eauto|intros (p1 & [-> _] & H); done].
  - rewrite IH, Z.add_assoc. split.
    + intros (? & ? & p1 & ? & ?). eauto.
    + intros (p1 & (? & ? & ?) & ?). eauto 10.
Qed.

Lemma seg_total r p q bs p' q' : seg r p q bs p' q' →
  q' = q + total bs ∧ Forall (λ b : block, 18 ≤ b.1) bs ∧ 18 * Z.of_nat (length bs) ≤ total bs ∧
  (bs ≠ [] → q ≤ p' ∧ p' + 18 ≤ q').
Proof.
  revert p q. induction bs as [|[n u] bs IH]; intros p q; simpl.
  - intros [-> ->]. split_and!; [lia|constructor|lia|done].
  - intros (_ & Hn & H). pose proof H as H'.
    apply IH in H' as (Ht & Hf & Hl & Hp). split_and!; try lia.
    + by constructor.
    + intros _. destruct bs as [|b bs]; [|specialize (Hp ltac:(done)); lia].
      simpl in *. lia.
Qed.

Lemma seg_frame r r' p q bs p' q' :
  (∀ k, q ≤ k < q' → r' !! k = r !! k) → seg r p q bs p' q' → seg r' p q bs p' q'.
Proof.
  revert p q. induction bs as [|[n u] bs IH]; intros p q Hk; simpl; [done|].
  intros (H & Hn & Hs). pose proof (seg_total _ _ _ _ _ _ Hs) as (Hq & _ & Hl & _).
  split_and!; [rewrite Hk by lia; done|done|]. apply IH; [|done]. intros. apply Hk. lia.
Qed.

(** Relinking the first header of a segment. *)
Definition relink (k p : Z) (r : gmap Z mem) : gmap Z mem := alter (with_prev p) k r.

Lemma seg_relink r p p2 q bs p' q' :
  seg r p q bs p' q' → ∃ p'', seg (relink q p2 r) p2 q bs p'' q' ∧ (bs ≠ [] → p'' = p').
Proof.
  destruct bs as [|[n u] bs]; simpl.
  - intros [-> ->]. exists p2. naive_solver.
  - intros (H & Hn & Hs). exists p'. split; [|done].
    split_and!; [|done|].
    + unfold relink. rewrite lookup_alter, decide_True by done. by rewrite H.
    + eapply seg_frame; [|exact Hs]. intros k Hk. unfold relink.
      by rewrite lookup_alter_ne by lia.
Qed.

Lemma relink_ne r k p k' : k' ≠ k → relink k p r !! k' = r !! k'.
Proof. intros. unfold relink. by rewrite lookup_alter_ne. Qed.

Lemma relink_insert r k p m : r !! k = Some m → <[k := with_prev p m]> r = relink k p r.
Proof.
  intros H. unfold relink. apply map_eq. intros i.
  rewrite lookup_insert, lookup_alter. case_decide; [subst|done]. by rewrite H.
Qed.

(** The header at the boundary between two groups of blocks. *)
Lemma tiles_boundary r a b : tiles r (a ++ b) →
  ∃ m, r !! total a = Some m ∧ used m = negb (head_free b) ∧
    0 ≤ total a ∧ 18 * Z.of_nat (length b) ≤ total b ∧ total a + total b = MEM_SIZE ∧
    match b with
    | [] => total a = MEM_SIZE
    | (n, _) :: t => next m = total a + n ∧ 18 ≤ n ∧ 0 ≤ total t
    end.
Proof.
  intros [[p' Hs] [pe He]]. apply seg_app in Hs as (p1 & Ha & Hb).
  rewrite Z.add_0_l in Ha, Hb.
  pose proof (seg_total _ _ _ _ _ _ Ha) as (_ & _ & Hla & _).
  pose proof (seg_total _ _ _ _ _ _ Hb) as (Htb & _ & Hlb & _).
  destruct b as [|[n u] b]; simpl in *.
  - destruct Hb as [_ E]. rewrite E. eexists. split_and!; [exact He|done|lia..].
  - destruct Hb as (Hm & Hn & Hb). pose proof (seg_total _ _ _ _ _ _ Hb) as (_ & _ & Hl & _).
    eexists. split_and!; [exact Hm|simpl; by rewrite negb_involutive|simpl; lia..].
Qed.

(** ** Symbolic execution of the heap operations *)

Ltac memconst :=
  change SIZEOF_STRUCT_MEM with 6 in *; change MIN_SIZE_ALIGNED with 12 in *;
  change MEM_SIZE_ALIGNED with 16000 in *; change ram_end with 16000 in *;
  change MEM_SIZE with 16000 in *; change MEM_ALIGNMENT with 1 in *.

Lemma header_rd_ok h p m : ram h !! p = Some m → rd p h = Ret (m, h).
Proof. intros H. unfold rd. by rewrite H. Qed.

Lemma bind_get_lfree {A} (k : Z → M heap A) h : (get_lfree ≫= k) h = k (lfree h) h.
Proof. done. Qed.

Lemma bind_wr {A} p m (k : () → M heap A) h :
  (wr p m ≫= k) h = k () (set_ram <[p := m]> h).
Proof. done. Qed.
Lemma bind_put_lfree {A} l (k : () → M heap A) h :
  (put_lfree l ≫= k) h = k () (set_lfree l h).
Proof. done. Qed.
(** [if (c) lfree = l;] *)
Lemma bind_when_lfree {A} (c : bool) l (k : () → M heap A) h :
  (when c (put_lfree l) ≫= k) h = k () (set_lfree (if c then l else lfree h) h).
Proof. destruct c; [done|by destruct h]. Qed.
Lemma bind_dec_used {A} d (k : () → M heap A) h :
  (MEM_STATS_DEC_USED d ≫= k) h = k () (set_used (u16 (stat_used h - d)) h).
Proof. done. Qed.

Lemma next_free_ok h a b fuel : tiles (ram h) (a ++ b) → (length b ≤ fuel)%nat →
  next_free fuel (total a) h = Ret (first_free (total a) b, h).
Proof.
  revert a fuel. induction b as [|[n u] b IH]; intros a fuel Ht Hf.
  - destruct (tiles_boundary _ _ _ Ht) as (m & Hm & Hu & _ & _ & _ & HM).
    destruct fuel; cbn [next_free]; rewrite (bind_Ret _ _ _ m h) by by apply header_rd_ok.
    all: rewrite Hu; memconst; rewrite HM; done.
  - destruct (tiles_boundary _ _ _ Ht) as (m & Hm & Hu & ? & ? & ? & HM).
    simpl length in *. destruct fuel as [|fuel]; [lia|]. cbn [next_free first_free].
    rewrite (bind_Ret _ _ _ m h) by by apply header_rd_ok.
    rewrite Hu. simpl. rewrite negb_involutive. destruct u; [|done]. memconst. simpl in *.
    destruct (Z.eqb_spec (total a) 16000) as [E|E]; [lia|]. simpl.
    destruct HM as (-> & _). specialize (IH (a ++ [(n, true)]) fuel).
    rewrite <- (assoc app), total_app in IH. simpl in IH. rewrite Z.add_0_r in IH.
    apply IH; [done|lia].
Qed.

(** Replacing the blocks between [a] and [b]: what is left to show is the new
    middle part and the back link of [b]. *)
Lemma tiles_replace r r' a b mid p1 p2 pe :
  (∃ p', seg r 0 0 a p1 (total a) ∧ seg r p2 (MEM_SIZE - total b) b p' MEM_SIZE) →
  (∀ k, 0 ≤ k < total a → r' !! k = r !! k) →
  (∃ p3, seg r' p1 (total a) mid p3 (MEM_SIZE - total b) ∧
   (∀ k, MEM_SIZE - total b ≤ k < MEM_SIZE → r' !! k = relink (MEM_SIZE - total b) p3 r !! k)) →
  r' !! MEM_SIZE = Some (mk_mem MEM_SIZE pe true) →
  tiles r' (a ++ mid ++ b).
Proof.
  intros (p' & Ha & Hb) Hlow (p3 & Hmid & Hhi) He. split; [|eauto].
  destruct (seg_relink _ _ p3 _ _ _ _ Hb) as (p'' & Hb' & _).
  pose proof (seg_total _ _ _ _ _ _ Hmid) as (Et & _ & _ & _).
  exists p''. apply seg_app. exists p1. rewrite Z.add_0_l. split; [by eapply seg_frame|].
  apply seg_app. exists p3. rewrite <- Et. split; [done|].
  eapply seg_frame; [|exact Hb']. done.
Qed.

Lemma tiles_cons_inv r a n u b : tiles r (a ++ (n, u) :: b) →
  ∃ p1 pe, seg r 0 0 a p1 (total a) ∧
    r !! total a = Some (mk_mem (total a + n) p1 u) ∧
    (∃ p', seg r (total a) (MEM_SIZE - total b) b p' MEM_SIZE) ∧
    r !! MEM_SIZE = Some (mk_mem MEM_SIZE pe true) ∧
    18 ≤ n ∧ total a + n = MEM_SIZE - total b ∧ 0 ≤ total a ∧ 0 ≤ total b ∧
    (a = [] → p1 = 0) ∧ (a ≠ [] → 0 ≤ p1 ∧ p1 + 18 ≤ total a).
Proof.
  intros [[p' Hs] [pe He]]. apply seg_app in Hs as (p1 & Ha & Hm & Hn & Hb).
  rewrite Z.add_0_l in *.
  pose proof (seg_total _ _ _ _ _ _ Ha) as (_ & _ & Hla & Hp1).
  pose proof (seg_total _ _ _ _ _ _ Hb) as (Htb & _ & Hlb & _).
  replace (total a + n) with (MEM_SIZE - total b) in Hb by lia.
  exists p1, pe. split_and!; eauto with lia.
  intros ->. by destruct Ha as [-> _].
Qed.

(** Relinking unless the next header is the end of the heap. *)
Definition relink_end (k p : Z) (r : gmap Z mem) : gmap Z mem :=
  if k =? MEM_SIZE then r else relink k p r.

Lemma relink_end_ne r k p i : i ≠ k → relink_end k p r !! i = r !! i.
Proof. intros. unfold relink_end. destruct (k =? MEM_SIZE); [done|by apply relink_ne]. Qed.

(** [x ← rd k; wr k (with_prev p x)] when the header is there. *)
Lemma relink_run h k p m : ram h !! k = Some m →
  (x ← rd k; wr k (with_prev p x)) h = Ret ((), set_ram (relink k p) h).
Proof.
  intros H. rewrite (bind_Ret _ _ _ m h) by by apply header_rd_ok.
  unfold wr, modify. do 2 f_equal. unfold set_ram. f_equal. by apply relink_insert.
Qed.

Lemma relink_end_run h k p : (k ≠ MEM_SIZE → is_Some (ram h !! k)) →
  when (negb (k =? MEM_SIZE_ALIGNED)) (x ← rd k; wr k (with_prev p x)) h =
  Ret ((), set_ram (relink_end k p) h).
Proof.
  change MEM_SIZE_ALIGNED with MEM_SIZE. intros H. unfold when, relink_end.
  destruct (Z.eqb_spec k MEM_SIZE) as [->|Hne]; simpl; [by destruct h|].
  destruct (H Hne) as [m Hm]. by apply relink_run with m.
Qed.

(** A used block of [s] bytes and a free one of [t] bytes between [a] and [b]:
    the headers the split leaves. *)
Lemma tiles_split_pair r a b p1 p2 pe s t :
  seg r 0 0 a p1 (total a) → (∃ p', seg r p2 (MEM_SIZE - total b) b p' MEM_SIZE) →
  r !! MEM_SIZE = Some (mk_mem MEM_SIZE pe true) →
  0 ≤ total a → 18 ≤ s → 18 ≤ t → total a + s + t = MEM_SIZE - total b → 0 ≤ total b →
  tiles (relink_end (MEM_SIZE - total b) (total a + s)
           (<[total a := mk_mem (total a + s) p1 true]>
              (<[total a + s := mk_mem (MEM_SIZE - total b) (total a) false]> r)))
        (a ++ [(s, true); (t, false)] ++ b).
Proof.
  intros Ha [p' Hb] He Ha0 Hs Ht Hst Hb0.
  assert (Hmid : ∀ k, k ≠ total a → k ≠ total a + s → k ≠ MEM_SIZE - total b →
    relink_end (MEM_SIZE - total b) (total a + s)
           (<[total a := mk_mem (total a + s) p1 true]>
              (<[total a + s := mk_mem (MEM_SIZE - total b) (total a) false]> r)) !! k = r !! k).
  { intros k ???. rewrite relink_end_ne by done. by rewrite !lookup_insert_ne by congruence. }
  assert (Hlast : relink_end (MEM_SIZE - total b) (total a + s)
           (<[total a := mk_mem (total a + s) p1 true]>
              (<[total a + s := mk_mem (MEM_SIZE - total b) (total a) false]> r))
             !! (MEM_SIZE - total b) =
           relink_end (MEM_SIZE - total b) (total a + s) r !! (MEM_SIZE - total b)).
  { unfold relink_end, relink. destruct (_ =? MEM_SIZE);
      rewrite ?lookup_alter, ?decide_True by done; by rewrite !lookup_insert_ne by lia. }
  apply (tiles_replace r _ a b _ p1 p2 pe).
  - eauto.
  - intros k Hk. apply Hmid; lia.
  - exists (total a + s). split.
    + simpl. rewrite !relink_end_ne, lookup_insert_eq, lookup_insert_ne, lookup_insert_eq by lia.
      split_and!; auto; try lia. do 2 f_equal; lia.
    + intros k Hk. destruct (decide (k = MEM_SIZE - total b)) as [->|Hne].
      * rewrite Hlast. unfold relink_end. by rewrite (proj2 (Z.eqb_neq _ _)) by lia.
      * rewrite Hmid, relink_ne by lia. done.
  - destruct (decide (total b = 0)) as [E|E].
    + replace MEM_SIZE with (MEM_SIZE - total b) at 1 by lia. rewrite Hlast.
      unfold relink_end. rewrite (proj2 (Z.eqb_eq _ _)) by lia.
      by replace (MEM_SIZE - total b) with MEM_SIZE by lia.
    + by rewrite Hmid by lia.
Qed.

(** A block between [a] and [b] whose header only changes its flag. *)
Lemma tiles_set_used r a n u v b p1 pe :
  seg r 0 0 a p1 (total a) →
  (∃ p', seg r (total a) (MEM_SIZE - total b) b p' MEM_SIZE) →
  r !! MEM_SIZE = Some (mk_mem MEM_SIZE pe true) →
  r !! total a = Some (mk_mem (total a + n) p1 u) →
  0 ≤ total a → 18 ≤ n → total a + n = MEM_SIZE - total b → 0 ≤ total b →
  tiles (<[total a := mk_mem (total a + n) p1 v]> r) (a ++ (n, v) :: b).
Proof.
  intros Ha [p' Hb] He Hm Ha0 Hn Hab Hb0. split.
  - exists p'. apply seg_app. exists p1. rewrite Z.add_0_l. split.
    + eapply seg_frame; [|exact Ha]. intros. by rewrite lookup_insert_ne by lia.
    + simpl. split_and!; [by rewrite lookup_insert_eq|done|]. rewrite Hab.
      eapply seg_frame; [|exact Hb]. intros. by rewrite lookup_insert_ne by lia.
  - exists pe. by rewrite lookup_insert_ne by lia.
Qed.

Lemma data_size_eq a n p u : 0 ≤ a → 6 ≤ n → n < 2 ^ 63 → data_size (mk_mem (a + n) p u) a = n - 6.
Proof.
  intros. unfold data_size. simpl. memconst. unfold u64. rewrite Z.mod_small by lia. lia.
Qed.

Lemma used_total_range a : Forall (λ b : block, 18 ≤ b.1) a → 0 ≤ used_total a ≤ total a.
Proof. induction 1 as [|[n u] a Hn Ha IH]; simpl in *; [lia|]. destruct u; lia. Qed.

Lemma tiles_sizes r bs : tiles r bs →
  Forall (λ b : block, 18 ≤ b.1) bs ∧ total bs = MEM_SIZE ∧ 0 ≤ used_total bs ≤ MEM_SIZE.
Proof.
  intros [[p' Hs] _]. apply seg_total in Hs as (Ht & Hf & _ & _).
  pose proof (used_total_range _ Hf). split_and!; try done; lia.
Qed.

Lemma malloc_take_ok h a n b size m :
  tiles (ram h) (a ++ (n, false) :: b) → ram h !! total a = Some m →
  stat_used h = used_total (a ++ (n, false) :: b) →
  12 ≤ size → size + 6 ≤ n →
  ∃ h', malloc_take (total a) size m h = Ret ((), h') ∧
    tiles (ram h') (a ++ a_split n size ++ b) ∧ lfree h' = lfree h ∧
    stat_used h' = used_total (a ++ a_split n size ++ b).
Proof.
  intros Ht Hm Hu Hs Hn. pose proof (tiles_sizes _ _ Ht) as (_ & _ & Hr).
  destruct (tiles_cons_inv _ _ _ _ _ Ht)
    as (p1 & pe & Ha & Hm' & Hb & He & H18 & Hab & Ha0 & Hb0 & _).
  rewrite Hm in Hm'. injection Hm' as ->. unfold malloc_take, a_split.
  rewrite data_size_eq by (memconst; lia). rewrite Z.geb_leb. cbn [next prev].
  change SIZEOF_STRUCT_MEM with 6. change MIN_SIZE_ALIGNED with 12.
  destruct (Z.leb_spec (size + 6 + 12) (n - 6)) as [Hsplit|Hsplit].
  - rewrite (proj2 (Z.leb_le (size + 24) n)) by lia.
    rewrite (u16_id (total a + 6 + size)) by (unfold is_u16; memconst; lia).
    replace (total a + 6 + size) with (total a + (size + 6)) by lia. rewrite Hab.
    pose proof (tiles_split_pair _ _ _ _ _ _ (size + 6) (n - (size + 6)) Ha Hb He
      ltac:(lia) ltac:(lia) ltac:(lia) ltac:(lia) ltac:(lia)) as Ht'.
    do 2 rewrite (bind_Ret _ _ _ () _ eq_refl). erewrite (bind_Ret _ _ _ ()).
    2:{ apply relink_end_run. intros Hne. cbn [ram set_ram].
        rewrite !lookup_insert_ne by lia. destruct Hb as [p' Hb].
        destruct b as [|[n' u'] b]; simpl in *; [lia|]. destruct Hb as [-> _]. eauto. }
    eexists. split; [done|]. split_and!; [exact Ht'|done|].
    cbn [stat_used set_ram]. rewrite Hu in *. rewrite !used_total_app in *. simpl in *.
    pose proof (tiles_sizes _ _ Ht') as (_ & _ & Hr'). rewrite !used_total_app in Hr'.
    simpl in Hr'. rewrite u16_id by (unfold is_u16; memconst; lia). lia.
  - rewrite (proj2 (Z.leb_gt (size + 24) n)) by lia.
    pose proof (tiles_set_used _ _ _ _ true _ _ _ Ha Hb He Hm Ha0 H18 Hab Hb0) as Ht'.
    rewrite (bind_Ret _ _ _ () _ eq_refl). eexists. split; [done|].
    split_and!; [exact Ht'|done|].
    cbn [stat_used set_ram]. rewrite Hu in *. rewrite !used_total_app in *. simpl in *.
    pose proof (tiles_sizes _ _ Ht') as (_ & _ & Hr'). rewrite !used_total_app in Hr'.
    simpl in Hr'. rewrite u16_id by (unfold is_u16; memconst; lia). lia.
Qed.

Lemma tiles_length r a b : tiles r (a ++ b) → (length b ≤ 888)%nat.
Proof.
  intros Ht. destruct (tiles_boundary _ _ _ Ht) as (? & _ & _ & Ha & Hl & Hab & _).
  unfold MEM_SIZE in *. lia.
Qed.

Lemma first_free_split ptr bs :
  first_free ptr bs = ptr + total bs ∧ forallb snd bs = true ∨
  ∃ a n b, bs = a ++ (n, false) :: b ∧ forallb snd a = true ∧ first_free ptr bs = ptr + total a.
Proof.
  revert ptr. induction bs as [|[n u] bs IH]; intros ptr; simpl; [left; split; [lia|done]|].
  destruct u; [|right; exists [], n, bs; simpl; split_and!; [done|done|lia]].
  destruct (IH (ptr + n)) as [[-> ->]|(a & m & b & -> & Ha & ->)]; [left; split; [lia|done]|].
  right. exists ((n, true) :: a), m, b. simpl. split_and!; [done|done|lia].
Qed.

(** The header [lfree] points to is free, or is the end of the heap. *)
Lemma first_free_header r bs : tiles r bs →
  ∃ m, r !! first_free 0 bs = Some m ∧ (first_free 0 bs =? ram_end) || negb (used m) = true.
Proof.
  intros Ht. pose proof (tiles_sizes _ _ Ht) as (_ & Htot & _).
  destruct (first_free_split 0 bs) as [[-> _]|(a & n & b & -> & _ & ->)]; rewrite Z.add_0_l.
  - destruct Ht as [_ [pe He]]. rewrite Htot. eexists. split; [exact He|]. done.
  - destruct (tiles_boundary _ _ _ Ht) as (m & Hm & Hu & _). eexists. split; [exact Hm|].
    rewrite Hu. simpl. by rewrite orb_true_r.
Qed.

Lemma malloc_lfree_ok h a n mid b :
  tiles (ram h) (a ++ mid ++ b) → 0 ≤ total a → Forall (λ b : block, 18 ≤ b.1) a →
  lfree h = first_free 0 (a ++ (n, false) :: b) →
  malloc_lfree (total a) h = Ret ((), set_lfree (first_free 0 (a ++ mid ++ b)) h).
Proof.
  intros Ht Ha0 Hfa Hl. rewrite first_free_app in Hl. simpl in Hl.
  pose proof (first_free_header _ _ Ht) as (m & Hm & Hc).
  rewrite first_free_app in *. unfold malloc_lfree.
  rewrite (bind_Ret _ _ _ (lfree h) h eq_refl). destruct (forallb snd a) eqn:E.
  - rewrite Z.add_0_l in *. rewrite Hl, Z.eqb_refl. unfold when.
    erewrite bind_Ret; [|apply next_free_ok; [exact Ht|]].
    2:{ pose proof (tiles_length _ _ _ Ht). unfold max_blocks. lia. }
    rewrite (bind_Ret _ _ _ () _ eq_refl).
    erewrite bind_Ret; [|apply header_rd_ok; exact Hm]. unfold assert_. by rewrite Hc.
  - pose proof (first_free_lt 0 a E Hfa) as Hlt. rewrite Hl.
    rewrite (proj2 (Z.eqb_neq _ _)) by lia. unfold when. rewrite <- Hl. by destruct h.
Qed.

Lemma a_split_adj a n size b :
  no_adj (a ++ (n, false) :: b) = true → no_adj (a ++ a_split n size ++ b) = true.
Proof.
  rewrite !no_adj_app. simpl. intros H.
  unfold a_split. destruct (size + 24 <=? n); simpl;
    destruct (no_adj a), (no_adj b), (head_free b), (last_free a); simpl in *; done.
Qed.

Lemma malloc_at_ok h a n b size m :
  wf h (a ++ (n, false) :: b) → ram h !! total a = Some m → 12 ≤ size → size + 6 ≤ n →
  ∃ h', malloc_at (total a) size m h = Ret (Some (total a + 6), h') ∧
        wf h' (a ++ a_split n size ++ b).
Proof.
  intros [Ht Hh Hl Hu] Hm Hs Hn.
  destruct (malloc_take_ok _ _ _ _ _ _ Ht Hm Hu Hs Hn) as (h1 & Hr & Ht1 & Hl1 & Hu1).
  destruct (tiles_cons_inv _ _ _ _ _ Ht) as (_ & _ & _ & _ & _ & _ & _ & Hab & Ha0 & Hb0 & _).
  pose proof (tiles_sizes _ _ Ht) as (Hf & _). apply list.Forall_app in Hf as [Hfa _].
  unfold malloc_at. rewrite (bind_Ret _ _ _ _ _ Hr).
  erewrite bind_Ret; [|apply (malloc_lfree_ok _ _ n); [done|done|done|congruence]].
  memconst. rewrite (bind_Ret _ _ _ () (set_lfree (first_free 0 (a ++ a_split n size ++ b)) h1)).
  2:{ unfold assert_. by rewrite (proj2 (Z.leb_le _ _)) by lia. }
  rewrite Z.mod_1_r, Z.land_0_r. eexists. split; [reflexivity|].
  constructor; cbn [ram set_lfree lfree stat_used]; auto using a_split_adj.
Qed.

Lemma a_alloc_none size ptr bs :
  12 ≤ size → Forall (λ b : block, 18 ≤ b.1) bs → ptr + total bs - 6 < ptr + size →
  a_alloc size ptr bs = None.
Proof.
  intros Hs Hf. revert ptr. induction Hf as [|[n u] bs Hn Hf IH]; intros ptr Ht; [done|].
  simpl in *. assert (0 ≤ total bs) by (clear -Hf; induction Hf as [|[??]]; simpl in *; lia).
  rewrite (proj2 (Z.leb_gt _ _)) by lia. rewrite andb_false_r. by rewrite IH by lia.
Qed.

(** The scan implements first fit on the blocks from [ptr] on. *)
Lemma malloc_scan_ok fuel h a b size :
  wf h (a ++ b) → 12 ≤ size → (length b < fuel)%nat →
  ∃ h', malloc_scan fuel (total a) size h =
          Ret (fst <$> a_alloc size (total a) b, h') ∧
        wf h' (a ++ from_option snd b (a_alloc size (total a) b)).
Proof.
  revert fuel a. induction b as [|[n u] b IH]; intros fuel a Hwf Hs Hf;
    destruct fuel as [|fuel]; try (simpl in Hf; lia); cbn [malloc_scan];
    destruct (tiles_boundary _ _ _ (wf_tiles _ _ Hwf)) as (m & Hm & Hum & Ha0 & Hlb & Hab & Hnext);
    memconst.
  - rewrite (proj2 (Z.ltb_ge _ _)) by lia. eexists. split; [done|]. by destruct Hwf.
  - destruct (Z.ltb_spec (total a) (16000 - size)) as [Hlt|Hge].
    + rewrite (bind_Ret _ _ _ m h) by by apply header_rd_ok. rewrite Hum. simpl head_free.
      rewrite negb_involutive. destruct Hnext as (Hnx & H18 & Hb0). simpl in Hab.
      assert (data_size m (total a) = n - 6) as ->.
      { destruct m as [nx pv us]. simpl in Hnx. subst nx. apply data_size_eq; lia. }
      rewrite Z.geb_leb. cbn [a_alloc].
      replace (size <=? n - 6) with (size + 6 <=? n) by lia.
      destruct (negb u && (size + 6 <=? n)) eqn:E; simpl.
      * destruct u; [done|]. rewrite ?E.
        apply (malloc_at_ok _ _ _ _ _ _ Hwf Hm); lia.
      * rewrite ?E, Hnx. destruct (IH fuel (a ++ [(n, u)])) as (h' & Hr & Hwf');
          [by rewrite <- (assoc app)|done|simpl in Hf; lia|].
        rewrite total_app in Hr, Hwf'. simpl in Hr, Hwf'. rewrite Z.add_0_r in *.
        exists h'. rewrite Hr. destruct (a_alloc size (total a + n) b) as [[q b']|];
          simpl in *; rewrite <- (assoc app) in Hwf'; done.
    + rewrite a_alloc_none; [|done| |lia].
      * eexists. split; [done|]. by destruct Hwf.
      * pose proof (tiles_sizes _ _ (wf_tiles _ _ Hwf)) as (Hfa & _).
        by apply list.Forall_app in Hfa as [_ Hfa].
Qed.

(** The size a request is rounded to, as [mem_malloc] does it. *)
Definition request_size (size : Z) : Z := Z.max 12 size.

(** Blocks before the first free one are never chosen: scanning from [lfree]
    is scanning from the start. *)
Lemma a_alloc_skip size ptr a b : forallb snd a = true →
  a_alloc size ptr (a ++ b) =
  (λ r : Z * list block, (r.1, a ++ r.2)) <$> a_alloc size (ptr + total a) b.
Proof.
  revert ptr. induction a as [|[n u] a IH]; intros ptr Ha; simpl in *.
  - rewrite Z.add_0_r. by destruct (a_alloc size ptr b) as [[??]|].
  - destruct u; [|done]. simpl in *. rewrite IH by done. rewrite Z.add_assoc.
    by destruct (a_alloc size (ptr + n + total a) b) as [[??]|].
Qed.

(** [mem_malloc] refines first fit on the whole block list. *)
Lemma mem_malloc_ok h bs size : wf h bs → 0 < size ≤ MEM_SIZE →
  ∃ h', mem_malloc size h = Ret (fst <$> a_alloc (request_size size) 0 bs, h') ∧
        wf h' (from_option snd bs (a_alloc (request_size size) 0 bs)).
Proof.
  intros Hwf Hsz. unfold mem_malloc, request_size. memconst.
  rewrite (proj2 (Z.eqb_neq size 0)) by lia.
  rewrite align_size, u16_id by (unfold is_u16, is_u32; lia).
  replace (if size <? 12 then 12 else size) with (Z.max 12 size)
    by (destruct (Z.ltb_spec size 12); lia).
  rewrite Z.gtb_ltb, (proj2 (Z.ltb_ge _ _)) by lia.
  rewrite (bind_Ret _ _ _ (lfree h) h eq_refl). rewrite (wf_lfree _ _ Hwf).
  assert (∃ a b, bs = a ++ b ∧ forallb snd a = true ∧ first_free 0 bs = total a)
    as (a & b & -> & Ha & ->).
  { destruct (first_free_split 0 bs) as [[-> E]|(a & n & b & -> & Ha & ->)].
    - exists bs, []. by rewrite app_nil_r.
    - exists a, ((n, false) :: b). by rewrite Z.add_0_l. }
  rewrite a_alloc_skip, Z.add_0_l by done.
  destruct (malloc_scan_ok max_blocks h a b (Z.max 12 size)) as (h' & Hr & Hwf');
    [done|lia| |].
  { pose proof (tiles_length _ _ _ (wf_tiles _ _ Hwf)). unfold max_blocks. lia. }
  exists h'. rewrite Hr. by destruct (a_alloc _ (total a) b) as [[??]|].
Qed.

(** ** mem_free *)

(** A block in front of [t] merged with a free last block of [a]. *)
Fixpoint merge_at (a t : list block) : list block :=
  match a with
  | [] => t
  | [(k, false)] => absorb k t
  | x :: a' => x :: merge_at a' t
  end.

Lemma merge_at_used a t : last_free a = false → merge_at a t = a ++ t.
Proof.
  induction a as [|[k u] a IH]; intros H; [done|]. destruct a as [|x a].
  - destruct u; simpl in H; done.
  - destruct u; cbn [merge_at app] in *; by rewrite IH.
Qed.

Lemma merge_at_snoc a k t : merge_at (a ++ [(k, false)]) t = a ++ absorb k t.
Proof.
  induction a as [|[n u] a IH]; [done|].
  change (((n, u) :: a) ++ [(k, false)]) with ((n, u) :: (a ++ [(k, false)])).
  destruct (a ++ [(k, false)]) as [|x l] eqn:E; [by destruct a|].
  destruct u; cbn [merge_at app] in *; by rewrite IH.
Qed.

Lemma last_free_snoc a k u : last_free (a ++ [(k, u)]) = negb u.
Proof.
  induction a as [|[n v] a IH]; [done|]. simpl. by destruct (a ++ [(k, u)]) eqn:E; [destruct a|].
Qed.

(** [a_free] at a block boundary. *)
Lemma a_free_at ptr a n b : no_adj a = true → Forall (λ b : block, 18 ≤ b.1) a →
  a_free (ptr + total a) ptr (a ++ (n, true) :: b) = Some (merge_at a (absorb n b)).
Proof.
  intros Hadj Hf. revert ptr Hadj. induction Hf as [|[k u] a Hk Hf IH]; intros ptr Hadj; simpl.
  { by rewrite Z.add_0_r, Z.eqb_refl. }
  assert (0 ≤ total a) by (clear -Hf; induction Hf as [|[??]]; simpl in *; lia). simpl in *.
  rewrite (proj2 (Z.eqb_neq _ _)) by lia. rewrite Z.add_assoc.
  rewrite IH by (destruct (no_adj a); [done|by rewrite andb_false_r in Hadj]).
  destruct u; [by destruct a|]. destruct a as [|[k' u'] a]; [done|]. simpl in *.
  by destruct u', a.
Qed.

Lemma tiles_merge r a s u b p1 p2 pe :
  seg r 0 0 a p1 (total a) → (∃ p', seg r p2 (MEM_SIZE - total b) b p' MEM_SIZE) →
  r !! MEM_SIZE = Some (mk_mem MEM_SIZE pe true) →
  0 ≤ total a → 18 ≤ s → total a + s = MEM_SIZE - total b → 0 ≤ total b →
  tiles (relink (MEM_SIZE - total b) (total a)
           (<[total a := mk_mem (MEM_SIZE - total b) p1 u]> r)) (a ++ (s, u) :: b).
Proof.
  intros Ha [p' Hb] He Ha0 Hs Hab Hb0.
  assert (Hlow : ∀ k, k ≠ total a → k ≠ MEM_SIZE - total b →
    relink (MEM_SIZE - total b) (total a)
      (<[total a := mk_mem (MEM_SIZE - total b) p1 u]> r) !! k = r !! k).
  { intros. rewrite relink_ne by done. by rewrite lookup_insert_ne. }
  assert (Hlast : relink (MEM_SIZE - total b) (total a)
      (<[total a := mk_mem (MEM_SIZE - total b) p1 u]> r) !! (MEM_SIZE - total b) =
      relink (MEM_SIZE - total b) (total a) r !! (MEM_SIZE - total b)).
  { unfold relink. rewrite !lookup_alter, !decide_True by done. by rewrite lookup_insert_ne by lia. }
  apply (tiles_replace r _ a b [(s, u)] p1 p2 (if total b =? 0 then total a else pe)).
  - eauto.
  - intros. apply Hlow; lia.
  - exists (total a). split.
    + simpl. rewrite relink_ne, lookup_insert_eq by lia. rewrite Hab.
      split_and!; done || lia.
    + intros k Hk. destruct (decide (k = MEM_SIZE - total b)) as [->|]; [done|].
      by rewrite Hlow, relink_ne by lia.
  - destruct (Z.eqb_spec (total b) 0) as [E|E]; [|by rewrite Hlow by lia].
    replace MEM_SIZE with (MEM_SIZE - total b) at 1 by lia. rewrite Hlast. unfold relink.
    rewrite lookup_alter, decide_True by done. replace (MEM_SIZE - total b) with MEM_SIZE by lia.
    by rewrite He.
Qed.

Lemma tiles_header_some r a b : tiles r (a ++ b) → is_Some (r !! total a).
Proof. intros Ht. destruct (tiles_boundary _ _ _ Ht) as (m & Hm & _). eauto. Qed.

Lemma plug_forward_ok h a n b m :
  tiles (ram h) (a ++ (n, false) :: b) → ram h !! total a = Some m →
  lfree h = first_free 0 (a ++ (n, false) :: b) →
  ∃ h', plug_forward (total a) m h = Ret ((), h') ∧
    tiles (ram h') (a ++ absorb n b) ∧ lfree h' = lfree h ∧ stat_used h' = stat_used h.
Proof.
  intros Ht Hm Hl. pose proof (tiles_sizes _ _ Ht) as (Hsz & _ & _).
  destruct (tiles_cons_inv _ _ _ _ _ Ht)
    as (p1 & pe & Ha & Hm' & Hb & He & H18 & Hab & Ha0 & Hb0 & _).
  rewrite Hm in Hm'. injection Hm' as ->. unfold plug_forward. cbn [next].
  assert (lfree h ≤ total a) as Hle.
  { rewrite Hl, first_free_app. apply list.Forall_app in Hsz as [Hsz _].
    destruct (forallb snd a) eqn:E; simpl; [lia|]. pose proof (first_free_lt 0 a E Hsz). lia. }
  assert (tiles (ram h) ((a ++ [(n, false)]) ++ b)) as Ht2 by by rewrite <- (assoc app).
  destruct (tiles_boundary _ _ _ Ht2) as (m2 & Hm2 & Hu2 & _ & _ & _ & Hb2).
  rewrite total_app in Hm2, Hb2. simpl in Hm2, Hb2. rewrite Z.add_0_r in Hm2, Hb2.
  erewrite bind_Ret; [|apply header_rd_ok; exact Hm2].
  rewrite (proj2 (Z.eqb_neq _ _)) by lia. rewrite Hu2, negb_involutive. simpl negb. simpl andb.
  destruct b as [|[n2 u2] b]; simpl in *; [by exists h|].
  destruct u2; simpl; [by exists h|]. change ram_end with MEM_SIZE.
  destruct Hb2 as (Hn2 & H182 & Hb20). rewrite (proj2 (Z.eqb_neq _ MEM_SIZE)) by lia.
  destruct Hb as [p' (Hm2' & _ & Hb)]. rewrite Hab in *. rewrite Hm2 in Hm2'. injection Hm2' as ->.
  unfold when at 1. cbn [negb andb]. rewrite (bind_Ret _ _ _ (lfree h) h eq_refl).
  rewrite (proj2 (Z.eqb_neq (lfree h) _)) by lia. unfold when.
  rewrite (bind_Ret _ _ _ () h eq_refl), (bind_Ret _ _ _ () _ eq_refl). cbn [next with_next prev used].
  rewrite u16_id by (unfold is_u16, MEM_SIZE in *; lia).
  replace (MEM_SIZE - (n2 + total b) + n2) with (MEM_SIZE - total b) in * by lia.
  assert (is_Some (ram h !! (MEM_SIZE - total b))) as [x Hx].
  { pose proof (tiles_header_some (ram h) ((a ++ [(n, false)]) ++ [(n2, false)]) b) as H.
    rewrite <- !(assoc app) in H. specialize (H Ht). rewrite !total_app in H. simpl in H.
    by replace (total a + (n + 0 + (n2 + 0))) with (MEM_SIZE - total b) in H by lia. }
  erewrite relink_run; [|cbn [ram set_ram]; rewrite lookup_insert_ne by lia; exact Hx].
  eexists. split; [done|]. split_and!; [|done|done]. cbn [ram set_ram].
  eapply tiles_merge; eauto; lia.
Qed.

Lemma tiles_snoc_inv r a k v n u b : tiles r ((a ++ [(k, v)]) ++ (n, u) :: b) →
  r !! total (a ++ [(k, v)]) =
    Some (mk_mem (total (a ++ [(k, v)]) + n) (total a) u) ∧
  ∃ p0, r !! total a = Some (mk_mem (total a + k) p0 v) ∧ seg r 0 0 a p0 (total a).
Proof.
  intros [[p' Hs] _]. apply seg_app in Hs as (p1 & Ha & Hm & _).
  apply seg_app in Ha as (p0 & Ha & Hk & _ & E). rewrite !Z.add_0_l in *.
  destruct E as [<- _]. eauto.
Qed.

Lemma plug_backward_ok h a n b :
  tiles (ram h) (a ++ (n, false) :: b) → lfree h = first_free 0 (a ++ (n, false) :: b) →
  head_free b = false →
  ∃ h', plug_backward (total a) h = Ret ((), h') ∧
    tiles (ram h') (merge_at a ((n, false) :: b)) ∧
    lfree h' = lfree h ∧ stat_used h' = stat_used h.
Proof.
  intros Ht Hl Hhb. pose proof (tiles_sizes _ _ Ht) as (Hsz & _ & _).
  destruct (tiles_cons_inv _ _ _ _ _ Ht)
    as (p1 & pe & Ha & Hm & Hb & He & H18 & Hab & Ha0 & Hb0 & Hnil & _).
  unfold plug_backward. erewrite bind_Ret; [|apply header_rd_ok; exact Hm]. cbn [prev next].
  destruct (decide (a = [])) as [->|Hne].
  { rewrite Hnil in * by done. simpl in Hm |- *. erewrite bind_Ret; [|apply header_rd_ok; exact Hm].
    by exists h. }
  destruct (exists_last Hne) as (a' & [k v] & ->).
  destruct (tiles_snoc_inv _ _ _ _ _ _ _ Ht) as (Hm' & p0 & Hk & Ha').
  rewrite Hm in Hm'. injection Hm' as ->.
  erewrite bind_Ret; [|apply header_rd_ok; exact Hk]. cbn [used].
  apply list.Forall_app in Hsz as [Hsz _]. apply list.Forall_app in Hsz as [Hsz' Hk18].
  apply list.Forall_cons in Hk18 as [Hk18 _]. simpl in Hk18.
  rewrite total_app in *. simpl in *. rewrite !Z.add_0_r in *.
  assert (0 ≤ total a') by (clear -Hsz'; induction Hsz' as [|[??]]; simpl in *; lia).
  rewrite (proj2 (Z.eqb_neq (total a') _)) by lia. simpl.
  destruct v; simpl.
  { exists h. split_and!; try done. rewrite merge_at_used; [done|apply last_free_snoc]. }
  rewrite (bind_Ret _ _ _ (lfree h) h eq_refl).
  assert (lfree h ≤ total a') as Hle.
  { rewrite Hl, <- (assoc app), first_free_app. destruct (forallb snd a') eqn:E; simpl; [lia|].
    pose proof (first_free_lt 0 a' E Hsz'). lia. }
  rewrite (proj2 (Z.eqb_neq (lfree h) _)) by lia. unfold when.
  rewrite (bind_Ret _ _ _ () h eq_refl), (bind_Ret _ _ _ () _ eq_refl).
  cbn [with_next next prev used]. rewrite Hab.
  rewrite u16_id by (unfold is_u16, MEM_SIZE in *; lia).
  assert (is_Some (ram h !! (MEM_SIZE - total b))) as [x Hx].
  { destruct Hb as [p' Hb]. destruct b as [|[n' u'] b]; simpl in *.
    - rewrite Z.sub_0_r. eauto.
    - destruct Hb as [-> _]. eauto. }
  erewrite relink_run; [|cbn [ram set_ram]; rewrite lookup_insert_ne by lia; exact Hx].
  eexists. split; [done|]. split_and!; [|done|done]. cbn [ram set_ram].
  rewrite merge_at_snoc. unfold absorb.
  eapply tiles_merge; eauto; lia.
Qed.

Lemma merge_at_first_free a n b :
  first_free 0 (merge_at a (absorb n b)) = first_free 0 (a ++ (n, false) :: b).
Proof.
  destruct (last_free a) eqn:E.
  - destruct (decide (a = [])) as [->|Hne]; [done|].
    destruct (exists_last Hne) as (a' & [k v] & ->). rewrite last_free_snoc in E.
    destruct v; [done|]. rewrite merge_at_snoc, <- (assoc app), !first_free_app.
    destruct (forallb snd a'); [|done]. by destruct b as [|[m []] b].
  - rewrite merge_at_used, !first_free_app by done.
    destruct (forallb snd a); [|done]. by destruct b as [|[m []] b].
Qed.

Lemma merge_at_used_total a n b :
  used_total (merge_at a (absorb n b)) = used_total (a ++ b).
Proof.
  assert (∀ k t, used_total (absorb k t) = used_total t) as Hab.
  { intros k t. by destruct t as [|[m []] t]. }
  destruct (last_free a) eqn:E.
  - destruct (decide (a = [])) as [->|Hne]; [done|].
    destruct (exists_last Hne) as (a' & [k v] & ->). rewrite last_free_snoc in E.
    destruct v; [done|]. rewrite merge_at_snoc, <- (assoc app), !used_total_app, !Hab. done.
  - by rewrite merge_at_used, !used_total_app, Hab by done.
Qed.

Lemma merge_at_adj a n b : no_adj a = true → no_adj b = true →
  no_adj (merge_at a (absorb n b)) = true.
Proof.
  intros Ha Hb.
  assert (∀ k t, no_adj t = true →
    no_adj (absorb k t) = true ∧ head_free (absorb k t) = true ∧
    ∃ m t', absorb k t = (m, false) :: t' ∧ no_adj t' = true ∧ head_free t' = false) as Habs.
  { intros k t Ht. destruct t as [|[m [|]] t]; simpl in *.
    - split_and!; try done. by exists k, [].
    - split_and!; try done. by exists k, ((m, true) :: t).
    - destruct (head_free t) eqn:E; [done|]. simpl in Ht. split_and!; try done.
      by exists (k + m), t. }
  destruct (Habs n b Hb) as (H1 & H2 & m & t & Et & Ht & Hht).
  destruct (last_free a) eqn:E.
  - destruct (decide (a = [])) as [->|Hne]; [done|].
    destruct (exists_last Hne) as (a' & [k v] & ->). rewrite last_free_snoc in E.
    destruct v; [done|]. rewrite merge_at_snoc, Et. rewrite no_adj_app in Ha |- *.
    simpl in *. rewrite Ht, Hht. simpl. rewrite !andb_true_r in *.
    by destruct (no_adj a'), (last_free a').
  - rewrite merge_at_used, no_adj_app, Ha, H1, E by done. done.
Qed.

(** The data pointers of the blocks in use. *)
Fixpoint allocated (ptr : Z) (bs : list block) : list Z :=
  match bs with
  | [] => []
  | (n, u) :: t => (if u then [ptr + 6] else []) ++ allocated (ptr + n) t
  end.

Lemma allocated_split ptr bs p : p ∈ allocated ptr bs →
  ∃ a n b, bs = a ++ (n, true) :: b ∧ p = ptr + total a + 6.
Proof.
  revert ptr. induction bs as [|[n u] bs IH]; intros ptr; simpl; [by intros ?%elem_of_nil|].
  rewrite elem_of_app. intros [H|H].
  - destruct u; [|by apply elem_of_nil in H]. apply list_elem_of_singleton in H as ->.
    exists [], n, bs. simpl. split; [done|lia].
  - apply IH in H as (a & m & b & -> & ->). exists ((n, u) :: a), m, b. simpl. split; [done|lia].
Qed.

(** [plug_holes] on the block just freed merges it with its free neighbours. *)
Lemma plug_holes_ok h a n b :
  tiles (ram h) (a ++ (n, false) :: b) → lfree h = first_free 0 (a ++ (n, false) :: b) →
  no_adj a = true → no_adj b = true → stat_used h = used_total (a ++ b) →
  ∃ h', plug_holes (total a) h = Ret ((), h') ∧ wf h' (merge_at a (absorb n b)).
Proof.
  intros Ht Hl Hadja Hadjb Hu.
  destruct (tiles_cons_inv _ _ _ _ _ Ht)
    as (p1 & pe & Ha & Hm & Hb & He & H18 & Hab & Ha0 & Hb0 & _).
  unfold plug_holes. memconst.
  rewrite (bind_Ret _ _ _ () h) by (unfold assert_; by rewrite (proj2 (Z.leb_le _ _)) by lia).
  rewrite (bind_Ret _ _ _ () h) by (unfold assert_; by rewrite (proj2 (Z.ltb_lt _ _)) by lia).
  erewrite bind_Ret; [|apply header_rd_ok; exact Hm]. cbn [used next negb].
  rewrite (bind_Ret _ _ _ () h eq_refl).
  rewrite (bind_Ret _ _ _ () h) by (unfold assert_; by rewrite (proj2 (Z.leb_le _ _)) by lia).
  destruct (plug_forward_ok _ _ _ _ _ Ht Hm Hl) as (h3 & Hrun & Ht3 & Hl3 & Hu3).
  rewrite (bind_Ret _ _ _ () h3 Hrun).
  assert (∃ m t, absorb n b = (m, false) :: t ∧ head_free t = false) as (m & t & Et & Hht).
  { destruct b as [|[m [|]] b]; simpl in *.
    - by exists n, [].
    - by exists n, ((m, true) :: b).
    - exists (n + m), b. by destruct (head_free b). }
  rewrite Et in Ht3.
  assert (first_free 0 (a ++ (n, false) :: b) = first_free 0 (a ++ (m, false) :: t)) as Eff
    by (rewrite !first_free_app; by destruct (forallb snd a)).
  destruct (plug_backward_ok h3 a m t Ht3) as (h4 & Hrun4 & Ht4 & Hl4 & Hu4);
    [congruence|done|].
  exists h4. split; [done|]. rewrite <- Et in Ht4. constructor; [done| | |].
  - by apply merge_at_adj.
  - rewrite merge_at_first_free. congruence.
  - rewrite merge_at_used_total. congruence.
Qed.

Lemma total_nonneg bs : Forall (λ b : block, 18 ≤ b.1) bs → 0 ≤ total bs.
Proof. induction 1 as [|[??]]; simpl in *; lia. Qed.

Lemma first_free_ge p bs : Forall (λ b : block, 18 ≤ b.1) bs → p ≤ first_free p bs.
Proof.
  intros Hf. destruct (first_free_split p bs) as [[-> _]|(x & y & z & -> & _ & ->)].
  - pose proof (total_nonneg _ Hf). lia.
  - apply list.Forall_app in Hf as [Hf _]. pose proof (total_nonneg _ Hf). lia.
Qed.

(** [lfree] once the block after [a] is free. *)
Lemma first_free_freed a n b : Forall (λ b : block, 18 ≤ b.1) (a ++ (n, true) :: b) →
  first_free 0 (a ++ (n, false) :: b) =
  if total a <? first_free 0 (a ++ (n, true) :: b) then total a
  else first_free 0 (a ++ (n, true) :: b).
Proof.
  intros Hf. apply list.Forall_app in Hf as [Hfa Hfb].
  apply list.Forall_cons in Hfb as [Hn Hfb]. simpl in Hn.
  rewrite !first_free_app, !Z.add_0_l. cbn [first_free]. destruct (forallb snd a) eqn:E.
  - pose proof (first_free_ge (total a + n) b Hfb).
    by rewrite (proj2 (Z.ltb_lt _ _)) by lia.
  - pose proof (first_free_lt 0 a E Hfa). by rewrite (proj2 (Z.ltb_ge _ _)) by lia.
Qed.

(** [mem_free] of an allocated block refines [a_free]. *)
Lemma mem_free_ok h a n b : wf h (a ++ (n, true) :: b) →
  ∃ h', mem_free (Some (total a + 6)) h = Ret ((), h') ∧ wf h' (merge_at a (absorb n b)).
Proof.
  intros [Ht Hadj Hl Hu]. pose proof (tiles_sizes _ _ Ht) as (Hsz & _ & Hr).
  destruct (tiles_cons_inv _ _ _ _ _ Ht)
    as (p1 & pe & Ha & Hm & Hb & He & H18 & Hab & Ha0 & Hb0 & _).
  rewrite no_adj_app in Hadj. simpl in Hadj. rewrite andb_false_r, andb_true_r in Hadj.
  apply andb_prop in Hadj as [Hadja Hadjb].
  assert (tiles (<[total a := mk_mem (total a + n) p1 false]> (ram h)) (a ++ (n, false) :: b))
    as Ht1 by (eapply tiles_set_used; eauto).
  pose proof (tiles_sizes _ _ Ht1) as (_ & _ & Hr1).
  rewrite !used_total_app in *. simpl in Hu, Hr, Hr1.
  unfold mem_free. memconst. rewrite Z.land_0_r.
  rewrite (bind_Ret _ _ _ () h eq_refl), (bind_Ret _ _ _ () h).
  2:{ unfold assert_. rewrite (proj2 (Z.leb_le _ _)), (proj2 (Z.ltb_lt _ _)) by lia. done. }
  replace (total a + 6 - 6) with (total a) by lia.
  erewrite bind_Ret; [|apply header_rd_ok; exact Hm]. cbn [used next].
  do 2 rewrite (bind_Ret _ _ _ () _ eq_refl). unfold with_used. cbn [next prev used].
  rewrite bind_get_lfree. change (lfree (set_ram _ h)) with (lfree h).
  rewrite (u16_id (total a)) by (unfold is_u16; lia).
  rewrite bind_when_lfree, bind_dec_used. change (lfree (set_ram _ h)) with (lfree h).
  rewrite Hl, <- first_free_freed by done. apply plug_holes_ok; try done. simpl. rewrite used_total_app, Hu, u16_id by (unfold is_u16; lia).
  lia.
Qed.

(** ** mem_trim *)

(** The common end of the two cases of [mem_trim] that split the block. *)
Lemma trim_split_ok h a s t b p1 p2 pe l d u0 :
  seg (ram h) 0 0 a p1 (total a) →
  (∃ p', seg (ram h) p2 (MEM_SIZE - total b) b p' MEM_SIZE) →
  ram h !! MEM_SIZE = Some (mk_mem MEM_SIZE pe true) →
  ram h !! total a = Some (mk_mem u0 p1 true) →
  0 ≤ total a → 18 ≤ s → 18 ≤ t → total a + s + t = MEM_SIZE - total b → 0 ≤ total b →
  no_adj (a ++ (s, true) :: (t, false) :: b) = true →
  l = first_free 0 (a ++ (s, true) :: (t, false) :: b) →
  stat_used h - d = used_total (a ++ (s, true) :: (t, false) :: b) →
  ∃ h', (_ ← wr (total a + s) (mk_mem (MEM_SIZE - total b) (total a) false);
         m ← rd (total a);
         _ ← wr (total a) (with_next (total a + s) m);
         _ ← when (negb (MEM_SIZE - total b =? MEM_SIZE_ALIGNED))
               (x ← rd (MEM_SIZE - total b);
                wr (MEM_SIZE - total b) (with_prev (total a + s) x));
         _ ← MEM_STATS_DEC_USED d;
         mret (Some (total a + 6))) (set_lfree l h) = Ret (Some (total a + 6), h') ∧
    wf h' (a ++ (s, true) :: (t, false) :: b).
Proof.
  intros Ha Hb He Hm Ha0 Hs Ht Hst Hb0 Hadj Hl Hd.
  pose proof (tiles_split_pair _ _ _ _ _ _ s t Ha Hb He Ha0 Hs Ht Hst Hb0) as Htl.
  pose proof (tiles_sizes _ _ Htl) as (_ & _ & Hr).
  rewrite bind_wr.
  erewrite bind_Ret; [|apply header_rd_ok; cbn; rewrite lookup_insert_ne by lia; exact Hm].
  rewrite bind_wr.
  erewrite bind_Ret; [|apply relink_end_run].
  2:{ intros Hne. cbn. rewrite !lookup_insert_ne by lia.
      destruct Hb as [p' Hb]. destruct b as [|[n' u'] b]; simpl in *; [lia|].
      destruct Hb as [-> _]. eauto. }
  rewrite bind_dec_used. eexists. split; [done|].
  constructor; cbn [ram set_ram set_used set_lfree lfree stat_used]; try done.
  rewrite Hd, u16_id; [done|]. unfold is_u16. memconst. simpl app in Hr. lia.
Qed.

(** The case of [mem_trim] whose next block is free: it grows downwards. *)
Lemma trim_grow_ok h a n m b size :
  wf h (a ++ (n, true) :: (m, false) :: b) → 12 ≤ size → size + 6 < n →
  let ptr2 := total a + (size + 6) in
  ∃ h', (_ ← wr ptr2 (mk_mem (total a + n + m) (total a) false);
         x ← rd (total a);
         _ ← wr (total a) (with_next ptr2 x);
         _ ← when (negb (total a + n + m =? MEM_SIZE_ALIGNED))
               (x ← rd (total a + n + m); wr (total a + n + m) (with_prev ptr2 x));
         _ ← MEM_STATS_DEC_USED (n - 6 - size);
         mret (Some (total a + 6)))
        (set_lfree (if lfree h =? total a + n then ptr2 else lfree h) h) =
        Ret (Some (total a + 6), h') ∧
    wf h' (a ++ (size + 6, true) :: (n - (size + 6) + m, false) :: b).
Proof.
  intros [Ht Hadj Hl Hu] Hs Hn ptr2. pose proof (tiles_sizes _ _ Ht) as (Hsz & _ & Hr).
  destruct (tiles_cons_inv _ _ _ _ _ Ht)
    as (p1 & pe & Ha & Hm & [p' Hb] & He & H18 & Hab & Ha0 & Hb0 & _).
  destruct Hb as (Hm2 & H182 & Hb). simpl in Hab, Hb0.
  apply list.Forall_app in Hsz as [Hsza Hszb]. do 2 apply list.Forall_cons in Hszb as [_ Hszb].
  pose proof (total_nonneg _ Hszb).
  replace (MEM_SIZE - total ((m, false) :: b) + m) with (MEM_SIZE - total b) in Hb by (simpl; lia).
  replace (total a + n + m) with (MEM_SIZE - total b) by lia.
  rewrite no_adj_app in Hadj. rewrite used_total_app in Hu, Hr. rewrite first_free_app in Hl.
  simpl in Hadj, Hu, Hr, Hl. unfold ptr2.
  apply (trim_split_ok h a (size + 6) (n - (size + 6) + m) b p1 (MEM_SIZE - total ((m, false) :: b)) pe _ _
    (total a + n)); eauto; try lia.
  - rewrite no_adj_app. simpl. by destruct (no_adj a), (no_adj b), (head_free b), (last_free a).
  - rewrite first_free_app, Hl. simpl. destruct (forallb snd a) eqn:E.
    + rewrite (proj2 (Z.eqb_eq _ _)) by lia. lia.
    + pose proof (first_free_lt 0 a E Hsza). by rewrite (proj2 (Z.eqb_neq _ _)) by lia.
  - rewrite Hu, used_total_app. simpl. lia.
Qed.

(** The case whose next block is in use, with room for a free block. *)
Lemma trim_new_ok h a n b size :
  wf h (a ++ (n, true) :: b) → head_free b = false → 12 ≤ size → size + 24 ≤ n →
  let ptr2 := total a + (size + 6) in
  ∃ h', (_ ← wr ptr2 (mk_mem (total a + n) (total a) false);
         x ← rd (total a);
         _ ← wr (total a) (with_next ptr2 x);
         _ ← when (negb (total a + n =? MEM_SIZE_ALIGNED))
               (x ← rd (total a + n); wr (total a + n) (with_prev ptr2 x));
         _ ← MEM_STATS_DEC_USED (n - 6 - size);
         mret (Some (total a + 6)))
        (set_lfree (if ptr2 <? lfree h then ptr2 else lfree h) h) =
        Ret (Some (total a + 6), h') ∧
    wf h' (a ++ (size + 6, true) :: (n - (size + 6), false) :: b).
Proof.
  intros [Ht Hadj Hl Hu] Hhb Hs Hn ptr2. pose proof (tiles_sizes _ _ Ht) as (Hsz & _ & Hr).
  destruct (tiles_cons_inv _ _ _ _ _ Ht)
    as (p1 & pe & Ha & Hm & Hb & He & H18 & Hab & Ha0 & Hb0 & _).
  apply list.Forall_app in Hsz as [Hsza Hszb]. apply list.Forall_cons in Hszb as [_ Hszb].
  rewrite no_adj_app in Hadj. rewrite used_total_app in Hu, Hr. rewrite first_free_app in Hl.
  simpl in Hadj, Hu, Hr, Hl. unfold ptr2. rewrite Hab.
  apply (trim_split_ok h a (size + 6) (n - (size + 6)) b p1 (total a) pe _ _
    (total a + n)); eauto; try lia.
  - rewrite no_adj_app. simpl. rewrite Hhb. by destruct (no_adj a), (no_adj b), (last_free a).
  - rewrite first_free_app, Hl. simpl. destruct (forallb snd a) eqn:E.
    + pose proof (first_free_ge (0 + total a + n) b Hszb).
      rewrite (proj2 (Z.ltb_lt _ _)) by lia. lia.
    + pose proof (first_free_lt 0 a E Hsza). by rewrite (proj2 (Z.ltb_ge _ _)) by lia.
  - rewrite Hu, used_total_app. simpl. lia.
Qed.

Lemma a_trim_used n size b : head_free b = false → size + 6 ≠ n →
  a_trim_at n size b =
  if size + 24 <=? n then (size + 6, true) :: (n - (size + 6), false) :: b else (n, true) :: b.
Proof.
  intros Hb Hn. unfold a_trim_at. rewrite (proj2 (Z.eqb_neq _ _)) by done.
  by destruct b as [|[m []] b].
Qed.

Lemma mem_trim_ok h a n b newsize :
  wf h (a ++ (n, true) :: b) → 0 ≤ newsize → request_size newsize + 6 ≤ n →
  ∃ h', mem_trim (total a + 6) newsize h = Ret (Some (total a + 6), h') ∧
        wf h' (a ++ a_trim_at n (request_size newsize) b).
Proof.
  intros Hwf Hns Hn. destruct (Hwf) as [Ht Hadj Hl Hu].
  pose proof (tiles_sizes _ _ Ht) as (Hsz & _ & Hr).
  destruct (tiles_cons_inv _ _ _ _ _ Ht)
    as (p1 & pe & Ha & Hm & Hb & He & H18 & Hab & Ha0 & Hb0 & _).
  unfold mem_trim, request_size in *. set (size := Z.max 12 newsize) in *.
  rewrite align_size, u16_id by (unfold is_u16, is_u32; memconst; lia).
  change MIN_SIZE_ALIGNED with 12. change SIZEOF_STRUCT_MEM with 6.
  replace (if newsize <? 12 then 12 else newsize) with size
    by (destruct (Z.ltb_spec newsize 12); lia).
  change MEM_SIZE_ALIGNED with MEM_SIZE at 1.
  rewrite Z.gtb_ltb, (proj2 (Z.ltb_ge _ _)) by lia.
  rewrite bind_assert by (memconst; lia).
  replace (total a + 6 - 6) with (total a) by lia.
  erewrite bind_Ret; [|apply header_rd_ok; exact Hm]. cbn [next].
  rewrite (u16_id (total a)) by (unfold is_u16; memconst; lia).
  replace (total a + n - total a - 6) with (n - 6) by lia.
  rewrite (u16_id (n - 6)) by (unfold is_u16; memconst; lia).
  rewrite bind_assert by lia.
  rewrite Z.gtb_ltb, (proj2 (Z.ltb_ge (n - 6) _)) by lia.
  replace (size =? n - 6) with (size + 6 =? n) by lia.
  destruct (Z.eqb_spec (size + 6) n) as [Heq|Hneq].
  { exists h. split; [done|]. unfold a_trim_at. by rewrite (proj2 (Z.eqb_eq _ _)) by done. }
  assert (tiles (ram h) ((a ++ [(n, true)]) ++ b)) as Ht2 by by rewrite <- (assoc app).
  destruct (tiles_boundary _ _ _ Ht2) as (m2 & Hm2 & Hu2 & _ & _ & _ & Hb2).
  rewrite total_app in Hm2, Hb2. simpl in Hm2, Hb2. rewrite Z.add_0_r in Hm2, Hb2.
  erewrite bind_Ret; [|apply header_rd_ok; exact Hm2]. rewrite Hu2, negb_involutive.
  rewrite (u16_id (total a + 6 + size)) by (unfold is_u16; memconst; lia).
  replace (total a + 6 + size) with (total a + (size + 6)) by lia.
  destruct (head_free b) eqn:Hhb.
  - destruct b as [|[m []] b]; try done. simpl in Hb2. destruct Hb2 as (-> & _).
    rewrite bind_get_lfree, bind_when_lfree.
    unfold a_trim_at. rewrite (proj2 (Z.eqb_neq (size + 6) n)) by done.
    apply trim_grow_ok; [done|lia..].
  - rewrite a_trim_used by done. replace (size + 6 + 12 <=? n - 6) with (size + 24 <=? n) by lia.
    destruct (Z.leb_spec (size + 24) n) as [Hle|Hgt]; [|by exists h].
    rewrite bind_get_lfree, bind_when_lfree. apply trim_new_ok; [done|done|lia..].
Qed.

(** ** The allocator over sequences of calls

    The calls of a client: allocate, release a block it holds, shrink a block it
    holds.  [a_step] is what the contract says of each one; it is defined on the
    calls a correct client makes, those on blocks that are in use. *)

Inductive call :=
  | Malloc (size : Z)
  | Free (p : Z)
  | Trim (p newsize : Z).

Inductive a_step : list block → call → option Z → list block → Prop :=
  | a_step_malloc bs size p bs' :
      0 < size ≤ MEM_SIZE → a_alloc (request_size size) 0 bs = Some (p, bs') →
      a_step bs (Malloc size) (Some p) bs'
  | a_step_null bs size :
      0 < size ≤ MEM_SIZE → a_alloc (request_size size) 0 bs = None →
      a_step bs (Malloc size) None bs
  | a_step_free bs p bs' :
      p ∈ allocated 0 bs → a_free (p - 6) 0 bs = Some bs' → a_step bs (Free p) None bs'
  | a_step_trim a n b newsize :
      0 ≤ newsize → request_size newsize + 6 ≤ n →
      a_step (a ++ (n, true) :: b) (Trim (total a + 6) newsize) (Some (total a + 6))
        (a ++ a_trim_at n (request_size newsize) b).

Inductive a_run : list block → list (call * option Z) → list block → Prop :=
  | a_run_nil bs : a_run bs [] bs
  | a_run_cons bs c r bs1 cs bs2 :
      a_step bs c r bs1 → a_run bs1 cs bs2 → a_run bs ((c, r) :: cs) bs2.

(** The calls on the heap of the code. *)
Definition exec (c : call) : M heap (option Z) :=
  match c with
  | Malloc size => mem_malloc size
  | Free p => _ ← mem_free (Some p); mret None
  | Trim p newsize => mem_trim p newsize
  end.

Fixpoint exec_all (cs : list call) : M heap (list (option Z)) :=
  match cs with
  | [] => mret []
  | c :: cs => r ← exec c; rs ← exec_all cs; mret (r :: rs)
  end.

Lemma mem_init_wf : wf mem_init [(MEM_SIZE, false)].
Proof.
  constructor; try done. split.
  - exists 0. cbn. split_and!; try done.
  - by exists 16000.
Qed.

Lemma free_step h bs p bs' : wf h bs → p ∈ allocated 0 bs → a_free (p - 6) 0 bs = Some bs' →
  ∃ h', mem_free (Some p) h = Ret ((), h') ∧ wf h' bs'.
Proof.
  intros Hwf Hp Hf. apply allocated_split in Hp as (a & n & b & -> & ->).
  pose proof (tiles_sizes _ _ (wf_tiles _ _ Hwf)) as (Hsz & _).
  pose proof (wf_holes _ _ Hwf) as Hadj. rewrite no_adj_app in Hadj.
  apply andb_prop in Hadj as [[Hadj _]%andb_prop _]. apply list.Forall_app in Hsz as [Hsz _].
  replace (0 + total a + 6 - 6) with (0 + total a) in Hf by lia.
  rewrite a_free_at in Hf by done. injection Hf as <-. rewrite Z.add_0_l. by apply mem_free_ok.
Qed.

(** One call of the code does what the contract says. *)
Lemma exec_step h bs c r bs' : wf h bs → a_step bs c r bs' →
  ∃ h', exec c h = Ret (r, h') ∧ wf h' bs'.
Proof.
  intros Hwf Hs. destruct Hs as [bs size p bs' Hsz Ha|bs size Hsz Ha|bs p bs' Hp Hf|a n b newsize H0 Hn].
  - destruct (mem_malloc_ok _ _ _ Hwf Hsz) as (h' & Hr & Hw). rewrite Ha in Hr, Hw. eauto.
  - destruct (mem_malloc_ok _ _ _ Hwf Hsz) as (h' & Hr & Hw). rewrite Ha in Hr, Hw. eauto.
  - destruct (free_step _ _ _ _ Hwf Hp Hf) as (h' & Hr & Hw). exists h'. split; [|done].
    cbn [exec]. by rewrite (bind_Ret _ _ _ _ _ Hr).
  - by apply mem_trim_ok.
Qed.

Lemma exec_run h bs cs bs' : wf h bs → a_run bs cs bs' →
  ∃ h', exec_all (fst <$> cs) h = Ret (snd <$> cs, h') ∧ wf h' bs'.
Proof.
  intros Hwf Hr. revert h Hwf. induction Hr as [|bs c r bs1 cs bs2 Hs Hr IH]; intros h Hwf.
  { by exists h. }
  destruct (exec_step _ _ _ _ _ Hwf Hs) as (h1 & E1 & Hwf1).
  destruct (IH _ Hwf1) as (h2 & E2 & Hwf2). exists h2. split; [|done].
  cbn [fmap list_fmap exec_all fst snd]. rewrite (bind_Ret _ _ _ _ _ E1).
  by rewrite (bind_Ret _ _ _ _ _ E2).
Qed.

(** ** Facts of the contract *)

(** The data bytes [p .. p + len) of every block in use. *)
Fixpoint extents (ptr : Z) (bs : list block) : list (Z * Z) :=
  match bs with
  | [] => []
  | (n, u) :: t => (if u then [(ptr + 6, n - 6)] else []) ++ extents (ptr + n) t
  end.

Lemma extents_app ptr a b : extents ptr (a ++ b) = extents ptr a ++ extents (ptr + total a) b.
Proof.
  revert ptr. induction a as [|[n u] a IH]; intros ptr; simpl; [by rewrite Z.add_0_r|].
  by rewrite IH, (assoc app), Z.add_assoc.
Qed.

Lemma extents_range ptr bs p l : Forall (λ b : block, 18 ≤ b.1) bs → (p, l) ∈ extents ptr bs →
  ptr + 6 ≤ p ∧ 12 ≤ l ∧ p + l ≤ ptr + total bs.
Proof.
  intros Hf. revert ptr. induction Hf as [|[n u] bs Hn Hf IH]; intros ptr; simpl in *;
    [by intros ?%elem_of_nil|].
  pose proof (total_nonneg _ Hf). rewrite elem_of_app. intros [Hp|Hp].
  - destruct u; [|by apply elem_of_nil in Hp]. apply list_elem_of_singleton in Hp as [= -> ->]. lia.
  - apply IH in Hp. lia.
Qed.

Lemma a_alloc_split size ptr bs p bs' : a_alloc size ptr bs = Some (p, bs') →
  ∃ a n b, bs = a ++ (n, false) :: b ∧ bs' = a ++ a_split n size ++ b ∧
    p = ptr + total a + 6 ∧ size + 6 ≤ n.
Proof.
  revert ptr p bs'. induction bs as [|[n u] bs IH]; intros ptr p bs'; simpl; [done|].
  destruct (negb u && (size + 6 <=? n)) eqn:E.
  - intros [= <- <-]. apply andb_prop in E as [Hu Hn]. destruct u; [done|].
    exists [], n, bs. simpl. split_and!; [done|done|lia|lia].
  - destruct (a_alloc size (ptr + n) bs) as [[q t]|] eqn:Ea; [|done]. intros [= <- <-].
    apply IH in Ea as (a & m & b & -> & -> & -> & Hm).
    exists ((n, u) :: a), m, b. simpl. split_and!; [done|done|lia|lia].
Qed.

Lemma a_alloc_none_inv size ptr bs : a_alloc size ptr bs = None →
  Forall (λ b : block, b.2 = false → b.1 < size + 6) bs.
Proof.
  revert ptr. induction bs as [|[n u] bs IH]; intros ptr; simpl; [constructor|].
  destruct (negb u && (size + 6 <=? n)) eqn:E; [done|].
  destruct (a_alloc size (ptr + n) bs) as [[q t]|] eqn:Ea; [done|]. intros _.
  constructor; [|by eapply IH]. simpl. intros ->. simpl in E. lia.
Qed.

Lemma no_used_single bs : no_adj bs = true → Forall (λ b : block, b.2 = false) bs →
  bs = [] ∨ bs = [(total bs, false)].
Proof.
  intros Hadj Hf. destruct Hf as [|[n u] bs Hu Hf]; [by left|right]. simpl in *. subst u.
  destruct Hf as [|[m v] bs Hv Hf]; [simpl; by rewrite Z.add_0_r|].
  simpl in *. by subst v.
Qed.

Lemma a_free_alloc size ptr bs p bs' : no_adj bs = true → 12 ≤ size →
  Forall (λ b : block, 18 ≤ b.1) bs → a_alloc size ptr bs = Some (p, bs') →
  a_free (p - 6) ptr bs' = Some bs.
Proof.
  intros Hadj Hs Hf Ha. apply a_alloc_split in Ha as (a & n & b & -> & -> & -> & Hn).
  apply list.Forall_app in Hf as [Hf _]. rewrite no_adj_app in Hadj. simpl in Hadj.
  replace (ptr + total a + 6 - 6) with (ptr + total a) by lia.
  destruct (no_adj a) eqn:Ea, (last_free a) eqn:El, (head_free b) eqn:Eb, (no_adj b);
    try done. unfold a_split. destruct (size + 24 <=? n); cbn [app];
    rewrite a_free_at by done; rewrite merge_at_used by done; do 2 f_equal; simpl.
  - do 2 f_equal. lia.
  - by destruct b as [|[m []] b].
Qed.

Lemma malloc_too_big h size : is_u16 size → size = 0 ∨ MEM_SIZE < size →
  mem_malloc size h = Ret (None, h).
Proof.
  intros Hu [->|Hs]; [done|]. unfold mem_malloc.
  rewrite (proj2 (Z.eqb_neq size 0)) by (unfold MEM_SIZE in *; lia).
  rewrite align_size, u16_id by clia. change MIN_SIZE_ALIGNED with 12.
  change MEM_SIZE_ALIGNED with MEM_SIZE.
  rewrite (proj2 (Z.ltb_ge size 12)) by (unfold MEM_SIZE in *; lia).
  by rewrite Z.gtb_ltb, (proj2 (Z.ltb_lt _ _)) by lia.
Qed.

Lemma block_le_total bs : Forall (λ b : block, 18 ≤ b.1) bs →
  Forall (λ b : block, b.1 ≤ total bs) bs.
Proof.
  induction 1 as [|[n u] bs Hn Hf IH]; [constructor|]. simpl in *.
  pose proof (total_nonneg _ Hf). constructor; simpl; [lia|].
  eapply list.Forall_impl; [exact IH|]. simpl. intros. lia.
Qed.

Lemma allocated_app ptr a b :
  allocated ptr (a ++ b) = allocated ptr a ++ allocated (ptr + total a) b.
Proof.
  revert ptr. induction a as [|[n u] a IH]; intros ptr; simpl; [by rewrite Z.add_0_r|].
  by rewrite IH, (assoc app), Z.add_assoc.
Qed.

Lemma allocated_a_split ptr a n size b :
  ptr + total a + 6 ∈ allocated ptr (a ++ a_split n size ++ b).
Proof.
  rewrite allocated_app, elem_of_app. right. unfold a_split.
  destruct (size + 24 <=? n); simpl; constructor.
Qed.

Lemma allocated_none ptr bs : allocated ptr bs = [] → Forall (λ b : block, b.2 = false) bs.
Proof.
  revert ptr. induction bs as [|[n []] bs IH]; intros ptr H; simpl in *; [constructor|done|].
  constructor; [done|]. by eapply IH.
Qed.

(** *** The blocks in use after each call *)

Lemma a_alloc_extents size bs p bs' : 12 ≤ size → Forall (λ b : block, 18 ≤ b.1) bs →
  a_alloc size 0 bs = Some (p, bs') →
  ∃ len, size ≤ len ∧ 0 ≤ p ∧ p + len ≤ total bs ∧
    (∀ q l, (q, l) ∈ extents 0 bs → q + l ≤ p - 6 ∨ p + len ≤ q - 6) ∧
    extents 0 bs' ≡ₚ (p, len) :: extents 0 bs.
Proof.
  intros Hs Hsz Ea. apply a_alloc_split in Ea as (a & n & b & -> & -> & -> & Hn).
  set (len := (if size + 24 <=? n then size + 6 else n) - 6). exists len.
  rewrite total_app. simpl. apply list.Forall_app in Hsz as [Hsa Hsb].
  apply list.Forall_cons in Hsb as [Hn18 Hsb]. simpl in Hn18.
  pose proof (total_nonneg _ Hsa). pose proof (total_nonneg _ Hsb).
  assert (size ≤ len ∧ len + 6 ≤ n) as [Hlen Hlenn]
    by (unfold len; destruct (Z.leb_spec (size + 24) n); lia).
  split_and!; [done|lia|lia| |].
  - intros q l. rewrite extents_app, elem_of_app. intros [Hq|Hq].
    + apply extents_range in Hq; [|done]. lia.
    + simpl in Hq. apply extents_range in Hq; [|done]. lia.
  - rewrite !extents_app. simpl. unfold a_split, len.
    destruct (size + 24 <=? n); simpl;
      rewrite <- Permutation_middle; do 3 (f_equiv; try lia); f_equal; lia.
Qed.

Lemma extents_absorb ptr n b : extents ptr (absorb n b) = extents (ptr + n) b.
Proof. destruct b as [|[m []] b]; simpl; [done|done|]. by rewrite Z.add_assoc. Qed.

Lemma extents_merge ptr a n b :
  extents ptr (merge_at a (absorb n b)) = extents ptr a ++ extents (ptr + total a + n) b.
Proof.
  destruct (last_free a) eqn:E.
  - destruct (decide (a = [])) as [->|Hne]; [done|].
    destruct (exists_last Hne) as (a' & [k v] & ->). rewrite last_free_snoc in E.
    destruct v; [done|]. rewrite merge_at_snoc, !extents_app, total_app. simpl.
    rewrite !extents_absorb, app_nil_r. by rewrite Z.add_0_r, <- !Z.add_assoc.
  - rewrite merge_at_used by done. rewrite extents_app, extents_absorb. done.
Qed.

Lemma extents_trim ptr n size b : 12 ≤ size → size + 6 ≤ n →
  ∃ k, size ≤ k ≤ n - 6 ∧
    extents ptr (a_trim_at n size b) = (ptr + 6, k) :: extents (ptr + n) b.
Proof.
  intros Hs Hn. unfold a_trim_at. destruct (Z.eqb_spec (size + 6) n) as [E|E].
  { exists size. split; [lia|]. simpl. do 2 f_equal. lia. }
  destruct b as [|[m []] b].
  3:{ exists size. split; [lia|]. cbn [extents app]. f_equal; [f_equal; lia|].
      f_equal; lia. }
  all: destruct (size + 24 <=? n);
    [exists size; split; [lia|]|exists (n - 6); split; [lia|done]].
  all: cbn [extents app]; f_equal; try (f_equal; lia).
  by replace (ptr + (size + 6) + (n - (size + 6))) with (ptr + n) by lia.
Qed.

(** ** Claims *)

(** C30: the allocator refines its contract.  From the heap [mem_init] sets up,
    any sequence of [mem_malloc], [mem_free] and [mem_trim] calls that the
    contract allows returns what the contract says, call by call, without a
    failed assertion or a stray access, and ends in a heap whose headers are
    those of the contract's blocks, with [lfree] at the lowest free block, no
    two adjacent free blocks and an exact count of the used bytes. *)
Theorem heap_refines_contract cs bs :
  a_run [(MEM_SIZE, false)] cs bs →
  ∃ h, exec_all (fst <$> cs) mem_init = Ret (snd <$> cs, h) ∧ wf h bs.
Proof. intros Hr. by apply exec_run with [(MEM_SIZE, false)]; [apply mem_init_wf|]. Qed.

Lemma heap_refines_contract_witness :
  ∃ h, exec_all [Malloc 100; Malloc 5; Trim 6 40; Free 112] mem_init =
         Ret ([Some 6; Some 112; Some 6; None], h) ∧ wf h [(46, true); (15954, false)].
Proof.
  refine (heap_refines_contract
    [(Malloc 100, Some 6); (Malloc 5, Some 112); (Trim 6 40, Some 6); (Free 112, None)]
    [(46, true); (15954, false)] _).
  eapply a_run_cons; [apply a_step_malloc; [by vm_compute|vm_compute; reflexivity]|].
  eapply a_run_cons; [apply a_step_malloc; [by vm_compute|vm_compute; reflexivity]|].
  eapply a_run_cons; [apply (a_step_trim [] 106); by vm_compute|].
  eapply a_run_cons; [apply a_step_free with (bs' := [(46, true); (15954, false)])|].
  - apply (bool_decide_unpack _). vm_compute. reflexivity.
  - vm_compute. reflexivity.
  - constructor.
Defined.

(** C31: a block [mem_malloc] returns lies inside the heap, holds the bytes asked
    for, overlaps no block in use, and every block in use keeps its place and
    size. *)
Theorem mem_malloc_disjoint h bs size p h' :
  wf h bs → is_u16 size → mem_malloc size h = Ret (Some p, h') →
  ∃ len bs', wf h' bs' ∧ size ≤ len ∧ 0 ≤ p ∧ p + len ≤ MEM_SIZE ∧
    (∀ q l, (q, l) ∈ extents 0 bs → q + l ≤ p - 6 ∨ p + len ≤ q - 6) ∧
    extents 0 bs' ≡ₚ (p, len) :: extents 0 bs.
Proof.
  intros Hwf Hu Hrun. destruct (decide (size = 0 ∨ MEM_SIZE < size)) as [Hs|Hs].
  { by rewrite malloc_too_big in Hrun. }
  destruct (mem_malloc_ok h bs size Hwf) as (h2 & Hrun2 & Hwf2); [clia|].
  rewrite Hrun in Hrun2.
  destruct (a_alloc (request_size size) 0 bs) as [[q bs']|] eqn:Ea; [|done].
  injection Hrun2 as -> <-. simpl in Hwf2.
  pose proof (tiles_sizes _ _ (wf_tiles _ _ Hwf)) as (Hsz & Htot & _).
  apply a_alloc_extents in Ea as (len & Hl & H0 & H1 & Hd & HP);
    [|unfold request_size; lia|done].
  exists len, bs'. unfold request_size in Hl. split_and!; [done|lia|done|lia|done|done].
Qed.

Lemma mem_malloc_disjoint_witness :
  ∃ h' len bs', mem_malloc 100 mem_init = Ret (Some 6, h') ∧ wf h' bs' ∧ 100 ≤ len ∧
    extents 0 bs' ≡ₚ [(6, len)].
Proof.
  destruct (mem_malloc 100 mem_init) as [[r h']|] eqn:E; [|by vm_compute in E].
  assert (r = Some 6) as -> by (vm_compute in E; congruence).
  destruct (mem_malloc_disjoint mem_init [(MEM_SIZE, false)] 100 6 h')
    as (len & bs' & Hwf & Hl & _ & _ & _ & Hp); [apply mem_init_wf|by vm_compute|done|].
  by exists h', len, bs'.
Defined.

(** [mem_malloc] returns NULL only when it has to: the size is 0 or exceeds
    the heap, or every free block is too small for the (rounded up) size; the
    blocks then stay as they are. *)
Theorem mem_malloc_null h bs size :
  wf h bs → is_u16 size →
  (∃ h', mem_malloc size h = Ret (None, h')) ↔
  size = 0 ∨ Forall (λ b : block, b.2 = false → b.1 < request_size size + 6) bs.
Proof.
  intros Hwf Hu. pose proof (tiles_sizes _ _ (wf_tiles _ _ Hwf)) as (Hsz & Htot & _).
  destruct (decide (size = 0 ∨ MEM_SIZE < size)) as [Hs|Hs].
  - rewrite malloc_too_big by done. split; [intros _|eauto]. destruct Hs as [->|Hs]; [by left|right].
    eapply list.Forall_impl; [apply block_le_total; exact Hsz|]. intros b Hb _. simpl in Hb.
    unfold request_size. lia.
  - destruct (mem_malloc_ok h bs size Hwf) as (h2 & -> & _); [clia|].
    destruct (a_alloc (request_size size) 0 bs) as [[q bs']|] eqn:Ea; simpl.
    + split; [by intros [? [=]]|intros [->|Hf]; [lia|]].
      apply a_alloc_split in Ea as (a & n & b & -> & _ & _ & Hn).
      apply list.Forall_app in Hf as [_ Hf]. apply list.Forall_cons in Hf as [Hf _].
      specialize (Hf eq_refl). simpl in Hf. lia.
    + split; [intros _; right; by eapply a_alloc_none_inv|by eauto].
Qed.

(** Releasing a block right after allocating it restores the heap's blocks,
    whatever the heap looked like: splitting and coalescing are inverse. *)
Theorem mem_malloc_free_roundtrip h bs size p h1 :
  wf h bs → is_u16 size → mem_malloc size h = Ret (Some p, h1) →
  ∃ h2, mem_free (Some p) h1 = Ret ((), h2) ∧ wf h2 bs.
Proof.
  intros Hwf Hu Hrun. destruct (decide (size = 0 ∨ MEM_SIZE < size)) as [Hs|Hs].
  { by rewrite malloc_too_big in Hrun. }
  destruct (mem_malloc_ok h bs size Hwf) as (h1' & Hrun1 & Hwf1); [clia|].
  rewrite Hrun in Hrun1. pose proof (tiles_sizes _ _ (wf_tiles _ _ Hwf)) as (Hsz & _).
  destruct (a_alloc (request_size size) 0 bs) as [[q bs']|] eqn:Ea; [|done].
  injection Hrun1 as -> <-. simpl in Hwf1. apply (free_step _ bs'); [done| |].
  - apply a_alloc_split in Ea as (a & n & b & _ & -> & -> & _).
    apply allocated_a_split.
  - apply (a_free_alloc (request_size size)); [apply Hwf|unfold request_size; lia|done|done].
Qed.

Lemma mem_malloc_free_roundtrip_witness :
  ∃ h1 h2, mem_malloc 200 mem_init = Ret (Some 6, h1) ∧
    mem_free (Some 6) h1 = Ret ((), h2) ∧ wf h2 [(MEM_SIZE, false)].
Proof.
  destruct (mem_malloc 200 mem_init) as [[r h1]|] eqn:E; [|by vm_compute in E].
  assert (r = Some 6) as -> by (vm_compute in E; congruence).
  destruct (mem_malloc_free_roundtrip mem_init [(MEM_SIZE, false)] 200 6 h1)
    as (h2 & Hf & Hw); [apply mem_init_wf|by vm_compute|done|].
  by exists h1, h2.
Defined.

(** No fragmentation survives: after any sequence of calls at whose end
    every block has been released, the whole heap can be allocated again. *)
Theorem heap_recovers cs bs :
  a_run [(MEM_SIZE, false)] cs bs → allocated 0 bs = [] →
  ∃ h h', exec_all (fst <$> cs) mem_init = Ret (snd <$> cs, h) ∧
    mem_malloc (MEM_SIZE - SIZEOF_STRUCT_MEM) h = Ret (Some SIZEOF_STRUCT_MEM, h').
Proof.
  intros Hr Hal. destruct (exec_run _ _ _ _ mem_init_wf Hr) as (h & Hrun & Hwf).
  pose proof (tiles_sizes _ _ (wf_tiles _ _ Hwf)) as (_ & Htot & _).
  destruct (no_used_single bs) as [->|Ebs]; [apply Hwf|by eapply allocated_none|done|].
  rewrite Htot in Ebs. subst bs.
  destruct (mem_malloc_ok h _ (MEM_SIZE - SIZEOF_STRUCT_MEM) Hwf) as (h' & Hm & _); [by vm_compute|].
  exists h, h'. split; [done|]. rewrite Hm. by vm_compute.
Qed.

Lemma heap_recovers_witness :
  ∃ h h', exec_all [Malloc 100; Free 6] mem_init = Ret ([Some 6; None], h) ∧
    mem_malloc (MEM_SIZE - SIZEOF_STRUCT_MEM) h = Ret (Some SIZEOF_STRUCT_MEM, h').
Proof.
  refine (heap_recovers [(Malloc 100, Some 6); (Free 6, None)] [(MEM_SIZE, false)] _ eq_refl).
  eapply a_run_cons; [apply a_step_malloc; [by vm_compute|vm_compute; reflexivity]|].
  eapply a_run_cons; [apply a_step_free with (bs' := [(MEM_SIZE, false)])|].
  - apply (bool_decide_unpack _). vm_compute. reflexivity.
  - vm_compute. reflexivity.
  - constructor.
Defined.
