(* ===== verification/Memp.v ===== *)
(** * The memory pools: [lwip/src/core/memp.c]

    A pool is an array of elements of one size; the free ones form a singly
    linked list whose links live in the elements themselves ([MEMP_SIZE] is 0
    without [MEMP_OVERFLOW_CHECK]).  The map [links] holds the [struct memp] of
    the free elements, by address: an element handed out belongs to its owner,
    whose data overwrites the link, so it has no entry until it is freed. *)

From S2P Require Import Prelude.

Module Memp.

(** ** Descriptors and state *)

Record memp_desc := mk_desc {
  size : Z;    (* u16_t: element size *)
  num : Z;     (* u16_t: number of elements *)
  base : Z;    (* address of the array *)
}.

Record pool := mk_pool {
  links : gmap Z (option Z);    (* struct memp: next *)
  tab : option Z;               (* *desc->tab *)
  used : Z; max : Z; err : Z; avail : Z;   (* *desc->stats *)
}.

Definition MEMP_SIZE : Z := 0.

(** ** Operations *)

(** One round of the loop of [memp_init_pool]: link [memp], step to the next. *)
Fixpoint init_links (n : nat) (d : memp_desc) (memp : Z) (l : gmap Z (option Z))
    (t : option Z) : gmap Z (option Z) * option Z :=
  match n with
  | O => (l, t)
  | S n' => init_links n' d (memp + MEMP_SIZE + size d) (<[memp := t]> l) (Some memp)
  end.

(** [memp_init_pool(desc)]; the statistics are static, hence 0. *)
Definition memp_init_pool (d : memp_desc) : pool :=
  let '(l, t) := init_links (Z.to_nat (num d)) d (base d) ∅ None in
  mk_pool l t 0 0 0 (num d).

(** [do_memp_malloc_pool(desc)] *)
Definition do_memp_malloc_pool : M pool (option Z) := λ p,
  match tab p with
  | Some memp =>
      match links p !! memp with
      | None => Err DanglingPtr
      | Some next =>
          let used' := u16 (used p + 1) in
          Ret (Some (memp + MEMP_SIZE),
               mk_pool (delete memp (links p)) next used'
                 (if used' >? max p then used' else max p) (err p) (avail p))
      end
  | None =>
      Ret (None, mk_pool (links p) (tab p) (used p) (max p) (u16 (err p + 1)) (avail p))
  end.

(** [do_memp_free_pool(desc, mem)] *)
Definition do_memp_free_pool (mem : Z) : M pool () := λ p,
  let memp := mem - MEMP_SIZE in
  Ret ((), mk_pool (<[memp := tab p]> (links p)) (Some memp) (u16 (used p - 1))
             (max p) (err p) (avail p)).

(** The pools of the configuration ([priv/memp_std.h]): no RAW, UDP, sockets,
    ARP queues or IPv6. *)
Inductive memp_t :=
  | MEMP_TCP_PCB | MEMP_TCP_PCB_LISTEN | MEMP_TCP_SEG | MEMP_REASSDATA | MEMP_FRAG_PBUF
  | MEMP_SYS_TIMEOUT | MEMP_PBUF | MEMP_PBUF_POOL.

#[global] Instance memp_t_eq_dec : EqDecision memp_t.
Proof. solve_decision. Defined.

Abbreviation pools := (memp_t → pool).

(** [memp_init()]; [memp_pools] holds the descriptors, whose base addresses and
    element sizes the compiler and the linker choose. *)
Definition memp_init (memp_pools : memp_t → memp_desc) : pools :=
  λ t, memp_init_pool (memp_pools t).

(** A computation on the pool [type]. *)
Definition on_pool {A} (type : memp_t) (m : M pool A) : M pools A := λ ps,
  match m (ps type) with
  | Ret (a, p) => Ret (a, <[type := p]> ps)
  | Err f => Err f
  end.

(** [memp_malloc(type)] *)
Definition memp_malloc (type : memp_t) : M pools (option Z) := on_pool type do_memp_malloc_pool.

(** [memp_free(type, mem)] *)
Definition memp_free (type : memp_t) (mem : option Z) : M pools () :=
  match mem with
  | None => mret ()
  | Some mem => on_pool type (do_memp_free_pool mem)
  end.

End Memp.
Import Memp.

(** ** Lemmas *)

(** The free list from [t] visits the elements [fl] in order. *)
Fixpoint linked (l : gmap Z (option Z)) (t : option Z) (fl : list Z) : Prop :=
  match fl with
  | [] => t = None
  | e :: fl' => t = Some e ∧ ∃ next, l !! e = Some next ∧ linked l next fl'
  end.

(** The addresses of the elements of a pool. *)
Definition pool_elements (d : memp_desc) : list Z :=
  (λ i, base d + Z.of_nat i * size d) <$> seq 0 (Z.to_nat (num d)).

(** A descriptor of the code: the elements have a size and the array fits the
    16-bit counters. *)
Definition desc_ok (d : memp_desc) : Prop := 0 < size d ∧ 0 ≤ num d < 2 ^ 16.

(** The invariant: the elements are those on the free list and those in [live],
    without repetition, and the counter of used ones is exact. *)
Record pool_inv (d : memp_desc) (p : pool) (live : gset Z) : Prop := mk_pool_inv {
  inv_free : ∃ fl, linked (links p) (tab p) fl ∧ elements live ++ fl ≡ₚ pool_elements d;
  inv_used : used p = Z.of_nat (base.size live);
}.

Lemma pool_elements_NoDup d : desc_ok d → NoDup (pool_elements d).
Proof.
  intros [Hs _]. apply NoDup_fmap_2; [|apply NoDup_seq]. intros i j Hij. nia.
Qed.

Lemma linked_frame l l' t fl :
  (∀ e, e ∈ fl → l' !! e = l !! e) → linked l t fl → linked l' t fl.
Proof.
  revert t. induction fl as [|e fl IH]; intros t Hk; simpl; [done|].
  intros (-> & next & Hn & Hl). split; [done|]. exists next.
  rewrite Hk by (by left). split; [done|]. apply IH; [|done]. intros. apply Hk. by right.
Qed.

Lemma pool_inv_NoDup d (live : gset Z) fl : desc_ok d →
  elements live ++ fl ≡ₚ pool_elements d → NoDup fl ∧ (∀ e, e ∈ live → e ∉ fl).
Proof.
  intros Hd HP. pose proof (pool_elements_NoDup _ Hd) as Hn. rewrite <- HP in Hn.
  apply list.NoDup_app in Hn as (_ & Hx & Hf). split; [done|]. intros e He. apply Hx. set_solver.
Qed.

Lemma pool_live_bound d (live : gset Z) fl : elements live ++ fl ≡ₚ pool_elements d → 0 ≤ num d →
  Z.of_nat (base.size live) + Z.of_nat (length fl) = num d.
Proof.
  intros HP Hn. apply Permutation_length in HP.
  unfold pool_elements in HP. rewrite length_fmap, length_seq, length_app in HP.
  unfold base.size, set_size in *. simpl in *. lia.
Qed.

Lemma init_links_ok n d memp l t fl :
  0 < size d → linked l t fl → (∀ e, e ∈ fl → e < memp) →
  ∃ fl', linked (init_links n d memp l t).1 (init_links n d memp l t).2 fl' ∧
    fl' ≡ₚ ((λ i, memp + Z.of_nat i * size d) <$> seq 0 n) ++ fl.
Proof.
  intros Hs. revert memp l t fl. induction n as [|n IH]; intros memp l t fl Hl Hlt; [by exists fl|].
  destruct (IH (memp + MEMP_SIZE + size d) (<[memp := t]> l) (Some memp) (memp :: fl))
    as (fl' & Hl' & HP).
  - simpl. split; [done|]. exists t. rewrite lookup_insert_eq. split; [done|].
    eapply linked_frame; [|exact Hl]. intros e He. rewrite lookup_insert_ne; [done|].
    apply Hlt in He. lia.
  - unfold MEMP_SIZE. intros e [->|He]%elem_of_cons; [lia|]. apply Hlt in He. lia.
  - exists fl'. split; [done|]. rewrite HP, <- Permutation_middle.
    cbn [seq fmap list_fmap app]. rewrite <- fmap_S_seq, <- list_fmap_compose.
    replace (memp + Z.of_nat 0 * size d) with memp by lia. do 2 f_equiv.
    apply Permutation_refl'. apply list_fmap_ext. intros i x _. unfold compose, MEMP_SIZE. lia.
Qed.

Lemma memp_init_inv d : desc_ok d → pool_inv d (memp_init_pool d) ∅.
Proof.
  intros [Hs Hn]. unfold memp_init_pool.
  destruct (init_links_ok (Z.to_nat (num d)) d (base d) ∅ None []) as (fl & Hl & HP);
    [done|done|by intros e ?%elem_of_nil|].
  destruct (init_links _ _ _ _ _) as [l t]. constructor; [|done]. exists fl. simpl in *.
  split; [done|]. rewrite elements_empty. simpl. by rewrite HP, app_nil_r.
Qed.

(** What [do_memp_malloc_pool] promises: an element nobody holds, and NULL only
    when every element is held. *)
Lemma memp_malloc_ok d p live : desc_ok d → pool_inv d p live →
  ∃ r p', do_memp_malloc_pool p = Ret (r, p') ∧
    match r with
    | Some e => (e ∉ live) ∧ e ∈ pool_elements d ∧ pool_inv d p' ({[e]} ∪ live)
    | None => (Z.of_nat (base.size live) = num d) ∧ pool_inv d p' live
    end.
Proof.
  intros Hd [(fl & Hl & HP) Hu]. pose proof (pool_live_bound _ _ _ HP (proj1 (proj2 Hd))) as Hsz.
  destruct (pool_inv_NoDup d _ _ Hd HP) as [Hnd Hdis]. unfold do_memp_malloc_pool.
  destruct fl as [|e fl]; simpl in Hl.
  - rewrite Hl. eexists None, _. split; [done|]. simpl in Hsz. split; [lia|].
    constructor; [|done]. exists []. split; [|done]. simpl. done.
  - destruct Hl as (-> & next & -> & Hl). apply list.NoDup_cons in Hnd as [He Hnd].
    assert (e ∉ live) as Hel by (intros Hin; apply Hdis in Hin; apply Hin; by left).
    eexists (Some (e + MEMP_SIZE)), _. split; [done|].
    unfold MEMP_SIZE. rewrite Z.add_0_r. split_and!; [done| |].
    + rewrite <- HP. apply elem_of_app. right. by left.
    + constructor; simpl.
      * exists fl. split.
        { eapply linked_frame; [|exact Hl]. intros x Hx. rewrite lookup_delete_ne; [done|].
          by intros ->. }
        rewrite <- HP, elements_union_singleton by done. by rewrite <- Permutation_middle.
      * rewrite Hu, u16_id by (destruct Hd; unfold is_u16; simpl in Hsz; lia).
        rewrite size_union by set_solver. rewrite size_singleton. lia.
Qed.

Lemma size_remove (X : gset Z) e : e ∈ X → base.size X = S (base.size (X ∖ {[e]})).
Proof.
  intros He. assert (X = {[e]} ∪ X ∖ {[e]}) as Heq by (apply union_difference_L; set_solver).
  rewrite Heq at 1. rewrite size_union by set_solver. by rewrite size_singleton.
Qed.

Lemma memp_free_ok d p live e : desc_ok d → pool_inv d p live → e ∈ live →
  ∃ p', do_memp_free_pool e p = Ret ((), p') ∧ pool_inv d p' (live ∖ {[e]}).
Proof.
  intros Hd [(fl & Hl & HP) Hu] He. pose proof (pool_live_bound _ _ _ HP (proj1 (proj2 Hd))) as Hsz.
  destruct (pool_inv_NoDup d _ _ Hd HP) as [Hnd Hdis].
  assert (live = {[e]} ∪ live ∖ {[e]}) as Heq by (apply union_difference_L; set_solver).
  pose proof (size_remove _ _ He) as Hsize.
  eexists. split; [done|]. unfold MEMP_SIZE. rewrite Z.sub_0_r. constructor; simpl.
  - exists (e :: fl). split.
    + simpl. split; [done|]. exists (tab p). rewrite lookup_insert_eq. split; [done|].
      eapply linked_frame; [|exact Hl]. intros x Hx. rewrite lookup_insert_ne; [done|].
      intros ->. by apply (Hdis x).
    + rewrite <- HP, <- Permutation_middle. rewrite Heq at 2.
      rewrite elements_union_singleton by set_solver. done.
  - rewrite Hu, u16_id by (destruct Hd; unfold is_u16; lia). lia.
Qed.

(** ** All pools *)

Section Pools.
Context (memp_pools : memp_t → memp_desc).
Hypothesis pools_ok : ∀ t, desc_ok (memp_pools t).

Definition pools_inv (ps : pools) (live : memp_t → gset Z) : Prop :=
  ∀ t, pool_inv (memp_pools t) (ps t) (live t).

Lemma pools_inv_update ps live type p l :
  pools_inv ps live → pool_inv (memp_pools type) p l →
  pools_inv (<[type := p]> ps) (<[type := l]> live).
Proof.
  intros Hps Hp t. destruct (decide (t = type)) as [->|Hne].
  - by rewrite !fn_lookup_insert.
  - rewrite !fn_lookup_insert_ne by done. apply Hps.
Qed.

Lemma memp_init_all_inv : pools_inv (memp_init memp_pools) (λ _, ∅).
Proof. intros t. by apply memp_init_inv. Qed.

Lemma memp_malloc_all_ok ps live type : pools_inv ps live →
  ∃ r ps', memp_malloc type ps = Ret (r, ps') ∧
    match r with
    | Some e => (e ∉ live type) ∧ e ∈ pool_elements (memp_pools type) ∧
                pools_inv ps' (<[type := {[e]} ∪ live type]> live)
    | None => (Z.of_nat (base.size (live type)) = num (memp_pools type)) ∧
              pools_inv ps' (<[type := live type]> live)
    end.
Proof.
  intros Hps. destruct (memp_malloc_ok _ _ _ (pools_ok type) (Hps type)) as (r & p & Hr & Hp).
  exists r, (<[type := p]> ps). unfold memp_malloc, on_pool. rewrite Hr. split; [done|].
  destruct r as [e|].
  - destruct Hp as (? & ? & ?). split_and!; [done|done|]. by apply pools_inv_update.
  - destruct Hp as (? & ?). split; [done|]. by apply pools_inv_update.
Qed.

Lemma memp_free_all_ok ps live type e : pools_inv ps live → e ∈ live type →
  ∃ ps', memp_free type (Some e) ps = Ret ((), ps') ∧
    pools_inv ps' (<[type := live type ∖ {[e]}]> live).
Proof.
  intros Hps He.
  destruct (memp_free_ok _ _ _ e (pools_ok type) (Hps type) He) as (p & Hr & Hp).
  exists (<[type := p]> ps). unfold memp_free, on_pool. rewrite Hr. split; [done|].
  by apply pools_inv_update.
Qed.

(** *** A monitor

    Calls on the pools, watched: the elements handed out are recorded, and the
    run fails if a call returns an element that is already held or no element of
    the pool, or NULL while the pool has one left.  The client only frees what
    it holds ([PFree] of anything else is skipped). *)

Inductive pool_call := PMalloc (type : memp_t) | PFree (type : memp_t) (e : Z).

Definition watch (c : pool_call) (st : pools * (memp_t → gset Z)) :
    res (pools * (memp_t → gset Z)) :=
  let '(ps, live) := st in
  match c with
  | PMalloc t =>
      '(r, ps) ← memp_malloc t ps;
      match r with
      | Some e =>
          if decide ((e ∉ live t) ∧ e ∈ pool_elements (memp_pools t))
          then Ret (ps, <[t := {[e]} ∪ live t]> live) else Err AssertFail
      | None =>
          if Z.of_nat (base.size (live t)) =? num (memp_pools t)
          then Ret (ps, <[t := live t]> live) else Err AssertFail
      end
  | PFree t e =>
      if decide (e ∈ live t) then
        '(_, ps) ← memp_free t (Some e) ps;
        if used (ps t) =? Z.of_nat (base.size (live t)) - 1
        then Ret (ps, <[t := live t ∖ {[e]}]> live) else Err AssertFail
      else Ret (ps, live)
  end.

Fixpoint watch_all (cs : list pool_call) (st : pools * (memp_t → gset Z)) :
    res (pools * (memp_t → gset Z)) :=
  match cs with
  | [] => Ret st
  | c :: cs => st ← watch c st; watch_all cs st
  end.

Lemma watch_ok c ps live : pools_inv ps live →
  ∃ ps' live', watch c (ps, live) = Ret (ps', live') ∧ pools_inv ps' live'.
Proof.
  intros Hps. destruct c as [t|t e]; cbn [watch].
  - destruct (memp_malloc_all_ok _ _ t Hps) as ([e|] & ps' & -> & H); simpl.
    + destruct H as (H1 & H2 & H3). rewrite decide_True by done. eauto.
    + destruct H as (H1 & H2). rewrite H1, Z.eqb_refl. eauto.
  - destruct (decide (e ∈ live t)) as [He|He]; [|eauto].
    destruct (memp_free_all_ok _ _ t e Hps He) as (ps' & -> & H). simpl.
    pose proof (inv_used _ _ _ (H t)) as Hu. rewrite fn_lookup_insert in Hu.
    rewrite Hu. rewrite (proj2 (Z.eqb_eq _ _)); [eauto|].
    rewrite (size_remove (live t) e) by done. lia.
Qed.

Lemma watch_all_ok cs ps live : pools_inv ps live →
  ∃ ps' live', watch_all cs (ps, live) = Ret (ps', live') ∧ pools_inv ps' live'.
Proof.
  revert ps live. induction cs as [|c cs IH]; intros ps live Hps; cbn [watch_all]; [eauto|].
  destruct (watch_ok c _ _ Hps) as (ps1 & live1 & -> & Hps1). by apply IH.
Qed.

(** C32: the pools never hand out an element twice.  From the state [memp_init]
    sets up, any sequence of [memp_malloc] and [memp_free] calls whose frees are
    of elements held returns only elements of the pool that nobody holds, NULL
    only when all elements of the pool are held, follows no dangling link, and
    counts the used elements exactly. *)
Theorem memp_exclusive cs :
  ∃ ps live, watch_all cs (memp_init memp_pools, λ _, ∅) = Ret (ps, live) ∧ pools_inv ps live.
Proof. apply watch_all_ok, memp_init_all_inv. Qed.

End Pools.

(** Descriptors of the size the configuration gives on a 64-bit machine. *)
Definition example_pools (t : memp_t) : memp_desc :=
  match t with
  | MEMP_PBUF => mk_desc 24 30 0
  | MEMP_PBUF_POOL => mk_desc 616 32 720
  | MEMP_TCP_SEG => mk_desc 32 16 20432
  | MEMP_SYS_TIMEOUT => mk_desc 32 4 21344
  | _ => mk_desc 200 2 20944
  end.

Lemma example_pools_ok t : desc_ok (example_pools t).
Proof. destruct t; by vm_compute. Qed.

Lemma memp_exclusive_witness :
  ∃ ps live, watch_all example_pools
    [PMalloc MEMP_PBUF; PMalloc MEMP_PBUF; PFree MEMP_PBUF 696; PMalloc MEMP_PBUF]
    (memp_init example_pools, λ _, ∅) = Ret (ps, live) ∧ pools_inv example_pools ps live.
Proof.
  exact (memp_exclusive example_pools example_pools_ok _).
Defined.
