(* ===== verification/Alloc.v ===== *)
(** * What the packet buffers rely on: allocation as an interface

    [pbuf.c] takes memory from the heap ([mem.c]) and from the pools
    ([memp.c]).  [Alloc] lists the calls it makes and [AllocLaws] what it
    relies on: blocks handed out are not held already, they are large enough,
    releasing and shrinking a block that is held works.  The theorems on packet
    buffers are proved against this interface; the instance below discharges it
    with the heap and the pools of the code. *)

From S2P Require Import Prelude Mem MemSpec Memp.

Export Memp (memp_t, MEMP_TCP_PCB, MEMP_TCP_PCB_LISTEN, MEMP_TCP_SEG, MEMP_REASSDATA,
  MEMP_FRAG_PBUF, MEMP_SYS_TIMEOUT, MEMP_PBUF, MEMP_PBUF_POOL).

(** Where a block comes from; [CUSTOM] is memory of the application. *)
Inductive src := HEAP | POOL (t : memp_t) | CUSTOM.

#[global] Instance src_eq_dec : EqDecision src.
Proof. solve_decision. Defined.

Definition src_code (s : src) : nat :=
  match s with
  | HEAP => 0 | CUSTOM => 1
  | POOL MEMP_TCP_PCB => 2 | POOL MEMP_TCP_PCB_LISTEN => 3 | POOL MEMP_TCP_SEG => 4
  | POOL MEMP_REASSDATA => 5 | POOL MEMP_FRAG_PBUF => 6 | POOL MEMP_SYS_TIMEOUT => 7
  | POOL MEMP_PBUF => 8 | POOL MEMP_PBUF_POOL => 9
  end.

Definition src_decode (n : nat) : src :=
  match n with
  | 0 => HEAP | 1 => CUSTOM
  | 2 => POOL MEMP_TCP_PCB | 3 => POOL MEMP_TCP_PCB_LISTEN | 4 => POOL MEMP_TCP_SEG
  | 5 => POOL MEMP_REASSDATA | 6 => POOL MEMP_FRAG_PBUF | 7 => POOL MEMP_SYS_TIMEOUT
  | 8 => POOL MEMP_PBUF | _ => POOL MEMP_PBUF_POOL
  end%nat.

#[global] Instance src_countable : Countable src.
Proof. refine (inj_countable' src_code src_decode _). by intros [|[]|]. Defined.

(** A block is its source and its address there. *)
Abbreviation loc := (src * Z)%type.

Class Alloc (A : Type) := {
  heap_malloc : Z → M A (option Z);
  heap_free : Z → M A ();
  heap_trim : Z → Z → M A (option Z);
  pool_malloc : memp_t → M A (option Z);
  pool_free : memp_t → Z → M A ();
}.

(** [owns a L]: the blocks handed out are those of [L], with their usable size. *)
Class AllocLaws (A : Type) `{Alloc A} (elt_size : memp_t → Z) := {
  owns : A → gmap loc Z → Prop;
  heap_malloc_ok a L n : owns a L → is_u16 n →
    ∃ r a', heap_malloc n a = Ret (r, a') ∧
      match r with
      | None => owns a' L
      | Some p => ∃ k, L !! (HEAP, p) = None ∧ n ≤ k ∧ owns a' (<[(HEAP, p) := k]> L)
      end;
  heap_free_ok a L p k : owns a L → L !! (HEAP, p) = Some k →
    ∃ a', heap_free p a = Ret ((), a') ∧ owns a' (delete (HEAP, p) L);
  heap_trim_ok a L p k n : owns a L → L !! (HEAP, p) = Some k → 0 ≤ n ≤ k →
    ∃ a' k', heap_trim p n a = Ret (Some p, a') ∧ n ≤ k' ∧
      owns a' (<[(HEAP, p) := k']> L);
  pool_malloc_ok a L t : owns a L →
    ∃ r a', pool_malloc t a = Ret (r, a') ∧
      match r with
      | None => owns a' L
      | Some p => L !! (POOL t, p) = None ∧ owns a' (<[(POOL t, p) := elt_size t]> L)
      end;
  pool_free_ok a L t p k : owns a L → L !! (POOL t, p) = Some k →
    ∃ a', pool_free t p a = Ret ((), a') ∧ owns a' (delete (POOL t, p) L);
}.

(** A pool of [num] elements only runs out when that many are held. *)
Class AllocCapacity (A : Type) `{AllocLaws A} (num : memp_t → Z) :=
  pool_malloc_full a L t a' : owns a L → pool_malloc t a = Ret (None, a') →
    ∃ X : gset Z, Z.of_nat (size X) = num t ∧ ∀ p, p ∈ X → is_Some (L !! (POOL t, p)).

(** ** The allocators of the code *)

Record allocators := mk_allocators { a_heap : Mem.heap; a_pools : Memp.pools }.

Definition on_heap {A} (m : M Mem.heap A) : M allocators A := λ a,
  match m (a_heap a) with
  | Ret (x, h) => Ret (x, mk_allocators h (a_pools a))
  | Err f => Err f
  end.
Definition on_pools {A} (m : M Memp.pools A) : M allocators A := λ a,
  match m (a_pools a) with
  | Ret (x, ps) => Ret (x, mk_allocators (a_heap a) ps)
  | Err f => Err f
  end.

#[global] Instance lwip_alloc : Alloc allocators := {|
  heap_malloc n := on_heap (Mem.mem_malloc n);
  heap_free p := on_heap (Mem.mem_free (Some p));
  heap_trim p n := on_heap (Mem.mem_trim p n);
  pool_malloc t := on_pools (Memp.memp_malloc t);
  pool_free t p := on_pools (Memp.memp_free t (Some p));
|}.

(** The state after [mem_init] and [memp_init]. *)
Definition alloc_init (memp_pools : memp_t → Memp.memp_desc) : allocators :=
  mk_allocators Mem.mem_init (Memp.memp_init memp_pools).

(** The blocks of [L] are the blocks in use of the heap and the elements held of
    the pools. *)
Record lwip_owns (memp_pools : memp_t → Memp.memp_desc) (a : allocators) (L : gmap loc Z) :
    Prop := mk_lwip_owns {
  owns_heap : ∃ bs, wf (a_heap a) bs ∧
    ∀ p k, L !! (HEAP, p) = Some k ↔ (p, k) ∈ extents 0 bs;
  owns_pools : ∃ live, pools_inv memp_pools (a_pools a) live ∧
    ∀ t p k, L !! (POOL t, p) = Some k ↔ p ∈ live t ∧ k = Memp.size (memp_pools t);
  owns_custom p : L !! (CUSTOM, p) = None;
}.

Section Laws.
Context (memp_pools : memp_t → Memp.memp_desc).
Hypothesis pools_ok : ∀ t, desc_ok (memp_pools t).

Lemma extents_heap_sizes h bs : wf h bs → Forall (λ b : block, 18 ≤ b.1) bs.
Proof. intros Hwf. apply (tiles_sizes _ _ (wf_tiles _ _ Hwf)). Qed.

(** A block in use splits the block list; the others lie on either side. *)
Lemma extents_inv bs p k : (p, k) ∈ extents 0 bs →
  ∃ a b, bs = a ++ (k + 6, true) :: b ∧ p = total a + 6.
Proof.
  assert (∀ ptr, (p, k) ∈ extents ptr bs →
    ∃ a b, bs = a ++ (k + 6, true) :: b ∧ p = ptr + total a + 6) as H.
  { induction bs as [|[n u] bs IH]; intros ptr; simpl; [by intros ?%elem_of_nil|].
    rewrite elem_of_app. intros [Hp|Hp].
    - destruct u; [|by apply elem_of_nil in Hp].
      apply list_elem_of_singleton in Hp as [= -> ->]. exists [], bs. simpl.
      split; [by replace (n - 6 + 6) with n by lia|lia].
    - apply IH in Hp as (a & b & -> & ->). exists ((n, u) :: a), b. simpl. split; [done|lia]. }
  intros Hp. apply H in Hp as (a & b & -> & ->). exists a, b. split; [done|lia].
Qed.

Lemma extents_others a n b q l : Forall (λ b : block, 18 ≤ b.1) (a ++ (n, true) :: b) →
  (q, l) ∈ extents 0 a ++ extents (total a + n) b ↔
  (q, l) ∈ extents 0 (a ++ (n, true) :: b) ∧ q ≠ total a + 6.
Proof.
  intros Hf. apply list.Forall_app in Hf as [Ha Hb]. apply list.Forall_cons in Hb as [Hn Hb].
  simpl in Hn. rewrite extents_app, !elem_of_app. cbn [extents app].
  rewrite elem_of_cons, Z.add_0_l. split.
  - intros [H|H]; (split; [tauto|]); apply extents_range in H; try done; lia.
  - intros [[H|[H|H]] Hq]; [tauto|congruence|tauto].
Qed.

Lemma lwip_heap_malloc_ok a L n : lwip_owns memp_pools a L → is_u16 n →
  ∃ r a', heap_malloc n a = Ret (r, a') ∧
    match r with
    | None => lwip_owns memp_pools a' L
    | Some p => ∃ k, L !! (HEAP, p) = None ∧ n ≤ k ∧
                     lwip_owns memp_pools a' (<[(HEAP, p) := k]> L)
    end.
Proof.
  intros [(bs & Hwf & HL) Hp Hc] Hn. cbn. unfold on_heap.
  destruct (decide (n = 0 ∨ Mem.MEM_SIZE < n)) as [Hs|Hs].
  { rewrite malloc_too_big by done. eexists None, _. split; [done|]. constructor; eauto. }
  destruct (mem_malloc_ok _ _ n Hwf) as (h' & -> & Hwf'); [clia|].
  destruct (a_alloc (request_size n) 0 bs) as [[p bs']|] eqn:Ea; cbn in *.
  2:{ eexists None, _. split; [done|]. constructor; eauto. }
  eexists (Some p), _. split; [done|].
  apply a_alloc_extents in Ea as (len & Hl & H0 & H1 & Hd & HP);
    [|unfold request_size; lia|by eapply extents_heap_sizes].
  assert (∀ l, (p, l) ∉ extents 0 bs) as Hfresh.
  { intros l Hin. pose proof (Hd _ _ Hin).
    apply extents_range in Hin; [unfold request_size in *; lia|by eapply extents_heap_sizes]. }
  exists len. split_and!; [|unfold request_size in *; lia|].
  { destruct (L !! (HEAP, p)) as [l|] eqn:E; [|done]. by apply HL, Hfresh in E. }
  constructor; cbn.
  - exists bs'. split; [done|]. intros q k. rewrite HP, elem_of_cons, <- HL.
    rewrite lookup_insert. case_decide as E; simplify_eq.
    + split; [intros [= ->]; by left|]. intros [[= ->]|H]; [done|]. by apply HL, Hfresh in H.
    + split; [tauto|]. intros [[= -> ->]|H]; [done|done].
  - destruct Hp as (live & Hi & Hp). exists live. split; [done|]. intros t q k.
    rewrite lookup_insert_ne by done. apply Hp.
  - intros q. rewrite lookup_insert_ne by done. apply Hc.
Qed.

(** The heap's side of [lwip_owns] after a call that leaves the blocks [bs']. *)
Lemma owns_heap_update a L L' h' bs' : lwip_owns memp_pools a L → wf h' bs' →
  (∀ p k, L' !! (HEAP, p) = Some k ↔ (p, k) ∈ extents 0 bs') →
  (∀ s p, s ≠ HEAP → L' !! (s, p) = L !! (s, p)) →
  lwip_owns memp_pools (mk_allocators h' (a_pools a)) L'.
Proof.
  intros [_ (live & Hi & Hp) Hc] Hwf HL Hne. constructor; cbn.
  - eauto.
  - exists live. split; [done|]. intros t p k. rewrite Hne by done. apply Hp.
  - intros p. rewrite Hne by done. apply Hc.
Qed.

Lemma lwip_heap_free_ok a L p k : lwip_owns memp_pools a L → L !! (HEAP, p) = Some k →
  ∃ a', heap_free p a = Ret ((), a') ∧ lwip_owns memp_pools a' (delete (HEAP, p) L).
Proof.
  intros Ho Hk. pose proof (owns_heap _ _ _ Ho) as (bs & Hwf & HL).
  destruct (extents_inv _ _ _ (proj1 (HL _ _) Hk)) as (x & y & Hbs & Hpx). subst bs p.
  cbn [heap_free heap_trim lwip_alloc]. unfold on_heap.
  destruct (mem_free_ok _ _ _ _ Hwf) as (h' & -> & Hwf'). eexists. split; [done|].
  eapply owns_heap_update; [done|done| |].
  - intros q l. rewrite extents_merge. cbn [Z.add].
    rewrite extents_others by (by eapply extents_heap_sizes). rewrite <- HL.
    rewrite lookup_delete. case_decide as E; simplify_eq; [split; [done|by intros [_ ?]]|].
    split; [intros ?; split; [done|congruence]|by intros [? _]].
  - intros s q Hs. by rewrite lookup_delete_ne by congruence.
Qed.

Lemma lwip_heap_trim_ok a L p k n : lwip_owns memp_pools a L → L !! (HEAP, p) = Some k →
  0 ≤ n ≤ k →
  ∃ a' k', heap_trim p n a = Ret (Some p, a') ∧ n ≤ k' ∧
    lwip_owns memp_pools a' (<[(HEAP, p) := k']> L).
Proof.
  intros Ho Hk Hn. pose proof (owns_heap _ _ _ Ho) as (bs & Hwf & HL).
  pose proof (extents_heap_sizes _ _ Hwf) as Hsz.
  assert (12 ≤ k) as Hk12 by (pose proof (extents_range _ _ _ _ Hsz (proj1 (HL _ _) Hk)); lia).
  destruct (extents_inv _ _ _ (proj1 (HL _ _) Hk)) as (x & y & Hbs & Hpx). subst bs p.
  cbn [heap_free heap_trim lwip_alloc]. unfold on_heap.
  destruct (mem_trim_ok _ _ _ _ n Hwf) as (h' & -> & Hwf'); [lia|unfold request_size; lia|].
  destruct (extents_trim (0 + total x) (k + 6) (request_size n) y) as (k' & Hk' & He);
    [unfold request_size; lia..|].
  eexists _, k'. split_and!; [done|unfold request_size in *; lia|].
  eapply owns_heap_update; [done|done| |].
  - intros q l. rewrite extents_app, He, elem_of_app, elem_of_cons, Z.add_0_l.
    transitivity ((q, l) = (total x + 6, k') ∨ (q, l) ∈ extents 0 x ++ extents (total x + (k + 6)) y).
    2:{ rewrite elem_of_app. tauto. }
    rewrite extents_others by done. rewrite <- HL. rewrite lookup_insert.
    case_decide as E; simplify_eq; split; [intros [= ->]; by left| | |].
    + intros [[= ->]|[_ ?]]; [done|done].
    + intros ?. right. split; [done|congruence].
    + intros [[= -> ->]|[? _]]; [done|done].
  - intros s q Hs. by rewrite lookup_insert_ne by congruence.
Qed.

(** The pools' side of [lwip_owns] when the elements held become [live']. *)
Lemma owns_pools_update a L L' ps' t live X :
  lwip_owns memp_pools a L →
  (∀ t p k, L !! (POOL t, p) = Some k ↔ p ∈ live t ∧ k = Memp.size (memp_pools t)) →
  pools_inv memp_pools ps' (<[t := X]> live) →
  (∀ p k, L' !! (POOL t, p) = Some k ↔ p ∈ X ∧ k = Memp.size (memp_pools t)) →
  (∀ s p, s ≠ POOL t → L' !! (s, p) = L !! (s, p)) →
  lwip_owns memp_pools (mk_allocators (a_heap a) ps') L'.
Proof.
  intros [(bs & Hwf & HL) _ Hc] Hp Hi HX Hne. constructor; cbn.
  - exists bs. split; [done|]. intros p k. rewrite Hne by done. apply HL.
  - exists (<[t := X]> live). split; [done|]. intros t' p k.
    destruct (decide (t' = t)) as [->|Ht].
    + by rewrite fn_lookup_insert.
    + rewrite fn_lookup_insert_ne by done. rewrite Hne by congruence. apply Hp.
  - intros p. rewrite Hne by done. apply Hc.
Qed.

Lemma lwip_pool_malloc_ok a L t : lwip_owns memp_pools a L →
  ∃ r a', pool_malloc t a = Ret (r, a') ∧
    match r with
    | None => lwip_owns memp_pools a' L
    | Some p => L !! (POOL t, p) = None ∧
        lwip_owns memp_pools a' (<[(POOL t, p) := Memp.size (memp_pools t)]> L)
    end.
Proof.
  intros Ho. pose proof (owns_pools _ _ _ Ho) as (live & Hi & Hp).
  destruct (memp_malloc_all_ok _ pools_ok _ _ t Hi) as (r & ps' & Hr & H).
  cbn [pool_malloc lwip_alloc]. unfold on_pools. rewrite Hr.
  eexists r, _. split; [done|]. destruct r as [p|].
  - destruct H as (Hfr & _ & Hi'). split.
    { destruct (L !! (POOL t, p)) as [k|] eqn:E; [|done]. by apply Hp in E as [? _]. }
    eapply owns_pools_update; [done|done|done| |].
    + intros q k. rewrite elem_of_union, elem_of_singleton, lookup_insert.
      case_decide as E; simplify_eq.
      * split; [intros [= <-]; auto|]. intros [_ ->]. done.
      * rewrite Hp. split; [tauto|]. intros [[->|?] ?]; [done|done].
    + intros s q Hs. by rewrite lookup_insert_ne by congruence.
  - destruct H as (_ & Hi'). eapply owns_pools_update; [done|done|done|apply Hp|done].
Qed.

Lemma lwip_pool_free_ok a L t p k : lwip_owns memp_pools a L → L !! (POOL t, p) = Some k →
  ∃ a', pool_free t p a = Ret ((), a') ∧ lwip_owns memp_pools a' (delete (POOL t, p) L).
Proof.
  intros Ho Hk. pose proof (owns_pools _ _ _ Ho) as (live & Hi & Hp).
  destruct (proj1 (Hp _ _ _) Hk) as [Hin _].
  destruct (memp_free_all_ok _ pools_ok _ _ t p Hi Hin) as (ps' & Hr & Hi').
  cbn [pool_free lwip_alloc]. unfold on_pools. rewrite Hr. eexists. split; [done|].
  eapply owns_pools_update; [done|done|done| |].
  - intros q l. rewrite elem_of_difference, elem_of_singleton, lookup_delete.
    case_decide as E; simplify_eq; [split; [done|tauto]|]. rewrite Hp.
    split; [intros [? ?]; split_and!; [done|congruence|done]|tauto].
  - intros s q Hs. by rewrite lookup_delete_ne by congruence.
Qed.

(** The heap and the pools of the code keep the promises of the interface. *)
#[local] Instance lwip_laws : AllocLaws allocators (λ t, Memp.size (memp_pools t)) := {|
  owns := lwip_owns memp_pools;
  heap_malloc_ok := lwip_heap_malloc_ok;
  heap_free_ok := lwip_heap_free_ok;
  heap_trim_ok := lwip_heap_trim_ok;
  pool_malloc_ok := lwip_pool_malloc_ok;
  pool_free_ok := lwip_pool_free_ok;
|}.

#[local] Instance lwip_capacity : AllocCapacity allocators (λ t, Memp.num (memp_pools t)).
Proof.
  intros a L t a' Ho Hr. pose proof (owns_pools _ _ _ Ho) as (live & Hi & Hp).
  destruct (memp_malloc_all_ok _ pools_ok _ _ t Hi) as (r & ps' & Hm & H).
  cbn [pool_malloc lwip_alloc] in Hr. unfold on_pools in Hr. rewrite Hm in Hr.
  destruct r as [p|]; [done|]. destruct H as [Hn _]. exists (live t). split; [done|].
  intros p Hin. exists (Memp.size (memp_pools t)). by apply Hp.
Qed.

Lemma alloc_init_owns : owns (alloc_init memp_pools) ∅.
Proof.
  constructor.
  - exists [(Mem.MEM_SIZE, false)]. split; [apply mem_init_wf|]. intros p k. cbn.
    rewrite lookup_empty. split; [done|by intros ?%elem_of_nil].
  - exists (λ _, ∅). split; [by apply memp_init_all_inv|]. intros t p k.
    rewrite lookup_empty. set_solver.
  - done.
Qed.

End Laws.
