(* ===== verification/Timeouts.v ===== *)
(** * Timers: [lwip/src/core/timeouts.c]

    Timeouts are kept in a list ordered by expiry; each [time] counts from the
    expiry of the one before it, the first from [timeouts_last_time].  The nodes
    come from the pool [MEMP_SYS_TIMEOUT], through the allocation interface.  The
    timers of the build are those of TCP, IP reassembly and ARP; their handlers,
    the clock and the TCP lists live in the environment [E]. *)

From S2P Require Import Prelude Memp Alloc.

Module Timeouts.

Definition TCP_TMR_INTERVAL : Z := 250.
Definition IP_TMR_INTERVAL : Z := 1000.
Definition ARP_TMR_INTERVAL : Z := 1000.

Inductive lwip_cyclic_timer := tcp_tmr | ip_reass_tmr | etharp_tmr.

#[global] Instance lwip_cyclic_timer_eq_dec : EqDecision lwip_cyclic_timer.
Proof. solve_decision. Defined.

Definition interval_ms (c : lwip_cyclic_timer) : Z :=
  match c with
  | tcp_tmr => TCP_TMR_INTERVAL
  | ip_reass_tmr => IP_TMR_INTERVAL
  | etharp_tmr => ARP_TMR_INTERVAL
  end.

Definition lwip_cyclic_timers : list lwip_cyclic_timer := [tcp_tmr; ip_reass_tmr; etharp_tmr].

(** A handler with its argument: [tcpip_tcp_timer(NULL)] or
    [cyclic_timer(&lwip_cyclic_timers[i])]. *)
Inductive timeout_call := tcpip_tcp_timer_call | cyclic_timer_call (c : lwip_cyclic_timer).

#[global] Instance timeout_call_eq_dec : EqDecision timeout_call.
Proof. solve_decision. Defined.

Record sys_timeo := mk_timeo {
  node : Z;              (* its address in the pool *)
  time : Z;              (* u32_t *)
  call : timeout_call;   (* h and arg *)
}.

Definition set_time (z : Z) (t : sys_timeo) : sys_timeo := mk_timeo (node t) z (call t).

Record timers (E A : Type) := mk_timers {
  next_timeout : list sys_timeo;
  timeouts_last_time : Z;
  tcpip_tcp_timer_active : bool;
  tallocs : A;
  env : E;
}.
Arguments mk_timers {E A} _ _ _ _ _.
Arguments next_timeout {E A} _.
Arguments timeouts_last_time {E A} _.
Arguments tcpip_tcp_timer_active {E A} _.
Arguments tallocs {E A} _.
Arguments env {E A} _.

(** What the timers use of the rest of the program. *)
Class TimerEnv (E : Type) := {
  sys_now : E → Z * E;
  run_tmr : lwip_cyclic_timer → E → E;          (* tcp_tmr, ip_reass_tmr, etharp_tmr *)
  tcp_pcbs_exist : E → bool;                    (* tcp_active_pcbs || tcp_tw_pcbs *)
  PBUF_CHECK_FREE_OOSEQ : E → E;
}.

Section Ops.
Context {E A : Type} `{TimerEnv E} `{Alloc A}.
Abbreviation T := (timers E A).

Definition set_list l (s : T) : T :=
  mk_timers l (timeouts_last_time s) (tcpip_tcp_timer_active s) (tallocs s) (env s).
Definition set_last z (s : T) : T :=
  mk_timers (next_timeout s) z (tcpip_tcp_timer_active s) (tallocs s) (env s).
Definition set_active b (s : T) : T :=
  mk_timers (next_timeout s) (timeouts_last_time s) b (tallocs s) (env s).
Definition on_env (f : E → E) : M T () := modify (λ s,
  mk_timers (next_timeout s) (timeouts_last_time s) (tcpip_tcp_timer_active s) (tallocs s)
    (f (env s))).
Definition now : M T Z := λ s,
  let '(z, e) := sys_now (env s) in
  Ret (z, mk_timers (next_timeout s) (timeouts_last_time s) (tcpip_tcp_timer_active s)
            (tallocs s) e).
Definition memp {B} (m : M A B) : M T B := λ s,
  match m (tallocs s) with
  | Ret (x, a) => Ret (x, mk_timers (next_timeout s) (timeouts_last_time s)
                            (tcpip_tcp_timer_active s) a (env s))
  | Err f => Err f
  end.

(** The [for] loop of [sys_timeout] from the node at the head of [ts] on;
    [first] is [next_timeout->time]. *)
Fixpoint insert_loop (first msecs : Z) (ts : list sys_timeo) (timeout : sys_timeo) :
    list sys_timeo :=
  match ts with
  | [] => []
  | t :: ts' =>
      let timeout := set_time (u32 (time timeout - time t)) timeout in
      match ts' with
      | [] =>
          if time timeout >? msecs then [t; set_time (u32 (msecs + first)) timeout]
          else [t; timeout]
      | n :: ts'' =>
          if time n >? time timeout
          then t :: timeout :: set_time (u32 (time n - time timeout)) n :: ts''
          else t :: insert_loop first msecs ts' timeout
      end
  end.

(** The insertion: at the head, or behind it. *)
Definition insert_timeout (msecs : Z) (ts : list sys_timeo) (timeout : sys_timeo) :
    list sys_timeo :=
  match ts with
  | [] => [timeout]
  | t :: ts' =>
      if time t >? msecs then timeout :: set_time (u32 (time t - msecs)) t :: ts'
      else insert_loop (time t) msecs ts timeout
  end.

(** [sys_timeout(msecs, handler, arg)] *)
Definition sys_timeout (msecs : Z) (c : timeout_call) : M T () :=
  r ← memp (pool_malloc MEMP_SYS_TIMEOUT);
  match r with
  | None => fail AssertFail
  | Some a =>
      n ← now;
      s ← get;
      diff ← match next_timeout s with
             | [] => _ ← modify (set_last n); mret 0
             | _ => mret (u32 (n - timeouts_last_time s))
             end;
      modify (λ s, set_list (insert_timeout msecs (next_timeout s)
                               (mk_timeo a (u32 (msecs + diff)) c)) s)
  end.

(** [sys_untimeout(handler, arg)]: the list without the first match, whose time
    goes to the next one, and the node to release. *)
Fixpoint untimeout_loop (c : timeout_call) (ts : list sys_timeo) : list sys_timeo * option Z :=
  match ts with
  | [] => ([], None)
  | t :: ts' =>
      if decide (call t = c) then
        (match ts' with
         | [] => []
         | n :: ts'' => set_time (u32 (time n + time t)) n :: ts''
         end, Some (node t))
      else let '(l, r) := untimeout_loop c ts' in (t :: l, r)
  end.

Definition sys_untimeout (c : timeout_call) : M T () :=
  s ← get;
  let '(l, r) := untimeout_loop c (next_timeout s) in
  _ ← modify (set_list l);
  match r with
  | Some a => memp (pool_free MEMP_SYS_TIMEOUT a)
  | None => mret ()
  end.

(** [tcpip_tcp_timer(arg)] and [cyclic_timer(arg)] *)
Definition tcpip_tcp_timer : M T () :=
  _ ← on_env (run_tmr tcp_tmr);
  s ← get;
  if tcp_pcbs_exist (env s) then sys_timeout TCP_TMR_INTERVAL tcpip_tcp_timer_call
  else modify (set_active false).
Definition cyclic_timer (c : lwip_cyclic_timer) : M T () :=
  _ ← on_env (run_tmr c);
  sys_timeout (interval_ms c) (cyclic_timer_call c).

Definition run_call (c : timeout_call) : M T () :=
  match c with
  | tcpip_tcp_timer_call => tcpip_tcp_timer
  | cyclic_timer_call c => cyclic_timer c
  end.

(** [tcp_timer_needed()] *)
Definition tcp_timer_needed : M T () :=
  s ← get;
  if negb (tcpip_tcp_timer_active s) && tcp_pcbs_exist (env s) then
    _ ← modify (set_active true);
    sys_timeout TCP_TMR_INTERVAL tcpip_tcp_timer_call
  else mret ().

(** [sys_timeouts_init()]: the timers behind the first of the array. *)
Fixpoint start_timers (cs : list lwip_cyclic_timer) : M T () :=
  match cs with
  | [] => mret ()
  | c :: cs' => _ ← sys_timeout (interval_ms c) (cyclic_timer_call c); start_timers cs'
  end.
Definition sys_timeouts_init : M T () :=
  _ ← start_timers (tail lwip_cyclic_timers);
  n ← now;
  modify (set_last n).

(** [sys_check_timeouts()]: one round of the loop returns the remaining [diff]
    when a timer has run, ... *)
Definition check_round (diff : Z) : M T (option Z) :=
  _ ← on_env PBUF_CHECK_FREE_OOSEQ;
  s ← get;
  match next_timeout s with
  | t :: ts =>
      if time t <=? diff then
        _ ← modify (set_last (u32 (timeouts_last_time s + time t)));
        _ ← modify (set_list ts);
        _ ← memp (pool_free MEMP_SYS_TIMEOUT (node t));
        _ ← run_call (call t);
        mret (Some (u32 (diff - time t)))
      else mret None
  | [] => mret None
  end.

(** ... and the loop goes on until none has expired. *)
Fixpoint check_loop (fuel : nat) (diff : Z) : M T () :=
  r ← check_round diff;
  match r with
  | None => mret ()
  | Some diff => match fuel with O => fail Diverges | S f => check_loop f diff end
  end.
Definition sys_check_timeouts (fuel : nat) : M T () :=
  s ← get;
  match next_timeout s with
  | [] => mret ()
  | _ =>
      n ← now;
      s ← get;
      check_loop fuel (u32 (n - timeouts_last_time s))
  end.

(** [sys_restart_timeouts()] and [sys_timeouts_sleeptime()] *)
Definition sys_restart_timeouts : M T () := n ← now; modify (set_last n).
Definition sys_timeouts_sleeptime : M T Z :=
  s ← get;
  match next_timeout s with
  | [] => mret 0xffffffff
  | t :: _ =>
      n ← now;
      let diff := u32 (n - timeouts_last_time s) in
      mret (if diff >? time t then 0 else u32 (time t - diff))
  end.

End Ops.
End Timeouts.
Import Timeouts.

(** ** Deadlines

    A list of timeouts stands for the times at which they expire, counted from
    [timeouts_last_time]. *)

Fixpoint deadlines (base : Z) (ts : list sys_timeo) : list (Z * timeout_call) :=
  match ts with
  | [] => []
  | t :: ts' => (base + time t, call t) :: deadlines (base + time t) ts'
  end.

Fixpoint total (ts : list sys_timeo) : Z :=
  match ts with [] => 0 | t :: ts' => time t + total ts' end.

Definition postpone (k : Z) (l : list (Z * timeout_call)) : list (Z * timeout_call) :=
  (λ d, (d.1 + k, d.2)) <$> l.

(** Insertion behind the deadlines that are not later. *)
Fixpoint insert_deadline (x : Z * timeout_call) (l : list (Z * timeout_call)) :=
  match l with
  | [] => [x]
  | y :: l' => if y.1 >? x.1 then x :: l else y :: insert_deadline x l'
  end.

Definition times_ok (ts : list sys_timeo) : Prop := Forall (λ t, is_u32 (time t)) ts.

Lemma deadlines_shift k b ts : deadlines (b + k) ts = postpone k (deadlines b ts).
Proof.
  revert b. induction ts as [|t ts IH]; intros b; cbn; [done|].
  replace (b + k + time t) with (b + time t + k) by lia. by rewrite IH.
Qed.

Lemma insert_loop_deadlines first msecs b ts tm X :
  ts ≠ [] → times_ok ts → time tm = X - b → (∀ t, head ts = Some t → time t ≤ X - b) →
  X - b < 2 ^ 32 → X - (b + total ts) ≤ msecs →
  deadlines b (insert_loop first msecs ts tm) = insert_deadline (X, call tm) (deadlines b ts).
Proof.
  revert b tm. induction ts as [|t ts IH]; intros b tm Hne Hok Htm Hle Hb Hm; [done|].
  cbn [insert_loop]. specialize (Hle t eq_refl). apply list.Forall_cons in Hok as [Ht Hok].
  rewrite Htm. rewrite (u32_id (X - b - time t)) by clia. cbn [deadlines insert_deadline fst].
  replace (b + time t >? X) with false by lia. destruct ts as [|n ts].
  - cbn [time set_time total] in *. rewrite Z.gtb_ltb, (proj2 (Z.ltb_ge _ _)) by lia.
    cbn. repeat f_equal. lia.
  - cbn [time set_time deadlines insert_deadline fst]. apply list.Forall_cons in Hok as [Hn Hok].
    destruct (Z.gtb_spec (time n) (X - b - time t)) as [Hlt|Hge].
    + replace (b + time t + time n >? X) with true by lia. rewrite (u32_id (time n - _)).
      2:{ clia. }
      cbn [deadlines time call set_time].
      replace (b + time t + (X - b - time t)) with X by lia.
      by replace (X + (time n - (X - b - time t))) with (b + time t + time n) by lia.
    + replace (b + time t + time n >? X) with false by lia. cbn [deadlines]. f_equal.
      rewrite IH; [|done|by constructor|cbn; lia|intros ? [= <-]; lia|unfold is_u32 in Ht; lia|cbn [total] in *; lia].
      cbn [deadlines insert_deadline fst call set_time].
      by replace (b + time t + time n >? X) with false by lia.
Qed.

Lemma deadlines_total b ts tm :
  deadlines b (ts ++ [tm]) = deadlines b ts ++ [(b + total ts + time tm, call tm)].
Proof.
  revert b. induction ts as [|t ts IH]; intros b; cbn; [by rewrite Z.add_0_r|].
  rewrite IH. by rewrite <- (Z.add_assoc b).
Qed.

Lemma total_times_nonneg ts : times_ok ts → 0 ≤ total ts.
Proof. induction 1 as [|t ts Ht _ IH]; cbn; [done|]. unfold is_u32 in Ht. lia. Qed.

(** When even the last timeout is overdue by more than the clock shows. *)
Lemma insert_loop_overdue first msecs b ts tm X :
  ts ≠ [] → times_ok ts → time tm = X - b → X - b < 2 ^ 32 → 0 ≤ msecs →
  msecs < X - (b + total ts) →
  ∃ a, insert_loop first msecs ts tm = ts ++ [mk_timeo a (u32 (msecs + first)) (call tm)].
Proof.
  revert b tm. induction ts as [|t ts IH]; intros b tm Hne Hok Htm Hb Hm Hlt; [done|].
  cbn [insert_loop]. apply list.Forall_cons in Hok as [Ht Hok]. cbn [total] in Hlt.
  pose proof (total_times_nonneg ts Hok). rewrite Htm, (u32_id (X - b - time t)) by clia.
  destruct ts as [|n ts].
  - cbn [time set_time total] in *. replace (X - b - time t >? msecs) with true by lia.
    exists (node tm). done.
  - cbn [time set_time]. apply list.Forall_cons in Hok as [Hn Hok]. cbn [total] in *.
    pose proof (total_times_nonneg ts Hok). unfold is_u32 in Ht.
    replace (time n >? X - b - time t) with false by lia.
    destruct (IH (b + time t) (set_time (X - b - time t) tm)) as (a & ->);
      [done|by constructor|cbn; lia|lia|lia|lia|]. by exists a.
Qed.

(** What [sys_timeout] makes of the deadlines: in front of the list the new
    timeout pushes all others back by [diff]. *)
Definition armed (msecs diff : Z) (c : timeout_call) (ts : list sys_timeo) :
    list (Z * timeout_call) :=
  match ts with
  | [] => [(msecs, c)]
  | t :: _ =>
      if time t >? msecs then (msecs + diff, c) :: postpone diff (deadlines 0 ts)
      else if diff <=? total ts then insert_deadline (msecs + diff, c) (deadlines 0 ts)
      else deadlines 0 ts ++ [(total ts + (msecs + time t), c)]
  end.

Lemma insert_timeout_deadlines msecs diff a c ts : times_ok ts → 0 ≤ msecs → 0 ≤ diff →
  (ts = [] → diff = 0) → msecs + diff < 2 ^ 32 → msecs + total ts < 2 ^ 32 →
  deadlines 0 (insert_timeout msecs ts (mk_timeo a (msecs + diff) c)) = armed msecs diff c ts.
Proof.
  intros Hok Hm Hd He Hb Ht. unfold insert_timeout, armed. destruct ts as [|t ts].
  { cbn. rewrite He by done. by rewrite Z.add_0_r. }
  pose proof Hok as Hok0. apply list.Forall_cons in Hok as [Hu Hok]. unfold is_u32 in Hu.
  pose proof (total_times_nonneg ts Hok). cbn [total] in Ht.
  destruct (Z.gtb_spec (time t) msecs) as [H1|H1].
  - rewrite u32_id by clia. cbn [deadlines time set_time call]. f_equal.
    cbn [postpone fmap list_fmap fst snd]. fold (postpone diff (deadlines (0 + time t) ts)).
    rewrite <- deadlines_shift.
    by replace (0 + (msecs + diff) + (time t - msecs)) with (0 + time t + diff) by lia.
  - cbn [total]. destruct (Z.leb_spec diff (time t + total ts)) as [H2|H2].
    + rewrite (insert_loop_deadlines _ _ 0 _ _ (msecs + diff)); [done|done|done|cbn; lia| |lia|cbn; lia].
      intros ? [= <-]. lia.
    + destruct (insert_loop_overdue (time t) msecs 0 (t :: ts) (mk_timeo a (msecs + diff) c) (msecs + diff))
        as (a' & ->); [done|done|cbn; lia|lia|lia|cbn; lia|].
      rewrite deadlines_total. cbn [time call total]. rewrite (u32_id (msecs + time t)) by clia.
      by rewrite Z.add_0_l.
Qed.

Section Spec.
Context {E A : Type} `{HE : TimerEnv E} `{HA : Alloc A} {elt_size : memp_t → Z}.
Context `{HL : !AllocLaws A elt_size}.
Abbreviation T := (timers E A).

(** The time since [timeouts_last_time] [sys_timeout] sees. *)
Definition elapsed (s : T) : Z :=
  match next_timeout s with [] => 0 | _ => u32 ((sys_now (env s)).1 - timeouts_last_time s) end.

Lemma sys_timeout_run (s : T) msecs c a a' :
  pool_malloc MEMP_SYS_TIMEOUT (tallocs s) = Ret (Some a, a') →
  sys_timeout msecs c s = Ret ((), mk_timers
    (insert_timeout msecs (next_timeout s) (mk_timeo a (u32 (msecs + elapsed s)) c))
    (match next_timeout s with [] => (sys_now (env s)).1 | _ => timeouts_last_time s end)
    (tcpip_tcp_timer_active s) a' (sys_now (env s)).2).
Proof.
  intros Hr. unfold sys_timeout, elapsed, mbind, M_bind, memp, now, get, modify. rewrite Hr.
  destruct s as [l z b al e]. cbn [next_timeout timeouts_last_time tallocs env] in *.
  destruct (sys_now e) as [n e']. by destruct l.
Qed.

(** C39: [sys_timeout] arms a timeout relative to the present time, which is
    [elapsed] after [timeouts_last_time]; for an empty list [timeouts_last_time] is set
    to it, else it stays.  The timeout expires [msecs] from now: into an empty list, in
    front of the others, or in its place among them.  Behind the first timeout the
    others keep their deadlines; in front of it all others are put off by [elapsed].
    When more time has passed than all timeouts of the list take together and the new
    one does not go in front, it comes [msecs] plus the time of the first timeout
    behind the last one, the rule the code has for a clock that was not looked at for
    long.  It fails only when the pool is empty. *)
Theorem sys_timeout_deadlines (s : T) L msecs c :
  owns (tallocs s) L → times_ok (next_timeout s) → 0 ≤ msecs →
  msecs + elapsed s < 2 ^ 32 → msecs + total (next_timeout s) < 2 ^ 32 →
  (∃ a', pool_malloc MEMP_SYS_TIMEOUT (tallocs s) = Ret (None, a') ∧
     sys_timeout msecs c s = Err AssertFail) ∨
  ∃ s', sys_timeout msecs c s = Ret ((), s') ∧
    deadlines 0 (next_timeout s') = armed msecs (elapsed s) c (next_timeout s) ∧
    timeouts_last_time s' = match next_timeout s with [] => (sys_now (env s)).1 | _ => timeouts_last_time s end.
Proof.
  intros Ho Hok Hm Hb Ht.
  destruct (pool_malloc_ok (tallocs s) L MEMP_SYS_TIMEOUT Ho) as ([a|] & a' & Hr & _).
  2:{ left. exists a'. split; [done|]. unfold sys_timeout, mbind, M_bind, memp. by rewrite Hr. }
  right. rewrite (sys_timeout_run _ _ _ _ _ Hr). eexists. split; [done|]. cbn [next_timeout timeouts_last_time].
  assert (0 ≤ elapsed s) by (unfold elapsed; destruct (next_timeout s); [done|apply u32_range]).
  rewrite u32_id by clia. split; [|done].
  apply insert_timeout_deadlines; try done. unfold elapsed. by intros ->.
Qed.

(** ** The timers stay armed and the pool suffices *)

Definition ids (ts : list sys_timeo) : list (Z * timeout_call) := (λ t, (node t, call t)) <$> ts.

Lemma insert_loop_ids first msecs ts tm : ts ≠ [] →
  ids (insert_loop first msecs ts tm) ≡ₚ (node tm, call tm) :: ids ts.
Proof.
  revert tm. induction ts as [|t ts IH]; intros tm Hne; [done|]. cbn [insert_loop].
  destruct ts as [|n ts].
  - destruct (_ >? msecs); cbn; apply perm_swap.
  - destruct (_ >? _); [cbn; apply perm_swap|]. cbn [ids fmap list_fmap].
    etransitivity; [apply perm_skip, IH; done|]. cbn. apply perm_swap.
Qed.

Lemma insert_timeout_ids msecs ts tm :
  ids (insert_timeout msecs ts tm) ≡ₚ (node tm, call tm) :: ids ts.
Proof.
  unfold insert_timeout. destruct ts as [|t ts]; [done|].
  destruct (_ >? msecs); [done|]. by apply insert_loop_ids.
Qed.

Definition calls (s : T) : list timeout_call := (ids (next_timeout s)).*2.
Definition nodes (s : T) : list Z := (ids (next_timeout s)).*1.

(** The calls the program arms. *)
Definition known : list timeout_call :=
  [tcpip_tcp_timer_call; cyclic_timer_call ip_reass_tmr; cyclic_timer_call etharp_tmr].

(** The nodes of the list are the elements held of the pool, and no call is armed
    twice. *)
Record base_inv (s : T) (L : gmap loc Z) : Prop := mk_base_inv {
  bi_owns : owns (tallocs s) L;
  bi_nodes a : is_Some (L !! (POOL MEMP_SYS_TIMEOUT, a)) ↔ a ∈ nodes s;
  bi_nodup : NoDup (nodes s);
  bi_calls : NoDup (calls s);
  bi_known : calls s ⊆ known;
}.

Context {num : memp_t → Z} `{HC : !AllocCapacity A num}.
Hypothesis pool_size : 3 ≤ num MEMP_SYS_TIMEOUT.

Lemma few_timeouts s L c : base_inv s L → c ∈ known → c ∉ calls s → (length (nodes s) < 3)%nat.
Proof.
  intros Hi Hc Hn. unfold nodes. rewrite length_fmap, <- (length_fmap snd).
  fold (calls s). change 3%nat with (length known).
  apply Nat.lt_le_trans with (length (c :: calls s)); [simpl; lia|].
  apply submseteq_length, NoDup_submseteq.
  - apply list.NoDup_cons. split; [done|apply Hi].
  - intros x [->|Hx]%elem_of_cons; [done|]. by apply (bi_known _ _ Hi).
Qed.

Lemma sys_timeout_inv s L msecs c : base_inv s L → c ∈ known → c ∉ calls s →
  ∃ s' L', sys_timeout msecs c s = Ret ((), s') ∧ base_inv s' L' ∧
    calls s' ≡ₚ c :: calls s ∧ tcpip_tcp_timer_active s' = tcpip_tcp_timer_active s.
Proof.
  intros Hi Hc Hn. pose proof (few_timeouts s L c Hi Hc Hn) as Hfew.
  destruct (pool_malloc_ok (tallocs s) L MEMP_SYS_TIMEOUT (bi_owns _ _ Hi)) as ([a|] & a' & Hr & Ho).
  2:{ exfalso. destruct (pool_malloc_full _ _ _ _ (bi_owns _ _ Hi) Hr) as (X & HX & Hin).
      assert (size X ≤ length (nodes s))%nat; [|lia].
      rewrite <- (size_list_to_set (C := gset Z) (nodes s)) by apply Hi.
      apply subseteq_size. intros p Hp. apply elem_of_list_to_set, (bi_nodes _ _ Hi), Hin, Hp. }
  destruct Ho as [Hfr Ho]. rewrite (sys_timeout_run _ _ _ _ _ Hr).
  eexists _, _. split; [done|]. set (tm := mk_timeo a _ c).
  pose proof (insert_timeout_ids msecs (next_timeout s) tm) as Hp.
  assert (a ∉ nodes s) as Hna.
  { intros Hin. apply (bi_nodes _ _ Hi) in Hin as [? ?]. congruence. }
  split_and!; [|by unfold calls; cbn [next_timeout]; rewrite Hp|done].
  constructor; unfold nodes, calls; cbn [next_timeout tallocs].
  - exact Ho.
  - intros x. rewrite Hp. cbn [fmap list_fmap fst node tm]. rewrite elem_of_cons, lookup_insert.
    case_decide as E1; [|rewrite (bi_nodes _ _ Hi)].
    + simplify_eq. split; [by left|done].
    + split; [by right|]. intros [->|?]; [done|done].
  - rewrite Hp. cbn [fmap list_fmap fst]. apply list.NoDup_cons. split; [done|apply Hi].
  - rewrite Hp. cbn [fmap list_fmap snd]. apply list.NoDup_cons. split; [done|apply Hi].
  - rewrite Hp. cbn [fmap list_fmap snd]. intros x [->|Hx]%elem_of_cons; [done|]. by apply (bi_known _ _ Hi).
Qed.

(** The invariant of the whole: the timers of IP and ARP are armed, TCP's is when
    its flag is set. *)
Record timers_inv (s : T) (L : gmap loc Z) : Prop := mk_timers_inv {
  ti_base : base_inv s L;
  ti_cyclic c : c ∈ tail lwip_cyclic_timers → cyclic_timer_call c ∈ calls s;
  ti_tcp : tcpip_tcp_timer_call ∈ calls s ↔ tcpip_tcp_timer_active s = true;
}.

(** Changes of the environment do not matter. *)
Lemma base_inv_env s L e : base_inv s L →
  base_inv (mk_timers (next_timeout s) (timeouts_last_time s) (tcpip_tcp_timer_active s) (tallocs s) e) L.
Proof. intros [H1 H2 H3 H4 H5]. by constructor. Qed.

Lemma tcp_timer_needed_inv s L : timers_inv s L →
  ∃ s' L', tcp_timer_needed s = Ret ((), s') ∧ timers_inv s' L'.
Proof.
  intros Hi. pose proof Hi as [Hb Hc Ht]. unfold tcp_timer_needed, mbind, M_bind, get, modify.
  destruct (tcpip_tcp_timer_active s) eqn:Ea; cbn [negb andb]; [by exists s, L|].
  destruct (tcp_pcbs_exist (env s)); [|by exists s, L].
  destruct (sys_timeout_inv (set_active true s) L TCP_TMR_INTERVAL tcpip_tcp_timer_call)
    as (s' & L' & Hr & Hb' & Hp & Hac).
  { destruct Hb. by constructor. }
  { by left. }
  { change (tcpip_tcp_timer_call ∉ calls s). rewrite Ht. done. }
  exists s', L'. split; [done|]. change (calls (set_active true s)) with (calls s) in Hp.
  constructor; [done| |].
  - intros c Hin. rewrite Hp. right. auto.
  - rewrite Hp, Hac. split; [done|]. by left.
Qed.

(** The head of the list is removed and its node released. *)
Lemma pop_inv s L t ts z : base_inv s L → next_timeout s = t :: ts →
  ∃ a L', pool_free MEMP_SYS_TIMEOUT (node t) (tallocs s) = Ret ((), a) ∧
    base_inv (mk_timers ts z (tcpip_tcp_timer_active s) a (env s)) L' ∧
    (call t ∉ (ids ts).*2) ∧ calls s = call t :: (ids ts).*2.
Proof.
  intros [H1 H2 H3 H4 H5] Hl. unfold nodes, calls in *. rewrite Hl in *. cbn [ids fmap list_fmap fst snd] in *.
  destruct (proj2 (H2 (node t)) ltac:(by left)) as [k Hk].
  destruct (pool_free_ok _ _ _ _ _ H1 Hk) as (a & Hf & Ho).
  apply list.NoDup_cons in H3 as [H3n H3]. apply list.NoDup_cons in H4 as [H4n H4].
  exists a, (delete (POOL MEMP_SYS_TIMEOUT, node t) L). split_and!; [done| |done|done].
  constructor; unfold nodes, calls; cbn [next_timeout tallocs]; try done.
  - intros x. rewrite lookup_delete. case_decide as Ex.
    + simplify_eq. split; [by intros [? ?]|done].
    + rewrite H2, elem_of_cons. split; [|by right]. intros [->|?]; [done|done].
  - intros x Hx. apply H5. by right.
Qed.

Lemma run_call_inv s L c : base_inv s L → c ∈ known → c ∉ calls s →
  (∀ d, d ∈ tail lwip_cyclic_timers → cyclic_timer_call d ∈ c :: calls s) →
  (tcpip_tcp_timer_call ∈ c :: calls s ↔ tcpip_tcp_timer_active s = true) →
  ∃ s' L', run_call c s = Ret ((), s') ∧ timers_inv s' L'.
Proof.
  intros Hb Hk Hn Hc Ht. unfold run_call, tcpip_tcp_timer, cyclic_timer, on_env, mbind, M_bind, modify, get.
  destruct c as [|d].
  - set (s1 := mk_timers _ _ _ _ (run_tmr tcp_tmr (env s))).
    assert (base_inv s1 L) as Hb1 by (by apply base_inv_env).
    destruct (tcp_pcbs_exist (env s1)).
    + destruct (sys_timeout_inv s1 L TCP_TMR_INTERVAL tcpip_tcp_timer_call Hb1 Hk Hn)
        as (s' & L' & Hr & Hb' & Hp & Hac).
      exists s', L'. split; [done|]. constructor; [done| |].
      * intros x Hx. rewrite Hp. by apply Hc.
      * rewrite Hp, Hac. exact Ht.
    + exists (set_active false s1), L. split; [done|]. constructor.
      * by destruct Hb1.
      * intros x Hx. specialize (Hc x Hx). apply elem_of_cons in Hc as [?|?]; [done|done].
      * change (tcpip_tcp_timer_call ∈ calls s ↔ false = true). split; [done|done].
  - set (s1 := mk_timers _ _ _ _ (run_tmr d (env s))).
    assert (base_inv s1 L) as Hb1 by (by apply base_inv_env).
    destruct (sys_timeout_inv s1 L (interval_ms d) (cyclic_timer_call d) Hb1 Hk Hn)
      as (s' & L' & Hr & Hb' & Hp & Hac).
    exists s', L'. split; [done|]. constructor; [done| |].
    + intros x Hx. rewrite Hp. by apply Hc.
    + rewrite Hp, Hac. exact Ht.
Qed.

Lemma check_round_inv s L diff : timers_inv s L →
  ∃ r s' L', check_round diff s = Ret (r, s') ∧ timers_inv s' L'.
Proof.
  intros [Hb Hc Ht]. unfold check_round, on_env, mbind, M_bind, modify, get.
  cbn [next_timeout timeouts_last_time].
  set (s1 := mk_timers _ _ _ _ (PBUF_CHECK_FREE_OOSEQ (env s))).
  assert (timers_inv s1 L) as Hi1 by (constructor; [by apply base_inv_env|done|done]).
  destruct (next_timeout s) as [|t ts] eqn:El; [exists None, s1, L; done|].
  destruct (time t <=? diff); [|exists None, s1, L; done].
  destruct (pop_inv s1 L t ts (u32 (timeouts_last_time s + time t)) (ti_base _ _ Hi1)) as (a & L1 & Hf & Hb1 & Hn & Hcs);
    [done|].
  unfold memp, set_last, set_list. cbn [tallocs env next_timeout timeouts_last_time tcpip_tcp_timer_active s1].
  cbn [tallocs s1] in Hf. rewrite Hf.
  destruct (run_call_inv _ L1 (call t) Hb1) as (s' & L' & Hr & Hi').
  - apply (bi_known _ _ (ti_base _ _ Hi1)). rewrite Hcs. by left.
  - done.
  - intros d Hd. unfold calls at 1. cbn [next_timeout]. rewrite <- Hcs. by apply Hi1.
  - unfold calls at 1. cbn [next_timeout tcpip_tcp_timer_active]. rewrite <- Hcs. apply Hi1.
  - unfold s1 in Hr. cbn [tcpip_tcp_timer_active env] in Hr. rewrite Hr. eauto.
Qed.

(** ** Runs of the timers

    After [sys_timeouts_init] the program calls [tcp_timer_needed] when it
    registers a connection, and the main loop runs rounds of
    [sys_check_timeouts]; the clock and the TCP lists change in between. *)

Inductive timer_op :=
  | op_needed                    (* tcp_timer_needed() *)
  | op_round (diff : Z)          (* one round of sys_check_timeouts() *)
  | op_restart                   (* sys_restart_timeouts() *)
  | op_env (f : E → E).          (* the rest of the program *)

Definition run_op (o : timer_op) : M T () :=
  match o with
  | op_needed => tcp_timer_needed
  | op_round diff => _ ← check_round diff; mret ()
  | op_restart => sys_restart_timeouts
  | op_env f => on_env f
  end.

Fixpoint run_ops (os : list timer_op) : M T () :=
  match os with [] => mret () | o :: os => _ ← run_op o; run_ops os end.

Lemma run_op_inv s L o : timers_inv s L →
  ∃ s' L', run_op o s = Ret ((), s') ∧ timers_inv s' L'.
Proof.
  intros Hi. destruct o as [|diff| |f]; cbn [run_op].
  - by apply (tcp_timer_needed_inv s L).
  - destruct (check_round_inv s L diff Hi) as (r & s' & L' & Hr & Hi').
    exists s', L'. unfold mbind, M_bind. by rewrite Hr.
  - unfold sys_restart_timeouts, mbind, M_bind, now, modify.
    destruct (sys_now (env s)) as [n e]. eexists _, L. split; [done|].
    destruct Hi as [[H1 H2 H3 H4 H5] Hc Ht]. by constructor; [constructor|..].
  - eexists _, L. split; [done|]. destruct Hi as [Hb Hc Ht].
    by constructor; [apply base_inv_env|..].
Qed.

Lemma run_ops_inv s L os : timers_inv s L →
  ∃ s' L', run_ops os s = Ret ((), s') ∧ timers_inv s' L'.
Proof.
  revert s L. induction os as [|o os IH]; intros s L Hi; cbn [run_ops]; [by exists s, L|].
  destruct (run_op_inv s L o Hi) as (s1 & L1 & Hr & Hi1). unfold mbind, M_bind. rewrite Hr.
  by apply (IH s1 L1).
Qed.

Lemma sys_timeouts_init_inv s L :
  next_timeout s = [] → tcpip_tcp_timer_active s = false → owns (tallocs s) L →
  (∀ a, L !! (POOL MEMP_SYS_TIMEOUT, a) = None) →
  ∃ s' L', sys_timeouts_init s = Ret ((), s') ∧ timers_inv s' L'.
Proof.
  intros Hl Ha Ho HL0. assert (calls s = []) as Hc0 by (unfold calls; by rewrite Hl).
  assert (base_inv s L) as Hb.
  { constructor; unfold nodes, calls; rewrite ?Hl; cbn; [done| |constructor|constructor|apply list_subseteq_nil].
    intros a. rewrite HL0. split; [by intros [? ?]|by intros ?%elem_of_nil]. }
  unfold sys_timeouts_init. cbn [tail lwip_cyclic_timers start_timers]. unfold mbind, M_bind.
  destruct (sys_timeout_inv s L (interval_ms ip_reass_tmr) (cyclic_timer_call ip_reass_tmr) Hb)
    as (s1 & L1 & -> & Hb1 & Hp1 & Ha1); [right; by left|rewrite Hc0; by apply not_elem_of_nil|].
  rewrite Hc0 in Hp1.
  destruct (sys_timeout_inv s1 L1 (interval_ms etharp_tmr) (cyclic_timer_call etharp_tmr) Hb1)
    as (s2 & L2 & -> & Hb2 & Hp2 & Ha2);
    [right; right; by left|rewrite Hp1; intros ?%list_elem_of_singleton; done|].
  rewrite Hp1 in Hp2. destruct (run_op_inv s2 L2 op_restart) as (s' & L' & Hr & Hi'); [|by eauto].
  constructor; [done| |].
  - intros c Hc. rewrite Hp2. cbn in Hc.
    apply elem_of_cons in Hc as [->|Hc%list_elem_of_singleton]; [right; by left|subst; by left].
  - rewrite Hp2, Ha2, Ha1, Ha. split; [|done].
    intros [?|?%list_elem_of_singleton]%elem_of_cons; done.
Qed.

(** C38: once [sys_timeouts_init] has run, the timers keep running: whatever the
    order of [tcp_timer_needed], of expiries and of changes of the clock and of the
    connections, the pool of timeouts suffices (its assertion never fails and no
    node is released twice), no timer is armed twice, the timers of IP reassembly
    and ARP are always armed, and the one of TCP is armed exactly when
    [tcpip_tcp_timer_active] is set. *)
Theorem timers_stay_armed s L os :
  next_timeout s = [] → tcpip_tcp_timer_active s = false → owns (tallocs s) L →
  (∀ a, L !! (POOL MEMP_SYS_TIMEOUT, a) = None) →
  ∃ s', (_ ← sys_timeouts_init; run_ops os) s = Ret ((), s') ∧ NoDup (calls s') ∧
    cyclic_timer_call ip_reass_tmr ∈ calls s' ∧ cyclic_timer_call etharp_tmr ∈ calls s' ∧
    (tcpip_tcp_timer_call ∈ calls s' ↔ tcpip_tcp_timer_active s' = true).
Proof.
  intros Hl Ha Ho HL0. destruct (sys_timeouts_init_inv s L Hl Ha Ho HL0) as (s1 & L1 & Hr1 & Hi1).
  destruct (run_ops_inv s1 L1 os Hi1) as (s' & L' & Hr & [Hb Hc Ht]).
  exists s'. unfold mbind, M_bind. rewrite Hr1. split_and!; [done|apply Hb| | |done].
  - apply Hc. by left.
  - apply Hc. right. by left.
Qed.
End Spec.

(** ** A concrete clock *)

#[local] Instance example_env : TimerEnv (Z * bool) := {|
  sys_now := λ e, (e.1, e);
  run_tmr := λ _ e, e;
  tcp_pcbs_exist := λ e, e.2;
  PBUF_CHECK_FREE_OOSEQ := λ e, e;
|}.

Definition example_timers : timers (Z * bool) allocators :=
  mk_timers [] 0 false (alloc_init example_pools) (5000, true).

#[local] Instance ex_timer_laws : AllocLaws allocators (λ t, Memp.size (example_pools t)) :=
  lwip_laws example_pools example_pools_ok.
#[local] Instance ex_timer_capacity : AllocCapacity allocators (λ t, Memp.num (example_pools t)) :=
  lwip_capacity example_pools example_pools_ok.

Lemma example_owns : owns (tallocs example_timers) ∅.
Proof. apply (alloc_init_owns example_pools example_pools_ok). Qed.

(** Two connections come and go, and 2.5 seconds pass. *)
Lemma timers_stay_armed_witness : ∃ s',
  (_ ← sys_timeouts_init;
   run_ops [op_needed; op_round 100; op_env (λ e, (7500, true)); op_round 2500;
            op_round 2250; op_env (λ e, (7500, false)); op_round 2000]) example_timers
   = Ret ((), s') ∧ NoDup (calls s') ∧
    cyclic_timer_call ip_reass_tmr ∈ calls s' ∧ cyclic_timer_call etharp_tmr ∈ calls s' ∧
    (tcpip_tcp_timer_call ∈ calls s' ↔ tcpip_tcp_timer_active s' = true).
Proof.
  apply (timers_stay_armed (num := λ t, Memp.num (example_pools t))) with (L := ∅);
    [by vm_compute|done|done|apply example_owns|intros a; apply lookup_empty].
Defined.

(** 100 ms after [timeouts_last_time], a timeout of 250 ms is armed in front of
    one of 1000 ms: that one will expire 100 ms late. *)
Lemma sys_timeout_deadlines_witness :
  let s := mk_timers [mk_timeo 1 1000 (cyclic_timer_call etharp_tmr)] 4900 false
             (alloc_init example_pools) (5000, true) in
  (∃ a', pool_malloc MEMP_SYS_TIMEOUT (tallocs s) = Ret (None, a') ∧
     sys_timeout 250 tcpip_tcp_timer_call s = Err AssertFail) ∨
  ∃ s', sys_timeout 250 tcpip_tcp_timer_call s = Ret ((), s') ∧
    deadlines 0 (next_timeout s') =
      [(350, tcpip_tcp_timer_call); (1100, cyclic_timer_call etharp_tmr)] ∧
    timeouts_last_time s' = match next_timeout s with [] => (sys_now (env s)).1 | _ => timeouts_last_time s end.
Proof.
  intros s. change [(350, _); _] with (armed 250 (elapsed s) tcpip_tcp_timer_call (next_timeout s)).
  apply (sys_timeout_deadlines s ∅ 250 tcpip_tcp_timer_call);
    [apply example_owns|by apply list.Forall_singleton|done|done|done].
Defined.
