(* ===== verification/Pbuf.v ===== *)
(** * Packet buffers: [lwip/src/core/pbuf.c]

    A [struct pbuf] lives in a block of the heap (PBUF_RAM), in an element of a
    pool (PBUF_POOL, PBUF_REF, PBUF_ROM) or in memory of the application
    (custom).  [pbs] holds the structs by location; they stay behind when the
    block is released, as memory does, and [live] says which may be accessed.
    Payload bytes live in regions: the bytes that follow the struct in its own
    block, or memory outside.  A payload pointer is a region and an offset, so
    headroom, shrinking and accesses past the block are visible.

    Loops carry fuel: one round per live pbuf, which bounds every walk along a
    chain without a cycle; more would be a cycle, and the code would not stop. *)

From S2P Require Import Prelude Mem Alloc.

Module Pbuf.

(** ** Constants and types *)

Definition PBUF_LINK_ENCAPSULATION_HLEN : Z := 0.
Definition PBUF_LINK_HLEN : Z := 16.
Definition PBUF_IP_HLEN : Z := 20.
Definition PBUF_TRANSPORT_HLEN : Z := 20.
Definition SIZEOF_STRUCT_PBUF : Z := Mem.LWIP_MEM_ALIGN_SIZE 24.
Definition PBUF_POOL_BUFSIZE_ALIGNED : Z := Mem.LWIP_MEM_ALIGN_SIZE 592.
Definition PBUF_FLAG_IS_CUSTOM : Z := 0x02.

Inductive pbuf_layer := PBUF_TRANSPORT | PBUF_IP | PBUF_LINK | PBUF_RAW_TX | PBUF_RAW.
Inductive pbuf_type := PBUF_RAM | PBUF_ROM | PBUF_REF | PBUF_POOL.

#[global] Instance pbuf_type_eq_dec : EqDecision pbuf_type.
Proof. solve_decision. Defined.

Inductive err_t := ERR_OK | ERR_MEM | ERR_VAL | ERR_ARG | ERR_ABRT | ERR_OTHER (e : Z).

#[global] Instance err_t_eq_dec : EqDecision err_t.
Proof. solve_decision. Defined.

(** Memory payloads point into: the bytes after a pbuf's struct, or an object of
    the application. *)
Inductive region := Own (l : loc) | Ext (n : Z).

#[global] Instance region_eq_dec : EqDecision region.
Proof. solve_decision. Defined.
#[global] Instance region_countable : Countable region.
Proof.
  refine (inj_countable' (λ r, match r with Own l => inl l | Ext n => inr n end)
    (λ s, match s with inl l => Own l | inr n => Ext n end) _).
  by intros [].
Defined.

Abbreviation ptr := (region * Z)%type.

Record pbuf := mk_pbuf {
  next : option loc;
  payload : option ptr;
  tot_len : Z;        (* u16_t *)
  len : Z;            (* u16_t *)
  type : pbuf_type;   (* u8_t *)
  flags : Z;          (* u8_t *)
  ref : Z;            (* u16_t *)
}.

Definition set_next x p := mk_pbuf x (payload p) (tot_len p) (len p) (type p) (flags p) (ref p).
Definition set_payload x p := mk_pbuf (next p) x (tot_len p) (len p) (type p) (flags p) (ref p).
Definition set_tot_len x p := mk_pbuf (next p) (payload p) x (len p) (type p) (flags p) (ref p).
Definition set_len x p := mk_pbuf (next p) (payload p) (tot_len p) x (type p) (flags p) (ref p).
Definition set_flags x p := mk_pbuf (next p) (payload p) (tot_len p) (len p) (type p) x (ref p).
Definition set_ref x p := mk_pbuf (next p) (payload p) (tot_len p) (len p) (type p) (flags p) x.

(** Static memory starts out zeroed. *)
Definition zero_pbuf : pbuf := mk_pbuf None None 0 0 PBUF_RAM 0 0.

(** ** State *)

Record world (A : Type) := mk_world {
  pbs : gmap loc pbuf;
  live : gset loc;
  data : gmap region bytes;
  allocs : A;
  pbuf_free_ooseq_pending : Z;
}.
Arguments mk_world {A} _ _ _ _ _.
Arguments pbs {A} _.
Arguments live {A} _.
Arguments data {A} _.
Arguments allocs {A} _.
Arguments pbuf_free_ooseq_pending {A} _.

Section Ops.
Context {A : Type} `{Alloc A}.

(** Bytes of a block before anyone writes them, and the free function of custom
    pbufs: the program leaves both open. *)
Context (uninit : world A → loc → Z → bytes).
Context (custom_free_function : loc → M (world A) ()).

Abbreviation W := (world A).

Definition set_pbs f (w : W) : W :=
  mk_world (f (pbs w)) (live w) (data w) (allocs w) (pbuf_free_ooseq_pending w).
Definition set_live f (w : W) : W :=
  mk_world (pbs w) (f (live w)) (data w) (allocs w) (pbuf_free_ooseq_pending w).
Definition set_data f (w : W) : W :=
  mk_world (pbs w) (live w) (f (data w)) (allocs w) (pbuf_free_ooseq_pending w).

(** [*p], and an update of some fields of [*p]. *)
Definition rd (l : loc) : M W pbuf := λ w,
  if decide (l ∈ live w) then
    match pbs w !! l with Some p => Ret (p, w) | None => Err OutOfBounds end
  else Err DanglingPtr.
Definition upd (l : loc) (f : pbuf → pbuf) : M W () :=
  p ← rd l; modify (set_pbs <[l := f p]>).
Definition deref (p : option loc) : M W loc := of_option NullDeref p.

(** [memcpy] from and to a payload pointer. *)
Definition valid (r : region) (w : W) : bool :=
  match r with Own l => bool_decide (l ∈ live w) | Ext _ => true end.
Definition load (p : option ptr) (off n : Z) : M W bytes := λ w,
  if n =? 0 then Ret ([], w) else
  match p with
  | None => Err NullDeref
  | Some (r, o) =>
      if valid r w then
        match data w !! r with
        | Some bs =>
            if (0 <=? o + off) && (o + off + n <=? Z.of_nat (length bs))
            then Ret (take (Z.to_nat n) (drop (Z.to_nat (o + off)) bs), w)
            else Err OutOfBounds
        | None => Err OutOfBounds
        end
      else Err DanglingPtr
  end.

(** [splice i src bs]: [src] written over [bs] from index [i] on. *)
Definition splice (i : nat) (src bs : bytes) : bytes :=
  take i bs ++ src ++ drop (i + length src) bs.

Definition store (p : option ptr) (off : Z) (src : bytes) : M W () := λ w,
  if (length src =? 0)%nat then Ret ((), w) else
  match p with
  | None => Err NullDeref
  | Some (r, o) =>
      if valid r w then
        match data w !! r with
        | Some bs =>
            if (0 <=? o + off) && (o + off + Z.of_nat (length src) <=? Z.of_nat (length bs))
            then Ret ((), set_data <[r := splice (Z.to_nat (o + off)) src bs]> w)
            else Err OutOfBounds
        | None => Err OutOfBounds
        end
      else Err DanglingPtr
  end.

(** The bytes of a C object from index [off] on. *)
Definition read_from (src : bytes) (off n : Z) : M W bytes := λ w,
  if (0 <=? off) && (off + n <=? Z.of_nat (length src))
  then Ret (take (Z.to_nat n) (drop (Z.to_nat off) src), w) else Err OutOfBounds.

Definition assert_in_bounds (dst : bytes) (off n : Z) : M W () := λ w,
  if (0 <=? off) && (off + n <=? Z.of_nat (length dst)) then Ret ((), w) else Err OutOfBounds.

Definition fuel (w : W) : nat := S (size (live w)).

(** ** Allocation *)

(** The calls on the allocators; a block handed out becomes a live pbuf whose
    [n] bytes of memory after the struct are not initialised. *)
Definition on_alloc {B} (m : M A B) : M W B := λ w,
  match m (allocs w) with
  | Ret (x, a) => Ret (x, mk_world (pbs w) (live w) (data w) a (pbuf_free_ooseq_pending w))
  | Err f => Err f
  end.
Definition born (l : loc) (n : Z) : M W () := modify (λ w,
  mk_world (<[l := default zero_pbuf (pbs w !! l)]> (pbs w)) ({[l]} ∪ live w)
    (<[Own l := uninit w l n]> (data w)) (allocs w) (pbuf_free_ooseq_pending w)).
Definition kill (l : loc) : M W () := modify (set_live (λ s, s ∖ {[l]})).

Definition memp_malloc (t : memp_t) (n : Z) : M W (option loc) :=
  r ← on_alloc (pool_malloc t);
  match r with
  | None => mret None
  | Some a => _ ← born (POOL t, a) n; mret (Some (POOL t, a))
  end.

(** [mem_malloc(size)] of a block for a [struct pbuf] and its bytes; the struct
    has to fit. *)
Definition mem_malloc (n : Z) : M W (option loc) :=
  let n := u16 n in
  r ← on_alloc (heap_malloc n);
  match r with
  | None => mret None
  | Some a =>
      if n <? SIZEOF_STRUCT_PBUF then fail OutOfBounds
      else _ ← born (HEAP, a) (n - SIZEOF_STRUCT_PBUF); mret (Some (HEAP, a))
  end.

(** The release of the block of a pbuf by the function [pbuf_free] selects; the
    block has to come from there. *)
Definition memp_free (t : memp_t) (l : loc) : M W () :=
  if decide (l.1 = POOL t) then _ ← on_alloc (pool_free t l.2); kill l else fail DanglingPtr.
Definition mem_free (l : loc) : M W () :=
  if decide (l.1 = HEAP) then _ ← on_alloc (heap_free l.2); kill l else fail DanglingPtr.

(** [mem_trim(q, size)]; what is left of the block's bytes stays. *)
Definition mem_trim (l : loc) (n : Z) : M W (option loc) :=
  if decide (l.1 = HEAP) then
    r ← on_alloc (heap_trim l.2 n);
    match r with
    | None => mret None
    | Some a =>
        _ ← modify (set_data (alter (take (Z.to_nat (n - SIZEOF_STRUCT_PBUF))) (Own l)));
        mret (Some (HEAP, a))
    end
  else fail DanglingPtr.

Definition pbuf_pool_is_empty : M W () := modify (λ w,
  mk_world (pbs w) (live w) (data w) (allocs w) 1).

(** The switch on the layer, shared by [pbuf_alloc] and [pbuf_alloced_custom]. *)
Definition header_offset (layer : pbuf_layer) : Z :=
  match layer with
  | PBUF_TRANSPORT =>
      PBUF_LINK_ENCAPSULATION_HLEN + PBUF_LINK_HLEN + PBUF_IP_HLEN + PBUF_TRANSPORT_HLEN
  | PBUF_IP => PBUF_LINK_ENCAPSULATION_HLEN + PBUF_LINK_HLEN + PBUF_IP_HLEN
  | PBUF_LINK => PBUF_LINK_ENCAPSULATION_HLEN + PBUF_LINK_HLEN
  | PBUF_RAW_TX => PBUF_LINK_ENCAPSULATION_HLEN
  | PBUF_RAW => 0
  end.

(** The loop of [pbuf_free]. *)
Fixpoint free_loop (n : nat) (p : option loc) (count : Z) : M W Z :=
  match p with
  | None => mret count
  | Some l =>
      match n with
      | O => fail Diverges
      | S n' =>
          pb ← rd l;
          _ ← assert_ (ref pb >? 0);
          let r := u16 (ref pb - 1) in
          _ ← upd l (set_ref r);
          if r =? 0 then
            let q := next pb in
            _ ← (if negb (Z.land (flags pb) PBUF_FLAG_IS_CUSTOM =? 0)
                 then _ ← custom_free_function l; kill l
                 else if decide (type pb = PBUF_POOL) then memp_free MEMP_PBUF_POOL l
                 else if decide (type pb = PBUF_ROM ∨ type pb = PBUF_REF)
                      then memp_free MEMP_PBUF l
                 else mem_free l);
            free_loop n' q (u8 (count + 1))
          else mret count
      end
  end.

(** [pbuf_free(p)] *)
Definition pbuf_free (p : option loc) : M W Z :=
  _ ← assert_ (bool_decide (is_Some p));
  w ← get;
  free_loop (fuel w) p 0.

(** The loop of [pbuf_alloc] that adds pool pbufs behind [r] until [rem_len]
    bytes are there; [false] when the pool runs out and the chain is freed. *)
Fixpoint alloc_tail (n : nat) (p r : loc) (rem_len : Z) : M W bool :=
  if rem_len >? 0 then
    match n with
    | O => fail Diverges
    | S n' =>
        q ← memp_malloc MEMP_PBUF_POOL PBUF_POOL_BUFSIZE_ALIGNED;
        match q with
        | None => _ ← pbuf_pool_is_empty; _ ← pbuf_free (Some p); mret false
        | Some q =>
            _ ← upd q (λ _, mk_pbuf None None 0 0 PBUF_POOL 0 0);
            _ ← upd r (set_next (Some q));
            _ ← assert_ (rem_len <? 0xffff);
            let qlen := Z.min (u16 rem_len) PBUF_POOL_BUFSIZE_ALIGNED in
            _ ← upd q (λ _, mk_pbuf None (Some (Own q, 0)) (u16 rem_len) qlen PBUF_POOL 0 0);
            pb ← rd p;
            _ ← assert_ (match payload pb with
                         | Some (_, o) => o + len pb <=? PBUF_POOL_BUFSIZE_ALIGNED
                         | None => false
                         end);
            _ ← upd q (set_ref 1);
            alloc_tail n' p q (s32 (rem_len - qlen))
        end
    end
  else mret true.

(** [pbuf_alloc(layer, length, type)]: PBUF_POOL, ... *)
Definition alloc_pool (offset length : Z) : M W (option loc) :=
  p ← memp_malloc MEMP_PBUF_POOL PBUF_POOL_BUFSIZE_ALIGNED;
  match p with
  | None => _ ← pbuf_pool_is_empty; mret None
  | Some p =>
      let plen := Z.min length (PBUF_POOL_BUFSIZE_ALIGNED - Mem.LWIP_MEM_ALIGN_SIZE offset) in
      _ ← upd p (λ pb, mk_pbuf None (Some (Own p, offset)) length plen PBUF_POOL
                         (flags pb) (ref pb));
      _ ← assert_ (offset + plen <=? PBUF_POOL_BUFSIZE_ALIGNED);
      _ ← assert_ (PBUF_POOL_BUFSIZE_ALIGNED - Mem.LWIP_MEM_ALIGN_SIZE offset >? 0);
      _ ← upd p (set_ref 1);
      ok ← alloc_tail (Z.to_nat length) p p (s32 (length - plen));
      mret (if (ok : bool) then Some p else None)
  end.

(** ... PBUF_RAM, ... *)
Definition alloc_ram (offset length : Z) : M W (option loc) :=
  p ← mem_malloc (Mem.LWIP_MEM_ALIGN_SIZE (SIZEOF_STRUCT_PBUF + offset)
                  + Mem.LWIP_MEM_ALIGN_SIZE length);
  match p with
  | None => mret None
  | Some p =>
      _ ← upd p (λ pb, mk_pbuf None (Some (Own p, offset)) length length PBUF_RAM
                         (flags pb) (ref pb));
      mret (Some p)
  end.

(** ... PBUF_ROM and PBUF_REF, ... *)
Definition alloc_ref (length : Z) (ty : pbuf_type) : M W (option loc) :=
  p ← memp_malloc MEMP_PBUF 0;
  match p with
  | None => mret None
  | Some p =>
      _ ← upd p (λ pb, mk_pbuf None None length length ty (flags pb) (ref pb));
      mret (Some p)
  end.

(** ... and the reference count and the flags for all of them. *)
Definition pbuf_alloc (layer : pbuf_layer) (length : Z) (ty : pbuf_type) : M W (option loc) :=
  let offset := header_offset layer in
  p ← match ty with
      | PBUF_POOL => alloc_pool offset length
      | PBUF_RAM => alloc_ram offset length
      | PBUF_ROM | PBUF_REF => alloc_ref length ty
      end;
  match p with
  | None => mret None
  | Some p => _ ← upd p (set_ref 1); _ ← upd p (set_flags 0); mret (Some p)
  end.

(** [pbuf_alloced_custom(l, length, type, p, payload_mem, payload_mem_len)]; the
    block [p] belongs to the caller and becomes a live pbuf. *)
Definition pbuf_alloced_custom (layer : pbuf_layer) (length : Z) (ty : pbuf_type) (p : loc)
    (payload_mem : option ptr) (payload_mem_len : Z) : M W (option loc) :=
  let offset := header_offset layer in
  if Mem.LWIP_MEM_ALIGN_SIZE offset + length >? payload_mem_len then mret None else
  _ ← modify (λ w, mk_world
        (<[p := mk_pbuf None ((λ m, (m.1, m.2 + Mem.LWIP_MEM_ALIGN_SIZE offset)) <$> payload_mem)
                  length length ty PBUF_FLAG_IS_CUSTOM 1]> (pbs w))
        ({[p]} ∪ live w) (data w) (allocs w) (pbuf_free_ooseq_pending w));
  mret (Some p).

(** ** Resizing *)

(** The loop of [pbuf_realloc]: the pbuf that becomes the last one and the bytes
    it keeps. *)
Fixpoint realloc_loop (n : nat) (q : loc) (rem_len grow : Z) : M W (loc * Z) :=
  pb ← rd q;
  if rem_len >? len pb then
    match n with
    | O => fail Diverges
    | S n' =>
        _ ← assert_ (grow <? 0xffff);
        _ ← upd q (set_tot_len (u16 (tot_len pb + u16 grow)));
        _ ← assert_ (bool_decide (is_Some (next pb)));
        q' ← deref (next pb);
        realloc_loop n' q' (u16 (rem_len - len pb)) grow
    end
  else mret (q, rem_len).

(** [(u16_t)((u8_t * )q->payload - (u8_t * )q)] *)
Definition payload_offset (q : loc) (pb : pbuf) : M W Z :=
  match payload pb with
  | Some (Own l, o) =>
      if decide (l = q) then mret (u16 (SIZEOF_STRUCT_PBUF + o)) else fail OutOfBounds
  | _ => fail OutOfBounds
  end.

(** [pbuf_realloc(p, new_len)]: a PBUF_RAM pbuf gives the end of its block back, ... *)
Definition realloc_trim (q : loc) (qb : pbuf) (rem_len : Z) : M W loc :=
  if bool_decide (type qb = PBUF_RAM) && negb (rem_len =? len qb)
     && (Z.land (flags qb) PBUF_FLAG_IS_CUSTOM =? 0)
  then
    off ← payload_offset q qb;
    r ← mem_trim q (u16 (off + rem_len));
    _ ← assert_ (bool_decide (is_Some r));
    deref r
  else mret q.

(** ... the new last pbuf [q] gets its lengths and the pbufs behind it are freed, ... *)
Definition realloc_last (q : loc) (rem_len : Z) : M W () :=
  qb ← rd q;
  q ← realloc_trim q qb rem_len;
  _ ← upd q (set_len rem_len);
  _ ← upd q (set_tot_len rem_len);
  qb ← rd q;
  _ ← match next qb with
      | None => mret 0
      | Some _ => pbuf_free (next qb)
      end;
  upd q (set_next None).

(** ... once the loop has found it. *)
Definition pbuf_realloc (p : option loc) (new_len : Z) : M W () :=
  _ ← assert_ (bool_decide (is_Some p));
  p ← deref p;
  pb ← rd p;
  if new_len >=? tot_len pb then mret () else
  let grow := new_len - tot_len pb in
  w ← get;
  '(q, rem_len) ← realloc_loop (fuel w) p new_len grow;
  realloc_last q rem_len.

(** ** Headers *)

Definition move (d : Z) (p : option ptr) : M W (option ptr) :=
  match p with
  | Some (r, o) => mret (Some (r, o + d))
  | None => fail NullDeref
  end.

(** [pbuf_header_impl(p, header_size_increment, force)]: [true] is failure. *)
Definition pbuf_header_impl (p : option loc) (header_size_increment : Z) (force : bool) :
    M W bool :=
  _ ← assert_ (bool_decide (is_Some p));
  p ← deref p;
  if header_size_increment =? 0 then mret false else
  pb ← rd p;
  let increment_magnitude := u16 (Z.abs header_size_increment) in
  _ ← assert_ ((header_size_increment >=? 0) || (increment_magnitude <=? len pb));
  let grow := upd p (λ pb, set_tot_len (u16 (tot_len pb + header_size_increment))
                        (set_len (u16 (len pb + header_size_increment)) pb)) in
  match type pb with
  | PBUF_RAM | PBUF_POOL =>
      np ← move (- header_size_increment) (payload pb);
      match np with
      | Some (Own l, o) =>
          if negb (bool_decide (l = p)) then fail OutOfBounds
          else if o <? 0 then mret true
          else _ ← upd p (set_payload np); _ ← grow; mret false
      | _ => fail OutOfBounds
      end
  | PBUF_REF | PBUF_ROM =>
      if ((header_size_increment <? 0) && (increment_magnitude <=? len pb))
         || ((header_size_increment >? 0) && force) then
        np ← move (- header_size_increment) (payload pb);
        _ ← upd p (set_payload np); _ ← grow; mret false
      else mret true
  end.

Definition pbuf_header (p : option loc) (n : Z) : M W bool := pbuf_header_impl p n false.
Definition pbuf_header_force (p : option loc) (n : Z) : M W bool := pbuf_header_impl p n true.

(** ** Chains *)

(** [pbuf_clen(p)] *)
Fixpoint clen_loop (n : nat) (p : option loc) (l : Z) : M W Z :=
  match p with
  | None => mret l
  | Some q =>
      match n with
      | O => fail Diverges
      | S n' => pb ← rd q; clen_loop n' (next pb) (u16 (l + 1))
      end
  end.
Definition pbuf_clen (p : option loc) : M W Z := w ← get; clen_loop (fuel w) p 0.

(** [pbuf_ref(p)] *)
Definition pbuf_ref (p : option loc) : M W () :=
  match p with
  | None => mret ()
  | Some l => upd l (λ pb, set_ref (u16 (ref pb + 1)) pb)
  end.

(** [pbuf_cat(h, t)]: the loop to the last pbuf of [h], ... *)
Fixpoint cat_loop (n : nat) (p t : loc) : M W loc :=
  pb ← rd p;
  match next pb with
  | None => mret p
  | Some q =>
      match n with
      | O => fail Diverges
      | S n' =>
          tb ← rd t;
          _ ← upd p (set_tot_len (u16 (tot_len pb + tot_len tb)));
          cat_loop n' q t
      end
  end.

(** ... and the link. *)
Definition pbuf_cat (h t : option loc) : M W () :=
  _ ← assert_ (bool_decide (is_Some h) && bool_decide (is_Some t));
  h ← deref h;
  t ← deref t;
  w ← get;
  p ← cat_loop (fuel w) h t;
  pb ← rd p;
  _ ← assert_ (tot_len pb =? len pb);
  _ ← assert_ (bool_decide (next pb = None));
  tb ← rd t;
  _ ← upd p (set_tot_len (u16 (tot_len pb + tot_len tb)));
  upd p (set_next (Some t)).

Definition pbuf_chain (h t : option loc) : M W () := _ ← pbuf_cat h t; pbuf_ref t.

(** [pbuf_dechain(p)] *)
Definition pbuf_dechain (p : option loc) : M W (option loc) :=
  p ← deref p;
  pb ← rd p;
  tail_gone ← match next pb with
    | None => mret 1
    | Some q =>
        qb ← rd q;
        _ ← assert_ (tot_len qb =? tot_len pb - len pb);
        _ ← upd q (set_tot_len (u16 (tot_len pb - len pb)));
        _ ← upd p (set_next None);
        _ ← upd p (set_tot_len (len pb));
        pbuf_free (Some q)
    end;
  pb' ← rd p;
  _ ← assert_ (tot_len pb' =? len pb');
  mret (if tail_gone >? 0 then None else next pb).

(** ** Data *)

(** [pbuf_copy] does not take packet queues: a pbuf that ends its packet has no
    successor. *)
Definition check_packet (p : option loc) : M W () :=
  match p with
  | None => mret ()
  | Some l => pb ← rd l; assert_ (negb (len pb =? tot_len pb) || bool_decide (next pb = None))
  end.

(** One round of the loop of [pbuf_copy]: it copies what fits of the current
    source into the current target and steps to the next pbuf of at least one of
    the two; the result is where the next round starts. *)
Definition copy_round (p_to p_from : option loc) (offset_to offset_from : Z) :
    M W (option loc * option loc * Z * Z) :=
  t ← deref p_to; tb ← rd t;
  f ← deref p_from; fb ← rd f;
  let n := if len tb - offset_to >=? len fb - offset_from
           then u16 (len fb - offset_from) else u16 (len tb - offset_to) in
  bs ← load (payload fb) offset_from n;
  _ ← store (payload tb) offset_to bs;
  let offset_to := u16 (offset_to + n) in
  let offset_from := u16 (offset_from + n) in
  _ ← assert_ (offset_to <=? len tb);
  _ ← assert_ (offset_from <=? len fb);
  let from_done := offset_from >=? len fb in
  let p_from := if from_done then next fb else p_from in
  let offset_from := if from_done then 0 else offset_from in
  let to_done := offset_to =? len tb in
  let p_to := if to_done then next tb else p_to in
  let offset_to := if to_done then 0 else offset_to in
  _ ← assert_ (negb to_done || bool_decide (is_Some p_to) || bool_decide (p_from = None));
  _ ← check_packet p_from;
  _ ← check_packet p_to;
  mret (p_to, p_from, offset_to, offset_from).

(** The [do ... while (p_from)] loop, [n] rounds at most. *)
Fixpoint copy_loop (n : nat) (p_to p_from : option loc) (offset_to offset_from : Z) :
    M W err_t :=
  match n with
  | O => fail Diverges
  | S n' =>
      '(p_to, p_from, offset_to, offset_from) ← copy_round p_to p_from offset_to offset_from;
      if decide (p_from = None) then mret ERR_OK
      else copy_loop n' p_to p_from offset_to offset_from
  end.

(** [pbuf_copy(p_to, p_from)] *)
Definition pbuf_copy (p_to p_from : option loc) : M W err_t :=
  _ ← assert_ (bool_decide (is_Some p_to) && bool_decide (is_Some p_from));
  t ← deref p_to; tb ← rd t;
  f ← deref p_from; fb ← rd f;
  _ ← assert_ (tot_len tb >=? tot_len fb);
  w ← get;
  copy_loop (2 * fuel w) p_to p_from 0 0.

(** [pbuf_copy_partial(buf, dataptr, len, offset)]: [dst] is the application's
    buffer; the value returned and the buffer after the call. *)
Fixpoint copy_partial_loop (n : nat) (p : option loc) (dst : bytes)
    (length offset left copied_total : Z) : M W (Z * bytes) :=
  match p with
  | None => mret (copied_total, dst)
  | Some q =>
      if length =? 0 then mret (copied_total, dst) else
      match n with
      | O => fail Diverges
      | S n' =>
          pb ← rd q;
          if negb (offset =? 0) && (offset >=? len pb)
          then copy_partial_loop n' (next pb) dst length (u16 (offset - len pb)) left copied_total
          else
            let buf_copy_len := u16 (len pb - offset) in
            let buf_copy_len := if buf_copy_len >? length then length else buf_copy_len in
            bs ← load (payload pb) offset buf_copy_len;
            _ ← assert_in_bounds dst left buf_copy_len;
            copy_partial_loop n' (next pb) (splice (Z.to_nat left) bs dst)
              (u16 (length - buf_copy_len)) 0 (u16 (left + buf_copy_len))
              (u16 (copied_total + buf_copy_len))
      end
  end.

Definition pbuf_copy_partial (buf : option loc) (dataptr : option bytes) (length offset : Z) :
    M W (Z * bytes) :=
  _ ← assert_ (bool_decide (is_Some buf));
  _ ← assert_ (bool_decide (is_Some dataptr));
  dst ← of_option NullDeref dataptr;
  w ← get;
  copy_partial_loop (fuel w) buf dst length offset 0 0.

(** [pbuf_skip_const(in, in_offset, out_offset)] *)
Fixpoint skip_loop (n : nat) (q : option loc) (offset_left : Z) : M W (option loc * Z) :=
  match q with
  | None => mret (None, offset_left)
  | Some l =>
      pb ← rd l;
      if len pb <=? offset_left then
        match n with
        | O => fail Diverges
        | S n' => skip_loop n' (next pb) (u16 (offset_left - len pb))
        end
      else mret (q, offset_left)
  end.
Definition pbuf_skip_const (q : option loc) (in_offset : Z) : M W (option loc * Z) :=
  w ← get; skip_loop (fuel w) q in_offset.
Definition pbuf_skip (q : option loc) (in_offset : Z) : M W (option loc * Z) :=
  pbuf_skip_const q in_offset.

(** [pbuf_take(buf, dataptr, len)] *)
Fixpoint take_loop (n : nat) (p : option loc) (src : bytes)
    (total_copy_len copied_total : Z) : M W (Z * Z) :=
  if total_copy_len =? 0 then mret (total_copy_len, copied_total) else
  match n with
  | O => fail Diverges
  | S n' =>
      _ ← assert_ (bool_decide (is_Some p));
      l ← deref p;
      pb ← rd l;
      let buf_copy_len := if total_copy_len >? len pb then len pb else total_copy_len in
      bs ← read_from src copied_total buf_copy_len;
      _ ← store (payload pb) 0 bs;
      take_loop n' (next pb) src (u16 (total_copy_len - buf_copy_len))
        (u16 (copied_total + buf_copy_len))
  end.

Definition pbuf_take (buf : option loc) (dataptr : option bytes) (length : Z) : M W err_t :=
  _ ← assert_ (bool_decide (is_Some buf));
  _ ← assert_ (bool_decide (is_Some dataptr));
  b ← deref buf;
  pb ← rd b;
  _ ← assert_ (tot_len pb >=? length);
  src ← of_option NullDeref dataptr;
  w ← get;
  '(total_copy_len, copied_total) ← take_loop (fuel w) buf src length 0;
  _ ← assert_ ((total_copy_len =? 0) && (copied_total =? length));
  mret ERR_OK.

(** [pbuf_take_at(buf, dataptr, len, offset)], [dataptr] not NULL: the copy into
    the pbuf [qb] the offset is in and into those behind it, ... *)
Definition take_from (qb : pbuf) (dataptr : bytes) (length target_offset : Z) : M W err_t :=
  let first_copy_len := u16 (Z.min (len qb - target_offset) length) in
  bs ← read_from dataptr 0 first_copy_len;
  _ ← store (payload qb) target_offset bs;
  let remaining_len := u16 (length - first_copy_len) in
  if remaining_len >? 0
  then pbuf_take (next qb) (Some (drop (Z.to_nat first_copy_len) dataptr)) remaining_len
  else mret ERR_OK.

(** ... once [pbuf_skip] has found it. *)
Definition pbuf_take_at (buf : option loc) (dataptr : bytes) (length offset : Z) : M W err_t :=
  '(q, target_offset) ← pbuf_skip buf offset;
  match q with
  | None => mret ERR_MEM
  | Some l =>
      qb ← rd l;
      if tot_len qb >=? target_offset + length
      then take_from qb dataptr length target_offset
      else mret ERR_MEM
  end.

(** [pbuf_coalesce(p, layer)] *)
Definition pbuf_coalesce (p : loc) (layer : pbuf_layer) : M W (option loc) :=
  pb ← rd p;
  if decide (next pb = None) then mret (Some p) else
  q ← pbuf_alloc layer (tot_len pb) PBUF_RAM;
  match q with
  | None => mret (Some p)
  | Some q =>
      err ← pbuf_copy (Some q) (Some p);
      _ ← assert_ (match err with ERR_OK => true | _ => false end);
      _ ← pbuf_free (Some p);
      mret (Some q)
  end.

(** [pbuf_try_get_at(p, offset)]: -1 past the end. *)
Definition pbuf_try_get_at (p : option loc) (offset : Z) : M W Z :=
  '(q, q_idx) ← pbuf_skip_const p offset;
  match q with
  | None => mret (-1)
  | Some l =>
      qb ← rd l;
      if len qb >? q_idx
      then bs ← load (payload qb) q_idx 1; of_option OutOfBounds (head bs)
      else mret (-1)
  end.

Definition pbuf_get_at (p : option loc) (offset : Z) : M W Z :=
  ret ← pbuf_try_get_at p offset;
  mret (if ret >=? 0 then u8 ret else 0).

(** [pbuf_put_at(p, offset, data)] *)
Definition pbuf_put_at (p : option loc) (offset data : Z) : M W () :=
  '(q, q_idx) ← pbuf_skip p offset;
  match q with
  | None => mret ()
  | Some l =>
      qb ← rd l;
      if len qb >? q_idx then store (payload qb) q_idx [data] else mret ()
  end.

(** [pbuf_memcmp(p, offset, s2, n)]: the comparison from the pbuf [q] on, ... *)
Fixpoint memcmp_loop (k : nat) (q : option loc) (start : Z) (s2 : bytes) (n i : Z) : M W Z :=
  if i <? n then
    match k with
    | O => fail Diverges
    | S k' =>
        a ← pbuf_get_at q (u16 (start + i));
        b ← read_from s2 i 1;
        b ← of_option OutOfBounds (head b);
        if negb (a =? b) then mret (u16 (i + 1))
        else memcmp_loop k' q start s2 n (u16 (i + 1))
    end
  else mret 0.

(** ... behind the check of the length and the search for [q]. *)
Definition pbuf_memcmp (p : loc) (offset : Z) (s2 : bytes) (n : Z) : M W Z :=
  pb ← rd p;
  if tot_len pb <? offset + n then mret 0xffff else
  w ← get;
  '(q, start) ← skip_loop (fuel w) (Some p) offset;
  memcmp_loop (Z.to_nat n) q start s2 n 0.

(** [pbuf_memfind(p, mem, mem_len, start_offset)] *)
Fixpoint memfind_loop (k : nat) (p : loc) (mem : bytes) (mem_len max i : Z) : M W Z :=
  if i <=? max then
    match k with
    | O => fail Diverges
    | S k' =>
        plus ← pbuf_memcmp p i mem mem_len;
        if plus =? 0 then mret i else memfind_loop k' p mem mem_len max (u16 (i + 1))
    end
  else mret 0xffff.
Definition pbuf_memfind (p : loc) (mem : bytes) (mem_len start_offset : Z) : M W Z :=
  pb ← rd p;
  let max := u16 (tot_len pb - mem_len) in
  if tot_len pb >=? mem_len + start_offset
  then memfind_loop (Z.to_nat (max - start_offset + 1)) p mem mem_len max start_offset
  else mret 0xffff.

(** [pbuf_strstr(p, substr)]: [substr] is the string without its NUL. *)
Definition pbuf_strstr (p : loc) (substr : option bytes) : M W Z :=
  match substr with
  | None | Some [] => mret 0xffff
  | Some s =>
      pb ← rd p;
      if tot_len pb =? 0xffff then mret 0xffff else
      if Z.of_nat (length s) >=? 0xffff then mret 0xffff
      else pbuf_memfind p s (u16 (Z.of_nat (length s))) 0
  end.

End Ops.
End Pbuf.
