(* ===== verification/PbufChain.v ===== *)
(** * Pbuf chains: representation and the operations that read them

    [chain w p cs] says that the pbufs [cs] are linked from [p]; [tot_ok] is the
    invariant on [tot_len] that [pbuf.h] states; [content] reads the payloads.
    On top of them: the walk of [pbuf_skip], the byte access, the comparison and
    search functions and [pbuf_copy_partial], each equal to the list function it
    computes on the concatenated payload. *)

From S2P Require Import Prelude Mem Alloc Pbuf.
Import Pbuf.

Section Chain.
Context {A : Type}.
Implicit Types (w : world A) (l : loc) (pb : pbuf) (cs : list (loc * pbuf)).

(** ** Representation *)

Fixpoint chain w (p : option loc) cs : Prop :=
  match cs with
  | [] => p = None
  | (l, pb) :: cs' => p = Some l ∧ l ∈ live w ∧ pbs w !! l = Some pb ∧ chain w (next pb) cs'
  end.

(** Sum of the lengths of the pbufs. *)
Fixpoint lens cs : Z :=
  match cs with [] => 0 | (_, pb) :: cs' => len pb + lens cs' end.

(** [p->tot_len == p->len + (p->next? p->next->tot_len: 0)], all of it 16 bits. *)
Fixpoint tot_ok cs : Prop :=
  match cs with
  | [] => True
  | (l, pb) :: cs' => tot_len pb = lens cs ∧ is_u16 (len pb) ∧ is_u16 (lens cs) ∧ tot_ok cs'
  end.

(** The payload of each pbuf of the chain. *)
Definition content w cs (ds : list bytes) : Prop :=
  Forall2 (λ c d, load (payload c.2) 0 (len c.2) w = Ret (d, w)) cs ds.

(** A packet: a chain with its bytes. *)
Record packet w (p : option loc) cs (ds : list bytes) : Prop := mk_packet {
  pk_chain : chain w p cs;
  pk_tot : tot_ok cs;
  pk_content : content w cs ds;
}.

(** ** Chains *)

Lemma chain_fun w p cs1 cs2 : chain w p cs1 → chain w p cs2 → cs1 = cs2.
Proof.
  revert p cs2. induction cs1 as [|[l pb] cs1 IH]; intros p [|[l2 pb2] cs2]; simpl;
    [done|intros ->; by intros [? _]|intros (-> & _); done|].
  intros (-> & _ & Hp & Hc) ([= <-] & _ & Hp2 & Hc2). rewrite Hp in Hp2.
  injection Hp2 as <-. f_equal. by eapply IH.
Qed.

Lemma chain_app w p a b : chain w p (a ++ b) ↔
  ∃ q, chain w q b ∧ match a with
                      | [] => p = q
                      | _ => chain w p (a ++ b)
                      end.
Proof.
  destruct a as [|c a]; simpl; [split; [eauto|by intros (q & ? & ->)]|].
  split; [|by intros (q & _ & ?)]. intros Hc. revert c p Hc.
  induction a as [|c' a IH]; intros [l pb] p Hc; simpl in *.
  - destruct Hc as (-> & ? & ? & Hc). exists (next pb). split; [done|]. by split_and!.
  - destruct Hc as (-> & ? & ? & Hc). destruct (IH c' (next pb) Hc) as (q & Hq & _).
    exists q. split; [done|]. by split_and!.
Qed.

Lemma chain_suffix w p a b : chain w p (a ++ b) → ∃ q, chain w q b.
Proof. intros (q & Hq & _)%chain_app. eauto. Qed.

Lemma chain_NoDup w p cs : chain w p cs → NoDup cs.*1.
Proof.
  revert p. induction cs as [|[l pb] cs IH]; intros p; simpl; [by constructor|].
  intros (-> & Hl & Hp & Hc). constructor; [|by eapply IH].
  intros Hin. apply list_elem_of_fmap in Hin as ([l' pb'] & E & Hin). simpl in E. subst l'.
  apply list_elem_of_split in Hin as (a & b & ->).
  destruct (chain_suffix _ _ _ _ Hc) as (q & Hq).
  assert (q = Some l ∧ pb' = pb) as [-> ->].
  { destruct Hq as (-> & _ & Hp' & _). split; [done|congruence]. }
  assert (chain w (Some l) ((l, pb) :: a ++ (l, pb) :: b)) as Hc2 by by split_and!.
  pose proof (chain_fun _ _ _ _ Hq Hc2) as E. apply (f_equal length) in E.
  simpl in E. rewrite length_app in E. simpl in E. lia.
Qed.

(** A chain is no longer than the set of live pbufs: the fuel is enough. *)
Lemma chain_length w p cs : chain w p cs → (length cs ≤ size (live w))%nat.
Proof.
  intros Hc. pose proof (chain_NoDup _ _ _ Hc) as Hn.
  rewrite <- (length_fmap fst), <- (size_list_to_set (C := gset loc)) by done.
  apply subseteq_size. intros l. rewrite elem_of_list_to_set. clear Hn. revert p Hc.
  induction cs as [|[l' pb] cs IH]; intros p; simpl; [by intros _ ?%elem_of_nil|].
  intros (-> & Hl & _ & Hc) [->|Hin]%elem_of_cons; [done|by eapply IH].
Qed.

Lemma rd_ok w l pb : l ∈ live w → pbs w !! l = Some pb → rd l w = Ret (pb, w).
Proof. intros Hl Hp. unfold rd. by rewrite decide_True, Hp. Qed.

Lemma bind_rd {B} w l pb (k : pbuf → M (world A) B) :
  l ∈ live w → pbs w !! l = Some pb → (rd l ≫= k) w = k pb w.
Proof. intros. apply bind_Ret. by apply rd_ok. Qed.

Lemma bind_get {B} w (k : world A → M (world A) B) : (get ≫= k) w = k w w.
Proof. done. Qed.

Lemma bind_deref {B} w l (k : loc → M (world A) B) : (deref (Some l) ≫= k) w = k l w.
Proof. done. Qed.

Lemma lens_nonneg cs : tot_ok cs → 0 ≤ lens cs < 2 ^ 16.
Proof. destruct cs as [|[l pb] cs]; simpl; [done|]. intros (_ & _ & H & _). apply H. Qed.

Lemma tot_ok_cons l pb cs : tot_ok ((l, pb) :: cs) →
  tot_len pb = len pb + lens cs ∧ 0 ≤ len pb ∧ 0 ≤ lens cs ∧ len pb + lens cs < 2 ^ 16 ∧ tot_ok cs.
Proof.
  simpl. intros (Ht & Hl & Hs & Hok). pose proof (lens_nonneg _ Hok). unfold is_u16 in *.
  split_and!; try lia; done.
Qed.

(** ** Payloads *)

Lemma load_length w p off n d : load p off n w = Ret (d, w) → 0 ≤ n →
  Z.of_nat (length d) = n.
Proof.
  unfold load. destruct (Z.eqb_spec n 0) as [->|Hn]; [by intros [= <-]|].
  destruct p as [[r o]|]; [|done]. destruct (valid r w); [|done].
  destruct (data w !! r) as [bs|]; [|done].
  destruct ((0 <=? o + off) && (o + off + n <=? Z.of_nat (length bs))) eqn:E; [|done].
  intros [= <-] H0. rewrite length_take, length_drop. lia.
Qed.

(** Part of a payload that can be read can be read. *)
Lemma load_sub w p L d off n : load p 0 L w = Ret (d, w) → 0 ≤ off → 0 ≤ n → off + n ≤ L →
  load p off n w = Ret (take (Z.to_nat n) (drop (Z.to_nat off) d), w).
Proof.
  intros Hd H0 Hn HL. pose proof (load_length _ _ _ _ _ Hd) as Hlen. unfold load in *.
  destruct (Z.eqb_spec n 0) as [->|Hn0]; [done|].
  destruct (Z.eqb_spec L 0) as [->|HL0]; [lia|].
  destruct p as [[r o]|]; [|done]. destruct (valid r w); [|done].
  destruct (data w !! r) as [bs|]; [|done].
  destruct ((0 <=? o + 0) && (o + 0 + L <=? Z.of_nat (length bs))) eqn:E; [|done].
  injection Hd as <-. rewrite (proj2 (Z.leb_le 0 _)), (proj2 (Z.leb_le _ _)) by lia. simpl.
  rewrite skipn_firstn_comm, drop_drop, take_take.
  do 3 f_equal; [lia|f_equal; lia].
Qed.

Lemma content_lens w cs ds : tot_ok cs → content w cs ds →
  Z.of_nat (length (concat ds)) = lens cs.
Proof.
  intros Ht Hc. induction Hc as [|[l pb] d cs ds Hd Hc IH]; [done|].
  apply tot_ok_cons in Ht as (_ & H0 & _ & _ & Ht). simpl in *.
  rewrite length_app, Nat2Z.inj_add, (IH Ht). pose proof (load_length _ _ _ _ _ Hd H0). lia.
Qed.

Lemma packet_cons w p l pb cs d ds : packet w p ((l, pb) :: cs) (d :: ds) →
  p = Some l ∧ l ∈ live w ∧ pbs w !! l = Some pb ∧ packet w (next pb) cs ds ∧
  load (payload pb) 0 (len pb) w = Ret (d, w) ∧ Z.of_nat (length d) = len pb ∧
  tot_len pb = len pb + lens cs ∧ 0 ≤ len pb ∧ len pb + lens cs < 2 ^ 16 ∧ 0 ≤ lens cs.
Proof.
  intros [Hc Ht Hd]. apply tot_ok_cons in Ht as (Htl & H0 & Hs & Hb & Ht).
  destruct Hc as (-> & Hl & Hp & Hc). apply list.Forall2_cons in Hd as [Hd Hds]. simpl in Hd.
  pose proof (load_length _ _ _ _ _ Hd H0). by split_and!.
Qed.

Lemma packet_nil w p ds : packet w p [] ds ↔ p = None ∧ ds = [].
Proof.
  split; [|intros [-> ->]; by repeat constructor].
  intros [Hc _ Hd]. apply Forall2_nil_inv_l in Hd. done.
Qed.

(** Case analysis on a packet. *)
Lemma packet_cases w p cs ds : packet w p cs ds →
  (p = None ∧ cs = [] ∧ ds = []) ∨
  ∃ l pb cs' d ds', cs = (l, pb) :: cs' ∧ ds = d :: ds' ∧ packet w p ((l, pb) :: cs') (d :: ds').
Proof.
  intros Hp. destruct cs as [|[l pb] cs].
  - apply packet_nil in Hp as [-> ->]. by left.
  - right. pose proof (pk_content _ _ _ _ Hp) as Hd.
    destruct ds as [|d ds]; [by apply Forall2_nil_inv_r in Hd|]. eauto 10.
Qed.

(** ** The walk to an offset *)

Fixpoint skip_to cs (off : Z) : list (loc * pbuf) * Z :=
  match cs with
  | [] => ([], off)
  | (l, pb) :: cs' => if len pb <=? off then skip_to cs' (off - len pb) else (cs, off)
  end.

Lemma skip_loop_ok w n p cs ds off : packet w p cs ds → (length cs ≤ n)%nat → is_u16 off →
  skip_loop n p off w = Ret ((fst <$> head (skip_to cs off).1, (skip_to cs off).2), w).
Proof.
  revert n p ds off. induction cs as [|[l pb] cs IH]; intros n p ds off Hp Hn Hoff.
  { apply packet_nil in Hp as [-> _]. by destruct n. }
  destruct (packet_cases _ _ _ _ Hp) as [(_ & ? & _)|(? & ? & ? & d & ds' & E & -> & Hp')]; [done|].
  injection E as <- <- <-.
  apply packet_cons in Hp' as (-> & Hl & Hpb & Htl & _ & _ & _ & H0 & _).
  destruct n as [|n]; [simpl in Hn; lia|]. cbn [skip_loop skip_to].
  rewrite (bind_rd w l pb) by done. destruct (Z.leb_spec (len pb) off) as [Hle|Hgt]; [|done].
  rewrite u16_id by (unfold is_u16 in *; lia).
  eapply IH; [exact Htl|simpl in Hn; lia|unfold is_u16 in *; lia].
Qed.

(** Where the walk ends: the rest of the packet, and the bytes from there on. *)
Lemma skip_to_ok w p cs ds off : packet w p cs ds → 0 ≤ off →
  ∃ q ds', packet w q (skip_to cs off).1 ds' ∧ 0 ≤ (skip_to cs off).2 ≤ off ∧
    drop (Z.to_nat off) (concat ds) = drop (Z.to_nat (skip_to cs off).2) (concat ds') ∧
    fst <$> head (skip_to cs off).1 = q ∧
    match (skip_to cs off).1 with
    | (_, pb) :: _ => (skip_to cs off).2 < len pb
    | [] => lens cs ≤ off
    end ∧ off - (skip_to cs off).2 + lens (skip_to cs off).1 = lens cs.
Proof.
  revert p ds off. induction cs as [|[l pb] cs IH]; intros p ds off Hp H0.
  { pose proof Hp as Hp'. apply packet_nil in Hp as [-> ->]. exists None, []. simpl.
    split_and!; try done; lia. }
  destruct (packet_cases _ _ _ _ Hp) as [(_ & ? & _)|(? & ? & ? & d & ds' & E & -> & Hp')]; [done|].
  injection E as <- <- <-. pose proof Hp' as Hpk.
  apply packet_cons in Hp' as (-> & Hl & Hpb & Htl & _ & Hlen & Htot & Hlp & _).
  cbn [skip_to]. destruct (Z.leb_spec (len pb) off) as [Hle|Hgt].
  - destruct (IH _ _ (off - len pb) Htl) as (q & ds2 & H1 & H2 & H3 & H4 & H5 & H6); [lia|].
    exists q, ds2. cbn [lens concat]. split_and!; try done; try lia.
    + rewrite <- H3, drop_app_ge by lia. f_equal. lia.
    + destruct (skip_to cs (off - len pb)).1 as [|[? ?] ?]; [lia|done].
  - exists (Some l), (d :: ds'). simpl. split_and!; try done; lia.
Qed.

End Chain.
Section Read.
Context {A : Type}.
Implicit Types (w : world A) (l : loc) (pb : pbuf) (cs : list (loc * pbuf)).

(** ** Byte access *)

Lemma pbuf_skip_ok w p cs ds off : packet w p cs ds → is_u16 off →
  pbuf_skip_const p off w = Ret ((fst <$> head (skip_to cs off).1, (skip_to cs off).2), w).
Proof.
  intros Hp Hoff. unfold pbuf_skip_const. rewrite bind_get. eapply skip_loop_ok; [done| |done].
  pose proof (chain_length _ _ _ (pk_chain _ _ _ _ Hp)). unfold fuel. lia.
Qed.

Lemma read_from_ok w src off n : 0 ≤ off → off + n ≤ Z.of_nat (length src) →
  read_from src off n w = Ret (take (Z.to_nat n) (drop (Z.to_nat off) src), w).
Proof. intros. unfold read_from. by rewrite (proj2 (Z.leb_le 0 _)), (proj2 (Z.leb_le _ _)). Qed.

Lemma lookup_drop_eq (a b : bytes) i j :
  drop i a = drop j b → a !! i = b !! j.
Proof.
  intros E. rewrite <- (Nat.add_0_r i), <- (Nat.add_0_r j).
  by rewrite <- !lookup_drop, E.
Qed.

Lemma head_take1 (d : bytes) k : head (take 1 (drop k d)) = d !! k.
Proof.
  rewrite <- (Nat.add_0_r k) at 2. rewrite <- lookup_drop. by destruct (drop k d).
Qed.

Lemma try_get_at_ok w p cs ds off : packet w p cs ds → is_u16 off →
  pbuf_try_get_at p off w = Ret (default (-1) (concat ds !! Z.to_nat off), w).
Proof.
  intros Hp Hoff. unfold pbuf_try_get_at.
  rewrite (bind_Ret _ _ _ _ _ (pbuf_skip_ok _ _ _ _ _ Hp Hoff)).
  destruct (skip_to_ok _ _ _ _ off Hp) as (q & ds' & Hq & Hr & Hd & Hh & Hm & _); [apply Hoff|].
  rewrite (lookup_drop_eq _ _ _ _ Hd).
  destruct (skip_to cs off) as [[|[l pb] cs'] off']; simpl in *.
  { apply packet_nil in Hq as [_ ->]. done. }
  destruct (packet_cases _ _ _ _ Hq) as [(_ & ? & _)|(? & ? & ? & d & ds2 & E & -> & Hq')]; [done|].
  injection E as <- <- <-.
  apply packet_cons in Hq' as (_ & Hl & Hpb & _ & Hld & Hlen & _ & H0 & _).
  rewrite (bind_rd w l pb) by done. rewrite Z.gtb_ltb, (proj2 (Z.ltb_lt _ _)) by done.
  erewrite bind_Ret; [|apply load_sub with (L := len pb) (d := d); [exact Hld|lia..]].
  change (Z.to_nat 1) with 1%nat. rewrite head_take1. simpl. rewrite lookup_app_l by lia.
  destruct (lookup_lt_is_Some_2 d (Z.to_nat off')) as [b ->]; [lia|]. done.
Qed.

Lemma get_at_ok w p cs ds off : packet w p cs ds → is_u16 off →
  wf_bytes (drop (Z.to_nat off) (concat ds)) →
  pbuf_get_at p off w = Ret (default 0 (concat ds !! Z.to_nat off), w).
Proof.
  intros Hp Hoff Hb. unfold pbuf_get_at.
  rewrite (bind_Ret _ _ _ _ _ (try_get_at_ok _ _ _ _ _ Hp Hoff)).
  destruct (concat ds !! Z.to_nat off) as [b|] eqn:E; [|done]. simpl.
  assert (is_u8 b) as Hu.
  { apply (Forall_lookup_1 _ _ 0%nat b Hb). by rewrite lookup_drop, Nat.add_0_r. }
  rewrite u8_id by done.
  rewrite (proj2 (Z.geb_le b 0)) by apply Hu. done.
Qed.

(** ** Comparison and search *)

(** The bytes [k .. n) of [xs] and [ys] agree, or the first that differ are at
    [r - 1]. *)
Definition cmp_result (xs ys : bytes) (n k r : Z) : Prop :=
  (r = 0 ∧ ∀ i, k ≤ i < n → xs !! Z.to_nat i = ys !! Z.to_nat i) ∨
  (k < r ≤ n ∧ xs !! Z.to_nat (r - 1) ≠ ys !! Z.to_nat (r - 1) ∧
   ∀ i, k ≤ i < r - 1 → xs !! Z.to_nat i = ys !! Z.to_nat i).

Lemma memcmp_loop_ok w q cs ds start s2 n m i :
  packet w q cs ds → wf_bytes (drop (Z.to_nat start) (concat ds)) → 0 ≤ start → 0 ≤ i →
  start + n ≤ lens cs → n ≤ Z.of_nat (length s2) → (Z.to_nat (n - i) ≤ m)%nat →
  ∃ r, memcmp_loop m q start s2 n i w = Ret (r, w) ∧
       cmp_result (drop (Z.to_nat start) (concat ds)) s2 n i r.
Proof.
  intros Hp Hb H0 Hi Hn Hs. pose proof (content_lens _ _ _ (pk_tot _ _ _ _ Hp) (pk_content _ _ _ _ Hp)) as Hlen.
  pose proof (lens_nonneg _ (pk_tot _ _ _ _ Hp)) as Hmax.
  revert i Hi. induction m as [|m IH]; intros i Hi Hm; cbn [memcmp_loop];
    destruct (Z.ltb_spec i n) as [Hlt|Hge]; try lia.
  1,3: exists 0; split; [done|left; split; [done|lia]].
  rewrite (u16_id (start + i)) by (unfold is_u16; lia).
  erewrite bind_Ret; [|eapply get_at_ok; [exact Hp|unfold is_u16; lia|]].
  2:{ replace (Z.to_nat (start + i)) with (Z.to_nat start + Z.to_nat i)%nat by lia.
      rewrite <- drop_drop. by apply Forall_drop. }
  destruct (lookup_lt_is_Some_2 (concat ds) (Z.to_nat (start + i))) as [a Ha]; [lia|].
  destruct (lookup_lt_is_Some_2 s2 (Z.to_nat i)) as [b Hbb]; [lia|].
  assert (drop (Z.to_nat start) (concat ds) !! Z.to_nat i = Some a) as Ha'
    by (rewrite lookup_drop; by replace (Z.to_nat start + Z.to_nat i)%nat with (Z.to_nat (start + i)) by lia).
  erewrite bind_Ret; [|apply read_from_ok; lia].
  change (Z.to_nat 1) with 1%nat. rewrite head_take1, Hbb, Ha. change (default 0 (Some a)) with a.
  rewrite (bind_Ret (of_option OutOfBounds (Some b)) _ w b w eq_refl).
  rewrite (u16_id (i + 1)) by (unfold is_u16; lia).
  destruct (Z.eqb_spec a b) as [->|Hne]; cbn [negb].
  - destruct (IH (i + 1)) as (r & Hr & Hc); [lia|lia|]. exists r. split; [done|].
    destruct Hc as [[-> Hc]|(H1 & H2 & Hc)]; [left|right]; (split_and!; try done; try lia);
      intros j Hj; (destruct (decide (j = i)) as [->|]; [congruence|apply Hc; lia]).
  - exists (i + 1). split; [done|]. right. replace (i + 1 - 1) with i by lia.
    split_and!; [lia|lia|congruence|lia].
Qed.


(** [pbuf_memcmp]: 0xffff when the packet is too short, else the comparison. *)
Lemma memcmp_ok w p cs ds off s2 n : packet w (Some p) cs ds → wf_bytes (concat ds) →
  is_u16 off → is_u16 n → n ≤ Z.of_nat (length s2) →
  ∃ r, pbuf_memcmp p off s2 n w = Ret (r, w) ∧
    (lens cs < off + n ∧ r = 0xffff ∨
     off + n ≤ lens cs ∧ cmp_result (drop (Z.to_nat off) (concat ds)) s2 n 0 r).
Proof.
  intros Hp Hb Ho Hn Hs. unfold pbuf_memcmp.
  destruct (packet_cases _ _ _ _ Hp) as [(? & _)|(l & pb & cs' & d & ds' & -> & -> & Hp')]; [done|].
  pose proof Hp' as Hpk. apply packet_cons in Hp' as ([= <-] & Hl & Hpb & _ & _ & _ & Ht & _).
  rewrite (bind_rd w p pb) by done. rewrite Ht. change (len pb + lens cs') with (lens ((p, pb) :: cs')).
  destruct (Z.ltb_spec (lens ((p, pb) :: cs')) (off + n)) as [Hlt|Hge].
  { exists 0xffff. split; [done|]. by left. }
  rewrite bind_get. erewrite bind_Ret.
  2:{ eapply skip_loop_ok; [exact Hpk| |done].
      pose proof (chain_length _ _ _ (pk_chain _ _ _ _ Hpk)). unfold fuel. lia. }
  destruct (skip_to_ok _ _ _ _ off Hpk) as (q & dsq & Hq & Hr & Hd & Hh & Hm & Hlen); [apply Ho|].
  cbn beta iota. rewrite Hh. assert (wf_bytes (drop (Z.to_nat off) (concat (d :: ds')))) as Hbd
    by by apply Forall_drop.
  destruct (memcmp_loop_ok w q _ dsq (skip_to ((p, pb) :: cs') off).2 s2 n (Z.to_nat n) 0 Hq)
    as (r & Hrun & Hc); [by rewrite <- Hd|lia..|].
  exists r. split; [done|]. right. split; [done|]. by rewrite Hd.
Qed.

(** [pat] occurs at [i] in [xs]. *)
Definition occurs (xs pat : bytes) (i : Z) : Prop :=
  take (length pat) (drop (Z.to_nat i) xs) = pat ∧ i + Z.of_nat (length pat) ≤ Z.of_nat (length xs).

Lemma cmp_result_occurs (xs pat : bytes) i r :
  i + Z.of_nat (length pat) ≤ Z.of_nat (length xs) → 0 ≤ i →
  cmp_result (drop (Z.to_nat i) xs) pat (Z.of_nat (length pat)) 0 r →
  r = 0 ↔ occurs xs pat i.
Proof.
  intros Hl H0 Hc. split.
  - intros ->. destruct Hc as [[_ Hc]|[? _]]; [|lia]. split; [|done]. apply list_eq. intros k.
    destruct (decide (k < length pat)%nat) as [Hk|Hk].
    + rewrite lookup_take_lt by lia. rewrite <- (Nat2Z.id k). apply Hc. lia.
    + rewrite lookup_take_ge by lia. symmetry. apply lookup_ge_None_2. lia.
  - intros [Ho _]. destruct Hc as [[? _]|(Hr & Hne & _)]; [done|]. destruct Hne.
    rewrite <- Ho. rewrite lookup_take_lt by lia. done.
Qed.

(** [r] is where the search from [start] on ends. *)
Definition find_result (xs pat : bytes) (start r : Z) : Prop :=
  (start ≤ r ∧ occurs xs pat r ∧ ∀ i, start ≤ i < r → ¬ occurs xs pat i) ∨
  (r = 0xffff ∧ ∀ i, start ≤ i → ¬ occurs xs pat i).

Lemma memfind_loop_ok w p cs ds pat k i :
  packet w (Some p) cs ds → wf_bytes (concat ds) → lens cs < 0xffff →
  Z.of_nat (length pat) ≤ lens cs → 0 ≤ i →
  (Z.to_nat (lens cs - Z.of_nat (length pat) - i + 1) ≤ k)%nat →
  ∃ r, memfind_loop k p pat (Z.of_nat (length pat)) (lens cs - Z.of_nat (length pat)) i w = Ret (r, w) ∧
       find_result (concat ds) pat i r.
Proof.
  intros Hp Hb Hmax Hpat.
  pose proof (content_lens _ _ _ (pk_tot _ _ _ _ Hp) (pk_content _ _ _ _ Hp)) as Hlen.
  revert i. induction k as [|k IH]; intros i Hi Hk; cbn [memfind_loop];
    destruct (Z.leb_spec i (lens cs - Z.of_nat (length pat))) as [Hle|Hgt]; try lia.
  1,3: exists 0xffff; split; [done|right; split; [done|]]; intros j Hj [_ Ho]; lia.
  destruct (memcmp_ok w p cs ds i pat (Z.of_nat (length pat)) Hp Hb) as (r & Hr & Hc);
    [unfold is_u16; lia..|]. rewrite (bind_Ret _ _ _ _ _ Hr).
  destruct Hc as [[? _]|[_ Hc]]; [lia|]. apply cmp_result_occurs in Hc; [|lia|done].
  destruct (Z.eqb_spec r 0) as [Hr0|Hr0].
  - exists i. split; [done|]. left. split_and!; [lia|tauto|lia].
  - rewrite u16_id by (unfold is_u16; lia).
    destruct (IH (i + 1)) as (r2 & Hr2 & Hf); [lia|lia|]. exists r2. split; [done|].
    assert (¬ occurs (concat ds) pat i) as Hno by tauto.
    destruct Hf as [(H1 & H2 & H3)|[H1 H3]]; [left|right]; (split_and!; [lia|try done..]);
      intros j Hj; (destruct (decide (j = i)) as [->|]; [done|apply H3; lia]).
Qed.

Lemma memfind_ok w p cs ds pat start :
  packet w (Some p) cs ds → wf_bytes (concat ds) → lens cs < 0xffff →
  is_u16 (Z.of_nat (length pat)) → is_u16 start →
  ∃ r, pbuf_memfind p pat (Z.of_nat (length pat)) start w = Ret (r, w) ∧
       find_result (concat ds) pat start r.
Proof.
  intros Hp Hb Hmax Hpat Hst. unfold pbuf_memfind.
  pose proof (content_lens _ _ _ (pk_tot _ _ _ _ Hp) (pk_content _ _ _ _ Hp)) as Hlen.
  destruct (packet_cases _ _ _ _ Hp) as [(? & _)|(l & pb & cs' & d & ds' & -> & -> & Hp')]; [done|].
  pose proof Hp' as Hpk. apply packet_cons in Hp' as ([= <-] & Hl & Hpb & _ & _ & _ & Ht & _).
  rewrite (bind_rd w p pb) by done. rewrite Ht. change (len pb + lens cs') with (lens ((p, pb) :: cs')) in *.
  unfold is_u16 in *. rewrite Z.geb_leb.
  destruct (Z.leb_spec (Z.of_nat (length pat) + start) (lens ((p, pb) :: cs'))) as [Hle|Hgt].
  - rewrite u16_id by (unfold is_u16; lia). eapply memfind_loop_ok; [done|done|lia..].
  - exists 0xffff. split; [done|]. right. split; [done|]. intros i Hi [_ Ho]. lia.
Qed.

(** ** [pbuf_clen] *)

Lemma clen_loop_ok w n p cs k : chain w p cs → (length cs ≤ n)%nat → 0 ≤ k →
  k + Z.of_nat (length cs) < 2 ^ 16 →
  clen_loop n p k w = Ret (k + Z.of_nat (length cs), w).
Proof.
  revert n p k. induction cs as [|[l pb] cs IH]; intros n p k Hc Hn Hk Hb.
  - rewrite Hc. rewrite Z.add_0_r. by destruct n.
  - destruct Hc as (-> & Hl & Hp & Hc). destruct n as [|n]; [simpl in Hn; lia|].
    cbn [clen_loop]. rewrite (bind_rd w l pb) by done. simpl in Hb, Hn.
    rewrite u16_id by (unfold is_u16; lia). rewrite (IH n (next pb) (k + 1)) by (done || lia).
    do 2 f_equal. simpl. lia.
Qed.

(** ** [pbuf_copy_partial] *)

Lemma splice_length i (src bs : bytes) : (i + length src ≤ length bs)%nat →
  length (splice i src bs) = length bs.
Proof. intros. unfold splice. rewrite !length_app, length_take, length_drop. lia. Qed.

Lemma splice_splice i (a b bs : bytes) : (i + length a + length b ≤ length bs)%nat →
  splice (i + length a) b (splice i a bs) = splice i (a ++ b) bs.
Proof.
  intros Hl. assert (length (take i bs ++ a) = i + length a)%nat as Hp
    by (rewrite length_app, length_take; lia).
  unfold splice. rewrite !(assoc_L app (take i bs) a).
  rewrite take_app_length' by done. rewrite drop_app_ge by lia. rewrite Hp.
  rewrite drop_drop, !length_app, <- !(assoc_L app). do 4 f_equal. lia.
Qed.

Lemma splice_nil i (bs : bytes) : splice i [] bs = bs.
Proof. unfold splice. simpl. rewrite Nat.add_0_r. apply take_drop. Qed.

Lemma copy_partial_loop_ok w n p cs ds dst length offset left :
  packet w p cs ds → (List.length cs ≤ n)%nat → is_u16 length → is_u16 offset →
  0 ≤ left → left + length ≤ Z.of_nat (List.length dst) → left + length < 2 ^ 16 →
  let src := take (Z.to_nat length) (drop (Z.to_nat offset) (concat ds)) in
  copy_partial_loop n p dst length offset left left w =
    Ret ((left + Z.of_nat (List.length src), splice (Z.to_nat left) src dst), w).
Proof.
  revert n p ds dst length offset left. induction cs as [|[l pb] cs IH];
    intros n p ds dst length offset left Hp Hn Hl Ho H0 Hd Hb src; unfold src.
  { apply packet_nil in Hp as [-> ->]. simpl. rewrite drop_nil, take_nil. simpl.
    rewrite splice_nil, Z.add_0_r. by destruct n. }
  destruct (packet_cases _ _ _ _ Hp) as [(_ & ? & _)|(? & ? & ? & d & ds' & E & -> & Hp')]; [done|].
  injection E as <- <- <-.
  apply packet_cons in Hp' as (-> & Hlv & Hpb & Htl & Hld & Hlen & _ & Hp0 & Hpm & Hs0).
  destruct n as [|n]; [simpl in Hn; lia|]. cbn [copy_partial_loop concat].
  unfold is_u16 in Hl, Ho. simpl in Hn.
  destruct (Z.eqb_spec length 0) as [->|Hne].
  { simpl. by rewrite splice_nil, Z.add_0_r. }
  rewrite (bind_rd w l pb) by done.
  destruct (negb (offset =? 0) && (offset >=? len pb)) eqn:Eo.
  { rewrite u16_id by (unfold is_u16; lia).
    rewrite (IH n _ ds') by (done || unfold is_u16 in *; lia).
    rewrite drop_app_ge by lia.
    by replace (Z.to_nat (offset - len pb)) with (Z.to_nat offset - List.length d)%nat by lia. }
  rewrite (u16_id (len pb - offset)) by (unfold is_u16 in *; lia).
  set (k := if len pb - offset >? length then length else len pb - offset).
  assert (0 ≤ k ≤ length ∧ offset + k ≤ len pb ∧ (k = length ∨ k = len pb - offset)) as (Hk & Hkp & Hkk)
    by (unfold k; destruct (Z.gtb_spec (len pb - offset) length); lia).
  erewrite bind_Ret; [|apply load_sub with (L := len pb) (d := d); [exact Hld|lia..]].
  set (x := take (Z.to_nat k) (drop (Z.to_nat offset) d)).
  assert (Z.of_nat (List.length x) = k) as Hx by (unfold x; rewrite length_take, length_drop; lia).
  erewrite bind_Ret.
  2:{ unfold assert_in_bounds. rewrite (proj2 (Z.leb_le 0 _)), (proj2 (Z.leb_le _ _)) by lia. done. }
  rewrite !u16_id by (unfold is_u16 in *; lia).
  rewrite (IH n _ ds') by (done || rewrite ?splice_length by lia; unfold is_u16 in *; lia).
  change (drop (Z.to_nat 0) ?y) with y. set (y := take (Z.to_nat (length - k)) (concat ds')).
  assert (take (Z.to_nat length) (drop (Z.to_nat offset) (d ++ concat ds')) = x ++ y) as ->.
  { rewrite drop_app_le by lia. unfold x, y. destruct Hkk as [->| ->].
    - rewrite Z.sub_diag, take_0, app_nil_r, take_app_le; [done|rewrite length_drop; lia].
    - rewrite take_app_ge by (rewrite length_drop; lia).
      rewrite (take_ge (drop _ d)) by (rewrite length_drop; lia). do 2 f_equal.
      rewrite length_drop. lia. }
  replace (Z.to_nat (left + k)) with (Z.to_nat left + List.length x)%nat by lia.
  rewrite splice_splice by (unfold y; rewrite length_take; lia).
  rewrite length_app. do 3 f_equal. lia.
Qed.
End Read.
