(* ===== verification/PbufWrite.v ===== *)
(** * Writing into pbuf chains

    [pbuf_take], [pbuf_put_at] and [pbuf_copy] change payload bytes only:
    [frame] says what stays.  A chain is written through distinct regions, so a
    write to one pbuf leaves the others as they are. *)

From S2P Require Import Prelude Mem Alloc Pbuf PbufChain.
Import Pbuf.

Section Write.
Context {A : Type}.
Implicit Types (w : world A) (l : loc) (pb : pbuf) (cs : list (loc * pbuf)).

(** The regions a chain's bytes are in. *)
Definition region_list pb : list region :=
  match payload pb with Some (r, _) => if len pb =? 0 then [] else [r] | None => [] end.
Fixpoint regions cs : list region :=
  match cs with [] => [] | (_, pb) :: cs' => region_list pb ++ regions cs' end.

(** Only bytes of the regions [rs] differ between [w] and [w']. *)
Record frame (rs : list region) w w' : Prop := mk_frame {
  fr_pbs : pbs w' = pbs w;
  fr_live : live w' = live w;
  fr_allocs : allocs w' = allocs w;
  fr_pending : pbuf_free_ooseq_pending w' = pbuf_free_ooseq_pending w;
  fr_data r : r ∉ rs → data w' !! r = data w !! r;
  fr_size r : length <$> data w' !! r = length <$> data w !! r;
}.

#[global] Instance frame_refl rs : Reflexive (frame rs).
Proof. by constructor. Qed.

#[global] Instance frame_trans rs : Transitive (frame rs).
Proof.
  intros w1 w2 w3 [H1 H2 H3 H4 H5 H6] [K1 K2 K3 K4 K5 K6]. constructor; try congruence.
  intros r Hr. by rewrite K5, H5.
Qed.

Lemma frame_mono rs rs' w w' : rs ⊆ rs' → frame rs w w' → frame rs' w w'.
Proof. intros Hs []. constructor; eauto. Qed.

Lemma chain_frame rs w w' p cs : frame rs w w' → chain w p cs → chain w' p cs.
Proof.
  intros [Hp Hl _ _ _ _]. revert p. induction cs as [|[l pb] cs IH]; intros p; simpl; [done|].
  rewrite Hp, Hl. intros (? & ? & ? & ?). split_and!; auto.
Qed.

Lemma load_frame rs w w' p off n d : frame rs w w' →
  (n ≠ 0 → ∀ r o, p = Some (r, o) → r ∉ rs) →
  load p off n w = Ret (d, w) → load p off n w' = Ret (d, w').
Proof.
  intros Hf Hr. unfold load. destruct (Z.eqb_spec n 0) as [->|Hn]; [by intros [= <-]|].
  destruct p as [[r o]|]; [|done]. unfold valid. rewrite (fr_live _ _ _ Hf).
  destruct (match r with Own l => bool_decide (l ∈ live w) | Ext _ => true end); [|done].
  rewrite (fr_data _ _ _ Hf) by eauto. destruct (data w !! r) as [bs|]; [|done].
  destruct ((0 <=? o + off) && (o + off + n <=? Z.of_nat (length bs))); [|done].
  by intros [= <-].
Qed.

Lemma content_frame rs w w' cs ds : frame rs w w' → (∀ r, r ∈ regions cs → r ∉ rs) →
  content w cs ds → content w' cs ds.
Proof.
  intros Hf Hr Hc. unfold content in *.
  induction Hc as [|[l pb] d cs ds Hd Hc IH]; [constructor|]. simpl in *.
  constructor; simpl.
  - eapply load_frame; [exact Hf| |exact Hd]. intros Hn r o E. apply Hr.
    unfold region_list. rewrite E, (proj2 (Z.eqb_neq _ _)) by done. by left.
  - apply IH. intros r Hin. apply Hr, elem_of_app. by right.
Qed.

Lemma packet_frame rs w w' p cs ds : frame rs w w' → (∀ r, r ∈ regions cs → r ∉ rs) →
  packet w p cs ds → packet w' p cs ds.
Proof.
  intros Hf Hr [Hc Ht Hd]. constructor; [by eapply chain_frame|done|by eapply content_frame].
Qed.

Lemma splice_app_l (a b src : bytes) i : splice (length a + i) src (a ++ b) = a ++ splice i src b.
Proof.
  unfold splice. rewrite take_app_add', <- (assoc_L app) by done. do 2 f_equal.
  rewrite <- Nat.add_assoc. f_equal. by rewrite drop_app_add' by done.
Qed.

Lemma splice_app_r (x c src : bytes) i : (i + length src ≤ length x)%nat →
  splice i src (x ++ c) = splice i src x ++ c.
Proof.
  intros Hl. unfold splice. rewrite take_app_le, drop_app_le by lia.
  by rewrite <- !(assoc_L app).
Qed.

Lemma take_drop_splice (bs src : bytes) o L off :
  (o + L ≤ length bs)%nat → (off + length src ≤ L)%nat →
  take L (drop o (splice (o + off) src bs)) = splice off src (take L (drop o bs)).
Proof.
  intros Hb Hs. assert (length (take o bs) = o) as Ho by (rewrite length_take; lia).
  assert (length (take L (drop o bs)) = L) as HL by (rewrite length_take, length_drop; lia).
  rewrite <- (take_drop o bs) at 1. rewrite <- Ho at 2. rewrite splice_app_l.
  rewrite drop_app_length' by done. rewrite <- (take_drop L (drop o bs)) at 1.
  rewrite splice_app_r by lia. by rewrite take_app_length' by (rewrite splice_length; lia).
Qed.

(** A write inside the payload of a pbuf. *)
Lemma store_ok w p L d off src : load p 0 L w = Ret (d, w) → 0 ≤ off → 0 ≤ L →
  off + Z.of_nat (length src) ≤ L →
  ∃ w', store p off src w = Ret ((), w') ∧
    load p 0 L w' = Ret (splice (Z.to_nat off) src d, w') ∧
    frame (match p with Some (r, _) => if L =? 0 then [] else [r] | None => [] end) w w'.
Proof.
  intros Hd H0 HL Hs. pose proof (load_length _ _ _ _ _ Hd HL) as Hlen. unfold store.
  destruct (Nat.eqb_spec (length src) 0) as [E|E].
  { apply nil_length_inv in E as ->. exists w. rewrite splice_nil. split_and!; done. }
  unfold load in Hd. destruct (Z.eqb_spec L 0) as [->|HL0]; [lia|].
  destruct p as [[r o]|]; [|done]. destruct (valid r w) eqn:Ev; [|done].
  destruct (data w !! r) as [bs|] eqn:Er; [|done].
  destruct ((0 <=? o + 0) && (o + 0 + L <=? Z.of_nat (length bs))) eqn:Eb; [|done].
  injection Hd as <-. rewrite (proj2 (Z.leb_le 0 _)), (proj2 (Z.leb_le _ _)) by lia. simpl.
  eexists. split; [done|]. split.
  - unfold load. rewrite (proj2 (Z.eqb_neq L 0)) by done.
    replace (valid r _) with (valid r w) by (by destruct r). rewrite Ev. simpl.
    rewrite lookup_insert_eq, splice_length by lia. rewrite Eb. do 2 f_equal.
    replace (Z.to_nat (o + off)) with (Z.to_nat (o + 0) + Z.to_nat off)%nat by lia.
    apply take_drop_splice; lia.
  - constructor; try done.
    + intros r' Hr. simpl. rewrite lookup_insert_ne; [done|]. intros ->. apply Hr. by left.
    + intros r'. simpl. rewrite lookup_insert. case_decide as E'; [subst r'|done].
      rewrite Er. simpl. f_equal. apply splice_length. lia.
Qed.

(** ** [pbuf_take] *)

Lemma NoDup_regions l pb cs : NoDup (regions ((l, pb) :: cs)) →
  NoDup (regions cs) ∧ ∀ r, r ∈ regions cs → r ∉ region_list pb.
Proof.
  simpl. intros (_ & Hd & Hn)%list.NoDup_app. split; [done|]. intros r Hr Hin. by apply (Hd r).
Qed.

(** Writing to the first pbuf of a packet. *)
Lemma packet_store w p l pb cs d ds off src : packet w p ((l, pb) :: cs) (d :: ds) →
  NoDup (regions ((l, pb) :: cs)) → 0 ≤ off → off + Z.of_nat (length src) ≤ len pb →
  ∃ w', store (payload pb) off src w = Ret ((), w') ∧ frame (region_list pb) w w' ∧
    packet w' p ((l, pb) :: cs) (splice (Z.to_nat off) src d :: ds).
Proof.
  intros Hp Hnd H0 Hs. pose proof Hp as Hp'.
  apply packet_cons in Hp' as (-> & Hl & Hpb & Htl & Hd & Hlen & _ & H1 & _).
  destruct (store_ok w (payload pb) (len pb) d off src) as (w' & Hst & Hld & Hf); [done..|].
  exists w'. split_and!; [done|done|]. apply NoDup_regions in Hnd as [Hnd Hne].
  destruct Hp as [Hc Ht Hcont]. constructor; [by eapply chain_frame|done|].
  constructor; [done|]. eapply content_frame; [exact Hf|exact Hne|]. apply Htl.
Qed.

(** What one round of the copy and the rest of the loop write together. *)
Lemma take_step (src d rest : bytes) k t c :
  (k ≤ length d)%nat → (k ≤ t)%nat → k = t ∨ k = length d →
  (take k (drop c src) ++ drop k d) ++ take (t - k) (drop (c + k) src) ++ drop (t - k) rest =
  take t (drop c src) ++ drop t (d ++ rest).
Proof.
  intros Hk Ht [->| ->].
  - rewrite Nat.sub_diag. simpl. by rewrite drop_app_le, (assoc_L app) by lia.
  - rewrite drop_all, app_nil_r, drop_app_ge by lia. rewrite (assoc_L app), <- drop_drop.
    rewrite take_take_drop. do 3 f_equal. lia.
Qed.

Lemma take_loop_ok w n p cs ds src total copied :
  packet w p cs ds → NoDup (regions cs) → (length cs ≤ n)%nat →
  0 ≤ total ≤ lens cs → 0 ≤ copied → copied + total < 2 ^ 16 →
  copied + total ≤ Z.of_nat (length src) →
  ∃ w' ds', take_loop n p src total copied w = Ret ((0, copied + total), w') ∧
    frame (regions cs) w w' ∧ packet w' p cs ds' ∧
    concat ds' = take (Z.to_nat total) (drop (Z.to_nat copied) src) ++
                 drop (Z.to_nat total) (concat ds).
Proof.
  revert w n p ds total copied. induction cs as [|[l pb] cs IH];
    intros w n p ds total copied Hp Hnd Hn Ht Hc Hb Hs.
  { exists w, ds. simpl in Ht. replace total with 0 by lia. rewrite Z.add_0_r.
    split_and!; [by destruct n|done|done|done]. }
  destruct (packet_cases _ _ _ _ Hp) as [(_ & ? & _)|(? & ? & ? & d & ds' & E & -> & Hp')]; [done|].
  injection E as <- <- <-. pose proof Hp' as Hpk.
  apply packet_cons in Hp' as (-> & Hlv & Hpb & Htl & Hld & Hlen & Htot & H0 & Hm & Hs0).
  destruct n as [|n]; [simpl in Hn; lia|]. cbn [take_loop]. simpl in Hn, Ht.
  destruct (Z.eqb_spec total 0) as [->|Hne].
  { exists w, (d :: ds'). by rewrite Z.add_0_r. }
  rewrite bind_assert, bind_deref, (bind_rd w l pb) by done. rewrite Z.gtb_ltb.
  set (k := if len pb <? total then len pb else total).
  assert (0 ≤ k ≤ len pb ∧ k ≤ total ∧ (k = total ∨ k = len pb)) as (Hk & Hkt & Hkk)
    by (unfold k; destruct (Z.ltb_spec (len pb) total); lia).
  erewrite bind_Ret; [|apply read_from_ok; lia].
  set (x := take (Z.to_nat k) (drop (Z.to_nat copied) src)).
  assert (Z.of_nat (length x) = k) as Hx by (unfold x; rewrite length_take, length_drop; lia).
  destruct (packet_store w (Some l) l pb cs d ds' 0 x Hpk Hnd) as (w1 & Hst & Hf1 & Hpk1); [lia..|].
  rewrite (bind_Ret _ _ _ _ _ Hst).
  pose proof Hpk1 as Hpk1'. apply packet_cons in Hpk1' as (_ & _ & _ & Htl1 & _).
  apply NoDup_regions in Hnd as [Hnd Hdis]. rewrite !u16_id by (unfold is_u16; lia).
  destruct (IH w1 n (next pb) ds' (total - k) (copied + k)) as (w2 & ds2 & Hrun & Hf2 & Hp2 & Hc2);
    [done|done|lia..|].
  exists w2, (splice 0 x d :: ds2). split_and!.
  - rewrite Hrun. do 3 f_equal. lia.
  - etrans; (eapply frame_mono; [|eassumption]); simpl; set_solver.
  - destruct Hpk1 as [Hc1 Ht1 Hd1]. apply list.Forall2_cons in Hd1 as [Hd1 _]. constructor; [by eapply chain_frame|done|].
    constructor; [|apply Hp2]. eapply load_frame; [exact Hf2| |exact Hd1].
    intros Hn0 r o E Hin. apply (Hdis r Hin). unfold region_list. simpl in E, Hn0.
    rewrite E, (proj2 (Z.eqb_neq _ _)) by done. by left.
  - simpl. rewrite Hc2. unfold splice. simpl.
    replace (length x) with (Z.to_nat k) by lia.
    replace (Z.to_nat (total - k)) with (Z.to_nat total - Z.to_nat k)%nat by lia.
    replace (Z.to_nat (copied + k)) with (Z.to_nat copied + Z.to_nat k)%nat by lia.
    apply take_step; lia.
Qed.

Lemma packet_fuel w p cs ds : packet w p cs ds → (length cs ≤ fuel w)%nat.
Proof.
  intros Hp. pose proof (chain_length _ _ _ (pk_chain _ _ _ _ Hp)). unfold fuel. lia.
Qed.

Lemma packet_head w p cs ds : packet w (Some p) cs ds →
  ∃ pb cs', cs = (p, pb) :: cs' ∧ p ∈ live w ∧ pbs w !! p = Some pb ∧ tot_len pb = lens cs.
Proof.
  intros Hp. destruct (packet_cases _ _ _ _ Hp) as [(? & _)|(l & pb & cs' & d & ds' & -> & -> & Hp')];
    [done|]. apply packet_cons in Hp' as ([= <-] & Hl & Hpb & _ & _ & _ & Ht & _). eauto 10.
Qed.

Lemma pbuf_take_ok w p cs ds src n :
  packet w (Some p) cs ds → NoDup (regions cs) → 0 ≤ n ≤ lens cs →
  n ≤ Z.of_nat (length src) →
  ∃ w' ds', pbuf_take (Some p) (Some src) n w = Ret (ERR_OK, w') ∧
    frame (regions cs) w w' ∧ packet w' (Some p) cs ds' ∧
    concat ds' = take (Z.to_nat n) src ++ drop (Z.to_nat n) (concat ds).
Proof.
  intros Hp Hnd Hn Hs. pose proof (lens_nonneg _ (pk_tot _ _ _ _ Hp)).
  destruct (packet_head _ _ _ _ Hp) as (pb & cs' & Ecs & Hl & Hpb & Ht).
  destruct (take_loop_ok w (fuel w) (Some p) cs ds src n 0) as (w' & ds' & Hr & Hf & Hp' & Hc);
    [done|done|by eapply packet_fuel|lia..|].
  exists w', ds'. split_and!; try done. unfold pbuf_take.
  rewrite !bind_assert, bind_deref, (bind_rd w p pb) by done.
  rewrite bind_assert by lia.
  rewrite (bind_Ret (of_option NullDeref (Some src)) _ w src w eq_refl), bind_get.
  rewrite (bind_Ret _ _ _ _ _ Hr). by rewrite bind_assert by lia.
Qed.

(** ** Parts of a packet *)

Lemma regions_app a b : regions (a ++ b) = regions a ++ regions b.
Proof.
  induction a as [|[l pb] a IH]; simpl; [done|]. by rewrite IH, (assoc_L app).
Qed.

Lemma lens_app a b : lens (a ++ b) = lens a + lens b.
Proof. induction a as [|[l pb] a IH]; simpl; lia. Qed.

Lemma tot_ok_app a b : tot_ok (a ++ b) → tot_ok b.
Proof.
  induction a as [|[l pb] a IH]; simpl; [done|]. intros (_ & _ & _ & Ht). by apply IH.
Qed.

(** The pbufs before [b] stay as they are when only [b] is rewritten. *)
Lemma packet_replace rs w w' p q a b da db db' :
  packet w p (a ++ b) (da ++ db) → length a = length da →
  frame rs w w' → (∀ r, r ∈ regions a → r ∉ rs) → packet w' q b db' →
  packet w' p (a ++ b) (da ++ db').
Proof.
  intros [Hc Ht Hd] Hl Hf Hr [_ _ Hd']. constructor; [by eapply chain_frame|done|].
  apply Forall2_app_inv in Hd as [Hda _]; [|done].
  apply Forall2_app; [|done]. by eapply content_frame.
Qed.

Lemma packet_suffix w p a b da db : packet w p (a ++ b) (da ++ db) → length a = length da →
  ∃ q, packet w q b db ∧ (b ≠ [] → q = fst <$> head b).
Proof.
  intros [Hc Ht Hd] Hl. apply chain_suffix in Hc as (q & Hq). exists q. split.
  - constructor; [done|by eapply tot_ok_app|]. by apply Forall2_app_inv in Hd as [_ Hd].
  - intros Hb. destruct b as [|[l pb] b]; [done|]. by destruct Hq as (-> & _).
Qed.

(** The walk of [pbuf_skip] splits the packet where it ends. *)
Lemma skip_to_split w p cs ds off : packet w p cs ds → 0 ≤ off →
  ∃ a da db, cs = a ++ (skip_to cs off).1 ∧ ds = da ++ db ∧ length a = length da ∧
    Z.of_nat (length (concat da)) = off - (skip_to cs off).2.
Proof.
  revert p ds off. induction cs as [|[l pb] cs IH]; intros p ds off Hp H0.
  { exists [], [], ds. simpl. split_and!; try done. lia. }
  destruct (packet_cases _ _ _ _ Hp) as [(_ & ? & _)|(? & ? & ? & d & ds' & E & -> & Hp')]; [done|].
  injection E as <- <- <-. apply packet_cons in Hp' as (-> & _ & _ & Htl & _ & Hlen & _).
  cbn [skip_to]. destruct (Z.leb_spec (len pb) off) as [Hle|Hgt].
  - destruct (IH _ _ (off - len pb) Htl) as (a & da & db & Ecs & -> & Hl & Hc); [lia|].
    exists ((l, pb) :: a), (d :: da), db. simpl. rewrite <- Ecs, length_app.
    split_and!; [done|done|by rewrite Hl|lia].
  - exists [], [], (d :: ds'). simpl. split_and!; try done. lia.
Qed.

(** ** [pbuf_take_at] *)

Lemma splice_split t k n (src d rest : bytes) :
  (t + k ≤ length d)%nat → (k ≤ n)%nat → (n ≤ length src)%nat →
  k = n ∨ (t + k)%nat = length d → (t + n ≤ length (d ++ rest))%nat →
  splice t (take k src) d ++ take (n - k) (drop k src) ++ drop (n - k) rest =
  splice t (take n src) (d ++ rest).
Proof.
  intros Hd Hk Hn Hor Hr. unfold splice. rewrite !length_take.
  rewrite !Nat.min_l by lia. rewrite take_app_le by lia. rewrite <- !(assoc_L app). f_equal.
  destruct Hor as [->|Hor].
  - rewrite Nat.sub_diag. simpl. by rewrite drop_app_le, drop_0 by lia.
  - rewrite Hor, drop_all, drop_app_ge by lia. simpl. rewrite (assoc_L app), take_take_drop.
    f_equal; [f_equal; lia|f_equal; lia].
Qed.

Lemma take_from_ok w l pb cs d ds src n t :
  packet w (Some l) ((l, pb) :: cs) (d :: ds) → NoDup (regions ((l, pb) :: cs)) →
  0 ≤ t < len pb → 0 ≤ n → t + n ≤ lens ((l, pb) :: cs) → n ≤ Z.of_nat (length src) →
  ∃ w' ds', take_from pb src n t w = Ret (ERR_OK, w') ∧
    frame (regions ((l, pb) :: cs)) w w' ∧ packet w' (Some l) ((l, pb) :: cs) ds' ∧
    concat ds' = splice (Z.to_nat t) (take (Z.to_nat n) src) (concat (d :: ds)).
Proof.
  intros Hq Hnd Ht Hn Hle Hs. pose proof Hq as Hq'.
  apply packet_cons in Hq' as (_ & Hlv & Hpb & Htl & Hld & Hdl & Htot & H0 & Hb16 & Hb0).
  pose proof (content_lens _ _ _ (pk_tot _ _ _ _ Htl) (pk_content _ _ _ _ Htl)) as HD.
  unfold take_from. simpl in Hle.
  set (k := Z.min (len pb - t) n). rewrite (u16_id k) by (unfold is_u16, k; lia).
  erewrite bind_Ret; [|apply read_from_ok; unfold k; lia].
  change (drop (Z.to_nat 0) src) with src. set (x := take (Z.to_nat k) src).
  assert (Z.of_nat (length x) = k) as Hx by (unfold x, k; rewrite length_take; lia).
  destruct (packet_store w (Some l) l pb cs d ds t x Hq Hnd) as (w1 & Hst & Hf1 & Hq1);
    [lia|unfold k in *; lia|].
  rewrite (bind_Ret _ _ _ _ _ Hst). rewrite (u16_id (n - k)) by (unfold is_u16, k; lia).
  pose proof Hq1 as Hq1'. apply packet_cons in Hq1' as (_ & _ & _ & Htl1 & Hld1 & _).
  pose proof (NoDup_regions _ _ _ Hnd) as [Hnb Hdis].
  rewrite Z.gtb_ltb. destruct (Z.ltb_spec 0 (n - k)) as [Hpos|Hz].
  - destruct (next pb) as [q|] eqn:Eq.
    2:{ pose proof (pk_chain _ _ _ _ Htl1) as Hcn. destruct cs as [|[? ?] ?]; [simpl in *; unfold k in *; lia|by destruct Hcn]. }
    destruct (pbuf_take_ok w1 q cs ds (drop (Z.to_nat k) src) (n - k)) as (w2 & ds2 & Hr2 & Hf2 & Hp2 & Hc2);
      [done|done|unfold k in *; lia|rewrite length_drop; unfold k in *; lia|].
    exists w2, (splice (Z.to_nat t) x d :: ds2). split_and!; [done| | |].
    + etrans; (eapply frame_mono; [|eassumption]); simpl; set_solver.
    + eapply (packet_replace (regions cs) w1 w2 (Some l) (Some q) [(l, pb)] cs [_]);
        [exact Hq1|done|exact Hf2| |exact Hp2].
      simpl. rewrite app_nil_r. intros r Hr1 Hr2'. by apply (Hdis r).
    + simpl. rewrite Hc2. replace (Z.to_nat (n - k)) with (Z.to_nat n - Z.to_nat k)%nat by lia.
      apply splice_split; rewrite ?length_app; unfold k in *; lia.
  - exists w1, (splice (Z.to_nat t) x d :: ds). split_and!; [done| |done|].
    + eapply frame_mono; [|exact Hf1]. simpl. set_solver.
    + assert (k = n) as E by (unfold k in *; lia). simpl. unfold x. rewrite E.
      symmetry. apply splice_app_r. rewrite length_take. unfold k in *. lia.
Qed.

Lemma pbuf_take_at_ok w p cs ds src n off :
  packet w p cs ds → NoDup (regions cs) → is_u16 off → 0 ≤ n → off < lens cs →
  off + n ≤ lens cs → n ≤ Z.of_nat (length src) →
  ∃ w' ds', pbuf_take_at p src n off w = Ret (ERR_OK, w') ∧
    frame (regions cs) w w' ∧ packet w' p cs ds' ∧
    concat ds' = splice (Z.to_nat off) (take (Z.to_nat n) src) (concat ds).
Proof.
  intros Hp Hnd Ho Hn Hlt Hle Hs.
  destruct (skip_to_split _ _ _ _ off Hp) as (a & da & db & Ecs & -> & Hl & Hc); [apply Ho|].
  pose proof (skip_to_ok _ _ _ _ off Hp) as (_ & _ & _ & Hr & _ & _ & Hm & Hlen); [apply Ho|].
  unfold pbuf_take_at, pbuf_skip. rewrite (bind_Ret _ _ _ _ _ (pbuf_skip_ok _ _ _ _ _ Hp Ho)).
  destruct (skip_to cs off) as [b t]. simpl in *. subst cs.
  destruct (packet_suffix _ _ _ _ _ _ Hp Hl) as (q & Hq & Hqb).
  destruct b as [|[l pb] b]; [rewrite lens_app in *; simpl in *; lia|].
  specialize (Hqb ltac:(done)). simpl in Hqb. subst q.
  destruct (packet_cases _ _ _ _ Hq) as [(? & _)|(? & ? & ? & d & ds2 & E & -> & Hq')]; [done|].
  injection E as <- <- <-. pose proof Hq' as Hq2.
  apply packet_cons in Hq' as (_ & Hlv & Hpb & _ & _ & _ & Htot & _).
  cbn [fmap option_fmap option_map head fst]. rewrite (bind_rd w l pb) by done.
  rewrite Htot, Z.geb_leb, (proj2 (Z.leb_le _ _)) by (simpl in Hlen; lia).
  rewrite regions_app in Hnd. apply list.NoDup_app in Hnd as (Hna & Hab & Hnb).
  destruct (take_from_ok w l pb b d ds2 src n t Hq2 Hnb) as (w2 & ds3 & Hr2 & Hf2 & Hp2 & Hc2);
    [lia|lia|simpl in *; lia|lia|].
  exists w2, (da ++ ds3). split_and!; [done| | |].
  - eapply frame_mono; [|exact Hf2]. rewrite regions_app. set_solver.
  - eapply packet_replace; [exact Hp|done|exact Hf2| |exact Hp2]. intros r Hr1 Hr2'. by apply (Hab r).
  - rewrite !concat_app, Hc2.
    replace (Z.to_nat off) with (length (concat da) + Z.to_nat t)%nat by lia.
    by rewrite splice_app_l.
Qed.

(** ** [pbuf_copy] *)

Definition positive cs : Prop := Forall (λ c : loc * pbuf, 0 < len c.2) cs.

Lemma positive_lens cs : positive cs → lens cs ≤ 0 → cs = [].
Proof.
  intros Hp. assert (∀ cs, positive cs → 0 ≤ lens cs) as H.
  { clear. intros cs. induction 1 as [|[l pb] cs H _ IH]; simpl in *; lia. }
  destruct Hp as [|[l pb] cs Hl Hp]; [done|]. specialize (H _ Hp). simpl in *. lia.
Qed.

Lemma check_packet_ok w p cs ds : packet w p cs ds → positive cs →
  check_packet p w = Ret ((), w).
Proof.
  intros Hp Hpos. destruct (packet_cases _ _ _ _ Hp) as [(-> & _)|(l & pb & cs' & d & ds' & -> & -> & Hp')]; [done|].
  apply packet_cons in Hp' as (-> & Hl & Hpb & Htl & _ & _ & Ht & _). simpl.
  rewrite (bind_rd w l pb) by done. unfold assert_.
  destruct (Z.eqb_spec (len pb) (tot_len pb)) as [E|E]; [|done].
  apply list.Forall_cons in Hpos as [_ Hpos].
  assert (cs' = []) as -> by (apply positive_lens; [done|lia]).
  pose proof (pk_chain _ _ _ _ Htl) as Hn. simpl in Hn. by rewrite Hn.
Qed.

(** A position in a packet: an offset inside its first pbuf. *)
Definition position w (p : option loc) cs (ds : list bytes) (off : Z) : Prop :=
  packet w p cs ds ∧ positive cs ∧ 0 ≤ off ∧
  match cs with (_, pb) :: _ => off < len pb | [] => off = 0 end.

(** The position [k] bytes further, inside the first pbuf or at the next. *)
Lemma position_step w p l pb cs d ds off k :
  position w p ((l, pb) :: cs) (d :: ds) off → 0 ≤ k → off + k ≤ len pb →
  ∃ cs' ds', position w (if off + k =? len pb then next pb else p) cs' ds'
                 (if off + k =? len pb then 0 else off + k) ∧
    (if off + k =? len pb then cs' = cs ∧ ds' = ds else cs' = (l, pb) :: cs ∧ ds' = d :: ds) ∧
    drop (Z.to_nat (if off + k =? len pb then 0 else off + k)) (concat ds') =
      drop (Z.to_nat (off + k)) (d ++ concat ds) ∧
    lens cs' - (if off + k =? len pb then 0 else off + k) = lens ((l, pb) :: cs) - off - k.
Proof.
  intros (Hp & Hpos & H0 & Hoff) Hk Hle. pose proof Hp as Hp'.
  apply packet_cons in Hp' as (-> & _ & _ & Htl & _ & Hlen & _).
  destruct (Z.eqb_spec (off + k) (len pb)) as [E|E].
  - exists cs, ds. apply list.Forall_cons in Hpos as [_ Hpos]. split_and!; try done.
    + unfold position. split_and!; try done. destruct cs as [|[l' pb'] cs]; [done|].
      apply list.Forall_cons in Hpos as [Hpos _]. exact Hpos.
    + rewrite drop_app_ge by lia. f_equal. simpl. lia.
    + simpl. lia.
  - exists ((l, pb) :: cs), (d :: ds). split_and!; try done; [unfold position; split_and!; try done; lia|simpl; lia].
Qed.

Lemma position_frame rs w w' p cs ds off : frame rs w w' → (∀ r, r ∈ regions cs → r ∉ rs) →
  position w p cs ds off → position w' p cs ds off.
Proof. intros Hf Hr (Hp & ? & ? & ?). unfold position. split_and!; try done. by eapply packet_frame. Qed.

Lemma position_cases w p cs ds off : position w p cs ds off →
  (p = None ∧ cs = [] ∧ ds = [] ∧ off = 0) ∨
  ∃ l pb cs' d ds', p = Some l ∧ cs = (l, pb) :: cs' ∧ ds = d :: ds' ∧ l ∈ live w ∧
    pbs w !! l = Some pb ∧ load (payload pb) 0 (len pb) w = Ret (d, w) ∧
    Z.of_nat (length d) = len pb ∧ 0 ≤ off < len pb ∧ len pb < 2 ^ 16.
Proof.
  intros (Hp & Hpos & H0 & Hoff). destruct (packet_cases _ _ _ _ Hp) as
    [(-> & -> & ->)|(l & pb & cs' & d & ds' & -> & -> & Hp')]; [by left|right].
  apply packet_cons in Hp' as (-> & Hl & Hpb & Htl & Hld & Hlen & _ & ? & ? & ?).
  exists l, pb, cs', d, ds'. split_and!; try done; lia.
Qed.

Lemma splice_step (d rest src : bytes) o k :
  (o + k ≤ length d)%nat → (o + length src ≤ length (d ++ rest))%nat → (k ≤ length src)%nat →
  splice (o + k) (drop k src) (splice o (take k src) d ++ rest) = splice o src (d ++ rest).
Proof.
  intros Hd Hs Hk. assert (length (take k src) = k) as Hl by (rewrite length_take; lia).
  rewrite length_app in Hs.
  rewrite <- (splice_app_r d rest) by lia. rewrite <- Hl at 1.
  rewrite splice_splice by (rewrite length_drop, length_app; lia). by rewrite take_drop.
Qed.

(** What one round and the rounds after it write, when the target stays in the
    same pbuf and when it moves to the next. *)
Lemma splice_next (d rest src : bytes) o k :
  (o + k)%nat = length d → (o + length src ≤ length (d ++ rest))%nat → (k ≤ length src)%nat →
  splice o (take k src) d ++ splice 0 (drop k src) rest = splice o src (d ++ rest).
Proof.
  intros Hd Hs Hk. rewrite <- (splice_step d rest src o k) by lia.
  assert (length (splice o (take k src) d) = o + k)%nat as Hl
    by (rewrite splice_length; [lia|rewrite length_take; lia]).
  rewrite <- Hl. rewrite <- (Nat.add_0_r (length _)). by rewrite splice_app_l.
Qed.

Lemma position_content w p cs ds off : position w p cs ds off →
  Z.of_nat (length (concat ds)) = lens cs ∧ 0 ≤ lens cs < 2 ^ 16.
Proof.
  intros ([Hc Ht Hd] & _). split; [by eapply content_lens|by apply lens_nonneg].
Qed.

Lemma position_left w p cs ds off : position w p cs ds off →
  p = None ∧ lens cs - off = 0 ∨ is_Some p ∧ 0 < lens cs - off.
Proof.
  intros Hp. destruct (position_cases _ _ _ _ _ Hp) as [(-> & -> & _ & ->)|
    (l & pb & cs' & d & ds' & -> & -> & -> & _ & _ & _ & _ & Ho & _)]; [by left|right].
  split; [done|]. destruct Hp as (Hp & _). apply packet_cons in Hp as (_ & _ & _ & _ & _ & _ & _ & _ & _ & ?).
  simpl. lia.
Qed.

Lemma copy_round_ok w t tb ct d dt f fb cf e df ot oof :
  position w (Some t) ((t, tb) :: ct) (d :: dt) ot →
  position w (Some f) ((f, fb) :: cf) (e :: df) oof →
  NoDup (regions ((t, tb) :: ct)) →
  (∀ r, r ∈ regions ((f, fb) :: cf) → r ∉ regions ((t, tb) :: ct)) →
  lens ((f, fb) :: cf) - oof ≤ lens ((t, tb) :: ct) - ot →
  let src := drop (Z.to_nat oof) (concat (e :: df)) in
  let k := Z.min (len tb - ot) (len fb - oof) in
  let d1 := splice (Z.to_nat ot) (take (Z.to_nat k) src) d in
  ∃ w1 pf cf2 df2 of2,
    copy_round (Some t) (Some f) ot oof w =
      Ret ((if ot + k =? len tb then next tb else Some t, pf,
            if ot + k =? len tb then 0 else ot + k, of2), w1) ∧
    frame (region_list tb) w w1 ∧ packet w1 (Some t) ((t, tb) :: ct) (d1 :: dt) ∧
    position w1 pf cf2 df2 of2 ∧
    (if oof + k =? len fb then cf2 = cf else cf2 = (f, fb) :: cf) ∧
    drop (Z.to_nat of2) (concat df2) = drop (Z.to_nat k) src ∧
    lens cf2 - of2 = lens ((f, fb) :: cf) - oof - k.
Proof.
  intros Ht Hf Hnd Hdis Hfit src k d1. unfold copy_round.
  destruct (position_cases _ _ _ _ _ Hf) as [(? & _)|(? & ? & ? & ? & ? & [= <-] & [= <- <-] & [= <- <-] &
    Hlf & Hpf & Hldf & Hef & Hoff & Hbf)]; [done|].
  destruct (position_cases _ _ _ _ _ Ht) as [(? & _)|(? & ? & ? & ? & ? & [= <-] & [= <- <-] & [= <- <-] &
    Hlt' & Hpt & Hldt & Hdt & Hot & Hbt)]; [done|].
  rewrite bind_deref, (bind_rd w t tb), bind_deref, (bind_rd w f fb) by done.
  replace (if len tb - ot >=? len fb - oof then u16 (len fb - oof) else u16 (len tb - ot)) with k.
  2:{ rewrite !u16_id by (unfold is_u16; lia). rewrite Z.geb_leb. unfold k.
      destruct (Z.leb_spec (len fb - oof) (len tb - ot)); lia. }
  assert (0 ≤ k ∧ ot + k ≤ len tb ∧ oof + k ≤ len fb) as (Hk0 & Hkt & Hkf) by (unfold k; lia).
  erewrite bind_Ret; [|apply load_sub with (L := len fb) (d := e); [exact Hldf|lia..]].
  assert (take (Z.to_nat k) (drop (Z.to_nat oof) e) = take (Z.to_nat k) src) as ->.
  { unfold src. simpl. rewrite drop_app_le, take_app_le; [done|rewrite length_drop; lia|lia]. }
  assert (length (take (Z.to_nat k) src) = Z.to_nat k) as Hx.
  { unfold src. rewrite length_take, length_drop. simpl. rewrite length_app. lia. }
  destruct (packet_store w (Some t) t tb ct d dt ot (take (Z.to_nat k) src) (proj1 Ht) Hnd)
    as (w1 & Hst & Hf1 & Hq1); [lia|lia|].
  rewrite (bind_Ret _ _ _ _ _ Hst). rewrite !u16_id by (unfold is_u16; lia).
  rewrite bind_assert, bind_assert by lia.
  replace (oof + k >=? len fb) with (oof + k =? len fb) by lia.
  destruct (position_step w1 (Some t) t tb ct d1 dt ot k) as (ct2 & dt2 & Ht2 & _ & _ & Hlent2);
    [by destruct Ht as (_ & ? & ?)|lia|lia|].
  destruct (position_step w1 (Some f) f fb cf e df oof k) as (cf2 & df2 & Hf2 & Hcf2 & Hdf2 & Hlenf2);
    [eapply position_frame; [exact Hf1| |exact Hf]|lia|lia|].
  { intros r Hr Hin. apply (Hdis r Hr). simpl. apply elem_of_app. by left. }
  rewrite bind_assert.
  2:{ destruct (position_left _ _ _ _ _ Ht2) as [[Hpt2 Hz]|[Hpt2 _]].
      - destruct (position_left _ _ _ _ _ Hf2) as [[Hpf2 _]|[_ Hz2]]; [|lia].
        rewrite (bool_decide_eq_true_2 (_ = None)) by done. apply orb_true_r.
      - rewrite (bool_decide_eq_true_2 (is_Some _)) by done. by rewrite orb_true_r. }
  rewrite (bind_Ret _ _ _ _ _ (check_packet_ok _ _ _ _ (proj1 Hf2) (proj1 (proj2 Hf2)))).
  rewrite (bind_Ret _ _ _ _ _ (check_packet_ok _ _ _ _ (proj1 Ht2) (proj1 (proj2 Ht2)))).
  eexists w1, _, cf2, df2, _. split_and!; [done|done|done|exact Hf2| | |exact Hlenf2].
  - destruct (oof + k =? len fb); apply Hcf2.
  - rewrite Hdf2. unfold src. simpl. rewrite drop_drop. f_equal. lia.
Qed.

Lemma copy_loop_ok n w pt ct dt pf cf df ot oof :
  position w pt ct dt ot → position w pf cf df oof → is_Some pf →
  NoDup (regions ct) → (∀ r, r ∈ regions cf → r ∉ regions ct) →
  lens cf - oof ≤ lens ct - ot → (length ct + length cf ≤ n)%nat →
  ∃ w' dt', copy_loop n pt pf ot oof w = Ret (ERR_OK, w') ∧ frame (regions ct) w w' ∧
    packet w' pt ct dt' ∧
    concat dt' = splice (Z.to_nat ot) (drop (Z.to_nat oof) (concat df)) (concat dt).
Proof.
  revert w pt ct dt pf cf df ot oof. induction n as [|n IH];
    intros w pt ct dt pf cf df ot oof Ht Hf Hpf Hnd Hdis Hfit Hn.
  { destruct (position_cases _ _ _ _ _ Hf) as [(-> & _)|(? & ? & ? & ? & ? & _ & -> & _)];
      [by destruct Hpf|simpl in Hn; lia]. }
  pose proof (position_content _ _ _ _ _ Ht) as [HDt Hlt].
  pose proof (position_content _ _ _ _ _ Hf) as [HDf Hlf].
  destruct (position_cases _ _ _ _ _ Hf) as [(-> & _)|(f & fb & cf' & e & df' & -> & -> & -> &
    _ & _ & _ & Hef & Hoff & Hbf)]; [by destruct Hpf|].
  destruct (position_left _ _ _ _ _ Hf) as [[? _]|[_ Hleft]]; [done|].
  destruct (position_cases _ _ _ _ _ Ht) as [(_ & -> & _ & ->)|(t & tb & ct' & d & dt' & -> & -> & -> &
    _ & _ & _ & Hdt & Hot & Hbt)]; [cbn [lens] in *; lia|].
  destruct (copy_round_ok w t tb ct' d dt' f fb cf' e df' ot oof Ht Hf Hnd Hdis Hfit)
    as (w1 & pf2 & cf2 & df2 & of2 & Hr & Hf1 & Hq1 & Hf2 & Hcf2 & Hdrop & Hlen2).
  set (src := drop (Z.to_nat oof) (concat (e :: df'))) in *.
  set (k := Z.min (len tb - ot) (len fb - oof)) in *.
  set (d1 := splice (Z.to_nat ot) (take (Z.to_nat k) src) d) in *.
  assert (Z.of_nat (length src) = lens ((f, fb) :: cf') - oof) as Hsrc
    by (unfold src; rewrite length_drop; lia).
  assert (0 ≤ k ∧ ot + k ≤ len tb ∧ oof + k ≤ len fb ∧ (ot + k = len tb ∨ oof + k = len fb) ∧
    k ≤ Z.of_nat (length src)) as (Hk0 & Hkt & Hkf & Hkk & Hks).
  { split_and!; try (unfold k; lia). rewrite Hsrc. unfold k. cbn [lens].
    destruct Hf as (Hf & _). apply packet_cons in Hf as (_ & _ & _ & _ & _ & _ & _ & _ & _ & ?). lia. }
  cbn [copy_loop]. rewrite (bind_Ret _ _ _ _ _ Hr). cbn beta iota.
  destruct (decide (pf2 = None)) as [->|Hsome].
  { destruct (position_left _ _ _ _ _ Hf2) as [[_ Hz]|[[] _]]; [|done].
    exists w1, (d1 :: dt'). split_and!; [done| |done|].
    - eapply frame_mono; [|exact Hf1]. simpl. set_solver.
    - unfold d1. cbn [concat]. rewrite take_ge by lia. symmetry. apply splice_app_r. lia. }
  assert (∀ r, r ∈ regions cf2 → r ∉ regions ((t, tb) :: ct')) as Hdis2.
  { intros r Hr2. apply Hdis. destruct (oof + k =? len fb); subst cf2; [|done].
    apply elem_of_app. by right. }
  assert (position w1 (Some t) ((t, tb) :: ct') (d1 :: dt') ot) as Ht1
    by (by destruct Ht as (_ & ? & ?)).
  apply not_eq_None_Some in Hsome.
  destruct (position_step w1 (Some t) t tb ct' d1 dt' ot k Ht1) as (ct2 & dt2 & Ht2 & Hct2 & _ & Hlent2);
    [lia|lia|].
  pose proof (NoDup_regions _ _ _ Hnd) as [Hnd' Htb].
  destruct (Z.eqb_spec (ot + k) (len tb)) as [Eadv|Eadv]; destruct Hct2 as [-> ->].
  - destruct (IH w1 (next tb) ct' dt' pf2 cf2 df2 0 of2) as (w2 & dt3 & Hr2 & Hf3 & Hp3 & Hc3);
      [done|done|done|done| |lia| |].
    { intros r Hin Hin2. apply (Hdis2 r Hin). apply elem_of_app. by right. }
    { destruct (oof + k =? len fb); subst cf2; simpl in *; lia. }
    exists w2, (d1 :: dt3). split_and!; [done| | |].
    + etrans; (eapply frame_mono; [|eassumption]); simpl; set_solver.
    + eapply (packet_replace (regions ct') w1 w2 (Some t) (next tb) [(t, tb)] ct' [_]);
        [exact Hq1|done|exact Hf3| |exact Hp3].
      simpl. rewrite app_nil_r. intros r Hr1 Hr2'. by apply (Htb r).
    + cbn [concat] in *. rewrite length_app in HDt. rewrite Hc3, Hdrop.
      apply splice_next; rewrite ?length_app; lia.
  - destruct (IH w1 (Some t) ((t, tb) :: ct') (d1 :: dt') pf2 cf2 df2 (ot + k) of2)
      as (w2 & dt3 & Hr2 & Hf3 & Hp3 & Hc3); [done|done|done|done|done|lia| |].
    { destruct (Z.eqb_spec (oof + k) (len fb)); [subst cf2; simpl in *; lia|lia]. }
    exists w2, dt3. split_and!; [done| |done|].
    + etrans; [eapply frame_mono; [|exact Hf1]; simpl; set_solver|done].
    + cbn [concat] in *. rewrite length_app in HDt. rewrite Hc3, Hdrop.
      replace (Z.to_nat (ot + k)) with (Z.to_nat ot + Z.to_nat k)%nat by lia.
      apply splice_step; rewrite ?length_app; lia.
Qed.

Lemma pbuf_copy_ok w pt ct dt pf cf df :
  packet w (Some pt) ct dt → packet w (Some pf) cf df → positive ct → positive cf →
  NoDup (regions ct) → (∀ r, r ∈ regions cf → r ∉ regions ct) → lens cf ≤ lens ct →
  ∃ w' dt', pbuf_copy (Some pt) (Some pf) w = Ret (ERR_OK, w') ∧ frame (regions ct) w w' ∧
    packet w' (Some pt) ct dt' ∧
    concat dt' = concat df ++ drop (length (concat df)) (concat dt).
Proof.
  intros Ht Hf Hpt Hpf Hnd Hdis Hfit. unfold pbuf_copy.
  destruct (packet_head _ _ _ _ Ht) as (tb & ct' & Ect & Hlt & Hpbt & Htt).
  destruct (packet_head _ _ _ _ Hf) as (fb & cf' & Ecf & Hlf & Hpbf & Htf).
  rewrite bind_assert, bind_deref, (bind_rd w pt tb), bind_deref, (bind_rd w pf fb) by done.
  rewrite bind_assert, bind_get by lia.
  destruct (copy_loop_ok (2 * fuel w) w (Some pt) ct dt (Some pf) cf df 0 0)
    as (w' & dt' & Hr & Hfr & Hp' & Hc); [| |done|done|done|lia| |].
  - subst ct. pose proof (proj1 (list.Forall_cons _ _ _) Hpt) as [? _]. unfold position. by split_and!.
  - subst cf. pose proof (proj1 (list.Forall_cons _ _ _) Hpf) as [? _]. unfold position. by split_and!.
  - pose proof (packet_fuel _ _ _ _ Ht). pose proof (packet_fuel _ _ _ _ Hf). lia.
  - exists w', dt'. by split_and!.
Qed.
End Write.
