(* ===== verification/PbufOwn.v ===== *)
(** * Ownership of packet buffers: allocation, reference counts, chaining

    The theorems hold for any allocators that keep the promises of [AllocLaws].
    [inv w L] relates the pbufs that may be accessed to the blocks [L] the
    allocators have handed out. *)

From S2P Require Import Prelude Mem Alloc Pbuf PbufChain PbufWrite.
Import Pbuf.

Section Update.
Context {A : Type}.
Implicit Types (w : world A) (l : loc) (pb : pbuf) (cs : list (loc * pbuf)).

(** ** Updates of a chain *)

Abbreviation upd_pbs l pb w := (set_pbs <[l := pb]> w).

Lemma upd_ok w l pb f : l ∈ live w → pbs w !! l = Some pb →
  upd l f w = Ret ((), upd_pbs l (f pb) w).
Proof. intros Hl Hp. unfold upd. by rewrite (bind_rd w l pb). Qed.

Lemma bind_upd {B} w l pb f (k : () → M (world A) B) : l ∈ live w → pbs w !! l = Some pb →
  (upd l f ≫= k) w = k () (upd_pbs l (f pb) w).
Proof. intros. by apply bind_Ret, upd_ok. Qed.

(** A chain none of whose pbufs changes. *)
Lemma chain_same w w' p cs : (∀ l, l ∈ cs.*1 → pbs w' !! l = pbs w !! l ∧ l ∈ live w') →
  chain w p cs → chain w' p cs.
Proof.
  revert p. induction cs as [|[l pb] cs IH]; intros p Hs; simpl; [done|].
  intros (-> & Hl & Hp & Hc). destruct (Hs l) as [E Hl']; [by left|].
  split_and!; [done|done|by rewrite E|]. apply IH; [|done]. intros l' Hin. apply Hs. by right.
Qed.

Lemma chain_live w p cs l : chain w p cs → l ∈ cs.*1 → l ∈ live w.
Proof.
  revert p. induction cs as [|[l' pb] cs IH]; intros p; simpl; [by intros _ ?%elem_of_nil|].
  intros (_ & Hl & _ & Hc) [->|Hin]%elem_of_cons; [done|by eapply IH].
Qed.

(** The pbuf [l] in a chain is given new fields, and the chain [b] behind it. *)
Lemma chain_relink w p q a l pb pb' b0 b : chain w p (a ++ (l, pb) :: b0) →
  chain w q b → l ∉ b.*1 → next pb' = q → chain (upd_pbs l pb' w) p (a ++ (l, pb') :: b).
Proof.
  intros Hc Hb Hl Hn. revert p Hc. induction a as [|[l1 pb1] a IH]; intros p Hc; simpl in *.
  - destruct Hc as (-> & Hlv & _ & _). rewrite lookup_insert_eq. split_and!; [done|done|done|].
    rewrite Hn. eapply chain_same; [|exact Hb]. intros l' Hin. simpl.
    rewrite lookup_insert_ne by set_solver. split; [done|by eapply chain_live].
  - pose proof (chain_NoDup w p ((l1, pb1) :: a ++ (l, pb) :: b0) Hc) as Hnd.
    destruct Hc as (-> & Hlv & Hp & Hc). simpl in Hnd. apply list.NoDup_cons in Hnd as [Hne _].
    rewrite lookup_insert_ne.
    2:{ intros ->. apply Hne. rewrite fmap_app. apply elem_of_app. right. by left. }
    split_and!; [done|done|done|by apply IH].
Qed.

Lemma chain_update w p a l pb pb' b : chain w p (a ++ (l, pb) :: b) → next pb' = next pb →
  chain (upd_pbs l pb' w) p (a ++ (l, pb') :: b).
Proof.
  intros Hc Hn. pose proof (chain_NoDup _ _ _ Hc) as Hnd. rewrite fmap_app in Hnd.
  apply list.NoDup_app in Hnd as (_ & _ & Hnd). simpl in Hnd.
  apply list.NoDup_cons in Hnd as [Hl _].
  destruct (chain_suffix _ _ _ _ Hc) as (q & Hq). destruct Hq as (_ & _ & _ & Hb).
  by eapply chain_relink.
Qed.

(** [tot_plus m cs]: the total lengths count [m] bytes behind the chain [cs]. *)
Fixpoint tot_plus (m : Z) cs : Prop :=
  match cs with
  | [] => True
  | (l, pb) :: cs' => tot_len pb = lens cs + m ∧ is_u16 (len pb) ∧ is_u16 (lens cs + m) ∧
                      tot_plus m cs'
  end.

Lemma tot_plus_0 cs : tot_plus 0 cs ↔ tot_ok cs.
Proof.
  induction cs as [|[l pb] cs IH]; simpl; [done|]. by rewrite IH, Z.add_0_r.
Qed.

Lemma tot_plus_app m a b : tot_plus m (a ++ b) ↔ tot_plus (lens b + m) a ∧ tot_plus m b.
Proof.
  induction a as [|[l pb] a IH]; simpl; [tauto|]. rewrite IH, lens_app, !Z.add_assoc. tauto.
Qed.

Lemma chain_head w p cs : chain w (Some p) cs →
  ∃ pb cs', cs = (p, pb) :: cs' ∧ p ∈ live w ∧ pbs w !! p = Some pb.
Proof. destruct cs as [|[l pb] cs]; [done|]. intros ([= <-] & ? & ? & _). eauto. Qed.

Lemma upd_upd w l pb pb' : upd_pbs l pb' (upd_pbs l pb w) = upd_pbs l pb' w.
Proof. unfold set_pbs. simpl. by rewrite insert_insert_eq. Qed.

End Update.

Abbreviation upd_pbs l pb w := (set_pbs <[l := pb]> w).

Section Own.
Context {A : Type} `{HA : Alloc A} {elt_size : memp_t → Z}.
Context `{HL : !AllocLaws A elt_size}.
Context (custom_free_function : loc → M (world A) ()).
Implicit Types (w : world A) (l : loc) (pb : pbuf) (cs : list (loc * pbuf)).

Abbreviation free_loop := (Pbuf.free_loop custom_free_function).
Abbreviation pbuf_free := (Pbuf.pbuf_free custom_free_function).

(** ** The invariant *)

(** A pbuf is in memory of the kind its type says, and is not custom. *)
Definition typed l pb : Prop :=
  l.1 = match type pb with
        | PBUF_RAM => HEAP
        | PBUF_POOL => POOL MEMP_PBUF_POOL
        | PBUF_ROM | PBUF_REF => POOL MEMP_PBUF
        end.

Definition not_custom pb : Prop := Z.land (flags pb) PBUF_FLAG_IS_CUSTOM = 0.

Record inv w (L : gmap loc Z) : Prop := mk_inv {
  inv_owns : owns (allocs w) L;
  inv_live l : l ∈ live w → l.1 ≠ CUSTOM →
    ∃ pb k, pbs w !! l = Some pb ∧ L !! l = Some k ∧ typed l pb ∧ not_custom pb ∧
      ∀ bs, data w !! Own l = Some bs → SIZEOF_STRUCT_PBUF + Z.of_nat (length bs) ≤ k;
  inv_flags a pb : pbs w !! (POOL MEMP_PBUF_POOL, a) = Some pb → not_custom pb;
}.

(** An update that keeps the type and does not make the pbuf custom keeps the
    invariant. *)
Lemma inv_upd w L l pb pb' : inv w L → l ∈ live w → pbs w !! l = Some pb →
  type pb' = type pb → (not_custom pb → not_custom pb') → inv (upd_pbs l pb' w) L.
Proof.
  intros [Ho Hv Hfl] Hl Hp Ht Hf. constructor; [done| |].
  - intros l' Hl' Hc. destruct (Hv l' Hl' Hc) as (pb2 & k & Hp2 & Hk & Hty & Hnc & Hd). simpl.
    destruct (decide (l' = l)) as [->|Hne].
    + rewrite lookup_insert_eq. exists pb', k. rewrite Hp in Hp2. injection Hp2 as ->.
      unfold typed in *. rewrite Ht. split_and!; auto.
    + rewrite lookup_insert_ne by done. eauto 10.
  - simpl. intros a pb2. destruct (decide ((POOL MEMP_PBUF_POOL, a) = l)) as [E|E].
    + subst l. rewrite lookup_insert_eq. intros [= <-]. by eapply Hf, Hfl.
    + rewrite lookup_insert_ne by done. apply Hfl.
Qed.

(** ** [pbuf_free] *)

(** The pbufs [pbuf_free] deallocates: up to the first that stays referenced. *)
Fixpoint freed cs : list (loc * pbuf) :=
  match cs with
  | (l, pb) :: cs' => if ref pb =? 1 then (l, pb) :: freed cs' else []
  | [] => []
  end.

Fixpoint remaining cs : list (loc * pbuf) :=
  match cs with
  | (l, pb) :: cs' => if ref pb =? 1 then remaining cs' else (l, set_ref (ref pb - 1) pb) :: cs'
  | [] => []
  end.

(** The release of the memory of a pbuf by the function its type selects. *)
Definition release l pb : M (world A) () :=
  if negb (Z.land (flags pb) PBUF_FLAG_IS_CUSTOM =? 0)
  then _ ← custom_free_function l; kill l
  else if decide (type pb = PBUF_POOL) then memp_free MEMP_PBUF_POOL l
  else if decide (type pb = PBUF_ROM ∨ type pb = PBUF_REF) then memp_free MEMP_PBUF l
  else mem_free l.

Lemma inv_kill w L l a : inv w L → owns a (delete l L) →
  inv (set_live (λ s, s ∖ {[l]}) (mk_world (pbs w) (live w) (data w) a (pbuf_free_ooseq_pending w)))
    (delete l L).
Proof.
  intros [Ho Hv Hfl] Ha. constructor; [done| |done]. simpl. intros l' Hl' Hc.
  apply elem_of_difference in Hl' as [Hl' Hne]. rewrite elem_of_singleton in Hne.
  rewrite lookup_delete_ne by done. by apply Hv.
Qed.

Lemma world_memp_free_ok w L t p k : inv w L → L !! (POOL t, p) = Some k →
  ∃ w', memp_free t (POOL t, p) w = Ret ((), w') ∧ inv w' (delete (POOL t, p) L) ∧
    pbs w' = pbs w ∧ live w' = live w ∖ {[(POOL t, p)]} ∧ data w' = data w.
Proof.
  intros Hi Hk. destruct (pool_free_ok _ _ _ _ _ (inv_owns _ _ Hi) Hk) as (a & Ha & Hoa).
  unfold memp_free. rewrite decide_True by done. cbn [snd].
  erewrite bind_Ret; [|unfold on_alloc; rewrite Ha; reflexivity].
  eexists. split; [reflexivity|]. split_and!; [by apply inv_kill|done..].
Qed.

Lemma world_mem_free_ok w L p k : inv w L → L !! (HEAP, p) = Some k →
  ∃ w', mem_free (HEAP, p) w = Ret ((), w') ∧ inv w' (delete (HEAP, p) L) ∧
    pbs w' = pbs w ∧ live w' = live w ∖ {[(HEAP, p)]} ∧ data w' = data w.
Proof.
  intros Hi Hk. destruct (heap_free_ok _ _ _ _ (inv_owns _ _ Hi) Hk) as (a & Ha & Hoa).
  unfold mem_free. rewrite decide_True by done. cbn [snd].
  erewrite bind_Ret; [|unfold on_alloc; rewrite Ha; reflexivity].
  eexists. split; [reflexivity|]. split_and!; [by apply inv_kill|done..].
Qed.

Lemma release_ok w L l pb : inv w L → l ∈ live w → l.1 ≠ CUSTOM → pbs w !! l = Some pb →
  ∃ w', release l pb w = Ret ((), w') ∧ inv w' (delete l L) ∧
    pbs w' = pbs w ∧ live w' = live w ∖ {[l]} ∧ data w' = data w.
Proof.
  intros Hi Hl Hc Hp. destruct (inv_live _ _ Hi l Hl Hc) as (pb' & k & Hp' & Hk & Hty & Hnc & _).
  rewrite Hp in Hp'. injection Hp' as <-. unfold release. unfold not_custom in Hnc.
  rewrite Hnc. cbn [Z.eqb negb]. unfold typed in Hty. destruct l as [s p]. simpl in Hty.
  destruct (type pb); subst s.
  - by apply world_mem_free_ok with k.
  - by apply world_memp_free_ok with k.
  - by apply world_memp_free_ok with k.
  - by apply world_memp_free_ok with k.
Qed.

(** The blocks left when those at the locations [ls] are released. *)
Definition without (ls : list loc) (L : gmap loc Z) : gmap loc Z := foldl (λ m l, delete l m) L ls.

Lemma free_loop_ok n w L p cs count :
  inv w L → chain w p cs → Forall (λ c : loc * pbuf, c.1.1 ≠ CUSTOM ∧ 1 ≤ ref c.2 < 2 ^ 16) cs →
  (length cs ≤ n)%nat → 0 ≤ count → count + Z.of_nat (length (freed cs)) < 2 ^ 8 →
  ∃ w', free_loop n p count w = Ret (count + Z.of_nat (length (freed cs)), w') ∧
    inv w' (without (freed cs).*1 L) ∧
    live w' = live w ∖ list_to_set (freed cs).*1 ∧ data w' = data w ∧
    chain w' (fst <$> head (remaining cs)) (remaining cs) ∧
    ∀ l, l ∉ cs.*1 → pbs w' !! l = pbs w !! l.
Proof.
  revert n w L p count. induction cs as [|[l pb] cs IH]; intros n w L p count Hi Hc Hr Hn Hct Hb.
  { simpl in Hc. subst p. exists w. simpl. rewrite Z.add_0_r. split_and!; try done.
    - by destruct n.
    - by rewrite difference_empty_L. }
  pose proof (chain_NoDup _ _ _ Hc) as Hnd. simpl in Hnd. apply list.NoDup_cons in Hnd as [Hnl _].
  pose proof (chain_update w p [] l pb (set_ref (ref pb - 1) pb) cs Hc eq_refl) as Hc1.
  destruct Hc as (-> & Hl & Hp & Hc). apply list.Forall_cons in Hr as [[Hcu Hrf] Hr]. simpl in Hrf, Hcu.
  destruct n as [|n]; [simpl in Hn; lia|]. cbn [Pbuf.free_loop].
  rewrite (bind_rd w l pb) by done. rewrite bind_assert by lia.
  rewrite (u16_id (ref pb - 1)) by (unfold is_u16; lia).
  rewrite (bind_upd w l pb) by done. set (w1 := upd_pbs l _ w) in *.
  assert (inv w1 L) as Hi1 by (by eapply inv_upd).
  cbn [freed remaining] in *. replace (ref pb - 1 =? 0) with (ref pb =? 1) by lia.
  destruct (Z.eqb_spec (ref pb) 1) as [E1|E1].
  2:{ exists w1. cbn [length fmap list_fmap list_to_set]. rewrite Z.add_0_r. split_and!; try done.
      - by rewrite difference_empty_L.
      - intros l' Hl'. simpl. rewrite lookup_insert_ne; [done|]. set_solver. }
  destruct (release_ok w1 L l (set_ref (ref pb - 1) pb) Hi1) as (w2 & Hrel & Hi2 & Hp2 & Hl2 & Hd2);
    [done|done|by apply lookup_insert_eq|].
  change (release l (set_ref (ref pb - 1) pb)) with (release l pb) in Hrel.
  unfold release in Hrel. rewrite (bind_Ret _ _ _ _ _ Hrel).
  cbn [length] in Hb. rewrite (u8_id (count + 1)) by (unfold is_u8; lia).
  destruct (IH n w2 (delete l L) (next pb) (count + 1)) as (w3 & Hrun & Hi3 & Hl3 & Hd3 & Hc3 & Hp3);
    [done| |done|simpl in Hn; lia|lia|lia|].
  { eapply chain_same; [|exact Hc]. intros l' Hin. rewrite Hp2, Hl2. simpl.
    rewrite lookup_insert_ne by (by intros ->). split; [done|]. apply elem_of_difference.
    split; [by eapply chain_live|set_solver]. }
  exists w3. cbn [length fmap list_fmap list_to_set fst]. split_and!; try done.
  - rewrite Hrun. do 2 f_equal. lia.
  - rewrite Hl3, Hl2. simpl. by rewrite difference_difference_l_L.
  - by rewrite Hd3, Hd2.
  - intros l' Hl'. rewrite Hp3, Hp2 by set_solver. simpl. rewrite lookup_insert_ne; [done|]. set_solver.
Qed.

(** [pbuf_free] on a chain of pbufs that are not custom. *)
Lemma pbuf_free_ok w L p cs :
  inv w L → chain w (Some p) cs →
  Forall (λ c : loc * pbuf, c.1.1 ≠ CUSTOM ∧ 1 ≤ ref c.2 < 2 ^ 16) cs →
  Z.of_nat (length (freed cs)) < 2 ^ 8 →
  ∃ w', pbuf_free (Some p) w = Ret (Z.of_nat (length (freed cs)), w') ∧
    inv w' (without (freed cs).*1 L) ∧
    live w' = live w ∖ list_to_set (freed cs).*1 ∧ data w' = data w ∧
    chain w' (fst <$> head (remaining cs)) (remaining cs) ∧
    ∀ l, l ∉ cs.*1 → pbs w' !! l = pbs w !! l.
Proof.
  intros Hi Hc Hr Hb. unfold Pbuf.pbuf_free. rewrite bind_assert, bind_get by done.
  apply (free_loop_ok (fuel w) w L (Some p) cs 0); try done.
  pose proof (chain_length _ _ _ Hc). unfold fuel. lia.
Qed.

(** ** [pbuf_alloc] *)

Context (uninit : world A → loc → Z → bytes).

Abbreviation memp_malloc := (Pbuf.memp_malloc uninit).
Abbreviation mem_malloc := (Pbuf.mem_malloc uninit).
Abbreviation alloc_tail := (Pbuf.alloc_tail uninit custom_free_function).
Abbreviation alloc_pool := (Pbuf.alloc_pool uninit custom_free_function).
Abbreviation pbuf_alloc := (Pbuf.pbuf_alloc uninit custom_free_function).

(** What the section relies on: uninitialised memory has its size, and the pool
    elements hold what [memp_std.h] says. *)
Hypothesis uninit_length : ∀ w l n, 0 ≤ n → Z.of_nat (length (uninit w l n)) = n.
Hypothesis pool_size : elt_size MEMP_PBUF_POOL = SIZEOF_STRUCT_PBUF + PBUF_POOL_BUFSIZE_ALIGNED.
Hypothesis ref_size : elt_size MEMP_PBUF = SIZEOF_STRUCT_PBUF.

Lemma without_lookup (ls : list loc) (L : gmap loc Z) l :
  without ls L !! l = if decide (l ∈ ls) then None else L !! l.
Proof.
  unfold without. revert L. induction ls as [|x ls IH]; intros L; cbn [foldl].
  - by rewrite decide_False by (by intros ?%elem_of_nil).
  - rewrite IH. rewrite lookup_delete. repeat case_decide; set_solver.
Qed.

(** The state right after a block for a pbuf has been handed out. *)
Definition born_world w l n a : world A :=
  let w1 := mk_world (pbs w) (live w) (data w) a (pbuf_free_ooseq_pending w) in
  mk_world (<[l := default zero_pbuf (pbs w !! l)]> (pbs w)) ({[l]} ∪ live w)
    (<[Own l := uninit w1 l n]> (data w)) a (pbuf_free_ooseq_pending w).

Lemma inv_alloc w L a z : inv w L → owns a L →
  inv (mk_world (pbs w) (live w) (data w) a z) L.
Proof. intros [Ho Hv Hfl] Ha. by constructor. Qed.

Lemma fresh_not_live w L l : inv w L → L !! l = None → l.1 ≠ CUSTOM → l ∉ live w.
Proof.
  intros Hi Hn Hc Hl. destruct (inv_live _ _ Hi l Hl Hc) as (? & ? & _ & ? & _). congruence.
Qed.

(** Once its struct is filled in, the new pbuf fits the invariant. *)
Lemma inv_born w L l n a pb k : inv w L → l.1 ≠ CUSTOM → 0 ≤ n → SIZEOF_STRUCT_PBUF + n ≤ k →
  owns a (<[l := k]> L) → typed l pb → not_custom pb →
  inv (upd_pbs l pb (born_world w l n a)) (<[l := k]> L).
Proof.
  intros [Ho Hv Hfl] Hc Hn Hk Ha Ht Hnc. constructor; [done| |]; simpl.
  - intros l' Hl' Hc'. destruct (decide (l' = l)) as [->|Hne].
    + exists pb, k. rewrite !lookup_insert_eq. split_and!; try done.
      intros bs [= <-]. rewrite uninit_length by done. done.
    + rewrite !lookup_insert_ne by congruence. apply Hv; set_solver.
  - intros x pb' Hx. destruct (decide ((POOL MEMP_PBUF_POOL, x) = l)) as [E|E].
    + subst l. rewrite lookup_insert_eq in Hx. by injection Hx as <-.
    + rewrite !lookup_insert_ne in Hx by congruence. by eapply Hfl.
Qed.

Lemma world_memp_malloc_ok w L t n : inv w L →
  (∃ a, memp_malloc t n w = Ret (None, mk_world (pbs w) (live w) (data w) a (pbuf_free_ooseq_pending w)) ∧
    owns a L) ∨
  (∃ a x, memp_malloc t n w = Ret (Some (POOL t, x), born_world w (POOL t, x) n a) ∧
    L !! (POOL t, x) = None ∧ owns a (<[(POOL t, x) := elt_size t]> L)).
Proof.
  intros Hi. destruct (pool_malloc_ok _ _ t (inv_owns _ _ Hi)) as (r & a & Hr & H).
  unfold Pbuf.memp_malloc, on_alloc. destruct r as [x|]; [right|left].
  - exists a, x. unfold mbind, M_bind. rewrite Hr. by destruct H.
  - exists a. unfold mbind, M_bind. by rewrite Hr.
Qed.

(** A pbuf of the pool as [pbuf_alloc] builds it. *)
Record fresh_pool w (c : loc * pbuf) : Prop := mk_fresh_pool {
  fp_src : c.1.1 = POOL MEMP_PBUF_POOL;
  fp_ref : ref c.2 = 1;
  fp_type : type c.2 = PBUF_POOL;
  fp_data : ∃ o bs, payload c.2 = Some (Own c.1, o) ∧ 0 ≤ o ∧ 0 ≤ len c.2 ∧
    o + len c.2 ≤ PBUF_POOL_BUFSIZE_ALIGNED ∧ data w !! Own c.1 = Some bs ∧
    Z.of_nat (length bs) = PBUF_POOL_BUFSIZE_ALIGNED;
}.

(** From [w0], [w] was reached by building the chain [cs]; nothing else changed. *)
Record built w0 (L0 : gmap loc Z) w (L : gmap loc Z) cs : Prop := mk_built {
  bu_inv : inv w L;
  bu_fresh l : l ∈ cs.*1 → l ∉ live w0 ∧ L0 !! l = None;
  bu_live : live w = list_to_set cs.*1 ∪ live w0;
  bu_pbs l : l ∈ live w0 → pbs w !! l = pbs w0 !! l;
  bu_data r : valid r w0 = true → data w !! r = data w0 !! r;
  bu_blocks l : l ∉ cs.*1 → L !! l = L0 !! l;
}.

Lemma fresh_pool_same w w' c : data w' !! Own c.1 = data w !! Own c.1 →
  fresh_pool w c → fresh_pool w' c.
Proof.
  intros E [H1 H2 H3 (o & bs & H4 & H5 & H6 & H7 & H8 & H9)]. constructor; [done..|].
  exists o, bs. rewrite E. by split_and!.
Qed.

(** Giving back everything that was built. *)
Lemma built_free w0 L0 w L p cs : built w0 L0 w L cs → chain w (Some p) cs →
  Forall (fresh_pool w) cs → (length cs < 256)%nat →
  ∃ z w', pbuf_free (Some p) w = Ret (z, w') ∧ built w0 L0 w' L0 [].
Proof.
  intros Hb Hc Hf Hlen.
  assert (freed cs = cs) as Hfr.
  { clear -Hf. induction Hf as [|[l pb] cs [_ Hr _ _] _ IH]; simpl in *; [done|].
    by rewrite Hr, IH. }
  destruct (pbuf_free_ok w L p cs (bu_inv _ _ _ _ _ Hb) Hc) as (w' & Hrun & Hi & Hl & Hd & _ & Hp).
  - eapply list.Forall_impl; [exact Hf|]. intros c [Hs Hr _ _]. simpl. rewrite Hs, Hr. done.
  - rewrite Hfr. lia.
  - rewrite Hfr in *. eexists _, w'. split; [done|]. destruct Hb as [_ Hfresh Hlive Hpbs Hdata Hbl].
    constructor.
    + replace L0 with (without cs.*1 L); [done|]. apply map_eq. intros l. rewrite without_lookup.
      case_decide as E; [symmetry; by apply Hfresh|by apply Hbl].
    + by intros l ?%elem_of_nil.
    + rewrite Hl, Hlive. apply set_eq. intros l.
      rewrite elem_of_difference, !elem_of_union, elem_of_list_to_set. simpl.
      rewrite elem_of_empty. split; [tauto|]. intros [[]|Hin]. split; [tauto|].
      intros E. by apply (Hfresh l).
    + intros l Hin. rewrite Hp, Hpbs; [done|done|]. intros E. by apply (Hfresh l).
    + intros r Hr. rewrite Hd. by apply Hdata.
    + done.
Qed.

Lemma bufsize : PBUF_POOL_BUFSIZE_ALIGNED = 592.
Proof. done. Qed.

(** One more block [q] at the end of what was built. *)
Lemma built_step w0 L0 w L cs q k w2 cs2 : built w0 L0 w L cs → L !! q = None → q.1 ≠ CUSTOM →
  inv w2 (<[q := k]> L) → cs2.*1 = cs.*1 ++ [q] → live w2 = {[q]} ∪ live w →
  (∀ l, l ∈ live w0 → pbs w2 !! l = pbs w !! l) →
  (∀ r, r ≠ Own q → data w2 !! r = data w !! r) →
  built w0 L0 w2 (<[q := k]> L) cs2.
Proof.
  intros [Hi Hfr Hlv Hpb Hd Hbl] Hq Hc Hi2 Hcs Hlv2 Hpb2 Hd2.
  assert (q ∉ live w) as Hqw by by eapply fresh_not_live.
  assert (q ∉ live w0) as Hqw0 by (intros E; apply Hqw; rewrite Hlv; apply elem_of_union; by right).
  assert (q ∉ cs.*1) as Hqcs.
  { intros E. apply Hqw. rewrite Hlv. apply elem_of_union. left. by apply elem_of_list_to_set. }
  constructor; [done| | | | |]; rewrite ?Hcs.
  - intros l [Hin|Hin]%elem_of_app; [by apply Hfr|]. apply list_elem_of_singleton in Hin as ->.
    split; [done|]. by rewrite <- Hbl.
  - rewrite Hlv2, Hlv. apply set_eq. intros l.
    rewrite !elem_of_union, !elem_of_list_to_set, elem_of_app, list_elem_of_singleton.
    rewrite elem_of_singleton. tauto.
  - intros l Hin. rewrite Hpb2 by done. by apply Hpb.
  - intros r Hr. rewrite Hd2; [by apply Hd|]. intros ->. simpl in Hr.
    by apply bool_decide_eq_true_1 in Hr.
  - intros l Hin. rewrite elem_of_app, list_elem_of_singleton in Hin.
    rewrite lookup_insert_ne by (intros ->; tauto). apply Hbl. tauto.
Qed.

(** The pbuf a round of [alloc_tail] adds. *)
Definition tail_pbuf q (rem : Z) : pbuf :=
  mk_pbuf None (Some (Own q, 0)) rem (Z.min rem PBUF_POOL_BUFSIZE_ALIGNED) PBUF_POOL 0 1.

(** The state after a round of [alloc_tail] that found an element. *)
Definition tail_world w r rb q rem a : world A :=
  upd_pbs q (tail_pbuf q rem)
    (upd_pbs q (set_ref 0 (tail_pbuf q rem))
      (upd_pbs r (set_next (Some q) rb)
        (upd_pbs q (mk_pbuf None None 0 0 PBUF_POOL 0 0)
          (born_world w q PBUF_POOL_BUFSIZE_ALIGNED a)))).

Lemma alloc_tail_world w0 L0 w L p cs r rb rem q a :
  built w0 L0 w L (cs ++ [(r, rb)]) → chain w (Some p) (cs ++ [(r, rb)]) →
  Forall (fresh_pool w) (cs ++ [(r, rb)]) → tot_plus rem (cs ++ [(r, rb)]) →
  0 < rem < 0xffff → L !! q = None → q.1 = POOL MEMP_PBUF_POOL →
  owns a (<[q := elt_size MEMP_PBUF_POOL]> L) →
  let w2 := tail_world w r rb q rem a in
  let cs2 := (cs ++ [(r, set_next (Some q) rb)]) ++ [(q, tail_pbuf q rem)] in
  built w0 L0 w2 (<[q := elt_size MEMP_PBUF_POOL]> L) cs2 ∧ chain w2 (Some p) cs2 ∧
  Forall (fresh_pool w2) cs2 ∧ tot_plus (rem - len (tail_pbuf q rem)) cs2.
Proof.
  intros Hb Hc Hf Ht Hrem Hq Hqs Ha w2 cs2. pose proof (bu_inv _ _ _ _ _ Hb) as Hi.
  assert (q ∉ live w) as Hqw by (eapply fresh_not_live; [done|done|by rewrite Hqs]).
  assert (∀ l, l ∈ (cs ++ [(r, rb)]).*1 → l ≠ q ∧ l ∈ live w) as Hlocs.
  { intros l Hin. pose proof (chain_live _ _ _ _ Hc Hin) as Hlv. split; [|done]. by intros ->. }
  assert (r ≠ q ∧ r ∈ live w) as [Hrq Hrl]
    by (apply Hlocs; rewrite fmap_app, elem_of_app; right; by left).
  assert (pbs w !! r = Some rb) as Hrp.
  { apply chain_suffix in Hc as (z & _ & _ & Hz & _). done. }
  set (wa := upd_pbs q (mk_pbuf None None 0 0 PBUF_POOL 0 0) (born_world w q PBUF_POOL_BUFSIZE_ALIGNED a)).
  assert (inv wa (<[q := elt_size MEMP_PBUF_POOL]> L)) as Hia.
  { apply inv_born; try done; [by rewrite Hqs|rewrite pool_size; done]. }
  assert (chain wa (Some p) (cs ++ [(r, rb)])) as Hca.
  { eapply chain_same; [|exact Hc]. intros l Hin. apply Hlocs in Hin as [Hne Hlv]. simpl.
    rewrite !lookup_insert_ne by done. split; [done|]. apply elem_of_union. by right. }
  assert (pbs wa !! r = Some rb) as Hrpa by (simpl; by rewrite !lookup_insert_ne by done).
  assert (q ∈ live wa ∧ r ∈ live wa) as [Hqa Hra] by (simpl; set_solver).
  split_and!.
  - eapply built_step; [exact Hb|done|by rewrite Hqs| | | | |].
    + eapply inv_upd; [eapply inv_upd; [eapply inv_upd; [exact Hia|done|exact Hrpa|done|done]
        |done|simpl; rewrite lookup_insert_ne, lookup_insert_eq by done; done|done|done]
        |done|simpl; by rewrite lookup_insert_eq|done|done].
    + unfold cs2. by rewrite !fmap_app.
    + done.
    + intros l Hl. assert (l ≠ q) as Hne.
      { intros ->. apply Hqw. rewrite (bu_live _ _ _ _ _ Hb). apply elem_of_union. by right. }
      simpl. rewrite !lookup_insert_ne with (i := q) by done.
      rewrite lookup_insert_ne; [by rewrite !lookup_insert_ne by done|].
      intros ->. destruct (bu_fresh _ _ _ _ _ Hb l); [|done].
      rewrite fmap_app, elem_of_app. right. by left.
    + intros x Hx. simpl. by rewrite lookup_insert_ne by done.
  - unfold w2, tail_world, cs2.
    apply (chain_update _ _ _ q (set_ref 0 (tail_pbuf q rem))); [|done].
    apply (chain_update _ _ _ q (mk_pbuf None None 0 0 PBUF_POOL 0 0)); [|done].
    rewrite <- (assoc_L app). eapply (chain_relink wa (Some p) (Some q) cs r rb);
      [exact Hca| |set_solver|done].
    simpl. rewrite lookup_insert_eq. by split_and!.
  - apply list.Forall_app. split; [apply list.Forall_app in Hf as [Hf1 Hf2]; apply list.Forall_app; split|].
    + apply list.Forall_forall. intros c Hin. rewrite list.Forall_forall in Hf1.
      eapply fresh_pool_same; [|by apply Hf1]. simpl. apply lookup_insert_ne. intros [= E].
      destruct (Hlocs c.1) as [Hne _]; [|congruence]. rewrite fmap_app, elem_of_app. left.
      by apply list_elem_of_fmap_2.
    + rewrite list.Forall_singleton in Hf2. apply list.Forall_singleton.
      destruct Hf2 as [H1 H2 H3 (o & bs & H4 & H5 & H6 & H7 & H8 & H9)]. constructor; try done.
      exists o, bs. simpl in *. rewrite lookup_insert_ne by congruence. by split_and!.
    + apply list.Forall_singleton. constructor; try done. eexists 0, _. simpl.
      rewrite lookup_insert_eq. split_and!; [done|done|rewrite ?bufsize; lia|rewrite ?bufsize; lia|done|].
      by apply uninit_length.
  - unfold cs2. rewrite !tot_plus_app in *. cbn [lens tot_plus] in *.
    change (len (set_next (Some q) rb)) with (len rb).
    change (tot_len (set_next (Some q) rb)) with (tot_len rb).
    assert (0 ≤ len (tail_pbuf q rem) ≤ rem) as Hql by (simpl; rewrite bufsize; lia).
    replace (len (tail_pbuf q rem) + 0 + (rem - len (tail_pbuf q rem))) with rem by lia.
    destruct Ht as (Ht1 & Ht2 & Ht3 & Ht4 & _). split_and!; try done; unfold is_u16 in *; simpl in *; lia.
Qed.

Definition head_info cs : option (loc * option ptr * Z) :=
  (λ c : loc * pbuf, (c.1, payload c.2, len c.2)) <$> head cs.

Lemma alloc_tail_ok n w0 L0 w L p cs r rb rem :
  built w0 L0 w L (cs ++ [(r, rb)]) → chain w (Some p) (cs ++ [(r, rb)]) →
  Forall (fresh_pool w) (cs ++ [(r, rb)]) → tot_plus rem (cs ++ [(r, rb)]) →
  0 ≤ rem < 0xffff → (Z.to_nat rem ≤ n)%nat →
  (0 < rem → 592 * Z.of_nat (length cs) + rem ≤ 66000) →
  (∃ w' L' cs', alloc_tail n p r rem w = Ret (true, w') ∧ built w0 L0 w' L' cs' ∧
     chain w' (Some p) cs' ∧ Forall (fresh_pool w') cs' ∧ tot_plus 0 cs' ∧
     lens cs' = lens (cs ++ [(r, rb)]) + rem ∧ head_info cs' = head_info (cs ++ [(r, rb)])) ∨
  (∃ w', alloc_tail n p r rem w = Ret (false, w') ∧ built w0 L0 w' L0 []).
Proof.
  revert w L cs r rb rem. induction n as [|n IH]; intros w L cs r rb rem Hb Hc Hf Ht Hrem Hn Hlen;
    cbn [Pbuf.alloc_tail]; rewrite Z.gtb_ltb; destruct (Z.ltb_spec 0 rem) as [Hpos|Hz]; try lia.
  1,3: assert (rem = 0) as -> by lia; left; exists w, L, (cs ++ [(r, rb)]);
    rewrite Z.add_0_r; by split_and!.
  specialize (Hlen Hpos).
  destruct (world_memp_malloc_ok w L MEMP_PBUF_POOL PBUF_POOL_BUFSIZE_ALIGNED (bu_inv _ _ _ _ _ Hb))
    as [(a & Hrun & Ha)|(a & x & Hrun & Hq & Ha)]; rewrite (bind_Ret _ _ _ _ _ Hrun).
  { right. unfold pbuf_pool_is_empty. rewrite bind_modify. cbn [pbs live data allocs pbuf_free_ooseq_pending].
    set (w1 := mk_world (pbs w) (live w) (data w) a 1).
    destruct (built_free w0 L0 w1 L p (cs ++ [(r, rb)])) as (z & w' & Hfree & Hb').
    - destruct Hb as [[Hi1 Hi2 Hi3] Hb2 Hb3 Hb4 Hb5 Hb6]. by constructor.
    - eapply chain_same; [|exact Hc]. intros l Hin. split; [done|].
      exact (chain_live _ _ _ _ Hc Hin).
    - eapply list.Forall_impl; [exact Hf|]. intros c Hfc. by apply (fresh_pool_same w).
    - rewrite length_app. simpl. lia.
    - exists w'. by rewrite (bind_Ret _ _ _ _ _ Hfree). }
  set (q := (POOL MEMP_PBUF_POOL, x)) in *.
  destruct (alloc_tail_world w0 L0 w L p cs r rb rem q a Hb Hc Hf Ht ltac:(lia) Hq eq_refl Ha)
    as (Hb2 & Hc2 & Hf2 & Ht2).
  destruct (chain_head _ _ _ Hc2) as (pb & cs' & Ecs & Hlp & Hpp).
  assert (q ∉ live w) as Hqw by (eapply fresh_not_live; [apply Hb|done|done]).
  assert (r ∈ live w ∧ p ∈ live w ∧ pbs w !! r = Some rb) as (Hrl & Hpl & Hrp).
  { destruct (chain_head _ _ _ Hc) as (? & ? & _ & ? & _).
    apply chain_suffix in Hc as (z & _ & ? & Hz & _). done. }
  assert (r ≠ q ∧ p ≠ q) as [Hrq Hpq] by (split; by intros ->).
  assert (∃ o, payload pb = Some (Own p, o) ∧ o + len pb ≤ 592) as (o & Hpay & Hol).
  { rewrite Ecs in Hf2. apply list.Forall_cons in Hf2 as [[_ _ _ (o & _ & ? & _ & _ & ? & _)] _]. eauto. }
  erewrite bind_upd; [|simpl; set_solver|simpl; apply lookup_insert_eq].
  erewrite bind_upd; [|simpl; set_solver|simpl; rewrite !lookup_insert_ne by done; exact Hrp].
  rewrite bind_assert by lia. rewrite (u16_id rem) by (unfold is_u16; lia).
  erewrite bind_upd; [|simpl; set_solver|simpl; rewrite lookup_insert_ne by done; apply lookup_insert_eq].
  erewrite bind_rd; [|simpl; set_solver|].
  2:{ etrans; [|exact Hpp]. symmetry. apply lookup_insert_ne. done. }
  rewrite bind_assert by (rewrite Hpay, bufsize; lia).
  erewrite bind_upd; [|simpl; set_solver|simpl; apply lookup_insert_eq].
  rewrite s32_id by (rewrite bufsize; lia).
  destruct (IH _ _ _ _ _ _ Hb2 Hc2 Hf2 Ht2) as [(w' & L' & cs3 & H1 & H2 & H3 & H4 & H5 & H6 & H7)|(w' & H1 & H2)].
  - simpl. rewrite bufsize. lia.
  - simpl. rewrite bufsize. lia.
  - simpl. rewrite bufsize, length_app. simpl. lia.
  - left. exists w', L', cs3. split_and!; try done.
    + rewrite H6, !lens_app. simpl. lia.
    + rewrite H7. by destruct cs.
  - right. by exists w'.
Qed.

Lemma built_refl w L : inv w L → built w L w L [].
Proof.
  intros Hi. constructor; try done.
  - by intros l ?%elem_of_nil.
  - simpl. by rewrite union_empty_l_L.
Qed.

(** A change of a new pbuf. *)
Lemma built_upd w0 L0 w L cs l pb pb' cs' : built w0 L0 w L cs → l ∈ cs.*1 →
  pbs w !! l = Some pb → type pb' = type pb → not_custom pb' → cs'.*1 = cs.*1 →
  built w0 L0 (upd_pbs l pb' w) L cs'.
Proof.
  intros [Hi Hfr Hlv Hpb Hd Hbl] Hl Hp Ht Hnc Hcs. constructor; rewrite ?Hcs; try done.
  - eapply inv_upd; try done. rewrite Hlv. apply elem_of_union. left. by apply elem_of_list_to_set.
  - intros x Hx. simpl. rewrite lookup_insert_ne; [by apply Hpb|]. intros ->. by apply (Hfr x).
Qed.

(** The payloads of new pbufs can be read. *)
Lemma fresh_content w cs : Forall (fresh_pool w) cs → (∀ l, l ∈ cs.*1 → l ∈ live w) →
  ∃ ds, content w cs ds.
Proof.
  intros Hf Hl. unfold content. induction Hf as [|[l pb] cs Hfc Hf IH].
  { exists []. constructor. }
  destruct IH as (ds & Hds); [intros x Hx; apply Hl; by right|].
  destruct Hfc as [_ _ _ (o & bs & Hpay & Ho & H0 & Hb & Hd & Hbl)]. simpl in *.
  exists (take (Z.to_nat (len pb)) (drop (Z.to_nat (o + 0)) bs) :: ds).
  constructor; [|exact Hds]. simpl. unfold load.
  destruct (Z.eqb_spec (len pb) 0) as [E|E]; [by rewrite E|].
  rewrite Hpay. simpl. rewrite bool_decide_eq_true_2 by (apply Hl; by left). rewrite Hd.
  rewrite (proj2 (Z.leb_le 0 _)), (proj2 (Z.leb_le _ _)) by lia. reflexivity.
Qed.

(** What a new packet is: [length] bytes behind [offset] bytes of headroom, every
    pbuf with one reference. *)
Record new_packet w0 (L0 : gmap loc Z) w (L : gmap loc Z) p cs (ty : pbuf_type)
    (offset length : Z) : Prop := mk_new_packet {
  np_built : built w0 L0 w L cs;
  np_chain : chain w (Some p) cs;
  np_tot : tot_ok cs;
  np_lens : lens cs = length;
  np_single : ty ≠ PBUF_POOL → ∃ pb, cs = [(p, pb)];
  np_refs : Forall (λ c : loc * pbuf, ref c.2 = 1 ∧ type c.2 = ty) cs;
  np_content : ty = PBUF_RAM ∨ ty = PBUF_POOL →
    (∃ ds, content w cs ds) ∧
    match cs with (_, pb) :: _ => payload pb = Some (Own p, offset) ∧ flags pb = 0 | [] => False end;
  np_room : ty = PBUF_RAM → p.1 = HEAP ∧
    ∃ bs, data w !! Own p = Some bs ∧ offset + length ≤ Z.of_nat (List.length bs);
}.

(** The last steps of [pbuf_alloc], on the first pbuf of what it built. *)
Lemma finish_ok w p pb : p ∈ live w → pbs w !! p = Some pb →
  (_ ← upd p (set_ref 1); _ ← upd p (set_flags 0); mret (Some p)) w =
  Ret (Some p, upd_pbs p (set_flags 0 (set_ref 1 pb)) w).
Proof.
  intros Hl Hp. rewrite (bind_upd w p pb) by done.
  erewrite bind_upd; [|done|simpl; apply lookup_insert_eq]. by rewrite upd_upd.
Qed.

Lemma tot_plus_head m l pb pb' cs : len pb' = len pb → tot_len pb' = tot_len pb →
  tot_plus m ((l, pb) :: cs) → tot_plus m ((l, pb') :: cs).
Proof. simpl. intros -> ->. done. Qed.

(** The flags left in a pool element never mark it as custom. *)
Lemma stale_flags w L x : inv w L → not_custom (default zero_pbuf (pbs w !! (POOL MEMP_PBUF_POOL, x))).
Proof.
  intros Hi. destruct (pbs w !! (POOL MEMP_PBUF_POOL, x)) eqn:E; [|done]. by eapply (inv_flags _ _ Hi).
Qed.

(** The first pbuf of a pool packet, before the tail is built. *)
Definition first_pbuf w p offset length : pbuf :=
  mk_pbuf None (Some (Own p, offset)) length (Z.min length (592 - offset)) PBUF_POOL
    (flags (default zero_pbuf (pbs w !! p))) 1.

Lemma alloc_pool_start w L x a offset length : inv w L → 0 ≤ offset ≤ 56 → is_u16 length →
  let p := (POOL MEMP_PBUF_POOL, x) in
  L !! p = None → owns a (<[p := elt_size MEMP_PBUF_POOL]> L) →
  let w1 := upd_pbs p (first_pbuf w p offset length) (born_world w p 592 a) in
  built w L w1 (<[p := elt_size MEMP_PBUF_POOL]> L) ([] ++ [(p, first_pbuf w p offset length)]) ∧
  chain w1 (Some p) ([] ++ [(p, first_pbuf w p offset length)]) ∧
  Forall (fresh_pool w1) ([] ++ [(p, first_pbuf w p offset length)]) ∧
  tot_plus (length - Z.min length (592 - offset)) ([] ++ [(p, first_pbuf w p offset length)]).
Proof.
  intros Hi Ho Hlen p Hp Ha w1. unfold is_u16 in Hlen. split_and!.
  - eapply (built_step w L w L []); [by apply built_refl|done|done| |done|done| |].
    + apply inv_born; try done; [rewrite pool_size; done|]. exact (stale_flags w L x Hi).
    + intros l Hl. simpl. rewrite !lookup_insert_ne; [done|..];
        intros <-; by apply (fresh_not_live w L p).
    + intros r Hr. simpl. by rewrite lookup_insert_ne.
  - simpl. rewrite lookup_insert_eq. split_and!; try done. set_solver.
  - apply list.Forall_singleton. constructor; try done. eexists offset, _. simpl.
    rewrite lookup_insert_eq, bufsize. split_and!; [done|lia|lia|lia|done|by apply uninit_length].
  - simpl. unfold is_u16. split_and!; try done; lia.
Qed.

Lemma alloc_pool_ok w L offset length : inv w L → 0 ≤ offset ≤ 56 → is_u16 length →
  ∃ r w', alloc_pool offset length w = Ret (r, w') ∧
    match r with
    | None => built w L w' L []
    | Some p => ∃ L' pb cs, built w L w' L' ((p, pb) :: cs) ∧ chain w' (Some p) ((p, pb) :: cs) ∧
        Forall (fresh_pool w') ((p, pb) :: cs) ∧ tot_plus 0 ((p, pb) :: cs) ∧
        lens ((p, pb) :: cs) = length ∧ payload pb = Some (Own p, offset)
    end.
Proof.
  intros Hi Ho Hlen. unfold Pbuf.alloc_pool.
  destruct (world_memp_malloc_ok w L MEMP_PBUF_POOL PBUF_POOL_BUFSIZE_ALIGNED Hi)
    as [(a & Hrun & Ha)|(a & x & Hrun & Hq & Ha)]; rewrite (bind_Ret _ _ _ _ _ Hrun).
  { eexists None, _. split; [reflexivity|]. constructor; simpl; try done.
    - by apply inv_alloc.
    - by intros l ?%elem_of_nil.
    - by rewrite union_empty_l_L. }
  set (p := (POOL MEMP_PBUF_POOL, x)) in *. rewrite !bufsize.
  rewrite (align_size offset) by (unfold is_u32; lia).
  erewrite bind_upd; [|simpl; set_solver|simpl; apply lookup_insert_eq].
  rewrite !bind_assert by lia.
  erewrite bind_upd; [|simpl; set_solver|simpl; apply lookup_insert_eq].
  rewrite upd_upd. 
  destruct (alloc_pool_start w L x a offset length Hi Ho Hlen Hq Ha) as (Hb & Hc & Hf & Ht).
  unfold is_u16 in Hlen. rewrite s32_id by lia.
  destruct (alloc_tail_ok (Z.to_nat length) w L _ _ p [] p _ _ Hb Hc Hf Ht)
    as [(w' & L' & cs & H1 & H2 & H3 & H4 & H5 & H6 & H7)|(w' & H1 & H2)]; [lia|lia|simpl; lia| |].
  - exists (Some p), w'. split; [by rewrite (bind_Ret _ _ _ _ _ H1)|].
    destruct (chain_head _ _ _ H3) as (pb & cs' & -> & _). exists L', pb, cs'.
    split_and!; try done; [rewrite H6; simpl; lia|]. by injection H7 as ? ?.
  - exists None, w'. split; [by rewrite (bind_Ret _ _ _ _ _ H1)|done].
Qed.

Lemma built_alloc w L a z : inv w L → owns a L →
  built w L (mk_world (pbs w) (live w) (data w) a z) L [].
Proof.
  intros Hi Ha. constructor; simpl; try done; [by apply inv_alloc|by intros l ?%elem_of_nil|].
  by rewrite union_empty_l_L.
Qed.

Lemma world_mem_malloc_ok w L n : inv w L → SIZEOF_STRUCT_PBUF ≤ n < 2 ^ 16 →
  (∃ a, mem_malloc n w = Ret (None, mk_world (pbs w) (live w) (data w) a (pbuf_free_ooseq_pending w)) ∧
    owns a L) ∨
  (∃ a x k, mem_malloc n w = Ret (Some (HEAP, x), born_world w (HEAP, x) (n - SIZEOF_STRUCT_PBUF) a) ∧
    L !! (HEAP, x) = None ∧ n ≤ k ∧ owns a (<[(HEAP, x) := k]> L)).
Proof.
  intros Hi Hn. assert (SIZEOF_STRUCT_PBUF = 24) as H24 by done.
  assert (is_u16 n) as Hu by (unfold is_u16; lia).
  destruct (heap_malloc_ok _ _ n (inv_owns _ _ Hi) Hu) as (r & a & Hr & Hs).
  unfold Pbuf.mem_malloc, on_alloc. rewrite u16_id by done. destruct r as [x|]; [right|left].
  - destruct Hs as (k & ? & ? & ?). exists a, x, k. unfold mbind, M_bind. rewrite Hr.
    rewrite (proj2 (Z.ltb_ge n _)) by lia. done.
  - exists a. unfold mbind, M_bind. by rewrite Hr.
Qed.

(** One new pbuf that is not in the pool of packet buffers. *)
Lemma single_ok w L p n a k pb ty offset length : inv w L → L !! p = None → p.1 ≠ CUSTOM →
  0 ≤ n → SIZEOF_STRUCT_PBUF + n ≤ k → owns a (<[p := k]> L) → typed p pb →
  is_u16 length → pb = mk_pbuf None (payload pb) length length ty 0 1 →
  (ty = PBUF_RAM ∨ ty = PBUF_POOL →
   payload pb = Some (Own p, offset) ∧ 0 ≤ offset ∧ offset + length ≤ n) →
  new_packet w L (upd_pbs p pb (born_world w p n a)) (<[p := k]> L) p [(p, pb)] ty offset length.
Proof.
  intros Hi Hp Hc Hn Hk Ha Ht Hlen Epb Hpay. set (w1 := upd_pbs p pb (born_world w p n a)).
  assert (len pb = length ∧ tot_len pb = length ∧ next pb = None ∧ ref pb = 1 ∧ type pb = ty ∧
    flags pb = 0) as (E1 & E2 & E3 & E4 & E5 & E6) by (rewrite Epb; done).
  assert (pbs w1 !! p = Some pb ∧ p ∈ live w1) as [Hp1 Hl1]
    by (simpl; split; [apply lookup_insert_eq|set_solver]).
  constructor.
  - eapply (built_step w L w L []); [by apply built_refl|done|done| |done|done| |].
    + apply inv_born; try done. unfold not_custom. by rewrite E6.
    + intros l Hl. simpl. rewrite !lookup_insert_ne; [done|..];
        intros <-; by apply (fresh_not_live w L p).
    + intros r Hr. simpl. by rewrite lookup_insert_ne.
  - simpl. rewrite lookup_insert_eq, E3. by split_and!.
  - simpl. rewrite E1, E2, Z.add_0_r. by split_and!.
  - simpl. lia.
  - eauto.
  - apply list.Forall_singleton. by split.
  - intros Hty. destruct (Hpay Hty) as (Epay & Ho & Hon). split; [|by split].
    exists [take (Z.to_nat length) (drop (Z.to_nat offset) (uninit (mk_world (pbs w) (live w) (data w) a (pbuf_free_ooseq_pending w)) p n))].
    apply list.Forall2_cons. split; [|by constructor]. cbn [snd]. unfold load. rewrite E1, Epay.
    destruct (Z.eqb_spec length 0) as [->|E]; [done|].
    change (valid (Own p) w1) with (bool_decide (p ∈ live w1)).
    rewrite bool_decide_eq_true_2 by done. unfold w1 at 1. simpl. rewrite lookup_insert_eq.
    unfold is_u16 in Hlen. rewrite uninit_length by done. rewrite Z.add_0_r.
    rewrite (proj2 (Z.leb_le 0 _)), (proj2 (Z.leb_le _ _)) by lia. done.
  - intros ->. split; [by rewrite Ht, E5|]. eexists. split; [apply lookup_insert_eq|].
    rewrite uninit_length by done. by apply Hpay; left.
Qed.

Lemma header_offset_range layer : 0 ≤ header_offset layer ≤ 56.
Proof. by destruct layer. Qed.

(** The three ways [pbuf_alloc] takes, each with its last steps. *)
Definition finish (p : option loc) : M (world A) (option loc) :=
  match p with
  | None => mret None
  | Some p => _ ← upd p (set_ref 1); _ ← upd p (set_flags 0); mret (Some p)
  end.

Definition alloc_post w L layer length ty (r : option loc) w' : Prop :=
  match r with
  | None => built w L w' L []
  | Some p => ∃ L' cs, new_packet w L w' L' p cs ty (header_offset layer) length
  end.

Lemma ref_case w L layer length ty : inv w L → is_u16 length → ty = PBUF_ROM ∨ ty = PBUF_REF →
  ∃ r w', (Pbuf.alloc_ref uninit length ty ≫= finish) w = Ret (r, w') ∧
    alloc_post w L layer length ty r w'.
Proof.
  intros Hi Hlen Ht. unfold Pbuf.alloc_ref.
  destruct (world_memp_malloc_ok w L MEMP_PBUF 0 Hi) as [(a & Hrun & Ha)|(a & x & Hrun & Hq & Ha)].
  - erewrite bind_Ret; [|by rewrite (bind_Ret _ _ _ _ _ Hrun)].
    eexists None, _. split; [reflexivity|]. by apply built_alloc.
  - set (p := (POOL MEMP_PBUF, x)) in *. erewrite bind_Ret.
    2:{ rewrite (bind_Ret _ _ _ _ _ Hrun). erewrite bind_upd;
          [reflexivity|simpl; set_solver|simpl; apply lookup_insert_eq]. }
    unfold finish. erewrite finish_ok; [|simpl; set_solver|simpl; apply lookup_insert_eq].
    rewrite upd_upd. eexists (Some p), _. split; [reflexivity|].
    eexists (<[p := elt_size MEMP_PBUF]> L), _. apply single_ok; try done.
    + rewrite ref_size. done.
    + by destruct Ht as [-> | ->].
    + intros [-> | ->]; by destruct Ht.
Qed.

Lemma ram_case w L layer length : inv w L → is_u16 length →
  SIZEOF_STRUCT_PBUF + header_offset layer + length < 2 ^ 16 →
  ∃ r w', (Pbuf.alloc_ram uninit (header_offset layer) length ≫= finish) w = Ret (r, w') ∧
    alloc_post w L layer length PBUF_RAM r w'.
Proof.
  intros Hi Hlen Hram. pose proof (header_offset_range layer) as Ho.
  assert (SIZEOF_STRUCT_PBUF = 24) as H24 by done. unfold is_u16 in Hlen.
  unfold Pbuf.alloc_ram. rewrite !align_size by (unfold is_u32; lia).
  destruct (world_mem_malloc_ok w L (SIZEOF_STRUCT_PBUF + header_offset layer + length) Hi)
    as [(a & Hrun & Ha)|(a & x & k & Hrun & Hq & Hk & Ha)]; [lia|..].
  - erewrite bind_Ret; [|by rewrite (bind_Ret _ _ _ _ _ Hrun)].
    eexists None, _. split; [reflexivity|]. by apply built_alloc.
  - set (p := (HEAP, x)) in *. erewrite bind_Ret.
    2:{ rewrite (bind_Ret _ _ _ _ _ Hrun). erewrite bind_upd;
          [reflexivity|simpl; set_solver|simpl; apply lookup_insert_eq]. }
    unfold finish. erewrite finish_ok; [|simpl; set_solver|simpl; apply lookup_insert_eq].
    rewrite upd_upd. eexists (Some p), _. split; [reflexivity|].
    eexists (<[p := k]> L), _. apply single_ok; try done; try lia. intros _. split_and!; [done|lia|lia].
Qed.

Lemma pool_case w L layer length : inv w L → is_u16 length →
  ∃ r w', (alloc_pool (header_offset layer) length ≫= finish) w = Ret (r, w') ∧
    alloc_post w L layer length PBUF_POOL r w'.
Proof.
  intros Hi Hlen. destruct (alloc_pool_ok w L (header_offset layer) length Hi
    (header_offset_range layer) Hlen) as ([p|] & w' & Hrun & Hp); rewrite (bind_Ret _ _ _ _ _ Hrun).
  2:{ exists None, w'. by split. }
  destruct Hp as (L' & pb & cs & Hb & Hc & Hf & Ht & Hlens & Hpay).
  destruct (chain_head _ _ _ Hc) as (? & ? & [= <- <-] & Hl & Hp).
  assert (Forall (λ c : loc * pbuf, ref c.2 = 1 ∧ type c.2 = PBUF_POOL) ((p, pb) :: cs)) as Hrefs
    by (eapply list.Forall_impl; [exact Hf|]; by intros c []).
  set (pb' := set_flags 0 (set_ref 1 pb)). set (w2 := upd_pbs p pb' w').
  exists (Some p), w2. unfold finish. split; [by apply finish_ok|].
  assert (Forall (fresh_pool w2) ((p, pb') :: cs)) as Hf2.
  { apply list.Forall_cons in Hf as [[? ? ? Hd] Hf]. apply list.Forall_cons. split; [by constructor|].
    eapply list.Forall_impl; [exact Hf|]. intros c Hfc. by apply (fresh_pool_same w'). }
  assert (chain w2 (Some p) ((p, pb') :: cs)) as Hc2 by by apply (chain_update w' _ [] p pb).
  exists L', ((p, pb') :: cs). constructor; [| |by apply tot_plus_0|done|done| | |done].
  - eapply built_upd; [exact Hb|by left|done|done|done|done].
  - done.
  - apply list.Forall_cons in Hrefs as [[? ?] ?]. by apply list.Forall_cons.
  - intros _. split; [|by split]. apply fresh_content; [done|]. intros l. by apply chain_live with (Some p).
Qed.

(** [pbuf_alloc]: a new packet, or NULL and nothing has changed. *)
Lemma pbuf_alloc_ok w L layer length ty : inv w L → is_u16 length →
  (ty = PBUF_RAM → SIZEOF_STRUCT_PBUF + header_offset layer + length < 2 ^ 16) →
  ∃ r w', pbuf_alloc layer length ty w = Ret (r, w') ∧ alloc_post w L layer length ty r w'.
Proof.
  intros Hi Hlen Hram. destruct ty.
  - apply ram_case; auto.
  - apply ref_case; auto.
  - apply ref_case; auto.
  - apply pool_case; auto.
Qed.
End Own.
