(* ===== verification/PbufOps.v ===== *)
(** * Chaining, headers, shrinking and merging of packets

    [pbuf_cat], [pbuf_chain], [pbuf_dechain], [pbuf_header], [pbuf_realloc] and
    [pbuf_coalesce] in terms of the bytes a packet holds. *)

From S2P Require Import Prelude Mem Alloc Pbuf PbufChain PbufWrite PbufOwn.
Import Pbuf.

Section Ops.
Context {A : Type}.
Implicit Types (w : world A) (l : loc) (pb : pbuf) (cs : list (loc * pbuf)).

(** Only the structs at [ls] differ between [w] and [w']. *)
Record only (ls : list loc) w w' : Prop := mk_only {
  on_pbs l : l ∉ ls → pbs w' !! l = pbs w !! l;
  on_live : live w' = live w;
  on_data : data w' = data w;
  on_allocs : allocs w' = allocs w;
  on_pending : pbuf_free_ooseq_pending w' = pbuf_free_ooseq_pending w;
}.

#[global] Instance only_refl ls : Reflexive (only ls).
Proof. by constructor. Qed.
#[global] Instance only_trans ls : Transitive (only ls).
Proof.
  intros w1 w2 w3 [H1 H2 H3 H4 H5] [K1 K2 K3 K4 K5]. constructor; try congruence.
  intros l Hl. by rewrite K1, H1.
Qed.

Lemma only_mono ls ls' w w' : ls ⊆ ls' → only ls w w' → only ls' w w'.
Proof. intros Hs [H1 H2 H3 H4 H5]. constructor; try done. intros l Hl. apply H1. auto. Qed.

Lemma only_upd w l pb : only [l] w (upd_pbs l pb w).
Proof. constructor; try done. intros l' Hl. simpl. rewrite lookup_insert_ne; [done|]. intros ->. apply Hl. by left. Qed.

Lemma load_only ls w w' p off n d : only ls w w' →
  load p off n w = Ret (d, w) → load p off n w' = Ret (d, w').
Proof.
  intros [_ Hl Hd _ _]. unfold load. destruct (n =? 0); [by intros [= <-]|].
  destruct p as [[r o]|]; [|done]. unfold valid. rewrite Hl, Hd.
  destruct (match r with Own l => bool_decide (l ∈ live w) | Ext _ => true end); [|done].
  destruct (data w !! r) as [bs|]; [|done].
  destruct ((0 <=? o + off) && (o + off + n <=? Z.of_nat (length bs))); [|done]. by intros [= <-].
Qed.

(** Cells that hold the same bytes. *)
Definition same_bytes (c c' : loc * pbuf) : Prop :=
  payload c'.2 = payload c.2 ∧ len c'.2 = len c.2.

Lemma content_only ls w w' cs cs' ds : only ls w w' → Forall2 same_bytes cs cs' →
  content w cs ds → content w' cs' ds.
Proof.
  intros Ho Hs. unfold content. revert ds.
  induction Hs as [|c c' cs cs' [Hp Hl] Hs IH]; intros ds Hc.
  { apply Forall2_nil_inv_l in Hc as ->. constructor. }
  destruct ds as [|d ds]; [by apply Forall2_nil_inv_r in Hc|].
  apply list.Forall2_cons in Hc as [Hd Hc]. apply list.Forall2_cons. split; [|by apply IH].
  rewrite Hp, Hl. by eapply load_only.
Qed.

(** ** [pbuf_cat] *)

(** [m] more bytes behind every pbuf of a chain. *)
Definition grow (m : Z) cs : list (loc * pbuf) :=
  (λ c : loc * pbuf, (c.1, set_tot_len (u16 (tot_len c.2 + m)) c.2)) <$> cs.

Lemma grow_locs m cs : (grow m cs).*1 = cs.*1.
Proof. unfold grow. rewrite <- list_fmap_compose. by apply list_fmap_ext. Qed.

Lemma grow_cons m l pb cs :
  grow m ((l, pb) :: cs) = (l, set_tot_len (u16 (tot_len pb + m)) pb) :: grow m cs.
Proof. done. Qed.

Lemma grow_lens m cs : lens (grow m cs) = lens cs.
Proof.
  induction cs as [|[l pb] cs IH]; [done|]. rewrite grow_cons. cbn [lens]. by rewrite IH.
Qed.

Lemma grow_bytes m cs : Forall2 same_bytes cs (grow m cs).
Proof. induction cs as [|[l pb] cs IH]; [constructor|]. rewrite grow_cons. by constructor. Qed.

Lemma tot_plus_lens m cs : tot_plus m cs → 0 ≤ lens cs.
Proof.
  induction cs as [|[l pb] cs IH]; simpl; [done|]. intros (_ & [? _] & _ & ?%IH). lia.
Qed.

Lemma grow_tot m k cs : tot_plus k cs → 0 ≤ m → lens cs + k + m < 2 ^ 16 → 0 ≤ k →
  tot_plus (k + m) (grow m cs).
Proof.
  induction cs as [|[l pb] cs IH]; intros Ht Hm Hb Hk; [done|]. cbn [tot_plus] in Ht.
  destruct Ht as (H1 & H2 & H3 & H4). pose proof (tot_plus_lens _ _ H4).
  unfold is_u16 in *. cbn [lens] in *. rewrite grow_cons.
  cbn [tot_plus lens]. rewrite grow_lens. simpl. unfold is_u16. rewrite H1.
  rewrite u16_id by (unfold is_u16; lia). split_and!; try lia. apply IH; try done; lia.
Qed.

(** The loop raises the total length of all pbufs but the last, [z]. *)
Lemma cat_loop_ok n w h p t tb a b z zb :
  chain w (Some h) (a ++ b ++ [(z, zb)]) → Some p = fst <$> head (b ++ [(z, zb)]) →
  (length b < n)%nat → t ∈ live w → pbs w !! t = Some tb → t ∉ b.*1 →
  ∃ w', cat_loop n p t w = Ret (z, w') ∧ only b.*1 w w' ∧
    chain w' (Some h) (a ++ grow (tot_len tb) b ++ [(z, zb)]).
Proof.
  revert n w p a. induction b as [|[l pb] b IH]; intros n w p a Hc Hp Hn Hlt Hpt Ht.
  - injection Hp as <-. destruct (chain_suffix w _ a [(p, zb)] Hc) as (q & _ & Hl & Hz & Hnx).
    exists w. destruct n as [|n]; [simpl in Hn; lia|]. cbn [cat_loop].
    rewrite (bind_rd w p zb) by done. by rewrite Hnx.
  - injection Hp as <-. destruct (chain_suffix w _ a _ Hc) as (q & _ & Hl & Hz & Hnx).
    destruct n as [|n]; [simpl in Hn; lia|]. cbn [cat_loop]. rewrite (bind_rd w p pb) by done.
    assert (next pb = fst <$> head (b ++ [(z, zb)])) as Ep.
    { destruct (b ++ [(z, zb)]) as [|[? ?] ?] eqn:E; [by destruct b|]. by destruct Hnx as (-> & _). }
    destruct (next pb) as [q2|] eqn:Enx; [|by destruct b].
    rewrite (bind_rd w t tb) by done. rewrite (bind_upd w p pb) by done.
    set (pb' := set_tot_len (u16 (tot_len pb + tot_len tb)) pb). set (w1 := upd_pbs p pb' w).
    assert (chain w1 (Some h) ((a ++ [(p, pb')]) ++ b ++ [(z, zb)])) as Hc1.
    { rewrite <- (assoc_L app). by apply (chain_update w _ a p pb). }
    destruct (IH n w1 q2 (a ++ [(p, pb')]) Hc1) as (w' & Hrun & Ho & Hc'); [done|simpl in Hn; lia|done| | |].
    + simpl. rewrite lookup_insert_ne; [done|]. intros ->. apply Ht. by left.
    + intros Hin. apply Ht. by right.
    + exists w'. split_and!; [done| |].
      * etrans; [eapply only_mono; [|apply only_upd]|eapply only_mono; [|exact Ho]]; set_solver.
      * rewrite grow_cons, <- (assoc_L app) in *. exact Hc'.
Qed.

(** Only the links and the total lengths differ. *)
Definition relinked (c c' : loc * pbuf) : Prop :=
  c'.1 = c.1 ∧ same_bytes c c' ∧ type c'.2 = type c.2 ∧ flags c'.2 = flags c.2 ∧ ref c'.2 = ref c.2.

Lemma grow_relinked m cs : Forall2 relinked cs (grow m cs).
Proof. induction cs as [|c cs IH]; by constructor. Qed.

Lemma pbuf_cat_ok w h ch dh t ct dt :
  packet w (Some h) ch dh → packet w (Some t) ct dt → (∀ l, l ∈ ch.*1 → l ∉ ct.*1) →
  lens ch + lens ct < 2 ^ 16 →
  ∃ w' ch', pbuf_cat (Some h) (Some t) w = Ret ((), w') ∧ only ch.*1 w w' ∧
    ch'.*1 = ch.*1 ∧ packet w' (Some h) (ch' ++ ct) (dh ++ dt) ∧ Forall2 relinked ch ch'.
Proof.
  intros [Hch Hth Hdh] [Hct Htt Hdt] Hdis Hb. destruct (chain_head _ _ _ Hct) as (tb & ct' & Ect & Hlt & Hpt).
  assert (tot_len tb = lens ct) as Etb by (subst ct; by destruct Htt as (? & _)).
  assert (ch ≠ []) as Hne by (intros ->; done).
  destruct (exists_last Hne) as (b & [z zb] & Ech). subst ch.
  assert (t ∉ (b ++ [(z, zb)]).*1) as Htb by (intros Hin; apply (Hdis t Hin); subst ct; by left).
  rewrite fmap_app in Htb. unfold pbuf_cat. rewrite bind_assert, !bind_deref, bind_get by done.
  destruct (cat_loop_ok (fuel w) w h h t tb [] b z zb) as (w1 & Hrun & Ho & Hc1); try done.
  - by destruct (chain_head _ _ _ Hch) as (? & ? & -> & _).
  - pose proof (chain_length _ _ _ Hch). rewrite length_app in *. simpl in *. unfold fuel. lia.
  - intros Hin. apply Htb, elem_of_app. by left.
  - rewrite (bind_Ret _ _ _ _ _ Hrun). rewrite app_nil_l in Hc1.
    destruct (chain_suffix _ _ _ _ Hc1) as (q & _ & Hlz & Hpz & Hnz). simpl in Hnz.
    rewrite (bind_rd w1 z zb) by done.
    apply tot_plus_0, tot_plus_app in Hth as [Htb1 (Hz1 & Hz2 & Hz3 & _)]. cbn [lens] in *.
    rewrite bind_assert by lia. rewrite bind_assert by (by rewrite Hnz).
    rewrite lens_app in Hb. cbn [lens] in Hb.
    rewrite (bind_rd w1 t tb).
    2:{ by rewrite (on_live _ _ _ Ho). }
    2:{ rewrite (on_pbs _ _ _ Ho); [done|]. intros Hin. apply Htb, elem_of_app. by left. }
    rewrite (bind_upd w1 z zb) by done.
    erewrite upd_ok; [|done|simpl; apply lookup_insert_eq]. rewrite upd_upd.
    eexists _, (grow (tot_len tb) b ++ [(z, set_next (Some t) (set_tot_len (u16 (tot_len zb + tot_len tb)) zb))]).
    rewrite Etb in *. set (zb' := set_next (Some t) _). split; [reflexivity|].
    assert (only (b ++ [(z, zb)]).*1 w (upd_pbs z zb' w1)) as Ho2.
    { rewrite fmap_app. etrans; [eapply only_mono; [|exact Ho]|eapply only_mono; [|apply only_upd]]; set_solver. }
    split_and!; [done|by rewrite !fmap_app, grow_locs| |].
    2:{ apply Forall2_app; [apply grow_relinked|]. by repeat constructor. }
    pose proof (lens_nonneg _ Htt) as Hct0.
    pose proof (tot_plus_lens _ _ Htb1). unfold is_u16 in *. constructor.
    + rewrite <- (assoc_L app). apply (chain_relink w1 (Some h) (Some t) _ z zb zb' [] ct Hc1); [|..|done].
      * eapply chain_same; [|exact Hct]. intros l Hin. rewrite (on_live _ _ _ Ho), (on_pbs _ _ _ Ho).
        -- split; [done|by eapply chain_live].
        -- intros E. apply (Hdis l); [|done]. rewrite fmap_app. apply elem_of_app. by left.
      * apply Hdis. rewrite fmap_app. apply elem_of_app. right. by left.
    + apply tot_plus_0. apply tot_plus_app. split; [|by apply tot_plus_0].
      apply tot_plus_app. cbn [lens tot_plus zb' set_next set_tot_len len tot_len].
      rewrite u16_id by (unfold is_u16; lia). split; [|unfold is_u16; split_and!; lia].
      replace (len zb + 0 + (lens ct + 0)) with (len zb + 0 + 0 + lens ct) by lia.
      apply grow_tot; [done|lia..].
    + apply Forall2_app; [|eapply content_only; [exact Ho2| |exact Hdt]].
      * eapply content_only; [exact Ho2| |exact Hdh]. apply Forall2_app; [apply grow_bytes|].
        by repeat constructor.
      * clear. induction ct as [|c ct IH]; by constructor.
Qed.

(** ** [pbuf_header] *)

Lemma load_shift w r o off n : load (Some (r, o + off)) 0 n w = load (Some (r, o)) off n w.
Proof. unfold load. by rewrite !Z.add_0_r. Qed.

(** The struct after the payload start has moved by [- n]. *)
Definition moved (n : Z) (r : region) (o : Z) pb : pbuf :=
  mk_pbuf (next pb) (Some (r, o - n)) (tot_len pb + n) (len pb + n) (type pb) (flags pb) (ref pb).

(** A pbuf that contains its payload has it in its own block. *)
Definition own_payload l pb : Prop :=
  match type pb with
  | PBUF_RAM | PBUF_POOL => ∃ o, payload pb = Some (Own l, o) ∧ 0 ≤ o
  | PBUF_REF | PBUF_ROM => is_Some (payload pb)
  end.

Lemma header_impl_ok w p pb r o n force : p ∈ live w → pbs w !! p = Some pb →
  payload pb = Some (r, o) → own_payload p pb → - 2 ^ 15 ≤ n < 2 ^ 15 → n ≠ 0 →
  0 ≤ len pb + n < 2 ^ 16 → 0 ≤ tot_len pb + n < 2 ^ 16 →
  pbuf_header_impl (Some p) n force w =
  if (match type pb with
      | PBUF_RAM | PBUF_POOL => n <=? o
      | PBUF_REF | PBUF_ROM => (n <? 0) || force
      end)
  then Ret (false, upd_pbs p (moved n r o pb) w) else Ret (true, w).
Proof.
  intros Hl Hp Hpay Hown Hn Hn0 Hlen Htot. unfold pbuf_header_impl.
  rewrite bind_assert, bind_deref by done. rewrite (proj2 (Z.eqb_neq n 0)) by done.
  rewrite (bind_rd w p pb) by done. rewrite (u16_id (Z.abs n)) by (unfold is_u16; lia).
  rewrite bind_assert by lia.
  assert ((_ ← upd p (set_payload (Some (r, o - n)));
    _ ← upd p (λ pb, set_tot_len (u16 (tot_len pb + n)) (set_len (u16 (len pb + n)) pb));
    mret false) w = Ret (false, upd_pbs p (moved n r o pb) w)) as Hmove.
  { rewrite (bind_upd w p pb) by done. erewrite bind_upd; [|done|simpl; apply lookup_insert_eq].
    rewrite upd_upd. unfold moved, set_tot_len, set_len, set_payload. simpl.
    by rewrite !u16_id by (unfold is_u16; lia). }
  unfold own_payload in Hown. rewrite Hpay in *. cbn [move].
  replace (o + - n) with (o - n) by lia.
  destruct (type pb).
  2,3: replace (((n <? 0) && (Z.abs n <=? len pb)) || ((n >? 0) && force)) with ((n <? 0) || force)
         by (destruct force; lia);
       destruct ((n <? 0) || force); [by rewrite bind_ret|done].
  all: rewrite bind_ret; destruct Hown as (o' & [= -> ->] & Ho);
    rewrite bool_decide_eq_true_2 by done; cbn [negb];
    destruct (Z.ltb_spec (o' - n) 0), (Z.leb_spec n o'); try lia; done.
Qed.

(** Hiding [n] bytes at the front. *)
Lemma header_hide w p pb cs d ds r o n force : packet w (Some p) ((p, pb) :: cs) (d :: ds) →
  payload pb = Some (r, o) → own_payload p pb → 0 < n ≤ len pb → n ≤ 2 ^ 15 →
  ∃ w', pbuf_header_impl (Some p) (- n) force w = Ret (false, w') ∧ only [p] w w' ∧
    pbs w' !! p = Some (moved (- n) r o pb) ∧
    packet w' (Some p) ((p, moved (- n) r o pb) :: cs) (drop (Z.to_nat n) d :: ds).
Proof.
  intros Hpk Hpay Hown Hn Hn15. pose proof Hpk as Hpk'.
  apply packet_cons in Hpk' as (_ & Hl & Hp & Htl & Hld & Hdl & Htot & H0 & Hb & Hs0).
  set (w' := upd_pbs p (moved (- n) r o pb) w).
  exists w'. split_and!; [|apply only_upd|simpl; apply lookup_insert_eq|].
  - rewrite (header_impl_ok w p pb r o) by (done || lia).
    assert (match type pb with PBUF_RAM | PBUF_POOL => - n <=? o | _ => (- n <? 0) || force end = true) as ->.
    { unfold own_payload in Hown. destruct (type pb).
      2,3: rewrite (proj2 (Z.ltb_lt _ _)) by lia; done.
      all: destruct Hown as (o' & Ho & ?); rewrite Hpay in Ho; injection Ho as -> ->; lia. }
    done.
  - destruct Hpk as [Hc Ht Hd]. constructor.
    + by apply (chain_update w _ [] p pb).
    + simpl in *. destruct Ht as (Ht1 & Ht2 & Ht3 & Ht4). unfold is_u16 in *. split_and!; try lia; done.
    + apply list.Forall2_cons. split.
      * cbn [snd moved payload len]. rewrite Z.sub_opp_r.
        eapply load_only; [apply only_upd|]. rewrite load_shift, <- Hpay.
        rewrite (load_sub w (payload pb) (len pb) d) by (done || lia).
        do 2 f_equal. apply take_ge. rewrite length_drop. lia.
      * eapply content_only; [apply only_upd| |apply Htl]. clear. induction cs as [|c cs IH]; by constructor.
Qed.

(** Revealing [n] bytes of headroom. *)
Lemma header_reveal w p pb cs d ds o bs n force : packet w (Some p) ((p, pb) :: cs) (d :: ds) →
  payload pb = Some (Own p, o) → type pb = PBUF_RAM ∨ type pb = PBUF_POOL →
  data w !! Own p = Some bs → o + len pb ≤ Z.of_nat (length bs) →
  0 < n ≤ o → n < 2 ^ 15 → lens ((p, pb) :: cs) + n < 2 ^ 16 →
  ∃ w', pbuf_header_impl (Some p) n force w = Ret (false, w') ∧ only [p] w w' ∧
    packet w' (Some p) ((p, moved n (Own p) o pb) :: cs)
      ((take (Z.to_nat n) (drop (Z.to_nat (o - n)) bs) ++ d) :: ds).
Proof.
  intros Hpk Hpay Hty Hbs Hob Hn Hn15 Hb16. pose proof Hpk as Hpk'.
  apply packet_cons in Hpk' as (_ & Hl & Hp & Htl & Hld & Hdl & Htot & H0 & Hb & Hs0).
  set (w' := upd_pbs p (moved n (Own p) o pb) w). simpl in Hb16.
  exists w'. split_and!; [|apply only_upd|].
  - rewrite (header_impl_ok w p pb (Own p) o) by
      (done || lia || (unfold own_payload; destruct Hty as [-> | ->]; exists o; (split; [done|lia]))).
    destruct Hty as [-> | ->]; by rewrite (proj2 (Z.leb_le _ _)) by lia.
  - destruct Hpk as [Hc Ht Hd]. constructor.
    + by apply (chain_update w _ [] p pb).
    + simpl in *. destruct Ht as (Ht1 & Ht2 & Ht3 & Ht4). unfold is_u16 in *. split_and!; try lia; done.
    + apply list.Forall2_cons. split.
      * cbn [snd moved payload len]. eapply load_only; [apply only_upd|].
        assert (d = take (Z.to_nat (len pb)) (drop (Z.to_nat o) bs)) as Ed.
        { unfold load in Hld. destruct (Z.eqb_spec (len pb) 0) as [E|E].
          - rewrite E. by injection Hld as <-.
          - rewrite Hpay in Hld. simpl in Hld. rewrite bool_decide_eq_true_2, Hbs, Z.add_0_r in Hld by done.
            rewrite (proj2 (Z.leb_le 0 o)), (proj2 (Z.leb_le _ _)) in Hld by lia. by injection Hld as <-. }
        unfold load. rewrite (proj2 (Z.eqb_neq _ _)) by lia. simpl.
        rewrite bool_decide_eq_true_2, Hbs, Z.add_0_r by done.
        rewrite (proj2 (Z.leb_le 0 _)), (proj2 (Z.leb_le _ _)) by lia. simpl. do 2 f_equal.
        rewrite Ed. replace (Z.to_nat o) with (Z.to_nat (o - n) + Z.to_nat n)%nat by lia.
        rewrite <- drop_drop, take_take_drop. f_equal. lia.
      * eapply content_only; [apply only_upd| |apply Htl]. clear. induction cs as [|c cs IH]; by constructor.
Qed.

(** ** [pbuf_realloc] *)

(** The loop stops at the pbuf [q] that holds the last byte to keep; the pbufs
    [k] before it have lost the bytes that go. *)
Lemma realloc_loop_ok m w h p a cs n D :
  chain w (Some h) (a ++ cs) → Some p = fst <$> head cs → tot_ok cs →
  0 ≤ n < lens cs → 0 ≤ D → lens cs - n = D → (length cs ≤ m)%nat →
  ∃ k q qb rest w', cs = k ++ (q, qb) :: rest ∧ 0 ≤ n - lens k ≤ len qb ∧
    realloc_loop m p n (- D) w = Ret ((q, n - lens k), w') ∧ only k.*1 w w' ∧
    chain w' (Some h) (a ++ grow (- D) k ++ (q, qb) :: rest).
Proof.
  revert m w p a n. induction cs as [|[l pb] cs IH]; intros m w p a n Hc Hp Ht Hn HD HDn Hm; [done|].
  injection Hp as <-. apply tot_ok_cons in Ht as (Ht1 & Ht2 & Ht3 & Ht4 & Ht5). cbn [lens] in *.
  destruct (chain_suffix w _ a _ Hc) as (q0 & _ & Hl & Hp & Hnx).
  destruct m as [|m]; [simpl in Hm; lia|]. cbn [realloc_loop]. rewrite (bind_rd w p pb) by done.
  rewrite Z.gtb_ltb. destruct (Z.ltb_spec (len pb) n) as [Hlt|Hge].
  2:{ exists [], p, pb, cs, w. simpl. rewrite Z.sub_0_r. split_and!; try done; lia. }
  assert (is_Some (next pb)) as [p2 Ep2].
  { destruct cs as [|[? ?] ?]; [simpl in *; lia|]. destruct Hnx as (-> & _). done. }
  assert (Some p2 = fst <$> list.head cs) as Hhd.
  { rewrite <- Ep2. destruct cs as [|[? ?] ?]; [simpl in *; lia|]. by destruct Hnx as (-> & _). }
  rewrite bind_assert by lia. rewrite (bind_upd w p pb) by done.
  rewrite Ep2, bind_assert, bind_deref by done. rewrite (u16_id (n - len pb)) by (unfold is_u16; lia).
  set (pb' := set_tot_len (u16 (tot_len pb + u16 (- D))) pb). set (w1 := upd_pbs p pb' w).
  assert (chain w1 (Some h) ((a ++ [(p, pb')]) ++ cs)) as Hc1.
  { rewrite <- (assoc_L app). by apply (chain_update w _ a p pb). }
  destruct (IH m w1 p2 _ (n - len pb) Hc1) as (k & q & qb & rest & w' & Ecs & Hr & Hrun & Ho & Hc');
    [done|done|lia|done|lia|simpl in Hm; lia|].
  exists ((p, pb) :: k), q, qb, rest, w'. cbn [lens]. rewrite Ecs. split_and!; try done; try lia.
  - rewrite Hrun. do 3 f_equal. lia.
  - etrans; [eapply only_mono; [|apply only_upd]|eapply only_mono; [|exact Ho]]; simpl; set_solver.
  - rewrite grow_cons. rewrite <- (assoc_L app) in Hc'.
    replace (u16 (tot_len pb + - D)) with (u16 (tot_len pb + u16 (- D)));
      [exact Hc'|unfold u16; apply Zplus_mod_idemp_r].
Qed.

Lemma shrink_tot D j cs : tot_plus j cs → 0 ≤ D ≤ j → tot_plus (j - D) (grow (- D) cs).
Proof.
  induction cs as [|[l pb] cs IH]; intros Ht HD; [done|]. cbn [tot_plus] in Ht.
  destruct Ht as (H1 & H2 & H3 & H4). pose proof (tot_plus_lens _ _ H4).
  unfold is_u16 in *. cbn [lens] in *. rewrite grow_cons.
  cbn [tot_plus lens]. rewrite grow_lens. simpl. unfold is_u16. rewrite H1.
  rewrite u16_id by (unfold is_u16; lia). split_and!; try lia. apply IH; done || lia.
Qed.

(** Payloads are in the pbuf's own block or outside all blocks. *)
Definition self_contained cs : Prop :=
  Forall (λ c : loc * pbuf, match payload c.2 with Some (Own l, _) => l = c.1 | _ => True end) cs.
End Ops.

Section Realloc.
Context {A : Type} `{HA : Alloc A} {elt_size : memp_t → Z}.
Context `{HL : !AllocLaws A elt_size}.
Context (custom_free_function : loc → M (world A) ()).
Implicit Types (w : world A) (l : loc) (pb : pbuf) (cs : list (loc * pbuf)).

Lemma load_same w w' p off n d :
  (n ≠ 0 → ∀ r o, p = Some (r, o) → valid r w' = true ∧ data w' !! r = data w !! r) →
  load p off n w = Ret (d, w) → load p off n w' = Ret (d, w').
Proof.
  intros Hs. unfold load. destruct (Z.eqb_spec n 0) as [->|Hn]; [by intros [= <-]|].
  destruct p as [[r o]|]; [|done]. destruct (Hs Hn r o eq_refl) as [-> ->].
  destruct (valid r w); [|done]. destruct (data w !! r) as [bs|]; [|done].
  destruct ((0 <=? o + off) && (o + off + n <=? Z.of_nat (length bs))); [|done]. by intros [= <-].
Qed.

Lemma inv_only w w' L ls : inv w L → only ls w w' →
  (∀ l pb', l ∈ ls → pbs w' !! l = Some pb' →
    ∃ pb, pbs w !! l = Some pb ∧ type pb' = type pb ∧ flags pb' = flags pb) →
  (∀ l, l ∈ ls → is_Some (pbs w' !! l)) → inv w' L.
Proof.
  intros [Ho Hv Hf] [Hp Hl Hd Ha _] Hs Hsome. constructor; [by rewrite Ha| |].
  - intros l Hin Hc. rewrite Hl in Hin. destruct (Hv l Hin Hc) as (pb & k & H1 & H2 & H3 & H4 & H5).
    destruct (decide (l ∈ ls)) as [E|E].
    + destruct (Hsome l E) as [pb' E']. destruct (Hs l pb' E E') as (pb0 & E0 & Ht & Hfl).
      rewrite H1 in E0. injection E0 as <-. exists pb', k. rewrite Hd.
      unfold typed, not_custom in *. rewrite Ht, Hfl. by split_and!.
    + exists pb, k. rewrite Hp, Hd by done. by split_and!.
  - intros x pb' Hx. destruct (decide ((POOL MEMP_PBUF_POOL, x) ∈ ls)) as [E|E].
    + destruct (Hs _ _ E Hx) as (pb0 & E0 & _ & Hfl). unfold not_custom. rewrite Hfl. by eapply Hf.
    + rewrite Hp in Hx by done. by eapply Hf.
Qed.

(** The pbuf [q] can give back the end of its block. *)
Definition trimmable w q pb : Prop :=
  type pb = PBUF_RAM → ∃ o bs, payload pb = Some (Own q, o) ∧ 0 ≤ o ∧
    data w !! Own q = Some bs ∧ o + len pb ≤ Z.of_nat (length bs) ∧
    SIZEOF_STRUCT_PBUF + o + len pb < 2 ^ 16.

Lemma realloc_trim_ok w L q qb rem : inv w L → q ∈ live w → q.1 ≠ CUSTOM →
  pbs w !! q = Some qb → trimmable w q qb → 0 ≤ rem ≤ len qb →
  ∃ w' L', realloc_trim q qb rem w = Ret (q, w') ∧ inv w' L' ∧ dom L' = dom L ∧
    pbs w' = pbs w ∧ live w' = live w ∧ (∀ r, r ≠ Own q → data w' !! r = data w !! r) ∧
    (∀ d, load (payload qb) 0 (len qb) w = Ret (d, w) →
      load (payload qb) 0 rem w' = Ret (take (Z.to_nat rem) d, w')).
Proof.
  intros Hi Hl Hcu Hp Htr Hrem. unfold realloc_trim.
  destruct (bool_decide (type qb = PBUF_RAM)) eqn:Ety; cbn [andb].
  2:{ exists w, L. split_and!; try done. intros d Hd.
      rewrite (load_sub w (payload qb) (len qb) d) by (done || lia). by rewrite drop_0. }
  apply bool_decide_eq_true_1 in Ety. destruct (Htr Ety) as (o & bs & Hpay & Ho & Hbs & Hob & H16).
  assert (∀ d, load (payload qb) 0 (len qb) w = Ret (d, w) →
    load (payload qb) 0 rem w = Ret (take (Z.to_nat rem) d, w)) as Hw.
  { intros d Hd. rewrite (load_sub w (payload qb) (len qb) d) by (done || lia). by rewrite drop_0. }
  destruct (Z.eqb_spec rem (len qb)) as [->|Hne]; cbn [negb andb].
  { exists w, L. by split_and!. }
  destruct (inv_live _ _ Hi q Hl Hcu) as (pb' & k & Hp' & Hk & Hty & Hnc & Hsz).
  rewrite Hp in Hp'. injection Hp' as <-. unfold not_custom in Hnc. rewrite Hnc. cbn [Z.eqb].
  assert (SIZEOF_STRUCT_PBUF = 24) as H24 by done. specialize (Hsz bs Hbs).
  unfold typed in Hty. rewrite Ety in Hty. destruct q as [s x]. simpl in Hty. subst s.
  destruct (heap_trim_ok _ _ _ _ (SIZEOF_STRUCT_PBUF + o + rem) (inv_owns _ _ Hi) Hk)
    as (a & k' & Ha & Hk' & Hown); [lia|].
  unfold payload_offset. rewrite Hpay, decide_True by done. rewrite bind_ret.
  rewrite (u16_id (SIZEOF_STRUCT_PBUF + o)), u16_id by (unfold is_u16; lia).
  set (n := SIZEOF_STRUCT_PBUF + o + rem) in *.
  set (w2 := set_data (alter (take (Z.to_nat (n - SIZEOF_STRUCT_PBUF))) (Own (HEAP, x)))
    (mk_world (pbs w) (live w) (data w) a (pbuf_free_ooseq_pending w))).
  assert (mem_trim (HEAP, x) n w = Ret (Some (HEAP, x), w2)) as Htrim.
  { unfold mem_trim. rewrite decide_True by done. cbn [snd].
    erewrite bind_Ret; [|unfold on_alloc; rewrite Ha; reflexivity]. reflexivity. }
  rewrite (bind_Ret _ _ _ _ _ Htrim), bind_assert by done. exists w2, (<[(HEAP, x) := k']> L).
  assert (data w2 !! Own (HEAP, x) = Some (take (Z.to_nat (o + rem)) bs)) as Hd2.
  { simpl. rewrite lookup_alter_eq, Hbs. simpl. do 2 f_equal. lia. }
  split_and!; try done.
  - destruct Hi as [_ Hv Hf]. constructor; [done| |done]. intros l Hin Hc. simpl in Hin.
    destruct (Hv l Hin Hc) as (pb2 & k2 & E1 & E2 & E3 & E4 & E5).
    destruct (decide (l = (HEAP, x))) as [->|Hnl].
    + exists pb2, k'. rewrite lookup_insert_eq. split_and!; try done. rewrite Hd2.
      intros bs' [= <-]. rewrite length_take. lia.
    + exists pb2, k2. rewrite lookup_insert_ne by done. split_and!; try done.
      intros bs'. simpl. rewrite lookup_alter_ne by congruence. apply E5.
  - rewrite dom_insert_L. assert ((HEAP, x) ∈ dom L) by (by apply elem_of_dom_2 in Hk). set_solver.
  - intros r Hr. simpl. by rewrite lookup_alter_ne.
  - intros d Hd. rewrite Hpay in Hw. apply Hw in Hd. unfold load in *.
    destruct (Z.eqb_spec rem 0) as [E|E]; [by injection Hd as <-|].
    change (valid (Own (HEAP, x)) w2) with (valid (Own (HEAP, x)) w).
    destruct (valid (Own (HEAP, x)) w); [|done]. rewrite Hbs in Hd. rewrite Hd2, length_take.
    rewrite Z.add_0_r in Hd |- *.
    rewrite (proj2 (Z.leb_le 0 o)), (proj2 (Z.leb_le (o + rem) (Z.of_nat (length bs)))) in Hd by lia.
    rewrite (proj2 (Z.leb_le 0 o)), (proj2 (Z.leb_le _ _)) by lia. injection Hd as <-. simpl. do 2 f_equal. rewrite skipn_firstn_comm, take_take. f_equal. lia.
Qed.

Abbreviation pbuf_free := (Pbuf.pbuf_free custom_free_function).
Abbreviation realloc_last := (Pbuf.realloc_last custom_free_function).
Abbreviation pbuf_realloc := (Pbuf.pbuf_realloc custom_free_function).

(** Pbufs whose references can be dropped. *)
Definition droppable cs : Prop :=
  Forall (λ c : loc * pbuf, c.1.1 ≠ CUSTOM ∧ 1 ≤ ref c.2 < 2 ^ 16) cs ∧
  Z.of_nat (length (freed cs)) < 2 ^ 8.

(** [if (p != NULL) pbuf_free(p);] on a chain, which may be empty. *)
Lemma free_rest_ok w L p cs : inv w L → chain w p cs → droppable cs →
  ∃ z w' L', match p with None => mret 0 | Some _ => pbuf_free p end w = Ret (z, w') ∧ inv w' L' ∧
    live w' = live w ∖ list_to_set (freed cs).*1 ∧ data w' = data w ∧
    ∀ l, l ∉ cs.*1 → pbs w' !! l = pbs w !! l.
Proof.
  intros Hi Hc [Hr Hb]. destruct cs as [|c cs].
  - simpl in Hc. subst p. exists 0, w, L. split_and!; try done. simpl. by rewrite difference_empty_L.
  - destruct p as [p|]; [|by destruct c, Hc].
    destruct (pbuf_free_ok custom_free_function w L p _ Hi Hc Hr Hb) as (w' & H1 & H2 & H3 & H4 & _ & H5).
    by eexists _, w', _.
Qed.

Definition cut_pbuf (rem : Z) pb : pbuf :=
  mk_pbuf None (payload pb) rem rem (type pb) (flags pb) (ref pb).

Lemma chain_app_NoDup w p a b : chain w p (a ++ b) → ∀ l, l ∈ a.*1 → l ∉ b.*1.
Proof.
  intros Hc l Ha Hb. apply chain_NoDup in Hc. rewrite fmap_app in Hc.
  apply list.NoDup_app in Hc as (_ & Hd & _). by apply (Hd l).
Qed.

Lemma freed_subset cs l : l ∈ (freed cs).*1 → l ∈ cs.*1.
Proof.
  induction cs as [|[l' pb] cs IH]; simpl; [done|]. destruct (ref pb =? 1); [|by intros ?%elem_of_nil].
  simpl. intros [->|Hin]%elem_of_cons; [by left|right; auto].
Qed.

Lemma realloc_last_ok w L h k q qb rest rem :
  inv w L → chain w (Some h) (k ++ (q, qb) :: rest) → q.1 ≠ CUSTOM → trimmable w q qb →
  0 ≤ rem ≤ len qb → droppable rest →
  ∃ w' L', realloc_last q rem w = Ret ((), w') ∧ inv w' L' ∧
    chain w' (Some h) (k ++ [(q, cut_pbuf rem qb)]) ∧
    live w' = live w ∖ list_to_set (freed rest).*1 ∧
    (∀ r, r ≠ Own q → data w' !! r = data w !! r) ∧
    (∀ d, self_contained [(q, qb)] → load (payload qb) 0 (len qb) w = Ret (d, w) →
      load (payload qb) 0 rem w' = Ret (take (Z.to_nat rem) d, w')).
Proof.
  intros Hi Hc Hcu Htr Hrem Hdr. unfold Pbuf.realloc_last.
  destruct (chain_suffix _ _ _ _ Hc) as (p0 & _ & Hl & Hp & _). rewrite (bind_rd w q qb) by done.
  destruct (realloc_trim_ok w L q qb rem Hi Hl Hcu Hp Htr Hrem) as (w1 & L1 & Hrun & Hi1 & _ & Hp1 & Hl1 & Hd1 & Hld1).
  rewrite (bind_Ret _ _ _ _ _ Hrun). rewrite <- Hp1 in Hp. rewrite <- Hl1 in Hl.
  rewrite (bind_upd w1 q qb) by done. erewrite bind_upd; [|done|simpl; apply lookup_insert_eq].
  rewrite upd_upd. set (qb2 := set_tot_len rem (set_len rem qb)). set (w2 := upd_pbs q qb2 w1).
  erewrite bind_rd; [|done|simpl; apply lookup_insert_eq].
  assert (inv w2 L1) as Hi2 by (by eapply inv_upd).
  assert (chain w1 (Some h) (k ++ (q, qb) :: rest)) as Hc1
    by (eapply chain_same; [|exact Hc]; intros l Hin; rewrite Hp1, Hl1; split; [done|by eapply chain_live]).
  assert (chain w2 (Some h) (k ++ (q, qb2) :: rest)) as Hc2 by by apply (chain_update w1 _ k q qb).
  destruct (chain_suffix _ _ _ _ Hc2) as (q0 & _ & _ & _ & Hrest).
  destruct (free_rest_ok w2 L1 (next qb2) rest Hi2 Hrest Hdr) as (z & w3 & L3 & Hfree & Hi3 & Hl3 & Hd3 & Hp3).
  change (next qb) with (next qb2). rewrite (bind_Ret _ _ _ _ _ Hfree).
  pose proof (chain_NoDup _ _ _ Hc2) as Hnd. rewrite fmap_app in Hnd.
  apply list.NoDup_app in Hnd as (_ & Hkq & Hnd). apply list.NoDup_cons in Hnd as [Hqr _].
  assert (pbs w3 !! q = Some qb2) as Hq3 by (rewrite Hp3 by done; simpl; apply lookup_insert_eq).
  assert (∀ l, l ∉ rest.*1 → l ∈ live w2 → l ∈ live w3) as Hkeep.
  { intros l Hnr Hlv. rewrite Hl3. apply elem_of_difference. split; [done|].
    rewrite elem_of_list_to_set. by intros Hin%freed_subset. }
  rewrite (upd_ok w3 q qb2) by (try done; by apply Hkeep).
  set (w4 := upd_pbs q (set_next None qb2) w3). exists w4, L3. split_and!; [done| | | | |].
  - eapply inv_upd; [exact Hi3|by apply Hkeep|exact Hq3|done|done].
  - assert (chain (upd_pbs q (cut_pbuf rem qb) w2) (Some h) (k ++ [(q, cut_pbuf rem qb)])) as Hc3
      by (apply (chain_relink w2 _ None k q qb2 (cut_pbuf rem qb) rest []);
          [done|done|by intros ?%elem_of_nil|done]).
    eapply chain_same; [|exact Hc3]. intros l Hin. rewrite fmap_app in Hin. simpl.
    destruct (decide (l = q)) as [->|Hne].
    + rewrite !lookup_insert_eq. split; [done|]. by apply Hkeep.
    + rewrite !lookup_insert_ne by done. apply elem_of_app in Hin as [Hin|Hin];
        [|by apply list_elem_of_singleton in Hin].
      assert (l ∉ rest.*1) as Hnr by (intros E; apply (Hkq l Hin); by right).
      rewrite Hp3 by done. simpl. rewrite lookup_insert_ne by done. split; [done|]. apply Hkeep; [done|].
      apply (chain_live _ _ _ l Hc2). rewrite fmap_app. apply elem_of_app. by left.
  - simpl. by rewrite Hl3, <- Hl1.
  - intros r Hr. simpl. rewrite Hd3. simpl. by apply Hd1.
  - intros d Hsc Hd. apply Hld1 in Hd. eapply load_same; [|exact Hd].
    intros _ r o Er. simpl. rewrite Hd3. split; [|done]. destruct r as [l|]; [|done].
    unfold self_contained in Hsc. rewrite list.Forall_singleton in Hsc. simpl in Hsc. rewrite Er in Hsc. subst l.
    simpl. apply bool_decide_eq_true_2. by apply Hkeep.
Qed.

Lemma content_lens_plus w m cs ds : tot_plus m cs → content w cs ds →
  Z.of_nat (length (concat ds)) = lens cs.
Proof.
  intros Ht Hc. induction Hc as [|[l pb] d cs ds Hd Hc IH]; [done|]. cbn [tot_plus lens concat] in *.
  destruct Ht as (_ & [H0 _] & _ & Ht). rewrite length_app, Nat2Z.inj_add, (IH Ht).
  pose proof (load_length _ _ _ _ _ Hd H0). simpl in *. lia.
Qed.

Lemma chain_lookup w p cs l pb : chain w p cs → (l, pb) ∈ cs → pbs w !! l = Some pb.
Proof.
  revert p. induction cs as [|[l' pb'] cs IH]; intros p; simpl; [by intros _ ?%elem_of_nil|].
  intros (_ & _ & Hp & Hc) [[= -> ->]|Hin]%elem_of_cons; [done|by eapply IH].
Qed.

Lemma inv_grow w w1 L p m k rest : inv w L → only k.*1 w w1 → chain w p (k ++ rest) →
  chain w1 p (grow m k ++ rest) → inv w1 L.
Proof.
  intros Hi Ho Hc Hc1.
  assert (∀ l, l ∈ k.*1 → ∃ pb, pbs w !! l = Some pb ∧
    pbs w1 !! l = Some (set_tot_len (u16 (tot_len pb + m)) pb)) as Hk.
  { intros l Hin. apply list_elem_of_fmap in Hin as ([l' pb] & -> & Hin). exists pb. split.
    - eapply chain_lookup; [exact Hc|]. apply elem_of_app. by left.
    - eapply chain_lookup; [exact Hc1|]. apply elem_of_app. left.
      by apply (list_elem_of_fmap_2 (λ c : loc * pbuf, (c.1, set_tot_len (u16 (tot_len c.2 + m)) c.2))) in Hin. }
  eapply inv_only; [exact Hi|exact Ho| |].
  - intros l pb' Hin Hp'. destruct (Hk l Hin) as (pb & E & E'). rewrite E' in Hp'.
    injection Hp' as <-. by exists pb.
  - intros l Hin. destruct (Hk l Hin) as (pb & _ & E'). by rewrite E'.
Qed.

(** Bytes of pbufs that stay are not touched by the release of others. *)
Lemma content_keep w w' cs ds q : self_contained cs → content w cs ds →
  (∀ l, l ∈ cs.*1 → l ∈ live w' ∧ l ≠ q) → (∀ r, r ≠ Own q → data w' !! r = data w !! r) →
  content w' cs ds.
Proof.
  intros Hsc Hc Hl Hd. unfold content in *. induction Hc as [|[l pb] d cs ds Hld Hc IH]; [constructor|].
  apply list.Forall_cons in Hsc as [Hs Hsc]. constructor.
  - eapply load_same; [|exact Hld]. intros _ r o Er. cbn [fst snd] in *. rewrite Er in Hs.
    destruct (Hl l) as [Hlv Hne]; [by left|]. destruct r as [l'|n].
    + subst l'. split; [by apply bool_decide_eq_true_2|]. apply Hd. congruence.
    + split; [done|]. by apply Hd.
  - apply IH; [done|]. intros l' Hin. apply Hl. by right.
Qed.

(** [pbuf_realloc] to fewer bytes keeps that many from the front. *)
Lemma pbuf_realloc_ok w L p cs ds n :
  inv w L → packet w (Some p) cs ds → self_contained cs →
  Forall (λ c : loc * pbuf, c.1.1 ≠ CUSTOM ∧ trimmable w c.1 c.2) cs →
  (∀ k rest, cs = k ++ rest → droppable rest) → 0 ≤ n < lens cs →
  ∃ w' L' cs' ds', pbuf_realloc (Some p) n w = Ret ((), w') ∧ inv w' L' ∧
    packet w' (Some p) cs' ds' ∧ concat ds' = take (Z.to_nat n) (concat ds) ∧
    cs'.*1 `prefix_of` cs.*1.
Proof.
  intros Hi Hpk Hsc Htr Hdr Hn. pose proof Hpk as [Hc Ht Hd].
  destruct (packet_head _ _ _ _ Hpk) as (pb & cs0 & Ecs & Hl & Hp & Htot).
  unfold Pbuf.pbuf_realloc. rewrite bind_assert, bind_deref, (bind_rd w p pb) by done.
  rewrite Htot, Z.geb_leb, (proj2 (Z.leb_gt _ _)) by lia. rewrite bind_get.
  set (D := lens cs - n). replace (n - lens cs) with (- D) by (unfold D; lia).
  destruct (realloc_loop_ok (fuel w) w p p [] cs n D Hc) as (k & q & qb & rest & w1 & E & Hr & Hrun & Ho & Hc1);
    [by rewrite Ecs|done|done|unfold D; lia|done|by eapply packet_fuel|].
  rewrite (bind_Ret _ _ _ _ _ Hrun). rewrite app_nil_l in Hc1. clear Ecs cs0. subst cs.
  apply Forall2_app_inv_l in Hd as (dk & dr & Hdk & Hdr' & ->).
  destruct dr as [|dq dr]; [by apply Forall2_nil_inv_r in Hdr'|].
  apply list.Forall2_cons in Hdr' as [Hdq _]. cbn [snd] in Hdq.
  apply list.Forall_app in Hsc as [Hsck Hscq]. apply list.Forall_cons in Hscq as [Hscq _].
  apply list.Forall_app in Htr as [_ Htr]. apply list.Forall_cons in Htr as [[Hcu Htr] _].
  destruct (realloc_last_ok w1 L p (grow (- D) k) q qb rest (n - lens k))
    as (w2 & L2 & Hrun2 & Hi2 & Hc2 & Hl2 & Hd2 & Hld2); try done.
  { by eapply inv_grow. }
  { unfold trimmable. by rewrite (on_data _ _ _ Ho). }
  { apply (Hdr (k ++ [(q, qb)])). by rewrite <- (assoc_L app). }
  apply tot_plus_0, tot_plus_app in Ht as [Htk Htq]. pose proof (tot_plus_lens _ _ Htq) as Hq0.
  pose proof (tot_plus_lens _ _ Htk) as Hk0.
  assert (D = lens k + lens ((q, qb) :: rest) - n) as ED by (unfold D; by rewrite lens_app).
  rewrite lens_app in Hn. clearbody D.
  exists w2, L2, (grow (- D) k ++ [(q, cut_pbuf (n - lens k) qb)]), (dk ++ [take (Z.to_nat (n - lens k)) dq]).
  split_and!; [done|done|constructor; [done| |]| |].
  - apply tot_plus_0, tot_plus_app. cbn [lens tot_plus cut_pbuf len tot_len].
    destruct Htq as (_ & Hu & _ & _). unfold is_u16 in *. split; [|split_and!; lia].
    replace (n - lens k + 0 + 0) with (lens ((q, qb) :: rest) + 0 - D) by lia.
    apply shrink_tot; [done|lia].
  - apply Forall2_app.
    + eapply (content_keep w1 w2 _ _ q); try done.
      * clear -Hsck. induction Hsck as [|[l pb] k H _ IH]; by constructor.
      * eapply content_only; [exact Ho|apply grow_bytes|exact Hdk].
      * rewrite grow_locs. intros l Hin. split.
        -- apply (chain_live _ _ _ l Hc2). rewrite fmap_app, grow_locs. apply elem_of_app. by left.
        -- intros ->. apply (chain_app_NoDup _ _ _ _ Hc q Hin). by left.
    + apply list.Forall2_cons. split; [|constructor]. cbn [snd cut_pbuf payload len]. apply Hld2.
      * apply list.Forall_singleton. done.
      * by eapply load_only.
  - rewrite !concat_app. cbn [concat]. rewrite app_nil_r.
    assert (Z.of_nat (length (concat dk)) = lens k) as Hlk by (by eapply content_lens_plus).
    pose proof (load_length _ _ _ _ _ Hdq) as Hlq. destruct Htq as (_ & Hu & _ & _). unfold is_u16 in Hu.
    rewrite take_app_ge by lia. f_equal. rewrite take_app_le by lia. f_equal. lia.
  - rewrite !fmap_app, grow_locs. simpl. exists rest.*1. by rewrite <- (assoc_L app).
Qed.

(** ** [pbuf_dechain] *)

Abbreviation pbuf_dechain := (Pbuf.pbuf_dechain custom_free_function).

Lemma pbuf_dechain_ok w L p pb q qb cs d ds :
  inv w L → packet w (Some p) ((p, pb) :: (q, qb) :: cs) (d :: ds) →
  droppable ((q, qb) :: cs) → self_contained [(p, pb)] →
  ∃ w' L', pbuf_dechain (Some p) w = Ret (if ref qb =? 1 then None else Some q, w') ∧ inv w' L' ∧
    packet w' (Some p) [(p, cut_pbuf (len pb) pb)] [d] ∧
    live w' = live w ∖ list_to_set (freed ((q, qb) :: cs)).*1 ∧
    chain w' (fst <$> head (remaining ((q, qb) :: cs))) (remaining ((q, qb) :: cs)).
Proof.
  intros Hi Hpk [Hdr Hdr8] Hsc. pose proof Hpk as [Hc Ht Hd].
  apply tot_ok_cons in Ht as (Ht1 & Ht2 & Ht3 & Ht4 & Htq). apply tot_ok_cons in Htq as (Hq1 & Hq2 & Hq3 & Hq4 & _).
  cbn [lens] in Ht1, Ht3, Ht4.
  pose proof (chain_NoDup _ _ _ Hc) as Hnd. simpl in Hnd. apply list.NoDup_cons in Hnd as [Hpq Hnd].
  pose proof Hc as (_ & Hl & Hp & Hcq). pose proof Hcq as (Enx & Hlq & Hqb & Hcq').
  assert (p ≠ q) as Hne by (intros ->; apply Hpq; by left).
  unfold Pbuf.pbuf_dechain. rewrite bind_deref, (bind_rd w p pb) by done. rewrite Enx.
  assert (qb = set_tot_len (u16 (tot_len pb - len pb)) qb) as Eqb.
  { rewrite u16_id by (unfold is_u16; lia).
    replace (tot_len pb - len pb) with (tot_len qb) by lia. by destruct qb. }
  set (w1 := upd_pbs p (set_next None pb) (upd_pbs q qb w)).
  set (w2 := upd_pbs p (cut_pbuf (len pb) pb) (upd_pbs q qb w)).
  assert (chain w2 (Some q) ((q, qb) :: cs)) as Hc2.
  { rewrite <- Enx. eapply chain_same; [|exact Hcq]. intros l Hin. simpl.
    rewrite lookup_insert_ne by (intros ->; done). rewrite lookup_insert.
    split; [|exact (chain_live _ _ _ _ Hcq Hin)]. case_decide as E; [subst|done]. by rewrite Hqb. }
  assert (inv w2 L) as Hi2.
  { eapply inv_upd; [by eapply inv_upd| |simpl; rewrite lookup_insert_ne by done; exact Hp|done|done]. done. }
  destruct (pbuf_free_ok custom_free_function w2 L q _ Hi2 Hc2 Hdr Hdr8)
    as (w3 & Hfree & Hi3 & Hl3 & Hd3 & Hc3 & Hp3).
  assert (pbs w3 !! p = Some (cut_pbuf (len pb) pb)) as Hp3' by (rewrite Hp3 by done; simpl; apply lookup_insert_eq).
  assert (p ∈ live w3) as Hl3'.
  { rewrite Hl3. apply elem_of_difference. split; [done|]. rewrite elem_of_list_to_set.
    by intros ?%freed_subset. }
  exists w3, (without (freed ((q, qb) :: cs)).*1 L). split_and!; try done.
  - erewrite bind_Ret.
    2:{ rewrite (bind_rd w q qb), bind_assert by (done || lia).
        rewrite (bind_upd w q qb) by done. rewrite <- Eqb.
        erewrite bind_upd; [|done|simpl; rewrite lookup_insert_ne by done; exact Hp].
        erewrite bind_upd; [|done|simpl; apply lookup_insert_eq]. rewrite upd_upd. exact Hfree. }
    rewrite (bind_rd w3 p _ _ Hl3' Hp3'), bind_assert by (simpl; lia).
    cbn [freed]. by destruct (ref qb =? 1).
  - constructor.
    + simpl. by split_and!.
    + simpl. unfold is_u16. split_and!; try done; lia.
    + apply list.Forall2_cons. split; [|constructor]. apply list.Forall2_cons in Hd as [Hd _].
      cbn [snd cut_pbuf payload len] in *. eapply load_same; [|exact Hd]. intros _ r o Er.
      rewrite Hd3. split; [|done]. destruct r as [l|]; [|done]. unfold self_contained in Hsc.
      rewrite list.Forall_singleton in Hsc. simpl in Hsc. rewrite Er in Hsc. subst l.
      by apply bool_decide_eq_true_2.
Qed.

(** ** [pbuf_coalesce] *)

Context (uninit : world A → loc → Z → bytes).
Hypothesis uninit_length : ∀ w l n, 0 ≤ n → Z.of_nat (length (uninit w l n)) = n.
Hypothesis pool_size : elt_size MEMP_PBUF_POOL = SIZEOF_STRUCT_PBUF + PBUF_POOL_BUFSIZE_ALIGNED.
Hypothesis ref_size : elt_size MEMP_PBUF = SIZEOF_STRUCT_PBUF.

Abbreviation pbuf_coalesce := (Pbuf.pbuf_coalesce uninit custom_free_function).

(** Regions with bytes in them are accessible. *)
Lemma regions_valid w cs ds r : content w cs ds → r ∈ regions cs → valid r w = true.
Proof.
  intros Hc. unfold content in Hc. induction Hc as [|[l pb] d cs ds Hd Hc IH]; simpl; [by intros ?%elem_of_nil|].
  rewrite elem_of_app. intros [Hr|Hr]; [|by apply IH]. unfold region_list in Hr. simpl in Hd.
  unfold load in Hd. destruct (payload pb) as [[r' o]|]; [|by apply elem_of_nil in Hr].
  destruct (len pb =? 0); [by apply elem_of_nil in Hr|]. apply list_elem_of_singleton in Hr as ->.
  by destruct (valid r' w).
Qed.

(** What existed before an allocation is as it was. *)
Lemma packet_built w0 L0 w L new p cs ds : built (HL := HL) w0 L0 w L new →
  packet w0 p cs ds → packet w p cs ds.
Proof.
  intros [Hi Hf Hlv Hp Hd Hb] [Hc Ht Hcont].
  assert (∀ l, l ∈ live w0 → l ∈ live w) as Hsub by (intros l Hl; rewrite Hlv; apply elem_of_union; by right).
  constructor; [|done|].
  - eapply chain_same; [|exact Hc]. intros l Hin. pose proof (chain_live _ _ _ _ Hc Hin). auto.
  - clear Hc Ht. unfold content in *. induction Hcont as [|[l pb] d cs ds Hld Hcont IH]; constructor; [|done].
    eapply load_same; [|exact Hld]. intros Hn r o Er. cbn [snd] in *.
    assert (valid r w0 = true) as Hv.
    { unfold load in Hld. rewrite (proj2 (Z.eqb_neq _ _)), Er in Hld by done. by destruct (valid r w0). }
    split; [|by apply Hd]. destruct r as [l'|]; [|done]. simpl in *.
    apply bool_decide_eq_true_1 in Hv. apply bool_decide_eq_true_2. auto.
Qed.

Lemma inv_frame rs w w' L : inv w L → frame rs w w' → inv w' L.
Proof.
  intros [Ho Hv Hf] [Hp Hl Ha _ _ Hs]. constructor; [by rewrite Ha| |by rewrite Hp].
  intros l Hin Hc. rewrite Hl in Hin. destruct (Hv l Hin Hc) as (pb & k & H1 & H2 & H3 & H4 & H5).
  exists pb, k. rewrite Hp. split_and!; try done. intros bs Hbs. specialize (Hs (Own l)).
  rewrite Hbs in Hs. destruct (data w !! Own l) as [bs0|] eqn:E; [|done]. injection Hs as ->. by apply H5.
Qed.

Lemma pbuf_coalesce_ok w L p cs ds layer :
  inv w L → packet w (Some p) cs ds → positive cs → (1 < length cs)%nat → droppable cs →
  SIZEOF_STRUCT_PBUF + header_offset layer + lens cs < 2 ^ 16 →
  ∃ r w' L', pbuf_coalesce p layer w = Ret (Some r, w') ∧ inv w' L' ∧
    ((r = p ∧ live w' = live w ∧ packet w' (Some p) cs ds) ∨
     (r ∉ live w ∧ live w' = ({[r]} ∪ live w) ∖ list_to_set (freed cs).*1 ∧
      ∃ rb d, packet w' (Some r) [(r, rb)] [d] ∧ d = concat ds)).
Proof.
  intros Hi Hpk Hpos Hlen Hdr Hfit. pose proof (lens_nonneg _ (pk_tot _ _ _ _ Hpk)) as Hl0.
  destruct (packet_head _ _ _ _ Hpk) as (pb & cs0 & Ecs & Hl & Hp & Htot).
  unfold Pbuf.pbuf_coalesce. rewrite (bind_rd w p pb) by done. rewrite decide_False.
  2:{ intros E. subst cs. destruct cs0 as [|[? ?] ?]; [simpl in Hlen; lia|].
      destruct Hpk as [(_ & _ & _ & Hn & _) _ _]. congruence. }
  rewrite Htot.
  destruct (pbuf_alloc_ok custom_free_function uninit uninit_length pool_size ref_size w L layer (lens cs) PBUF_RAM Hi)
    as (r & w1 & Hrun & Hpost); [done|done|]. rewrite (bind_Ret _ _ _ _ _ Hrun).
  destruct r as [q|].
  2:{ exists p, w1, L. split; [done|]. split; [apply Hpost|]. left.
      split_and!; [done| |by eapply packet_built]. rewrite (bu_live _ _ _ _ _ Hpost). simpl.
      by rewrite union_empty_l_L. }
  destruct Hpost as (L1 & cs1 & Hnp). destruct (np_single _ _ _ _ _ _ _ _ _ Hnp) as (qb & ->); [done|].
  pose proof (np_built _ _ _ _ _ _ _ _ _ Hnp) as Hb. pose proof (np_lens _ _ _ _ _ _ _ _ _ Hnp) as Hql.
  destruct (np_content _ _ _ _ _ _ _ _ _ Hnp) as [(dq & Hdq) [Hpay _]]; [by left|]. simpl in Hql.
  assert (packet w1 (Some q) [(q, qb)] dq) as Hq1 by (constructor; [apply Hnp|apply Hnp|done]).
  assert (packet w1 (Some p) cs ds) as Hp1 by by eapply packet_built.
  destruct (bu_fresh _ _ _ _ _ Hb q) as [Hqw _]; [by left|].
  assert (Hq0 : 0 < lens cs).
  { destruct (decide (0 < lens cs)) as [|Hn]; [done|]. apply positive_lens in Hpos; [|lia]. by subst cs. }
  assert (regions [(q, qb)] = [Own q]) as Hrq.
  { simpl. unfold region_list. rewrite Hpay, (proj2 (Z.eqb_neq _ _)) by lia. done. }
  destruct (pbuf_copy_ok w1 q [(q, qb)] dq p cs ds Hq1 Hp1) as (w2 & dq' & Hcopy & Hf2 & Hq2 & Hcc);
    [apply list.Forall_singleton; simpl; lia|done|rewrite Hrq; apply NoDup_singleton| |simpl; lia|].
  { intros r Hr. rewrite Hrq, list_elem_of_singleton. intros ->.
    apply (regions_valid w cs ds) in Hr; [|apply Hpk]. by apply bool_decide_eq_true_1 in Hr. }
  rewrite (bind_Ret _ _ _ _ _ Hcopy), bind_assert by done.
  pose proof (inv_frame _ _ _ _ (bu_inv _ _ _ _ _ Hb) Hf2) as Hi2.
  destruct (pbuf_free_ok custom_free_function w2 L1 p cs Hi2) as (w3 & Hfree & Hi3 & Hl3 & Hd3 & _ & Hp3);
    [eapply chain_frame; [exact Hf2|apply Hp1]|apply Hdr|apply Hdr|].
  rewrite (bind_Ret _ _ _ _ _ Hfree). eexists q, w3, _. split; [done|]. split; [exact Hi3|]. right.
  assert (q ∉ cs.*1) as Hqcs by (intros Hin; apply Hqw; apply (chain_live _ _ _ _ (pk_chain _ _ _ _ Hpk) Hin)).
  assert (q ∈ live w3 ∧ pbs w3 !! q = Some qb) as [Hl3' Hp3'].
  { pose proof (pk_chain _ _ _ _ Hq2) as (_ & ? & ? & _). rewrite Hl3, Hp3 by done. split; [|done].
    apply elem_of_difference. split; [done|]. rewrite elem_of_list_to_set. by intros ?%freed_subset. }
  split_and!; [done| |].
  - rewrite Hl3, (fr_live _ _ _ Hf2), (bu_live _ _ _ _ _ Hb). simpl. by rewrite union_empty_r_L.
  - destruct Hq2 as [(_ & _ & _ & Hnx) Htq Hdq2].
    destruct dq' as [|d dq']; [by apply Forall2_nil_inv_r in Hdq2|].
    pose proof Hdq2 as Hdq3. apply list.Forall2_cons in Hdq3 as [Hd Hnil]. apply Forall2_nil_inv_l in Hnil as ->.
    exists qb, d. split.
    + constructor; [by split_and!|done|]. apply list.Forall2_cons. split; [|constructor].
      eapply load_same; [|exact Hd]. intros _ r o Er. rewrite Hd3. split; [|done].
      cbn [snd] in Er. rewrite Hpay in Er. injection Er as <- <-. by apply bool_decide_eq_true_2.
    + simpl in Hcc. rewrite app_nil_r in Hcc. rewrite Hcc, drop_ge, app_nil_r; [done|].
      pose proof (content_lens _ _ _ (pk_tot _ _ _ _ Hq1) Hdq) as E1.
      pose proof (content_lens _ _ _ (pk_tot _ _ _ _ Hpk) (pk_content _ _ _ _ Hpk)) as E2.
      simpl in E1. lia.
Qed.
End Realloc.
