(* ===== verification/PbufSpec.v ===== *)
(** * Packet buffers: claims

    What the operations of [pbuf.c] do, in terms of the bytes of a packet and of
    the memory it takes.  The claims that involve memory hold for any allocators
    that keep the promises of [AllocLaws]; the witnesses run the heap and the
    pools of the code. *)

From S2P Require Import Prelude Mem Memp Alloc Pbuf PbufChain PbufWrite PbufOwn PbufOps.
Import Pbuf.

(** ** Concrete packets for the witnesses *)

(** A packet of two pbufs, 3 and 2 bytes, and a buffer of 4 bytes with 6 bytes
    of headroom. *)
Definition ex_pb1 : pbuf := mk_pbuf (Some (CUSTOM, 2)) (Some (Ext 1, 0)) 5 3 PBUF_REF 0 1.
Definition ex_pb2 : pbuf := mk_pbuf None (Some (Ext 2, 1)) 2 2 PBUF_REF 0 1.
Definition ex_pb3 : pbuf := mk_pbuf None (Some (Own (HEAP, 6), 6)) 4 4 PBUF_RAM 0 1.
Definition ex_pb4 : pbuf := mk_pbuf None (Some (Ext 3, 0)) 8 8 PBUF_REF 0 1.

Definition ex_world : world () :=
  mk_world
    (<[(CUSTOM, 1) := ex_pb1]> (<[(CUSTOM, 2) := ex_pb2]>
      (<[(HEAP, 6) := ex_pb3]> (<[(CUSTOM, 4) := ex_pb4]> ∅))))
    {[(CUSTOM, 1); (CUSTOM, 2); (HEAP, 6); (CUSTOM, 4)]}
    (<[Ext 1 := [10; 11; 12]]> (<[Ext 2 := [0; 13; 14]]>
      (<[Own (HEAP, 6) := [0; 0; 0; 0; 0; 0; 20; 21; 22; 23]]> (<[Ext 3 := replicate 8 0]> ∅))))
    () 0.

Definition ex_cs : list (loc * pbuf) := [((CUSTOM, 1), ex_pb1); ((CUSTOM, 2), ex_pb2)].
Definition ex_ds : list bytes := [[10; 11; 12]; [13; 14]].

(** Decides the membership goals of concrete worlds. *)
Ltac member := apply (bool_decide_unpack _); vm_compute; exact I.
Ltac concrete := repeat split; try member; try (vm_compute; reflexivity); try (vm_compute; congruence).

Lemma ex_packet : packet ex_world (Some (CUSTOM, 1)) ex_cs ex_ds.
Proof.
  constructor; [concrete|concrete|]. repeat constructor.
Qed.

Section Read.
Context {A : Type}.
Implicit Types (w : world A) (cs : list (loc * pbuf)).

Lemma pbuf_copy_partial_ok w p cs ds dst length offset :
  packet w (Some p) cs ds → is_u16 length → is_u16 offset →
  length ≤ Z.of_nat (List.length dst) →
  let src := take (Z.to_nat length) (drop (Z.to_nat offset) (concat ds)) in
  pbuf_copy_partial (Some p) (Some dst) length offset w =
    Ret ((Z.of_nat (List.length src), src ++ drop (List.length src) dst), w).
Proof.
  intros Hp Hl Ho Hd src. unfold pbuf_copy_partial. rewrite !bind_assert by done.
  rewrite (bind_Ret (of_option NullDeref (Some dst)) _ w dst w eq_refl), bind_get. unfold is_u16 in *.
  rewrite (copy_partial_loop_ok w (fuel w) (Some p) cs ds) by
    (done || lia || (by eapply packet_fuel)). done.
Qed.

(** [pbuf_copy_partial] is reading: it copies the bytes of the packet from
    [offset] on, as many as asked for and present, to the front of the buffer,
    returns their number and changes nothing else. *)
Theorem pbuf_copy_partial_correct w p cs ds dst length offset :
  packet w (Some p) cs ds → is_u16 length → is_u16 offset →
  length ≤ Z.of_nat (List.length dst) →
  let src := take (Z.to_nat length) (drop (Z.to_nat offset) (concat ds)) in
  pbuf_copy_partial (Some p) (Some dst) length offset w =
    Ret ((Z.of_nat (List.length src), src ++ drop (List.length src) dst), w).
Proof. apply pbuf_copy_partial_ok. Qed.

(** [pbuf_strstr] finds the first occurrence: it returns the least index at
    which the string occurs in the packet's bytes, or 0xffff when it occurs
    nowhere (packets of up to 0xfffe bytes, as documented). *)
Theorem pbuf_strstr_correct w p cs ds s :
  packet w (Some p) cs ds → wf_bytes (concat ds) → lens cs < 0xffff →
  s ≠ [] → Z.of_nat (length s) < 0xffff →
  ∃ r, pbuf_strstr p (Some s) w = Ret (r, w) ∧
    ((0 ≤ r ∧ occurs (concat ds) s r ∧ ∀ i, 0 ≤ i < r → ¬ occurs (concat ds) s i) ∨
     (r = 0xffff ∧ ∀ i, 0 ≤ i → ¬ occurs (concat ds) s i)).
Proof.
  intros Hp Hb Hm Hs Hl. destruct (packet_head _ _ _ _ Hp) as (pb & cs' & E & Hlv & Hpb & Ht).
  destruct s as [|c s]; [done|]. unfold pbuf_strstr. rewrite (bind_rd w p pb) by done.
  rewrite Ht, (proj2 (Z.eqb_neq _ _)) by lia. rewrite Z.geb_leb, (proj2 (Z.leb_gt _ _)) by lia.
  rewrite u16_id by (unfold is_u16; lia).
  destruct (memfind_ok w p cs ds (c :: s) 0 Hp Hb Hm) as (r & Hr & Hf); [unfold is_u16; lia|done|].
  exists r. by split.
Qed.

End Read.

Lemma pbuf_copy_partial_correct_witness :
  pbuf_copy_partial (Some (CUSTOM, 1)) (Some [0; 0; 0; 0]) 3 1 ex_world =
    Ret ((3, [11; 12; 13; 0]), ex_world).
Proof.
  exact (pbuf_copy_partial_correct ex_world (CUSTOM, 1) ex_cs ex_ds [0; 0; 0; 0] 3 1 ex_packet
    ltac:(by vm_compute) ltac:(by vm_compute) ltac:(by vm_compute)).
Defined.

Lemma pbuf_strstr_correct_witness :
  ∃ r, pbuf_strstr (CUSTOM, 1) (Some [12; 13]) ex_world = Ret (r, ex_world) ∧ r = 2.
Proof.
  destruct (pbuf_strstr_correct ex_world (CUSTOM, 1) ex_cs ex_ds [12; 13] ex_packet) as (r & Hr & _).
  - repeat constructor; by vm_compute.
  - by vm_compute.
  - done.
  - by vm_compute.
  - exists r. split; [done|]. assert (pbuf_strstr (CUSTOM, 1) (Some [12; 13]) ex_world = Ret (2, ex_world)) as E
      by (vm_compute; reflexivity). congruence.
Defined.

Section Write.
Context {A : Type}.
Implicit Types (w : world A) (cs : list (loc * pbuf)).

(** What [pbuf_take] stores [pbuf_copy_partial] reads back: data that fits
    the packet is spread over its pbufs, whatever their lengths, without an
    access outside them and without changing other memory, and reading the
    packet returns it, followed by the bytes the packet already had. *)
Theorem pbuf_take_copy_roundtrip w p cs ds src n :
  packet w (Some p) cs ds → NoDup (regions cs) → 0 ≤ n ≤ lens cs →
  n ≤ Z.of_nat (length src) →
  ∃ w', pbuf_take (Some p) (Some src) n w = Ret (ERR_OK, w') ∧ frame (regions cs) w w' ∧
    ∀ dst, lens cs ≤ Z.of_nat (length dst) →
    pbuf_copy_partial (Some p) (Some dst) (lens cs) 0 w' =
      Ret ((lens cs, take (Z.to_nat n) src ++ drop (Z.to_nat n) (concat ds) ++
                     drop (Z.to_nat (lens cs)) dst), w').
Proof.
  intros Hp Hnd Hn Hs. destruct (pbuf_take_ok w p cs ds src n Hp Hnd Hn Hs) as (w' & ds' & Hr & Hf & Hp' & Hc).
  exists w'. split_and!; [done|done|]. intros dst Hd.
  pose proof (lens_nonneg _ (pk_tot _ _ _ _ Hp)) as Hl0.
  pose proof (content_lens _ _ _ (pk_tot _ _ _ _ Hp') (pk_content _ _ _ _ Hp')) as Hlen.
  unfold pbuf_copy_partial. rewrite !bind_assert by done.
  rewrite (bind_Ret (of_option NullDeref (Some dst)) _ w' dst w' eq_refl), bind_get.
  rewrite (copy_partial_loop_ok w' (fuel w') (Some p) cs ds') by
    (done || (by eapply packet_fuel) || (unfold is_u16; lia)).
  rewrite drop_0, take_ge by lia. assert (length (concat ds') = Z.to_nat (lens cs)) as E by lia.
  unfold splice. rewrite Hlen, E, Hc. cbn [take app Nat.add Z.to_nat]. by rewrite <- (assoc_L app), Z.add_0_l.
Qed.

(** [pbuf_take_at] overwrites exactly the bytes [offset .. offset + n) of a
    packet, across pbuf boundaries. *)
Theorem pbuf_take_at_correct w p cs ds src n off :
  packet w p cs ds → NoDup (regions cs) → is_u16 off → 0 ≤ n → off < lens cs →
  off + n ≤ lens cs → n ≤ Z.of_nat (length src) →
  ∃ w' ds', pbuf_take_at p src n off w = Ret (ERR_OK, w') ∧ frame (regions cs) w w' ∧
    packet w' p cs ds' ∧
    concat ds' = take (Z.to_nat off) (concat ds) ++ take (Z.to_nat n) src ++
                 drop (Z.to_nat (off + n)) (concat ds).
Proof.
  intros Hp Hnd Ho Hn Hlt Hle Hs.
  destruct (pbuf_take_at_ok w p cs ds src n off Hp Hnd Ho Hn Hlt Hle Hs) as (w' & ds' & H1 & H2 & H3 & H4).
  exists w', ds'. split_and!; try done. rewrite H4. unfold splice. unfold is_u16 in Ho.
  rewrite length_take. do 3 f_equal. lia.
Qed.

(** [pbuf_copy] copies a packet of any segmentation into one of any other
    segmentation that is large enough: the target then starts with the source's
    bytes, and the loop ends. *)
Theorem pbuf_copy_correct w pt ct dt pf cf df :
  packet w (Some pt) ct dt → packet w (Some pf) cf df → positive ct → positive cf →
  NoDup (regions ct) → (∀ r, r ∈ regions cf → r ∉ regions ct) → lens cf ≤ lens ct →
  ∃ w' dt', pbuf_copy (Some pt) (Some pf) w = Ret (ERR_OK, w') ∧ frame (regions ct) w w' ∧
    packet w' (Some pt) ct dt' ∧ packet w' (Some pf) cf df ∧
    concat dt' = concat df ++ drop (length (concat df)) (concat dt).
Proof.
  intros Ht Hf Hpt Hpf Hnd Hdis Hfit.
  destruct (pbuf_copy_ok w pt ct dt pf cf df) as (w' & dt' & H1 & H2 & H3 & H4); try done.
  exists w', dt'. split_and!; try done. by eapply packet_frame.
Qed.

(** [pbuf_cat] appends: the packet then holds the bytes of both, with the
    [tot_len] invariant, and only the structs of the first chain change. *)
Theorem pbuf_cat_correct w h ch dh t ct dt :
  packet w (Some h) ch dh → packet w (Some t) ct dt → (∀ l, l ∈ ch.*1 → l ∉ ct.*1) →
  lens ch + lens ct < 2 ^ 16 →
  ∃ w' cs, pbuf_cat (Some h) (Some t) w = Ret ((), w') ∧ only ch.*1 w w' ∧
    packet w' (Some h) cs (dh ++ dt) ∧ cs.*1 = ch.*1 ++ ct.*1.
Proof.
  intros Hh Ht Hd Hb. destruct (pbuf_cat_ok w h ch dh t ct dt Hh Ht Hd Hb) as (w' & ch' & H1 & H2 & H3 & H4 & _).
  exists w', (ch' ++ ct). split_and!; try done. by rewrite fmap_app, H3.
Qed.

(** Prepending a header, as every layer does on output: [pbuf_header] with
    enough headroom followed by [pbuf_take] of the header puts it in front of
    the packet's bytes. *)
Theorem pbuf_prepend_header w p pb cs d ds o bs hdr :
  packet w (Some p) ((p, pb) :: cs) (d :: ds) → NoDup (Own p :: regions cs) →
  payload pb = Some (Own p, o) → type pb = PBUF_RAM ∨ type pb = PBUF_POOL →
  data w !! Own p = Some bs → o + len pb ≤ Z.of_nat (length bs) →
  0 < Z.of_nat (length hdr) ≤ o → Z.of_nat (length hdr) < 2 ^ 15 →
  lens ((p, pb) :: cs) + Z.of_nat (length hdr) < 2 ^ 16 →
  ∃ w1 w2 cs' ds', pbuf_header (Some p) (Z.of_nat (length hdr)) w = Ret (false, w1) ∧
    pbuf_take (Some p) (Some hdr) (Z.of_nat (length hdr)) w1 = Ret (ERR_OK, w2) ∧
    packet w2 (Some p) cs' ds' ∧ concat ds' = hdr ++ concat (d :: ds).
Proof.
  intros Hp Hnd Hpay Hty Hbs Hob Hn Hn15 Hb.
  destruct (header_reveal w p pb cs d ds o bs (Z.of_nat (length hdr)) false Hp Hpay Hty Hbs Hob Hn Hn15 Hb)
    as (w1 & H1 & Ho & Hp1).
  pose proof Hp as Hpk. apply packet_cons in Hpk as (_ & _ & _ & _ & _ & _ & _ & H0 & _ & Hs0). simpl in Hb.
  destruct (pbuf_take_ok w1 p _ _ hdr (Z.of_nat (length hdr)) Hp1) as (w2 & ds2 & H2 & _ & Hp2 & Hc2).
  - simpl. unfold region_list. simpl. rewrite (proj2 (Z.eqb_neq _ _)) by lia. exact Hnd.
  - simpl. lia.
  - lia.
  - eexists w1, w2, _, ds2. split_and!; [exact H1|exact H2|exact Hp2|]. rewrite Hc2. cbn [concat].
    rewrite Nat2Z.id, take_ge by done. f_equal. rewrite <- (assoc_L app). apply drop_app_length'.
    rewrite length_take, length_drop. lia.
Qed.

End Write.

Lemma ex_regions : regions ex_cs = [Ext 1; Ext 2].
Proof. done. Qed.

Lemma pbuf_take_copy_roundtrip_witness :
  ∃ w', pbuf_take (Some (CUSTOM, 1)) (Some [7; 8; 9; 6]) 4 ex_world = Ret (ERR_OK, w') ∧
    pbuf_copy_partial (Some (CUSTOM, 1)) (Some [0; 0; 0; 0; 0]) 5 0 w' = Ret ((5, [7; 8; 9; 6; 14]), w').
Proof.
  destruct (pbuf_take_copy_roundtrip ex_world (CUSTOM, 1) ex_cs ex_ds [7; 8; 9; 6] 4 ex_packet)
    as (w' & Hr & _ & Hc).
  - apply (bool_decide_unpack _). by vm_compute.
  - by vm_compute.
  - by vm_compute.
  - exists w'. split; [done|]. by apply (Hc [0; 0; 0; 0; 0]).
Defined.

Lemma ex_packet4 : packet ex_world (Some (CUSTOM, 4)) [((CUSTOM, 4), ex_pb4)] [replicate 8 0].
Proof. constructor; [concrete|concrete|]. repeat constructor. Qed.

Lemma ex_packet3 : packet ex_world (Some (HEAP, 6)) [((HEAP, 6), ex_pb3)] [[20; 21; 22; 23]].
Proof. constructor; [concrete|concrete|]. repeat constructor. Qed.

Lemma pbuf_copy_correct_witness :
  ∃ w' dt', pbuf_copy (Some (CUSTOM, 4)) (Some (CUSTOM, 1)) ex_world = Ret (ERR_OK, w') ∧
    packet w' (Some (CUSTOM, 4)) [((CUSTOM, 4), ex_pb4)] dt' ∧
    concat dt' = [10; 11; 12; 13; 14; 0; 0; 0].
Proof.
  destruct (pbuf_copy_correct ex_world (CUSTOM, 4) [((CUSTOM, 4), ex_pb4)] [replicate 8 0] (CUSTOM, 1)
    ex_cs ex_ds ex_packet4 ex_packet) as (w' & dt' & Hr & _ & Hp & _ & Hc).
  - by repeat constructor.
  - by repeat constructor.
  - apply (bool_decide_unpack _). by vm_compute.
  - intros r Hr Hr2. change (r ∈ [Ext 1; Ext 2]) in Hr. change (r ∈ [Ext 3]) in Hr2.
    apply list_elem_of_singleton in Hr2 as ->. by apply (bool_decide_pack _) in Hr; vm_compute in Hr.
  - by vm_compute.
  - by exists w', dt'.
Defined.

Lemma pbuf_cat_correct_witness :
  ∃ w' cs, pbuf_cat (Some (CUSTOM, 1)) (Some (HEAP, 6)) ex_world = Ret ((), w') ∧
    packet w' (Some (CUSTOM, 1)) cs [[10; 11; 12]; [13; 14]; [20; 21; 22; 23]].
Proof.
  destruct (pbuf_cat_correct ex_world (CUSTOM, 1) ex_cs ex_ds (HEAP, 6) [((HEAP, 6), ex_pb3)]
    [[20; 21; 22; 23]] ex_packet ex_packet3) as (w' & cs & Hr & _ & Hp & _).
  - intros l Hl Hl2. apply list_elem_of_singleton in Hl2 as ->.
    by apply (bool_decide_pack _) in Hl; vm_compute in Hl.
  - by vm_compute.
  - by exists w', cs.
Defined.

Lemma pbuf_prepend_header_witness :
  ∃ w1 w2 cs' ds', pbuf_header (Some (HEAP, 6)) 2 ex_world = Ret (false, w1) ∧
    pbuf_take (Some (HEAP, 6)) (Some [1; 2]) 2 w1 = Ret (ERR_OK, w2) ∧
    packet w2 (Some (HEAP, 6)) cs' ds' ∧ concat ds' = [1; 2; 20; 21; 22; 23].
Proof.
  apply (pbuf_prepend_header ex_world (HEAP, 6) ex_pb3 [] [20; 21; 22; 23] [] 6
    [0; 0; 0; 0; 0; 0; 20; 21; 22; 23] [1; 2] ex_packet3); try (by vm_compute).
  - apply NoDup_singleton.
  - by left.
Defined.

Section Own.
Context {A : Type} `{HA : Alloc A} {elt_size : memp_t → Z}.
Context `{HL : !AllocLaws A elt_size}.
Context (uninit : world A → loc → Z → bytes) (custom_free_function : loc → M (world A) ()).
Implicit Types (w : world A) (cs : list (loc * pbuf)).

(** C33: [pbuf_free] drops one reference of a chain: it releases the pbufs at its
    head up to the first that is still referenced, returns their number, takes
    one reference from that pbuf, and leaves the rest of the chain, all bytes
    and all other pbufs as they are.  When every pbuf has one reference the
    whole chain is released. *)
Theorem pbuf_free_correct w L p cs :
  inv w L → chain w (Some p) cs → droppable cs →
  ∃ w', pbuf_free custom_free_function (Some p) w = Ret (Z.of_nat (length (freed cs)), w') ∧
    inv w' (without (freed cs).*1 L) ∧ live w' = live w ∖ list_to_set (freed cs).*1 ∧
    data w' = data w ∧ chain w' (fst <$> head (remaining cs)) (remaining cs) ∧
    ∀ l, l ∉ cs.*1 → pbs w' !! l = pbs w !! l.
Proof. intros Hi Hc [Hr Hb]. by apply pbuf_free_ok. Qed.

(** [pbuf_realloc] to fewer bytes keeps that many from the front of the
    packet: the pbufs behind are released, the total lengths are adjusted and a
    PBUF_RAM block gives its end back to the heap. *)
Theorem pbuf_realloc_correct w L p cs ds n :
  inv w L → packet w (Some p) cs ds → self_contained cs →
  Forall (λ c : loc * pbuf, c.1.1 ≠ CUSTOM ∧ trimmable w c.1 c.2) cs →
  (∀ k rest, cs = k ++ rest → droppable rest) → 0 ≤ n < lens cs →
  ∃ w' L' cs' ds', pbuf_realloc custom_free_function (Some p) n w = Ret ((), w') ∧ inv w' L' ∧
    packet w' (Some p) cs' ds' ∧ concat ds' = take (Z.to_nat n) (concat ds) ∧
    cs'.*1 `prefix_of` cs.*1.
Proof. apply pbuf_realloc_ok. Qed.

Hypothesis uninit_length : ∀ w l n, 0 ≤ n → Z.of_nat (length (uninit w l n)) = n.

(** C35: without the bound on the length the claim fails: the size of a PBUF_RAM
    block is computed as [mem_size_t], 16 bits.  When struct, headroom and
    length exceed 65535 bytes, a pbuf that [pbuf_alloc] returns claims [length]
    bytes over a block with fewer, and accesses run past its end. *)
Theorem pbuf_alloc_ram_overflow w layer length p w' :
  is_u16 length → 2 ^ 16 ≤ SIZEOF_STRUCT_PBUF + header_offset layer + length →
  pbuf_alloc uninit custom_free_function layer length PBUF_RAM w = Ret (Some p, w') →
  ∃ pb bs, pbs w' !! p = Some pb ∧ len pb = length ∧ data w' !! Own p = Some bs ∧
    Z.of_nat (List.length bs) < header_offset layer + length - 60000.
Proof.
  intros Hlen Hbig Hrun. pose proof (header_offset_range layer) as Ho. unfold is_u16 in Hlen.
  assert (SIZEOF_STRUCT_PBUF = 24) as H24 by done.
  unfold pbuf_alloc, alloc_ram in Hrun. rewrite !align_size in Hrun by (unfold is_u32; lia).
  set (m := SIZEOF_STRUCT_PBUF + header_offset layer + length) in *.
  assert (u16 m = m - 65536) as Em by (unfold m; clia).
  destruct (heap_malloc (u16 m) (allocs w)) as [[[x|] a]|] eqn:Ha.
  2,3: by unfold mem_malloc, on_alloc, mbind, M_bind in Hrun; rewrite Ha in Hrun.
  destruct (Z.ltb_spec (u16 m) SIZEOF_STRUCT_PBUF) as [Hlt|Hge].
  { unfold mem_malloc, on_alloc, mbind, M_bind in Hrun. rewrite Ha in Hrun.
    by rewrite (proj2 (Z.ltb_lt _ _)) in Hrun. }
  assert (mem_malloc uninit m w =
    Ret (Some (HEAP, x), born_world uninit w (HEAP, x) (u16 m - SIZEOF_STRUCT_PBUF) a)) as Hmm.
  { unfold mem_malloc, on_alloc, mbind, M_bind. rewrite Ha.
    by rewrite (proj2 (Z.ltb_ge _ _)). }
  erewrite bind_Ret in Hrun.
  2:{ rewrite (bind_Ret _ _ _ _ _ Hmm).
      erewrite bind_upd; [reflexivity|simpl; set_solver|simpl; apply lookup_insert_eq]. }
  cbn beta iota in Hrun.
  erewrite finish_ok in Hrun; [|simpl; set_solver|simpl; apply lookup_insert_eq].
  injection Hrun as <- <-. eexists _, _. simpl. rewrite !lookup_insert_eq.
  split_and!; [done|done|done|]. rewrite uninit_length by lia. lia.
Qed.

Hypothesis pool_size : elt_size MEMP_PBUF_POOL = SIZEOF_STRUCT_PBUF + PBUF_POOL_BUFSIZE_ALIGNED.
Hypothesis ref_size : elt_size MEMP_PBUF = SIZEOF_STRUCT_PBUF.

(** C34: [pbuf_alloc] returns a new packet or NULL.  A new packet has the length
    asked for, spread over as many pbufs as it takes, the headroom of its layer,
    one reference per pbuf and payloads inside blocks nobody else holds; on
    NULL, when a pool runs out in the middle of a chain too, everything taken
    has been given back and nothing else has changed. *)
Theorem pbuf_alloc_correct w L layer length ty : inv w L → is_u16 length →
  (ty = PBUF_RAM → SIZEOF_STRUCT_PBUF + header_offset layer + length < 2 ^ 16) →
  ∃ r w', pbuf_alloc uninit custom_free_function layer length ty w = Ret (r, w') ∧
    match r with
    | None => built w L w' L []
    | Some p => ∃ L' cs, new_packet w L w' L' p cs ty (header_offset layer) length
    end.
Proof. by apply pbuf_alloc_ok. Qed.

(** [pbuf_coalesce] makes one pbuf of a packet: either the allocation fails
    and the packet is returned as it was, or a new pbuf with the same bytes is
    returned and the references of the old chain are dropped. *)
Theorem pbuf_coalesce_correct w L p cs ds layer :
  inv w L → packet w (Some p) cs ds → positive cs → (1 < length cs)%nat → droppable cs →
  SIZEOF_STRUCT_PBUF + header_offset layer + lens cs < 2 ^ 16 →
  ∃ r w' L', pbuf_coalesce uninit custom_free_function p layer w = Ret (Some r, w') ∧ inv w' L' ∧
    ((r = p ∧ live w' = live w ∧ packet w' (Some p) cs ds) ∨
     (r ∉ live w ∧ live w' = ({[r]} ∪ live w) ∖ list_to_set (freed cs).*1 ∧
      ∃ rb d, packet w' (Some r) [(r, rb)] [d] ∧ d = concat ds)).
Proof. by apply pbuf_coalesce_ok. Qed.

End Own.

(** ** Witnesses on the heap and the pools of the code *)

#[local] Instance ex_laws : AllocLaws allocators (λ t, Memp.size (example_pools t)) :=
  lwip_laws example_pools example_pools_ok.

Definition zeros (_ : world allocators) (_ : loc) (n : Z) : bytes := replicate (Z.to_nat n) 0.
Definition no_custom (_ : loc) : M (world allocators) () := mret ().

(** The state after [mem_init] and [memp_init]. *)
Definition w0 : world allocators := mk_world ∅ ∅ ∅ (alloc_init example_pools) 0.

Lemma w0_inv : inv w0 ∅.
Proof.
  constructor; [apply (alloc_init_owns example_pools example_pools_ok)|done|done].
Qed.

Lemma zeros_length w l n : 0 ≤ n → Z.of_nat (length (zeros w l n)) = n.
Proof. intros Hn. unfold zeros. rewrite length_replicate. lia. Qed.

Definition run {B} (r : res (B * world allocators)) : world allocators :=
  match r with Ret (_, w) => w | Err _ => w0 end.

(** A packet of 700 bytes from the pool: two pbufs. *)
Definition w1 : world allocators := run (pbuf_alloc zeros no_custom PBUF_RAW 700 PBUF_POOL w0).
Definition w1_loc1 : loc := (POOL MEMP_PBUF_POOL, 19816).
Definition w1_loc2 : loc := (POOL MEMP_PBUF_POOL, 19200).
Definition w1_cs : list (loc * pbuf) :=
  [(w1_loc1, mk_pbuf (Some w1_loc2) (Some (Own w1_loc1, 0)) 700 592 PBUF_POOL 0 1);
   (w1_loc2, mk_pbuf None (Some (Own w1_loc2, 0)) 108 108 PBUF_POOL 0 1)].

Lemma pbuf_alloc_correct_witness :
  ∃ w' L' cs, pbuf_alloc zeros no_custom PBUF_RAW 700 PBUF_POOL w0 = Ret (Some w1_loc1, w') ∧
    new_packet w0 ∅ w' L' w1_loc1 cs PBUF_POOL 0 700.
Proof.
  destruct (pbuf_alloc_correct zeros no_custom zeros_length eq_refl eq_refl w0 ∅ PBUF_RAW 700 PBUF_POOL
    w0_inv ltac:(by vm_compute) ltac:(done)) as (r & w' & Hrun & Hpost).
  assert (r = Some w1_loc1) as ->.
  { assert (fst <$> (match pbuf_alloc zeros no_custom PBUF_RAW 700 PBUF_POOL w0 with
      Ret x => Some x | Err _ => None end) = Some (Some w1_loc1)) as E by (vm_compute; reflexivity).
    rewrite Hrun in E. by injection E as ->. }
  destruct Hpost as (L' & cs & Hnp). exists w', L', cs. split; [exact Hrun|exact Hnp].
Defined.

Lemma w1_packet : ∃ L, inv w1 L ∧ packet w1 (Some w1_loc1) w1_cs [replicate 592 0; replicate 108 0].
Proof.
  destruct (pbuf_alloc_ok no_custom zeros zeros_length eq_refl eq_refl w0 ∅ PBUF_RAW 700 PBUF_POOL
    w0_inv ltac:(by vm_compute) ltac:(done)) as (r & w' & Hrun & Hpost).
  assert (w' = w1) as -> by (unfold w1; rewrite Hrun; reflexivity).
  assert (∃ L, inv w1 L) as [L Hi].
  { destruct r as [p|]; [destruct Hpost as (L & cs & [Hb _ _ _ _ _ _]); exists L; apply Hb|].
    exists ∅. apply Hpost. }
  exists L. split; [done|]. constructor; [concrete|concrete|]. constructor; [vm_compute; reflexivity|].
  constructor; [vm_compute; reflexivity|constructor].
Qed.

Lemma w1_droppable k rest : w1_cs = k ++ rest → droppable rest.
Proof.
  intros E. assert (Forall (λ c : loc * pbuf, c.1.1 ≠ CUSTOM ∧ 1 ≤ ref c.2 < 2 ^ 16) w1_cs) as Hf
    by (repeat constructor; by vm_compute).
  split; [rewrite E in Hf; by apply list.Forall_app in Hf as [_ ?]|].
  assert (∀ cs, (length (freed cs) ≤ length cs)%nat) as Hl.
  { clear. induction cs as [|[l pb] cs IH]; simpl; [lia|]. destruct (ref pb =? 1); simpl; lia. }
  specialize (Hl rest). apply (f_equal length) in E. rewrite length_app in E. simpl in E.
  change (2 ^ 8) with 256. lia.
Qed.

Lemma pbuf_free_correct_witness :
  ∃ w', pbuf_free no_custom (Some w1_loc1) w1 = Ret (2, w') ∧ live w' = live w1 ∖ {[w1_loc1; w1_loc2]}.
Proof.
  destruct w1_packet as (L & Hi & Hp).
  destruct (pbuf_free_correct no_custom w1 L w1_loc1 w1_cs Hi (pk_chain _ _ _ _ Hp)
    (w1_droppable [] w1_cs eq_refl)) as (w' & Hr & _ & Hl & _).
  exists w'. split; [exact Hr|]. rewrite Hl.
  change (list_to_set (freed w1_cs).*1) with ({[w1_loc1]} ∪ ({[w1_loc2]} ∪ ∅) : gset loc).
  rewrite union_empty_r_L. reflexivity.
Defined.

Lemma pbuf_realloc_correct_witness :
  ∃ w' L' cs' ds', pbuf_realloc no_custom (Some w1_loc1) 600 w1 = Ret ((), w') ∧ inv w' L' ∧
    packet w' (Some w1_loc1) cs' ds' ∧ concat ds' = replicate 600 0.
Proof.
  destruct w1_packet as (L & Hi & Hp).
  destruct (pbuf_realloc_correct no_custom w1 L w1_loc1 w1_cs _ 600 Hi Hp)
    as (w' & L' & cs' & ds' & Hr & Hi' & Hp' & Hc & _).
  - repeat constructor.
  - repeat constructor; done.
  - apply w1_droppable.
  - by vm_compute.
  - exists w', L', cs', ds'. split_and!; [exact Hr|exact Hi'|exact Hp'|]. rewrite Hc. by vm_compute.
Defined.

Lemma pbuf_coalesce_correct_witness :
  ∃ r w' L', pbuf_coalesce zeros no_custom w1_loc1 PBUF_RAW w1 = Ret (Some r, w') ∧ inv w' L'.
Proof.
  destruct w1_packet as (L & Hi & Hp).
  destruct (pbuf_coalesce_correct zeros no_custom zeros_length eq_refl eq_refl w1 L w1_loc1 w1_cs _ PBUF_RAW Hi Hp)
    as (r & w' & L' & Hr & Hi' & _).
  - repeat constructor.
  - simpl. lia.
  - by apply (w1_droppable []).
  - by vm_compute.
  - exists r, w', L'. split; [exact Hr|exact Hi'].
Defined.

(** 65530 bytes over a block of 50. *)
Lemma pbuf_alloc_ram_overflow_witness :
  ∃ p w' pb bs, pbuf_alloc zeros no_custom PBUF_TRANSPORT 65530 PBUF_RAM w0 = Ret (Some p, w') ∧
    pbs w' !! p = Some pb ∧ len pb = 65530 ∧ data w' !! Own p = Some bs ∧ Z.of_nat (length bs) < 5586.
Proof.
  destruct (pbuf_alloc zeros no_custom PBUF_TRANSPORT 65530 PBUF_RAM w0) as [[[p|] w']|] eqn:E.
  - destruct (pbuf_alloc_ram_overflow zeros no_custom zeros_length w0 PBUF_TRANSPORT 65530 p w'
      ltac:(by vm_compute) ltac:(by vm_compute) E) as (pb & bs & H1 & H2 & H3 & H4).
    exists p, w', pb, bs. split_and!; [reflexivity|exact H1|exact H2|exact H3|exact H4].
  - exfalso. revert E. vm_compute. congruence.
  - exfalso. revert E. vm_compute. congruence.
Defined.
