(* ===== verification/PbufRam.v ===== *)
(** * Pbufs from the heap

    The relation [grown] between two states of memory of which the second has more
    blocks and is otherwise unchanged; pbufs of one piece from the heap ([is_ram]),
    their allocation, the bytes stored in them, and their release. *)

From S2P Require Import Prelude CLib Def Mem Memp Alloc Pbuf PbufChain PbufWrite PbufOwn PbufOps PbufSpec.
Import Def.Def Pbuf.

(** ** States with more blocks *)

Section Grown.
Context {A : Type} `{HA : Alloc A} {elt_size : memp_t → Z} `{HL : !AllocLaws A elt_size}.
Implicit Types (w : world A) (L : gmap loc Z) (X N : gset loc) (l : loc) (pb : pbuf).

(** From [w0] with the blocks [L0], the live pbufs [X] of the heap and the elements
    [N] of the pool of segments have come in addition. *)
Record grown w0 L0 w L X N : Prop := mk_grown {
  gr_inv : inv w L;
  gr_live : live w = X ∪ live w0;
  gr_fresh : X ## live w0;
  gr_heap l : l ∈ X → l.1 = HEAP;
  gr_seg l : l ∈ N → l.1 = POOL MEMP_TCP_SEG;
  gr_new l : l ∈ X ∪ N → L0 !! l = None;
  gr_nodes l : l ∈ N → is_Some (L !! l);
  gr_pbs l : l ∈ live w0 → pbs w !! l = pbs w0 !! l;
  gr_data r : valid r w0 = true → data w !! r = data w0 !! r;
  gr_blocks l : l ∉ X → l ∉ N → L !! l = L0 !! l;
}.

Lemma grown_refl w L : inv w L → grown w L w L ∅ ∅.
Proof. intros Hi. constructor; set_solver. Qed.

Lemma grown_valid w0 L0 w L X N r : grown w0 L0 w L X N → valid r w0 = true → valid r w = true.
Proof.
  intros Hg. destruct r as [l|]; [|done]. simpl. rewrite !bool_decide_eq_true, (gr_live _ _ _ _ _ _ Hg).
  set_solver.
Qed.

Lemma grown_blocks w0 L0 w L X N : grown w0 L0 w L X N → X = ∅ → N = ∅ → L = L0.
Proof. intros Hg -> ->. apply map_eq. intros l. apply (gr_blocks _ _ _ _ _ _ Hg); set_solver. Qed.

(** Blocks only come in addition: [pbuf_alloc] *)
Lemma grown_built w0 L0 w L X N w' L' cs : grown w0 L0 w L X N → built w L w' L' cs →
  (∀ l, l ∈ cs.*1 → l.1 = HEAP) → grown w0 L0 w' L' (X ∪ list_to_set cs.*1) N.
Proof.
  intros Hg Hb Hh. pose proof Hg as [Hi Hlv Hf Hp Hs Hn Hm Hpb Hd Hbl]. destruct Hb as [Ki Kf Klv Kpb Kd Kbl].
  assert (∀ l, l ∈ cs.*1 → l ∉ N) as HN.
  { intros l Hl HlN. specialize (Hs l HlN). rewrite (Hh l Hl) in Hs. done. }
  constructor; [done| | | |done| | | | |].
  - rewrite Klv, Hlv. set_solver.
  - assert (∀ l, l ∈ cs.*1 → l ∉ live w0); [|set_solver]. intros l Hl Hl0.
    destruct (Kf l Hl) as [Hl1 _]. rewrite Hlv in Hl1. set_solver.
  - intros l [Hl|Hl%elem_of_list_to_set]%elem_of_union; auto.
  - intros l Hl. destruct (decide (l ∈ X ∪ N)) as [|Hx]; [auto|].
    assert (l ∈ cs.*1) as Hc by set_solver. destruct (Kf l Hc) as [_ HL0].
    rewrite <- HL0. symmetry. apply Hbl; set_solver.
  - intros l Hl. rewrite Kbl; [auto|]. intros Hc. by apply (HN l).
  - intros l Hl. rewrite Kpb; [auto|]. rewrite Hlv. set_solver.
  - intros r Hr. rewrite Kd; [auto|]. by eapply grown_valid.
  - intros l Hx HlN. rewrite Kbl by set_solver. apply Hbl; set_solver.
Qed.

(** A segment from the pool, and back. *)
Lemma pool_seg_ok w0 L0 w L X N : grown w0 L0 w L X N →
  (∃ w', on_alloc (pool_malloc MEMP_TCP_SEG) w = Ret (None, w') ∧ grown w0 L0 w' L X N ∧
    pbs w' = pbs w ∧ data w' = data w) ∨
  (∃ w' x L', on_alloc (pool_malloc MEMP_TCP_SEG) w = Ret (Some x, w') ∧
    grown w0 L0 w' L' X ({[(POOL MEMP_TCP_SEG, x)]} ∪ N) ∧ (POOL MEMP_TCP_SEG, x) ∉ N ∧
    L !! (POOL MEMP_TCP_SEG, x) = None ∧ pbs w' = pbs w ∧ data w' = data w).
Proof.
  intros Hg. pose proof Hg as [Hi Hlv Hf Hp Hs Hn Hm Hpb Hd Hbl].
  destruct (pool_malloc_ok (allocs w) L MEMP_TCP_SEG) as ([x|] & a & Hrun & Ha); [apply Hi| |].
  - right. destruct Ha as [HLx Ha]. eexists _, x, (<[(POOL MEMP_TCP_SEG, x) := elt_size MEMP_TCP_SEG]> L). unfold on_alloc. rewrite Hrun.
    split; [done|]. split; [|split_and!; [|done|done|done]].
    + constructor; simpl; try done.
      * destruct Hi as [Ho Hv Hfl]. constructor; [exact Ha| |done]. simpl. intros l Hl Hc.
        destruct (Hv l Hl Hc) as (pb & k & H1 & H2 & H3). exists pb, k. rewrite lookup_insert_ne; [done|].
        intros <-. congruence.
      * intros l [->%elem_of_singleton|Hl]%elem_of_union; [done|auto].
      * intros l Hl. destruct (decide (l ∈ X ∪ N)) as [|Hx]; [auto|].
        assert (l = (POOL MEMP_TCP_SEG, x)) as -> by set_solver. rewrite <- HLx. symmetry.
        apply Hbl; set_solver.
      * intros l Hl. rewrite lookup_insert. case_decide; [done|]. apply Hm. set_solver.
      * intros l Hx HlN. rewrite lookup_insert_ne by set_solver. apply Hbl; set_solver.
    + intros Hin. destruct (Hm _ Hin). congruence.
  - left. eexists. unfold on_alloc. rewrite Hrun. split; [done|]. split; [|done].
    constructor; simpl; try done. by apply inv_alloc.
Qed.

Lemma pool_seg_free_ok w0 L0 w L X N x : grown w0 L0 w L X N → (POOL MEMP_TCP_SEG, x) ∈ N →
  ∃ w' L', on_alloc (pool_free MEMP_TCP_SEG x) w = Ret ((), w') ∧
    grown w0 L0 w' L' X (N ∖ {[(POOL MEMP_TCP_SEG, x)]}) ∧ pbs w' = pbs w ∧ data w' = data w.
Proof.
  intros Hg Hx. pose proof Hg as [Hi Hlv Hf Hp Hs Hn Hm Hpb Hd Hbl]. destruct (Hm _ Hx) as [k Hk].
  destruct (pool_free_ok (allocs w) L MEMP_TCP_SEG x k) as (a & Hrun & Ha); [apply Hi|done|].
  eexists _, (delete (POOL MEMP_TCP_SEG, x) L). unfold on_alloc. rewrite Hrun. split; [done|]. split; [|done].
  assert (∀ l, l ∈ live w → l ≠ (POOL MEMP_TCP_SEG, x)) as Hne.
  { intros l Hl ->. destruct (inv_live _ _ Hi _ Hl) as (pb & ? & _ & _ & Ht & _); [done|].
    unfold typed in Ht. simpl in Ht. by destruct (type pb). }
  constructor; simpl; try done.
  - destruct Hi as [Ho Hv Hfl]. constructor; [exact Ha| |done]. simpl. intros l Hl Hc.
    destruct (Hv l Hl Hc) as (pb & k' & H1 & H2 & H3). exists pb, k'.
    rewrite lookup_delete_ne; [done|]. intros <-. by apply (Hne _ Hl).
  - set_solver.
  - set_solver.
  - intros l Hl. rewrite lookup_delete_ne by set_solver. apply Hm. set_solver.
  - intros l HX HlN. rewrite lookup_delete. case_decide as E; [subst l|].
    + symmetry. apply Hn. set_solver.
    + apply Hbl; set_solver.
Qed.

(** Changes of what came in addition. *)
Lemma grown_upd w0 L0 w L X N l pb pb' : grown w0 L0 w L X N → l ∈ X → pbs w !! l = Some pb →
  type pb' = type pb → flags pb' = flags pb → grown w0 L0 (upd_pbs l pb' w) L X N.
Proof.
  intros Hg Hl Hpb Ht Hfl. pose proof Hg as [Hi Hlv Hf Hp Hs Hn Hm Hpbs Hd Hbl].
  constructor; simpl; try done.
  - apply (inv_upd w L l pb); try done; [rewrite Hlv; set_solver|]. unfold not_custom. by rewrite Hfl.
  - intros l' Hl'. rewrite lookup_insert_ne; [auto|]. set_solver.
Qed.

Lemma grown_data w0 L0 w L X N l bs bs' : grown w0 L0 w L X N → l ∈ X → data w !! Own l = Some bs →
  length bs' = length bs → grown w0 L0 (set_data <[Own l := bs']> w) L X N.
Proof.
  intros Hg Hl Hbs Hlen. pose proof Hg as [Hi Hlv Hf Hp Hs Hn Hm Hpbs Hd Hbl].
  constructor; simpl; try done.
  - apply (inv_frame [Own l] w); [done|]. constructor; try done; intros r; simpl.
    + intros Hr. rewrite lookup_insert_ne; [done|]. intros <-. apply Hr. by left.
    + rewrite lookup_insert. case_decide as E; [subst r|done]. rewrite Hbs. simpl. by rewrite Hlen.
  - intros r Hr. rewrite lookup_insert_ne; [auto|]. intros <-. simpl in Hr.
    apply bool_decide_eq_true in Hr. set_solver.
Qed.

Lemma store_own w l o off bs src : l ∈ live w → data w !! Own l = Some bs → 0 ≤ o + off →
  o + off + Z.of_nat (length src) ≤ Z.of_nat (length bs) →
  store (Some (Own l, o)) off src w =
    Ret ((), set_data <[Own l := splice (Z.to_nat (o + off)) src bs]> w).
Proof.
  intros Hl Hbs H0 Hle. unfold store. destruct (Nat.eqb_spec (length src) 0) as [E|E].
  - apply nil_length_inv in E as ->. rewrite splice_nil. unfold set_data. rewrite insert_id by done.
    by destruct w.
  - simpl valid. rewrite bool_decide_eq_true_2 by done. rewrite Hbs.
    by rewrite (proj2 (Z.leb_le 0 _)), (proj2 (Z.leb_le _ _)) by lia.
Qed.

Lemma load_own w l o off n bs : l ∈ live w → data w !! Own l = Some bs → 0 ≤ o + off → 0 ≤ n →
  o + off + n ≤ Z.of_nat (length bs) →
  load (Some (Own l, o)) off n w = Ret (take (Z.to_nat n) (drop (Z.to_nat (o + off)) bs), w).
Proof.
  intros Hl Hbs H0 Hn Hle. unfold load. destruct (Z.eqb_spec n 0) as [->|E]; [done|].
  simpl valid. rewrite bool_decide_eq_true_2 by done. rewrite Hbs.
  by rewrite (proj2 (Z.leb_le 0 _)), (proj2 (Z.leb_le _ _)) by lia.
Qed.

(** A pbuf that came in addition goes back. *)
Lemma grown_pbuf_free (f : loc → M (world A) ()) w0 L0 w L X N l pb : grown w0 L0 w L X N → l ∈ X → pbs w !! l = Some pb →
  next pb = None → ref pb = 1 →
  ∃ w' L', pbuf_free f (Some l) w = Ret (1, w') ∧ grown w0 L0 w' L' (X ∖ {[l]}) N ∧
    data w' = data w ∧ ∀ l', l' ≠ l → pbs w' !! l' = pbs w !! l'.
Proof.
  intros Hg Hl Hpb Hnx Hr. pose proof Hg as [Hi Hlv Hf Hp Hs Hn Hm Hpbs Hd Hbl].
  assert (l ∈ live w) as Hll by (rewrite Hlv; set_solver).
  destruct (pbuf_free_ok f w L l [(l, pb)]) as (w' & Hrun & Hi' & Hlv' & Hd' & _ & Hp').
  { done. } { simpl. by rewrite Hnx. }
  { apply list.Forall_singleton. simpl. rewrite Hp by done. split; [done|lia]. }
  { simpl. rewrite Hr. done. }
  simpl in *. rewrite Hr in *. simpl in *. exists w', (delete l L). split; [done|].
  split; [|split; [done|]].
  2:{ intros l' Hne. apply Hp'. set_solver. }
  constructor; try done.
  - rewrite Hlv', Hlv. set_solver.
  - set_solver.
  - set_solver.
  - set_solver.
  - intros l' Hl'. rewrite lookup_delete_ne; [auto|]. intros ->. specialize (Hs _ Hl').
    rewrite (Hp _ Hl) in Hs. done.
  - intros l' Hl'. rewrite Hp'; [auto|]. set_solver.
  - intros r Hr'. rewrite Hd'. auto.
  - intros l' Hx HlN. rewrite lookup_delete. case_decide as E; [subst l'|].
    + symmetry. apply Hn. set_solver.
    + apply Hbl; set_solver.
Qed.

Lemma load_valid w r o off n d : load (Some (r, o)) off n w = Ret (d, w) → n ≠ 0 → valid r w = true.
Proof. intros Hld Hn. unfold load in Hld. rewrite (proj2 (Z.eqb_neq _ _)) in Hld by done. by destruct (valid r w). Qed.

Lemma grown_load w0 L0 w L X N p off n d : grown w0 L0 w L X N → load p off n w0 = Ret (d, w0) →
  load p off n w = Ret (d, w).
Proof.
  intros Hg Hld. eapply load_same; [|exact Hld]. intros Hn r o ->.
  pose proof (load_valid _ _ _ _ _ _ Hld Hn) as Hv.
  split; [by eapply grown_valid|by apply (gr_data _ _ _ _ _ _ Hg)].
Qed.

Lemma packet_grown w0 L0 w L X N p cs ds : grown w0 L0 w L X N → packet w0 p cs ds → packet w p cs ds.
Proof.
  intros Hg [Hc Ht Hcont]. constructor; [|done|].
  - eapply chain_same; [|exact Hc]. intros l Hin. pose proof (chain_live _ _ _ _ Hc Hin) as Hl.
    split; [by apply (gr_pbs _ _ _ _ _ _ Hg)|]. rewrite (gr_live _ _ _ _ _ _ Hg). set_solver.
  - clear Hc Ht. unfold content in *. induction Hcont as [|[l pb] d cs ds Hld Hcont IH]; constructor; [|done].
    by eapply grown_load.
Qed.

(** ** New pbufs *)

Definition ram_pbuf (q : loc) (off n : Z) : pbuf := mk_pbuf None (Some (Own q, off)) n n PBUF_RAM 0 1.

(** [q] is such a pbuf with the bytes [bs] in its block. *)
Record is_ram w (X : gset loc) (q : loc) (off n : Z) (bs : bytes) : Prop := mk_is_ram {
  ir_in : q ∈ X;
  ir_pbs : pbs w !! q = Some (ram_pbuf q off n);
  ir_data : data w !! Own q = Some bs;
  ir_range : 0 ≤ off ∧ 0 ≤ n ∧ off + n ≤ Z.of_nat (length bs);
}.
End Grown.

Section Ram.
Context {A : Type} `{HA : Alloc A} {elt_size : memp_t → Z} `{HL : !AllocLaws A elt_size}.
Implicit Types (w : world A) (L : gmap loc Z) (X N : gset loc) (l : loc) (pb : pbuf).

(** ** What does not change *)

Definition keeps w w' : Prop :=
  (∀ l, l ∈ live w → l ∈ live w' ∧ pbs w' !! l = pbs w !! l) ∧
  (∀ r, valid r w = true → data w' !! r = data w !! r).

Lemma keeps_refl w : keeps w w.
Proof. done. Qed.

Lemma keeps_valid w w' r : keeps w w' → valid r w = true → valid r w' = true.
Proof.
  intros [Hl _]. destruct r as [l|]; [|done]. simpl. rewrite !bool_decide_eq_true. intros Hin. by apply Hl.
Qed.

Lemma keeps_trans w1 w2 w3 : keeps w1 w2 → keeps w2 w3 → keeps w1 w3.
Proof.
  intros K1 K2. split.
  - intros l Hl. destruct (proj1 K1 l Hl) as [H1 E1]. destruct (proj1 K2 l H1) as [H2 E2].
    split; [done|congruence].
  - intros r Hr. rewrite (proj2 K2) by (by apply (keeps_valid w1)). by apply K1.
Qed.

Lemma packet_keeps w w' p cs ds : keeps w w' → packet w p cs ds → packet w' p cs ds.
Proof.
  intros Hk [Hc Ht Hcont]. constructor; [|done|].
  - eapply chain_same; [|exact Hc]. intros l Hin. pose proof (chain_live _ _ _ _ Hc Hin) as Hl.
    by destruct (proj1 Hk l Hl).
  - clear Hc Ht. unfold content in *. induction Hcont as [|[l pb] d cs ds Hld Hcont IH]; constructor; [|done].
    eapply load_same; [|exact Hld]. intros Hn r o E. simpl in E, Hld. rewrite E in Hld.
    pose proof (load_valid _ _ _ _ _ _ Hld Hn) as Hv. split; [by eapply keeps_valid|by apply Hk].
Qed.

(** The bytes of a packet are in memory that may be accessed. *)
Lemma keeps_ram w w' X X' q off n bs : keeps w w' → q ∈ live w → q ∈ X' →
  is_ram w X q off n bs → is_ram w' X' q off n bs.
Proof.
  intros [K1 K2] Hl Hx [Hin Hpb Hd Hr]. constructor; [done| | |done].
  - by rewrite (proj2 (K1 q Hl)).
  - rewrite K2; [done|]. simpl. by apply bool_decide_eq_true.
Qed.

(** Changes of a pbuf that was not there keep what was. *)
Lemma keeps_fresh w1 w2 w3 q : keeps w1 w2 → q ∉ live w1 → live w2 ⊆ live w3 →
  (∀ l, l ≠ q → pbs w3 !! l = pbs w2 !! l) → (∀ r, r ≠ Own q → data w3 !! r = data w2 !! r) →
  keeps w1 w3.
Proof.
  intros [K1 K2] Hq Hlv Hp Hd. split.
  - intros l Hl. destruct (K1 l Hl) as [Hl2 E]. split; [by apply Hlv|]. rewrite Hp; [done|]. by intros ->.
  - intros r Hr. rewrite Hd; [by apply K2|]. intros ->. simpl in Hr. by apply bool_decide_eq_true in Hr.
Qed.

Lemma ram_live w0 L0 w L X N q off n bs : grown w0 L0 w L X N → is_ram w X q off n bs → q ∈ live w.
Proof. intros Hg [Hin _ _ _]. rewrite (gr_live _ _ _ _ _ _ Hg). set_solver. Qed.

(** Bytes copied into such a pbuf. *)
Lemma ram_store w0 L0 w L X N q off n bs src : grown w0 L0 w L X N → is_ram w X q off n bs →
  Z.of_nat (length src) ≤ n →
  ∃ w', store (Some (Own q, off)) 0 src w = Ret ((), w') ∧ grown w0 L0 w' L X N ∧
    is_ram w' X q off n (splice (Z.to_nat off) src bs) ∧ live w' = live w ∧
    (∀ l, l ≠ q → pbs w' !! l = pbs w !! l) ∧ (∀ r, r ≠ Own q → data w' !! r = data w !! r).
Proof.
  intros Hg Hr Hs. pose proof (ram_live _ _ _ _ _ _ _ _ _ _ Hg Hr) as Hl.
  destruct Hr as [Hin Hpb Hd Hrg]. eexists. rewrite (store_own w q off 0 bs src), Z.add_0_r by (done || lia).
  split; [reflexivity|]. assert (length (splice (Z.to_nat off) src bs) = length bs) as E
    by (apply splice_length; lia).
  split; [by eapply grown_data|]. split; [|split_and!; [done|done|]].
  - constructor; [done|done|apply lookup_insert_eq|by rewrite E].
  - intros r Hr. simpl. by rewrite lookup_insert_ne.
Qed.

Lemma ram_clen w q off n : q ∈ live w → pbs w !! q = Some (ram_pbuf q off n) →
  pbuf_clen (Some q) w = Ret (1, w).
Proof.
  intros Hl Hp. unfold pbuf_clen. rewrite bind_get.
  rewrite (clen_loop_ok w _ (Some q) [(q, ram_pbuf q off n)]); try done. simpl. unfold fuel. lia.
Qed.

(** What a call may change: the pbufs [ls] and their bytes, not the memory they have. *)
Record changes (ls : list loc) w w' : Prop := mk_changes {
  ch_live : live w' = live w;
  ch_allocs : allocs w' = allocs w;
  ch_pbs l : l ∉ ls → pbs w' !! l = pbs w !! l;
  ch_kind l : (λ pb, (type pb, flags pb)) <$> pbs w' !! l = (λ pb, (type pb, flags pb)) <$> pbs w !! l;
  ch_data r : (∀ l, l ∈ ls → r ≠ Own l) → data w' !! r = data w !! r;
  ch_size r : length <$> data w' !! r = length <$> data w !! r;
}.

Lemma changes_refl ls w : changes ls w w.
Proof. done. Qed.

Lemma changes_trans ls ls' w1 w2 w3 : changes ls w1 w2 → changes ls' w2 w3 → changes (ls ++ ls') w1 w3.
Proof.
  intros [A1 A2 A3 A4 A5 A6] [B1 B2 B3 B4 B5 B6]. constructor; [congruence|congruence| | | |].
  - intros l Hl. rewrite B3, A3 by set_solver. done.
  - intros l. etransitivity; [apply B4|apply A4].
  - intros r Hr. rewrite B5, A5; [done|..]; intros l Hl; apply Hr; set_solver.
  - intros r. etransitivity; [apply B6|apply A6].
Qed.

Lemma changes_mono ls ls' w w' : ls ⊆ ls' → changes ls w w' → changes ls' w w'.
Proof. intros Hs [A1 A2 A3 A4 A5 A6]. constructor; try done; [auto|]. intros r Hr. apply A5. auto. Qed.

Lemma inv_changes w w' L ls : inv w L → changes ls w w' → inv w' L.
Proof.
  intros [Ho Hv Hf] [C1 C2 C3 C4 C5 C6]. constructor.
  - by rewrite C2.
  - intros l Hl Hc. rewrite C1 in Hl. destruct (Hv l Hl Hc) as (pb & k & H1 & H2 & H3 & H4 & H5).
    specialize (C4 l). rewrite H1 in C4. destruct (pbs w' !! l) as [pb'|] eqn:E; [|done].
    injection C4 as Et Ef. exists pb', k. unfold typed, not_custom in *. rewrite Et, Ef. split_and!; try done.
    intros bs Hbs. specialize (C6 (Own l)). rewrite Hbs in C6.
    destruct (data w !! Own l) as [bs0|] eqn:Ed; [|done]. injection C6 as ->. by apply H5.
  - intros a pb Hp. specialize (C4 (POOL MEMP_PBUF_POOL, a)). rewrite Hp in C4.
    destruct (pbs w !! (POOL MEMP_PBUF_POOL, a)) as [pb0|] eqn:E; [|done]. injection C4 as _ Ef.
    unfold not_custom. rewrite Ef. by apply (Hf a).
Qed.

Lemma set_data_twice (r : region) (a b : bytes) w :
  set_data <[r := b]> (set_data <[r := a]> w) = set_data <[r := b]> w.
Proof. unfold set_data. simpl. by rewrite insert_insert_eq. Qed.

Lemma splice_length_ge n i (src bs : bytes) : (i + length src ≤ n)%nat → (n ≤ length bs)%nat →
  (n ≤ length (splice i src bs))%nat.
Proof. intros ??. rewrite splice_length; lia. Qed.

Context (uninit : world A → loc → Z → bytes) (custom_free_function : loc → M (world A) ()).
Hypothesis uninit_length : ∀ w l n, 0 ≤ n → Z.of_nat (length (uninit w l n)) = n.
Hypothesis pool_size : elt_size MEMP_PBUF_POOL = SIZEOF_STRUCT_PBUF + PBUF_POOL_BUFSIZE_ALIGNED.
Hypothesis ref_size : elt_size MEMP_PBUF = SIZEOF_STRUCT_PBUF.

(** A new pbuf from the heap. *)
Lemma alloc_ram_ok w0 L0 w L X N layer length : grown w0 L0 w L X N → 0 ≤ length ≤ 60000 →
  ∃ r w', pbuf_alloc uninit custom_free_function layer length PBUF_RAM w = Ret (r, w') ∧
    match r with
    | None => grown w0 L0 w' L X N
    | Some q => ∃ L' bs, grown w0 L0 w' L' (X ∪ {[q]}) N ∧ q ∉ X ∧
        is_ram w' (X ∪ {[q]}) q (header_offset layer) length bs
    end ∧ (∀ l, l ∈ live w → pbs w' !! l = pbs w !! l) ∧ (∀ r, valid r w = true → data w' !! r = data w !! r).
Proof.
  intros Hg Hn. pose proof (header_offset_range layer) as Ho.
  destruct (pbuf_alloc_ok custom_free_function uninit uninit_length pool_size ref_size w L layer length PBUF_RAM)
    as ([q|] & w' & Hrun & Hpost); [apply Hg|unfold is_u16; lia|intros _; change SIZEOF_STRUCT_PBUF with 24; lia| |].
  - exists (Some q), w'. split; [done|]. destruct Hpost as (L' & cs & Hnp).
    destruct (np_single _ _ _ _ _ _ _ _ _ Hnp) as [pb ->]; [done|].
    destruct Hnp as [Hb Hc Ht Hlens _ Hrefs Hcont Hroom].
    destruct (Hcont (or_introl eq_refl)) as [_ [Hpay Hfl]]. destruct (Hroom eq_refl) as (Hh & bs & Hbs & Hle).
    apply list.Forall_singleton in Hrefs as [Hr Hty]. simpl in *.
    destruct Hc as (_ & Hl & Hpb & Hnx). destruct Ht as (Htot & _ & _ & _).
    split; [|split; [apply Hb|apply Hb]]. exists L', bs. split_and!.
    + pose proof (grown_built _ _ _ _ _ _ _ _ _ Hg Hb) as K. simpl in K.
      replace (X ∪ {[q]}) with (X ∪ ({[q]} ∪ ∅)) by set_solver.
      apply K. intros l ->%list_elem_of_singleton. done.
    + intros Hx. destruct (bu_fresh _ _ _ _ _ Hb q) as [Hx' _]; [by left|].
      rewrite (gr_live _ _ _ _ _ _ Hg) in Hx'. set_solver.
    + constructor; [set_solver| |done|lia]. rewrite Hpb. destruct pb. unfold ram_pbuf. simpl in *. subst.
      do 2 f_equal; lia.
  - exists None, w'. split; [done|]. split; [|split; [apply Hpost|apply Hpost]].
    pose proof (grown_built _ _ _ _ _ _ _ _ _ Hg Hpost) as K. simpl in K.
    replace X with (X ∪ ∅) by set_solver. apply K. by intros l ?%elem_of_nil.
Qed.
End Ram.
