(* ===== verification/Chksum.v ===== *)
(** * Internet checksum: [lwip/src/core/inet_chksum.c]

    The three versions of [lwip_standard_chksum] the file has (the build takes
    version 2), on the bytes of a buffer and the alignment of its address, and
    the functions that run it over pbuf chains.  The machine is little-endian. *)

From S2P Require Import Prelude CLib Def Mem Alloc Pbuf PbufChain PbufSpec.
Import Pbuf Def.

Module Chksum.

Definition SWAP_BYTES_IN_WORD (w : Z) : Z :=
  Z.lor (Z.shiftl (Z.land w 0xff) 8) (Z.shiftr (Z.land w 0xff00) 8).
Definition FOLD_U32T (u : Z) : Z := u32 (Z.shiftr u 16 + Z.land u 0x0000ffff).

(** ** Version 1 *)

Fixpoint sum_net (l : bytes) (acc : Z) : Z * bytes :=
  match l with
  | a :: b :: l' => sum_net l' (u32 (acc + u16 (Z.lor (u16 (Z.shiftl a 8)) b)))
  | _ => (acc, l)
  end.

Definition lwip_standard_chksum_1 (l : bytes) : Z :=
  let '(acc, l') := sum_net l 0 in
  let acc := match l' with a :: _ => u32 (acc + u16 (Z.shiftl a 8)) | [] => acc end in
  let acc := u32 (Z.shiftr acc 16 + Z.land acc 0x0000ffff) in
  let acc := if negb (Z.land acc 0xffff0000 =? 0)
             then u32 (Z.shiftr acc 16 + Z.land acc 0x0000ffff) else acc in
  lwip_htons (u16 acc).

(** ** Version 2 *)

(** The loop over 16-bit words; what is left is at most a byte. *)
Fixpoint sum_words (l : bytes) (sum : Z) : Z * bytes :=
  match l with
  | a :: b :: l' => sum_words l' (u32 (sum + (a + 256 * b)))
  | _ => (sum, l)
  end.

(** [t] is the word with the end bytes: byte 1 when the buffer starts at an odd
    address, byte 0 when a byte is left over. *)
Definition lwip_standard_chksum_2 (odd : bool) (l : bytes) : Z :=
  let '(t1, l) := match odd, l with true, b :: l' => (b, l') | _, _ => (0, l) end in
  let '(sum, l) := sum_words l 0 in
  let t0 := match l with b :: _ => b | [] => 0 end in
  let sum := u32 (sum + (t0 + 256 * t1)) in
  let sum := FOLD_U32T sum in
  let sum := FOLD_U32T sum in
  let sum := if odd then SWAP_BYTES_IN_WORD sum else sum in
  u16 sum.

(** ** Version 3 *)

Definition add_carry (x y : Z) : Z :=
  let tmp := u32 (x + y) in
  if tmp <? x then u32 (tmp + 1) else tmp.

(** The loop over 8 bytes at a time. *)
Fixpoint sum_longs (l : bytes) (sum : Z) : Z * bytes :=
  match l with
  | a :: b :: c :: d :: e :: f :: g :: h :: l' =>
      let tmp := add_carry sum (le_word [a; b; c; d]) in
      sum_longs l' (add_carry tmp (le_word [e; f; g; h]))
  | _ => (sum, l)
  end.

(** [align]: the two low bits of the buffer's address. *)
Definition lwip_standard_chksum_3 (align : Z) (l : bytes) : Z :=
  let odd := negb (Z.land align 1 =? 0) in
  let '(t1, l, align) :=
    match odd, l with true, b :: l' => (b, l', align + 1) | _, _ => (0, l, align) end in
  let '(sum, l) :=
    match l with
    | a :: b :: l' => if negb (Z.land align 3 =? 0) then (a + 256 * b, l') else (0, l)
    | _ => (0, l)
    end in
  let '(sum, l) := sum_longs l sum in
  let sum := FOLD_U32T sum in
  let '(sum, l) := sum_words l sum in
  let t0 := match l with b :: _ => b | [] => 0 end in
  let sum := u32 (sum + (t0 + 256 * t1)) in
  let sum := FOLD_U32T sum in
  let sum := FOLD_U32T sum in
  let sum := if odd then SWAP_BYTES_IN_WORD sum else sum in
  u16 sum.

(** ** Pbuf chains *)

Section Pbufs.
Context {A : Type}.
Context (addr : ptr → Z).   (* the address of a payload *)

Abbreviation W := (world A).

(** [LWIP_CHKSUM(payload, len)] *)
Definition chksum_payload (p : option ptr) (n : Z) : M W Z :=
  bs ← load p 0 n;
  let odd := match p with Some q => Z.odd (addr q) | None => false end in
  mret (lwip_standard_chksum_2 odd bs).

(** One round of the loops over a chain. *)
Definition chksum_step (acc swapped s len : Z) : Z * Z :=
  let acc := u32 (acc + s) in
  let acc := FOLD_U32T acc in
  if negb (len mod 2 =? 0) then (SWAP_BYTES_IN_WORD acc, 1 - swapped) else (acc, swapped).

Fixpoint chksum_loop (n : nat) (q : option loc) (acc swapped : Z) : M W (Z * Z) :=
  match q with
  | None => mret (acc, swapped)
  | Some l =>
      match n with
      | O => fail Diverges
      | S n' =>
          pb ← rd l;
          s ← chksum_payload (payload pb) (len pb);
          let '(acc, swapped) := chksum_step acc swapped s (len pb) in
          chksum_loop n' (next pb) acc swapped
      end
  end.

Fixpoint chksum_partial_loop (n : nat) (q : option loc) (acc swapped chksum_len : Z) :
    M W (Z * Z) :=
  match q with
  | None => mret (acc, swapped)
  | Some l =>
      if chksum_len >? 0 then
        match n with
        | O => fail Diverges
        | S n' =>
            pb ← rd l;
            let chklen := if len pb >? chksum_len then chksum_len else len pb in
            s ← chksum_payload (payload pb) chklen;
            let chksum_len := u16 (chksum_len - chklen) in
            _ ← assert_ (chksum_len <? 0x7fff);
            let '(acc, swapped) := chksum_step acc swapped s (len pb) in
            chksum_partial_loop n' (next pb) acc swapped chksum_len
        end
      else mret (acc, swapped)
  end.

(** The rest of the pseudo header, the folding and the complement. *)
Definition pseudo_finish (acc swapped proto proto_len : Z) : Z :=
  let acc := if negb (swapped =? 0) then SWAP_BYTES_IN_WORD acc else acc in
  let acc := u32 (acc + lwip_htons (u16 proto)) in
  let acc := u32 (acc + lwip_htons proto_len) in
  let acc := FOLD_U32T acc in
  let acc := FOLD_U32T acc in
  u16 (Z.lnot (Z.land acc 0xffff)).

Definition inet_cksum_pseudo_base (p : option loc) (proto proto_len acc : Z) : M W Z :=
  w ← get;
  '(acc, swapped) ← chksum_loop (fuel w) p acc 0;
  mret (pseudo_finish acc swapped proto proto_len).

Definition inet_cksum_pseudo_partial_base (p : option loc) (proto proto_len chksum_len acc : Z) :
    M W Z :=
  w ← get;
  '(acc, swapped) ← chksum_partial_loop (fuel w) p acc 0 chksum_len;
  mret (pseudo_finish acc swapped proto proto_len).

(** The sum of the addresses, as [inet_chksum_pseudo] and
    [inet_chksum_pseudo_partial] compute it. *)
Definition addr_acc (src dest : Z) : Z :=
  let acc := Z.land src 0xffff in
  let acc := u32 (acc + Z.land (Z.shiftr src 16) 0xffff) in
  let acc := u32 (acc + Z.land dest 0xffff) in
  let acc := u32 (acc + Z.land (Z.shiftr dest 16) 0xffff) in
  FOLD_U32T (FOLD_U32T acc).

Definition inet_chksum_pseudo (p : option loc) (proto proto_len src dest : Z) : M W Z :=
  inet_cksum_pseudo_base p proto proto_len (addr_acc src dest).
Definition inet_chksum_pseudo_partial (p : option loc) (proto proto_len chksum_len src dest : Z) :
    M W Z :=
  inet_cksum_pseudo_partial_base p proto proto_len chksum_len (addr_acc src dest).

(** With IPv6 configured out the next two only forward. *)
Definition ip_chksum_pseudo (p : option loc) (proto proto_len src dest : Z) : M W Z :=
  inet_chksum_pseudo p proto proto_len src dest.
Definition ip_chksum_pseudo_partial (p : option loc) (proto proto_len chksum_len src dest : Z) :
    M W Z :=
  inet_chksum_pseudo_partial p proto proto_len chksum_len src dest.

Definition inet_chksum (odd : bool) (data : bytes) : Z :=
  u16 (Z.lnot (lwip_standard_chksum_2 odd data)).

Definition inet_chksum_pbuf (p : option loc) : M W Z :=
  w ← get;
  '(acc, swapped) ← chksum_loop (fuel w) p 0 0;
  let acc := if negb (swapped =? 0) then SWAP_BYTES_IN_WORD acc else acc in
  mret (u16 (Z.lnot (Z.land acc 0xffff))).

End Pbufs.
End Chksum.
Import Chksum.

(** ** The reference: RFC 1071

    The sum of the 16-bit words, a last byte padded with zero, in one's
    complement arithmetic; 0 only for data that is all zero. *)

Fixpoint word_sum (l : bytes) : Z :=
  match l with
  | a :: b :: l' => a + 256 * b + word_sum l'
  | [a] => a
  | [] => 0
  end.

Definition ones_complement (s : Z) : Z := if s =? 0 then 0 else (s - 1) mod 65535 + 1.

Definition rfc1071 (l : bytes) : Z := ones_complement (word_sum l).

(** [s ≈ t]: the same one's complement number. *)
Definition same_sum (s t : Z) : Prop := s mod 65535 = t mod 65535 ∧ (s = 0 ↔ t = 0).

#[global] Instance same_sum_equiv : Equivalence same_sum.
Proof.
  split.
  - done.
  - intros s t [H1 H2]. by split.
  - intros s t u [H1 H2] [K1 K2]. split; [congruence|tauto].
Qed.

Lemma ones_complement_range s : 0 ≤ s → is_u16 (ones_complement s).
Proof.
  intros Hs. unfold ones_complement. destruct (Z.eqb_spec s 0); [done|].
  pose proof (Z.mod_pos_bound (s - 1) 65535). unfold is_u16. lia.
Qed.

Lemma ones_complement_same s : 0 ≤ s → same_sum (ones_complement s) s.
Proof.
  intros Hs. unfold ones_complement, same_sum. destruct (Z.eqb_spec s 0) as [->|]; [done|].
  split.
  - rewrite Zplus_mod_idemp_l. f_equal. lia.
  - pose proof (Z.mod_pos_bound (s - 1) 65535). lia.
Qed.

(** Its 16-bit representative is unique. *)
Lemma same_sum_unique x s : is_u16 x → 0 ≤ s → same_sum x s → x = ones_complement s.
Proof.
  intros Hx Hs H. pose proof (ones_complement_range s Hs) as Hr.
  assert (same_sum x (ones_complement s)) as [Hm Hz].
  { etransitivity; [exact H|]. symmetry. by apply ones_complement_same. }
  unfold is_u16 in *. change (2 ^ 16) with 65536 in *.
  Z.div_mod_to_equations. lia.
Qed.

Lemma same_sum_add s t s' t' : 0 ≤ s → 0 ≤ t → 0 ≤ s' → 0 ≤ t' →
  same_sum s s' → same_sum t t' → same_sum (s + t) (s' + t').
Proof.
  intros ???? [H1 H2] [K1 K2]. split; [|lia].
  rewrite (Z.add_mod s), (Z.add_mod s'), H1, K1 by done. done.
Qed.

Lemma same_sum_mul c s t : 0 < c → same_sum s t → same_sum (c * s) (c * t).
Proof.
  intros Hc [H1 H2]. split; [|nia]. rewrite (Z.mul_mod c s), (Z.mul_mod c t), H1 by done. done.
Qed.

(** ** The building blocks *)

Lemma fold_eq u : is_u32 u → FOLD_U32T u = u / 65536 + u mod 65536.
Proof.
  intros Hu. unfold FOLD_U32T. rewrite Z.shiftr_div_pow2 by lia.
  change 0x0000ffff with 0xffff. rewrite land_ffff. change (2 ^ 16) with 65536. clia.
Qed.

Lemma fold_same u : is_u32 u → same_sum (FOLD_U32T u) u.
Proof.
  intros Hu. rewrite fold_eq by done. unfold is_u32 in Hu. change (2 ^ 32) with 4294967296 in Hu.
  split; [|Z.div_mod_to_equations; lia].
  replace u with (u / 65536 + u mod 65536 + (u / 65536) * 65535) at 3 by (Z.div_mod_to_equations; lia).
  by rewrite Z.mod_add.
Qed.

Lemma fold_small u : 0 ≤ u ≤ 0x1fffe → is_u16 (FOLD_U32T u).
Proof. intros Hu. rewrite fold_eq by clia. clia. Qed.

Lemma fold_once u : is_u32 u → 0 ≤ FOLD_U32T u ≤ 0x1fffe.
Proof. intros Hu. rewrite fold_eq by done. clia. Qed.

Lemma fold_fold u : is_u32 u → FOLD_U32T (FOLD_U32T u) = ones_complement u.
Proof.
  intros Hu. pose proof (fold_once u Hu). apply same_sum_unique.
  - by apply fold_small.
  - apply Hu.
  - etransitivity; [apply fold_same; clia|by apply fold_same].
Qed.

Lemma fold_one u : 0 ≤ u ≤ 0x1fffe → FOLD_U32T u = ones_complement u.
Proof.
  intros Hu. apply same_sum_unique; [by apply fold_small|lia|]. apply fold_same. clia.
Qed.

Lemma swap_eq x : is_u16 x → SWAP_BYTES_IN_WORD x = 256 * (x mod 256) + x / 256.
Proof.
  intros Hx. unfold SWAP_BYTES_IN_WORD. rewrite land_ff.
  change 0xff00 with (Z.shiftl (Z.ones 8) 8). rewrite land_field by lia.
  rewrite lor_shiftl_add by clia. clia.
Qed.

Lemma swap_range x : is_u16 x → is_u16 (SWAP_BYTES_IN_WORD x).
Proof. intros Hx. rewrite swap_eq by done. clia. Qed.

(** Swapping the bytes multiplies by 256. *)
Lemma swap_same x : is_u16 x → same_sum (SWAP_BYTES_IN_WORD x) (256 * x).
Proof.
  intros Hx. rewrite swap_eq by done. split; [|clia].
  replace (256 * x) with (256 * (x mod 256) + x / 256 + (x / 256) * 65535) by clia.
  by rewrite Z.mod_add.
Qed.

Lemma same_sum_65536 s : 0 ≤ s → same_sum (65536 * s) s.
Proof.
  intros Hs. split; [|lia]. replace (65536 * s) with (s + s * 65535) by lia. by rewrite Z.mod_add.
Qed.

(** ** Sums of byte strings *)

Lemma bytes_ind2 (P : bytes → Prop) :
  P [] → (∀ a, P [a]) → (∀ a b l, P l → P (a :: b :: l)) → ∀ l, P l.
Proof.
  intros H0 H1 H2 l. enough (P l ∧ ∀ a, P (a :: l)) by tauto.
  induction l as [|b l [IH1 IH2]]; [auto|]. split; [apply IH2|]. intros a. by apply H2.
Qed.

Lemma word_sum_bound l : wf_bytes l →
  0 ≤ word_sum l ∧ 2 * word_sum l ≤ 65535 * (Z.of_nat (length l) + 1).
Proof.
  unfold wf_bytes. induction l as [|a|a b l IH] using bytes_ind2; intros Hw; cbn [word_sum length].
  - lia.
  - rewrite list.Forall_singleton in Hw. clia.
  - apply list.Forall_cons in Hw as [Ha Hw]. apply list.Forall_cons in Hw as [Hb Hw].
    specialize (IH Hw). clia.
Qed.

Lemma word_sum_nonneg l : wf_bytes l → 0 ≤ word_sum l.
Proof. intros Hw. by apply word_sum_bound. Qed.

Lemma le_word_nonneg l : wf_bytes l → 0 ≤ le_word l.
Proof.
  induction l as [|a l IH]; intros Hw; cbn [le_word]; [done|].
  apply list.Forall_cons in Hw as [Ha Hw]. specialize (IH Hw). clia.
Qed.

(** The sum of the words is the whole string read as one little-endian number. *)
Lemma word_sum_le l : wf_bytes l → same_sum (word_sum l) (le_word l).
Proof.
  unfold wf_bytes. induction l as [|a|a b l IH] using bytes_ind2; intros Hw; cbn [word_sum le_word].
  - done.
  - by rewrite Z.mul_0_r, Z.add_0_r.
  - apply list.Forall_cons in Hw as [Ha Hw]. apply list.Forall_cons in Hw as [Hb Hw].
    pose proof (word_sum_nonneg l Hw). pose proof (le_word_nonneg l Hw). unfold is_u8 in *.
    replace (a + 256 * (b + 256 * le_word l)) with (a + 256 * b + 65536 * le_word l) by lia.
    apply same_sum_add; [lia..|done|].
    etransitivity; [by apply IH|]. symmetry. by apply same_sum_65536.
Qed.

Lemma le_word_app a b : le_word (a ++ b) = le_word a + 256 ^ Z.of_nat (length a) * le_word b.
Proof.
  induction a as [|x a IH]; cbn [app le_word length]; [lia|].
  rewrite IH, Nat2Z.inj_succ, Z.pow_succ_r by lia. lia.
Qed.

Lemma pow_same n s : 0 ≤ s →
  same_sum (256 ^ Z.of_nat n * s) (if Nat.even n then s else 256 * s).
Proof.
  intros Hs. induction n as [|n IH]; [by rewrite Z.mul_1_l|].
  rewrite Nat2Z.inj_succ, Z.pow_succ_r, <- Z.mul_assoc by lia.
  apply (same_sum_mul 256) in IH; [|lia]. etransitivity; [exact IH|].
  rewrite Nat.even_succ, <- Nat.negb_even. destruct (Nat.even n); [done|].
  rewrite Z.mul_assoc. by apply same_sum_65536.
Qed.

(** Concatenation: behind an odd number of bytes the words are swapped. *)
Lemma word_sum_app a b : wf_bytes a → wf_bytes b →
  same_sum (word_sum (a ++ b))
    (word_sum a + (if Nat.even (length a) then word_sum b else 256 * word_sum b)).
Proof.
  intros Ha Hb. pose proof (word_sum_nonneg a Ha). pose proof (word_sum_nonneg b Hb).
  pose proof (le_word_nonneg a Ha). pose proof (le_word_nonneg b Hb).
  etransitivity; [apply word_sum_le; by apply list.Forall_app|]. rewrite le_word_app.
  apply same_sum_add; [lia|nia|done|by destruct (Nat.even _); lia| |].
  - symmetry. by apply word_sum_le.
  - etransitivity; [by apply pow_same|]. symmetry.
    destruct (Nat.even _); [by apply word_sum_le|]. apply same_sum_mul; [lia|]. by apply word_sum_le.
Qed.

Definition head0 (l : bytes) : Z := match l with b :: _ => b | [] => 0 end.

Lemma sum_words_ok l sum : wf_bytes l → 0 ≤ sum → sum + word_sum l < 2 ^ 32 →
  ∃ s l', sum_words l sum = (s, l') ∧ s + head0 l' = sum + word_sum l ∧ 0 ≤ s ∧ 0 ≤ head0 l' < 256.
Proof.
  unfold wf_bytes. revert sum.
  induction l as [|a|a b l IH] using bytes_ind2; intros sum Hw Hs Hb; cbn [word_sum sum_words] in *.
  - exists sum, []. cbn. split; [done|]. lia.
  - rewrite list.Forall_singleton in Hw. exists sum, [a]. cbn. split; [done|]. clia.
  - apply list.Forall_cons in Hw as [Ha Hw]. apply list.Forall_cons in Hw as [Hbb Hw].
    pose proof (word_sum_nonneg l Hw). rewrite u32_id by clia.
    destruct (IH (sum + (a + 256 * b))) as (s & l' & -> & E & ? & ?); [done|clia|lia|].
    exists s, l'. split_and!; [done|lia..].
Qed.

Lemma sum_swapped b l : wf_bytes (b :: l) →
  same_sum (256 * (256 * b + word_sum l)) (word_sum (b :: l)).
Proof.
  intros Hw. symmetry. pose proof Hw as Hw0. apply list.Forall_cons in Hw as [Hb Hw].
  pose proof (word_sum_nonneg l Hw). unfold is_u8 in Hb.
  etransitivity; [apply (word_sum_app [b] l); [by apply list.Forall_singleton|done]|].
  cbn [word_sum length Nat.even]. rewrite Z.mul_add_distr_l, Z.mul_assoc.
  apply same_sum_add; [lia..| |done]. symmetry. apply same_sum_65536. lia.
Qed.

(** The tail all versions share: add the end bytes, fold, swap. *)
Lemma finish_even s t0 n : 0 ≤ s → 0 ≤ t0 → same_sum (s + t0) n → 0 ≤ n → s + t0 < 2 ^ 32 →
  u16 (FOLD_U32T (FOLD_U32T (u32 (s + (t0 + 256 * 0))))) = ones_complement n.
Proof.
  intros Hs Ht Hsame Hn Hb. rewrite Z.mul_0_r, Z.add_0_r, (u32_id (s + t0)) by clia.
  rewrite fold_fold by clia. rewrite u16_id by (apply ones_complement_range; lia).
  apply same_sum_unique; [apply ones_complement_range; lia|done|].
  etransitivity; [apply ones_complement_same; lia|done].
Qed.

Lemma finish_odd s t0 t1 n : 0 ≤ s → 0 ≤ t0 → 0 ≤ t1 → same_sum (256 * (s + t0 + 256 * t1)) n →
  0 ≤ n → s + t0 + 256 * t1 < 2 ^ 32 →
  u16 (SWAP_BYTES_IN_WORD (FOLD_U32T (FOLD_U32T (u32 (s + (t0 + 256 * t1)))))) =
  ones_complement n.
Proof.
  intros Hs Ht Ht1 Hsame Hn Hb. rewrite Z.add_assoc, (u32_id (s + t0 + 256 * t1)) by clia.
  rewrite fold_fold by clia.
  assert (is_u16 (ones_complement (s + t0 + 256 * t1))) as Hr by (apply ones_complement_range; lia).
  rewrite u16_id by (by apply swap_range). apply same_sum_unique; [by apply swap_range|done|].
  etransitivity; [by apply swap_same|]. etransitivity; [|exact Hsame].
  apply same_sum_mul; [lia|]. apply ones_complement_same. lia.
Qed.

Lemma chksum_2_ok odd l : wf_bytes l → Z.of_nat (length l) ≤ 0x20000 →
  lwip_standard_chksum_2 odd l = rfc1071 l.
Proof.
  intros Hw Hl. unfold lwip_standard_chksum_2, rfc1071. pose proof (word_sum_bound l Hw) as [H0 H1].
  destruct odd; [destruct l as [|b l]|].
  - done.
  - pose proof Hw as Hw0. apply list.Forall_cons in Hw as [Hb Hw].
    pose proof (word_sum_bound l Hw) as [K0 K1]. cbn [length] in *.
    destruct (sum_words_ok l 0 Hw) as (s & l' & -> & E & Hs & Ht); [lia|clia|].
    change (match l' with b :: _ => b | [] => 0 end) with (head0 l').
    apply finish_odd; try (clia || lia).
    replace (s + head0 l' + 256 * b) with (256 * b + word_sum l) by lia. by apply sum_swapped.
  - destruct (sum_words_ok l 0 Hw) as (s & l' & -> & E & Hs & Ht); [lia|clia|].
    change (match l' with b :: _ => b | [] => 0 end) with (head0 l').
    apply finish_even; try (clia || lia). by rewrite E.
Qed.

(** ** Version 1: network order *)

Fixpoint net_sum (l : bytes) : Z :=
  match l with
  | a :: b :: l' => 256 * a + b + net_sum l'
  | [a] => 256 * a
  | [] => 0
  end.

Lemma net_sum_bound l : wf_bytes l →
  0 ≤ net_sum l ∧ 2 * net_sum l ≤ 65535 * (Z.of_nat (length l) + 1).
Proof.
  unfold wf_bytes. induction l as [|a|a b l IH] using bytes_ind2; intros Hw; cbn [net_sum length].
  - lia.
  - rewrite list.Forall_singleton in Hw. clia.
  - apply list.Forall_cons in Hw as [Ha Hw]. apply list.Forall_cons in Hw as [Hb Hw].
    specialize (IH Hw). clia.
Qed.

Lemma net_sum_same l : wf_bytes l → same_sum (net_sum l) (256 * word_sum l).
Proof.
  unfold wf_bytes. induction l as [|a|a b l IH] using bytes_ind2; intros Hw; cbn [net_sum word_sum].
  - done.
  - done.
  - apply list.Forall_cons in Hw as [Ha Hw]. apply list.Forall_cons in Hw as [Hb Hw].
    pose proof (word_sum_nonneg l Hw). pose proof (net_sum_bound l Hw). unfold is_u8 in *.
    rewrite Z.mul_add_distr_l. apply same_sum_add; [lia..| |by apply IH].
    rewrite Z.mul_add_distr_l, Z.mul_assoc. apply same_sum_add; [lia..|done|].
    symmetry. apply same_sum_65536. lia.
Qed.

Lemma sum_net_ok l acc : wf_bytes l → 0 ≤ acc → acc + net_sum l < 2 ^ 32 →
  ∃ s l', sum_net l acc = (s, l') ∧ s + 256 * head0 l' = acc + net_sum l ∧ 0 ≤ s ∧
    0 ≤ head0 l' < 256.
Proof.
  unfold wf_bytes. revert acc.
  induction l as [|a|a b l IH] using bytes_ind2; intros acc Hw Hs Hb; cbn [net_sum sum_net] in *.
  - exists acc, []. cbn. split; [done|]. lia.
  - rewrite list.Forall_singleton in Hw. exists acc, [a]. cbn. split; [done|]. clia.
  - apply list.Forall_cons in Hw as [Ha Hw]. apply list.Forall_cons in Hw as [Hbb Hw].
    pose proof (net_sum_bound l Hw).
    assert (u16 (Z.shiftl a 8) = Z.shiftl a 8) as ->.
    { rewrite Z.shiftl_mul_pow2 by lia. clia. }
    rewrite lor_shiftl_add by clia. rewrite (u16_id (a * 2 ^ 8 + b)) by clia.
    rewrite u32_id by clia.
    destruct (IH (acc + (a * 2 ^ 8 + b))) as (s & l' & -> & E & ? & ?); [done|clia|clia|].
    exists s, l'. split_and!; [done|clia|lia..].
Qed.

(** The test of the upper half before the second folding changes nothing. *)
Lemma fold_guard x : 0 ≤ x ≤ 0x1fffe →
  (if negb (Z.land x 0xffff0000 =? 0) then u32 (Z.shiftr x 16 + Z.land x 0x0000ffff) else x) =
  FOLD_U32T x.
Proof.
  intros Hx. change (u32 (Z.shiftr x 16 + Z.land x 0x0000ffff)) with (FOLD_U32T x).
  destruct (Z.eqb_spec (Z.land x 0xffff0000) 0) as [E|E]; [|done]. cbn [negb].
  apply (f_equal (λ z, Z.shiftr z 16)) in E.
  change 0xffff0000 with (Z.shiftl (Z.ones 16) 16) in E. rewrite land_field in E by lia.
  change (Z.shiftr 0 16) with 0 in E. rewrite fold_eq by clia.
  change (2 ^ 16) with 65536 in E. Z.div_mod_to_equations. lia.
Qed.

Lemma chksum_1_ok l : wf_bytes l → Z.of_nat (length l) ≤ 0x20000 →
  lwip_standard_chksum_1 l = rfc1071 l.
Proof.
  intros Hw Hl. unfold lwip_standard_chksum_1. pose proof (net_sum_bound l Hw) as [H0 H1].
  destruct (sum_net_ok l 0 Hw) as (s & l' & -> & E & Hs & Ht); [lia|clia|].
  assert (match l' with a :: _ => u32 (s + u16 (Z.shiftl a 8)) | [] => s end = net_sum l) as ->.
  { destruct l' as [|a l']; cbn [head0] in *; [lia|]. rewrite Z.shiftl_mul_pow2 by lia. clia. }
  change (u32 (Z.shiftr (net_sum l) 16 + Z.land (net_sum l) 0x0000ffff)) with (FOLD_U32T (net_sum l)).
  rewrite fold_guard by (apply fold_once; clia). rewrite fold_fold by clia.
  assert (is_u16 (ones_complement (net_sum l))) as Hr by (by apply ones_complement_range).
  rewrite (u16_id (ones_complement _)) by done. rewrite htons_eq, <- swap_eq by done.
  pose proof (word_sum_nonneg l Hw). apply same_sum_unique; [by apply swap_range|done|].
  etransitivity; [by apply swap_same|].
  etransitivity; [apply same_sum_mul; [lia|apply ones_complement_same; lia]|].
  etransitivity; [apply same_sum_mul; [lia|by apply net_sum_same]|].
  rewrite Z.mul_assoc. by apply same_sum_65536.
Qed.

(** ** Version 3: 32 bits at a time *)

Lemma add_carry_ok x y : is_u32 x → is_u32 y →
  is_u32 (add_carry x y) ∧ same_sum (add_carry x y) (x + y).
Proof.
  intros Hx Hy. unfold add_carry.
  destruct (decide (x + y < 2 ^ 32)) as [H|H].
  - rewrite (u32_id (x + y)) by clia. destruct (Z.ltb_spec (x + y) x); [clia|]. split; [clia|done].
  - assert (u32 (x + y) = x + y - 2 ^ 32) as -> by clia.
    destruct (Z.ltb_spec (x + y - 2 ^ 32) x); [|clia]. rewrite u32_id by clia.
    split; [clia|]. split; [|clia].
    replace (x + y) with (x + y - 2 ^ 32 + 1 + 65537 * 65535) at 2 by lia. by rewrite Z.mod_add.
Qed.

Lemma le_word4 a b c d : wf_bytes [a; b; c; d] →
  is_u32 (le_word [a; b; c; d]) ∧ same_sum (le_word [a; b; c; d]) (a + 256 * b + (c + 256 * d)).
Proof.
  intros Hw. split; [apply (le_word_range _ Hw)|]. symmetry.
  apply (word_sum_le [a; b; c; d]) in Hw. cbn [word_sum] in Hw. by rewrite Z.add_0_r in Hw.
Qed.

Lemma sum_longs_ok n l sum : (length l ≤ n)%nat → wf_bytes l → is_u32 sum →
  ∃ s l', sum_longs l sum = (s, l') ∧ is_u32 s ∧ wf_bytes l' ∧ (length l' < 8)%nat ∧
    same_sum (s + word_sum l') (sum + word_sum l).
Proof.
  revert l sum. induction n as [|n IH]; intros l sum Hn Hw Hs.
  { destruct l; [|simpl in Hn; lia]. exists sum, []. cbn. split_and!; [done..|lia|done]. }
  destruct (decide (length l < 8)%nat) as [H8|H8].
  { exists sum, l. split_and!; [|done..]. do 8 (destruct l as [|? l]; [done|]). simpl in H8. lia. }
  do 8 (destruct l as [|? l]; [simpl in H8; lia|]).
  change (z :: z0 :: z1 :: z2 :: z3 :: z4 :: z5 :: z6 :: l)
    with ([z; z0; z1; z2] ++ [z3; z4; z5; z6] ++ l) in Hw.
  apply list.Forall_app in Hw as [W1 Hw]. apply list.Forall_app in Hw as [W2 Hw].
  destruct (le_word4 _ _ _ _ W1) as [U1 S1]. destruct (le_word4 _ _ _ _ W2) as [U2 S2].
  cbn [sum_longs]. destruct (add_carry_ok sum _ Hs U1) as [V1 T1].
  destruct (add_carry_ok _ _ V1 U2) as [V2 T2].
  destruct (IH l (add_carry (add_carry sum (le_word [z; z0; z1; z2])) (le_word [z3; z4; z5; z6])))
    as (s & l' & E & Us & Wl & Hl & Hsame); [simpl in Hn; lia|done|done|].
  exists s, l'. split_and!; try done. etransitivity; [exact Hsame|].
  pose proof (word_sum_nonneg l Hw). pose proof (word_sum_nonneg _ W1) as N1.
  pose proof (word_sum_nonneg _ W2) as N2. cbn [word_sum] in *.
  pose proof (proj1 V1). pose proof (proj1 V2). pose proof (proj1 Hs).
  pose proof (proj1 U1). pose proof (proj1 U2).
  set (y1 := z + 256 * z0 + (z1 + 256 * z2)) in *. set (y2 := z3 + 256 * z4 + (z5 + 256 * z6)) in *.
  replace (sum + _) with (sum + y1 + y2 + word_sum l) by (unfold y1, y2; lia).
  apply same_sum_add; [lia|lia|lia|lia| |done]. etransitivity; [exact T2|].
  apply same_sum_add; [lia|lia|lia|lia| |done]. etransitivity; [exact T1|].
  apply same_sum_add; [lia|lia|lia|lia|done|done].
Qed.

(** From the 32-bit loop on. *)
Lemma longs_words l sum : wf_bytes l → is_u32 sum →
  ∃ s l', (let '(s1, l1) := sum_longs l sum in sum_words l1 (FOLD_U32T s1)) = (s, l') ∧
    0 ≤ s ∧ 0 ≤ head0 l' < 256 ∧ s + head0 l' < 2 ^ 20 ∧
    same_sum (s + head0 l') (sum + word_sum l).
Proof.
  intros Hw Hs. destruct (sum_longs_ok (length l) l sum) as (s1 & l1 & -> & U & W & Hl & Hsame);
    [done..|].
  pose proof (word_sum_bound l1 W) as [H0 H1]. pose proof (fold_once s1 U).
  destruct (sum_words_ok l1 (FOLD_U32T s1) W) as (s & l' & -> & E & ? & ?); [lia|clia|].
  exists s, l'. split_and!; try done; [lia..|]. rewrite E. etransitivity; [|exact Hsame].
  apply same_sum_add; [lia|lia|apply U|lia|by apply fold_same|done].
Qed.

(** The word before the 32-bit loop leaves the sum as it is. *)
Lemma word_first l (b : bool) : wf_bytes l → ∃ s l',
  match l with
  | a :: c :: l' => if b then (a + 256 * c, l') else (0, l)
  | _ => (0, l)
  end = (s, l') ∧ wf_bytes l' ∧ is_u32 s ∧ s + word_sum l' = word_sum l.
Proof.
  intros Hw. destruct l as [|a [|c l]]; [eexists 0, _; done|eexists 0, _; done|].
  destruct b; [|eexists 0, _; done]. exists (a + 256 * c), l. split; [done|].
  apply list.Forall_cons in Hw as [Ha Hw]. apply list.Forall_cons in Hw as [Hc Hw].
  split_and!; [done|clia..|done].
Qed.

Lemma chksum_3_ok align l : wf_bytes l → lwip_standard_chksum_3 align l = rfc1071 l.
Proof.
  intros Hw. unfold lwip_standard_chksum_3, rfc1071. pose proof (word_sum_nonneg l Hw).
  assert (∀ l1 t1 z, wf_bytes l1 → 0 ≤ t1 < 256 → ∃ s t0,
    (let '(sum, l) := match l1 with
       | a :: b :: l' => if negb (Z.land z 3 =? 0) then (a + 256 * b, l') else (0, l1)
       | _ => (0, l1) end in
     let '(sum, l) := sum_longs l sum in
     let '(sum, l) := sum_words l (FOLD_U32T sum) in (sum, match l with b :: _ => b | [] => 0 end))
    = (s, t0) ∧ 0 ≤ s ∧ 0 ≤ t0 < 256 ∧ s + t0 < 2 ^ 20 ∧ same_sum (s + t0) (word_sum l1)) as Hcore.
  { intros l1 t1 z W Ht. destruct (word_first l1 (negb (Z.land z 3 =? 0)) W) as (s1 & l2 & -> & W2 & U & E).
    destruct (longs_words l2 s1 W2 U) as (s & l3 & Hrun & ? & ? & ? & Hsame).
    destruct (sum_longs l2 s1) as [s4 l4]. rewrite Hrun. exists s, (head0 l3).
    split_and!; try done; [lia..|]. by rewrite <- E. }
  destruct (negb (Z.land align 1 =? 0)); [destruct l as [|b l]|].
  - done.
  - pose proof Hw as Hw0. apply list.Forall_cons in Hw as [Hb Hw].
    destruct (Hcore l b (align + 1)) as (s & t0 & Hrun & ? & ? & ? & Hsame); [done|clia|].
    destruct (match l with a :: b :: l' => _ | _ => _ end) as [s1 l1].
    destruct (sum_longs l1 s1) as [s2 l2]. destruct (sum_words l2 (FOLD_U32T s2)) as [s3 l3].
    injection Hrun as -> ->. apply finish_odd; [lia|lia|clia| |done|clia].
    etransitivity; [|by apply sum_swapped]. apply same_sum_mul; [lia|]. rewrite Z.add_comm.
    pose proof (word_sum_nonneg l Hw). unfold is_u8 in Hb. apply same_sum_add; [lia..|done|done].
  - destruct (Hcore l 0 align) as (s & t0 & Hrun & ? & ? & ? & Hsame); [done|lia|].
    destruct (match l with a :: b :: l' => _ | _ => _ end) as [s1 l1].
    destruct (sum_longs l1 s1) as [s2 l2]. destruct (sum_words l2 (FOLD_U32T s2)) as [s3 l3].
    injection Hrun as -> ->. apply finish_even; [lia|lia|done|done|lia].
Qed.

(** ** Chains *)

Section Chains.
Context {A : Type} (addr : ptr → Z).
Implicit Types (w : world A) (cs : list (loc * pbuf)).

(** [sw k s]: the sum as it stands while the bytes are swapped. *)
Definition sw (swapped s : Z) : Z := if swapped =? 0 then s else 256 * s.

Lemma sw_nonneg k s : 0 ≤ s → 0 ≤ sw k s.
Proof. unfold sw. destruct (k =? 0); lia. Qed.

Lemma sw_sw k x y : 0 ≤ x → 0 ≤ y → same_sum (sw k (x + sw k y)) (sw k x + y).
Proof.
  intros Hx Hy. unfold sw. destruct (k =? 0); [done|]. rewrite Z.mul_add_distr_l, Z.mul_assoc.
  apply same_sum_add; [lia..|done|by apply same_sum_65536].
Qed.

(** The loop has summed up [s]: the accumulator is its 16-bit representative. *)
Definition summed (acc swapped s : Z) : Prop :=
  is_u16 acc ∧ 0 ≤ s ∧ (swapped = 0 ∨ swapped = 1) ∧ same_sum acc (sw swapped s).

Lemma chksum_step_ok acc swapped s d n acc' swapped' :
  summed acc swapped s → wf_bytes d →
  chksum_step acc swapped (rfc1071 d) n = (acc', swapped') →
  summed acc' swapped' (s + sw swapped (word_sum d)) ∧
  swapped' = if n mod 2 =? 0 then swapped else 1 - swapped.
Proof.
  intros (Ha & Hs & Hk & Hsame) Hd. pose proof (word_sum_nonneg d Hd) as Hn.
  pose proof (ones_complement_range _ Hn) as Hr. unfold chksum_step, rfc1071.
  rewrite (u32_id (acc + _)) by clia. rewrite fold_one by clia.
  assert (is_u16 (ones_complement (acc + ones_complement (word_sum d)))) as Hu
    by (apply ones_complement_range; clia).
  assert (same_sum (ones_complement (acc + ones_complement (word_sum d)))
            (sw swapped (s + sw swapped (word_sum d)))) as Hx.
  { etransitivity; [apply ones_complement_same; clia|].
    etransitivity; [|symmetry; by apply sw_sw].
    apply same_sum_add; [clia..|by apply sw_nonneg|done|done|by apply ones_complement_same]. }
  pose proof (sw_nonneg swapped _ Hn).
  destruct (n mod 2 =? 0); cbn [negb]; intros [= <- <-]; (split; [|done]).
  - split_and!; [done|lia|done|done].
  - split_and!; [by apply swap_range|lia|lia|].
    etransitivity; [by apply swap_same|]. etransitivity; [apply same_sum_mul; [lia|exact Hx]|].
    unfold sw. destruct Hk as [-> | ->]; [done|].
    change (1 =? 0) with false. change (1 - 1 =? 0) with true. cbv iota.
    rewrite Z.mul_assoc. apply same_sum_65536. lia.
Qed.

Lemma chksum_payload_ok w p n d : load p 0 n w = Ret (d, w) → wf_bytes d → is_u16 n →
  chksum_payload addr p n w = Ret (rfc1071 d, w).
Proof.
  intros Hd Hw Hn. unfold chksum_payload. erewrite bind_Ret by exact Hd.
  pose proof (load_length _ _ _ _ _ Hd (proj1 Hn)).
  unfold mret, M_ret. rewrite chksum_2_ok; [done|done|clia].
Qed.

(** The parity of the bytes summed so far. *)
Definition parity (pre : bytes) : Z := if Nat.even (length pre) then 0 else 1.

Lemma parity_app pre d n : Z.of_nat (length d) = n →
  parity (pre ++ d) = if n mod 2 =? 0 then parity pre else 1 - parity pre.
Proof.
  intros <-. unfold parity. rewrite length_app, Nat.even_add.
  assert ((Z.of_nat (length d) mod 2 =? 0) = Nat.even (length d)) as ->.
  { apply eq_bool_prop_intro. rewrite Is_true_true, Is_true_true, Z.eqb_eq, Nat.even_spec.
    rewrite Zmod_divides by done. split.
    - intros [c Hc]. exists (Z.to_nat c). lia.
    - intros [c Hc]. exists (Z.of_nat c). lia. }
  by destruct (Nat.even (length pre)), (Nat.even (length d)).
Qed.

Lemma summed_app acc k s0 pre d : summed acc k (s0 + word_sum pre + sw (parity pre) (word_sum d)) →
  0 ≤ s0 → wf_bytes pre → wf_bytes d → summed acc k (s0 + word_sum (pre ++ d)).
Proof.
  intros (Ha & Hs & Hk & Hsame) H0 Hp Hd.
  pose proof (word_sum_nonneg _ Hp). pose proof (word_sum_nonneg _ Hd).
  assert (wf_bytes (pre ++ d)) as Hpd by (by apply list.Forall_app).
  pose proof (word_sum_nonneg _ Hpd). split_and!; [done|lia|done|].
  etransitivity; [exact Hsame|].
  assert (same_sum (s0 + word_sum pre + sw (parity pre) (word_sum d)) (s0 + word_sum (pre ++ d))) as E.
  { pose proof (sw_nonneg (parity pre) (word_sum d)).
    rewrite <- Z.add_assoc. apply same_sum_add; [lia|lia|lia|lia|done|]. symmetry.
    etransitivity; [by apply word_sum_app|]. unfold sw, parity. by destruct (Nat.even _). }
  unfold sw at 1 3. destruct (k =? 0); [done|]. by apply same_sum_mul; [lia|].
Qed.

Lemma chksum_loop_ok n w q cs ds acc pre s0 :
  chain w q cs → content w cs ds → Forall wf_bytes ds → Forall (λ c, is_u16 (len c.2)) cs →
  (length cs ≤ n)%nat → 0 ≤ s0 → wf_bytes pre →
  summed acc (parity pre) (s0 + word_sum pre) →
  ∃ acc' k', chksum_loop addr n q acc (parity pre) w = Ret ((acc', k'), w) ∧
    summed acc' k' (s0 + word_sum (pre ++ concat ds)).
Proof.
  revert n q ds acc pre. induction cs as [|[l pb] cs IH]; intros n q ds acc pre Hc Hd Hw Hl Hn H0 Hp Hs.
  { apply Forall2_nil_inv_l in Hd as ->. simpl in Hc. subst q. exists acc, (parity pre).
    rewrite app_nil_r. split; [by destruct n|done]. }
  destruct ds as [|d ds]; [by apply Forall2_nil_inv_r in Hd|].
  apply list.Forall2_cons in Hd as [Hd Hds]. apply list.Forall_cons in Hw as [Hwd Hws].
  apply list.Forall_cons in Hl as [Hl Hls]. cbn [snd] in *. destruct Hc as (-> & Hlv & Hpb & Hc).
  destruct n as [|n]; [simpl in Hn; lia|]. cbn [chksum_loop].
  rewrite (bind_rd w l pb) by done. erewrite bind_Ret by (by apply chksum_payload_ok).
  destruct (chksum_step _ _ _ _) as [acc1 k1] eqn:E.
  apply (chksum_step_ok _ _ _ _ _ _ _ Hs Hwd) in E as [Hs1 Hk].
  rewrite <- (parity_app pre d) in Hk by (apply (load_length _ _ _ _ _ Hd), Hl). subst k1.
  apply summed_app in Hs1; [|done..]. cbn [concat]. rewrite (assoc_L app).
  apply IH; try done; [simpl in Hn; lia|]. by apply list.Forall_app.
Qed.

Lemma summed_done acc k s : summed acc k s →
  (if negb (k =? 0) then SWAP_BYTES_IN_WORD acc else acc) = ones_complement s.
Proof.
  intros (Ha & Hs & Hk & Hsame). apply same_sum_unique; [|done|].
  - destruct (k =? 0); [done|by apply swap_range].
  - unfold sw in Hsame. destruct (k =? 0); cbn [negb]; [done|].
    etransitivity; [by apply swap_same|]. etransitivity; [apply same_sum_mul; [lia|exact Hsame]|].
    rewrite Z.mul_assoc. by apply same_sum_65536.
Qed.

Lemma complement_eq x : is_u16 x → u16 (Z.lnot (Z.land x 0xffff)) = 65535 - x.
Proof. intros Hx. rewrite land_ffff. unfold Z.lnot. clia. Qed.

Lemma tot_ok_lens cs : tot_ok cs → Forall (λ c, is_u16 (len c.2)) cs.
Proof.
  induction cs as [|[l pb] cs IH]; simpl; [constructor|]. intros (_ & Hl & _ & Ht).
  constructor; [done|by apply IH].
Qed.

(** The pseudo header of RFC 793: addresses, zero, protocol, length. *)
Definition pseudo_header (src dest proto proto_len : Z) : bytes :=
  le_bytes 4 src ++ le_bytes 4 dest ++ [0; proto] ++ [proto_len / 256; proto_len mod 256].

Lemma addr_acc_ok src dest : is_u32 src → is_u32 dest →
  addr_acc src dest = ones_complement (word_sum (le_bytes 4 src ++ le_bytes 4 dest)).
Proof.
  intros Hs Hd. unfold addr_acc. rewrite !land_ffff, !Z.shiftr_div_pow2 by lia.
  change (2 ^ 16) with 65536. rewrite !u32_id by clia. rewrite fold_fold by clia. f_equal.
  cbn [le_bytes app word_sum]. clia.
Qed.

Lemma pseudo_header_wf src dest proto proto_len : is_u32 src → is_u32 dest → is_u8 proto →
  is_u16 proto_len → wf_bytes (pseudo_header src dest proto proto_len).
Proof.
  intros. unfold pseudo_header, wf_bytes.
  repeat apply Forall_app_2; [apply le_bytes_wf|apply le_bytes_wf| |];
    repeat (constructor; [clia|]); constructor.
Qed.

Lemma pseudo_finish_ok acc k s src dest proto proto_len : is_u32 src → is_u32 dest →
  is_u8 proto → is_u16 proto_len → wf_bytes s →
  summed acc k (addr_acc src dest + word_sum s) →
  pseudo_finish acc k proto proto_len =
  65535 - rfc1071 (pseudo_header src dest proto proto_len ++ s).
Proof.
  intros Hs Hd Hpr Hpl Hw Hsum. unfold pseudo_finish. rewrite (summed_done _ _ _ Hsum).
  destruct Hsum as (_ & H0 & _). pose proof (word_sum_nonneg s Hw).
  pose proof (ones_complement_range _ H0) as Hr.
  rewrite (u16_id proto) by clia. pose proof (htons_range proto). pose proof (htons_range proto_len).
  rewrite (u32_id (ones_complement _ + _)) by clia. rewrite u32_id by clia.
  rewrite fold_fold by clia. rewrite complement_eq by (apply ones_complement_range; clia).
  f_equal. pose proof (pseudo_header_wf src dest proto proto_len Hs Hd Hpr Hpl) as Hph.
  assert (wf_bytes (pseudo_header src dest proto proto_len ++ s)) as Hall by (by apply list.Forall_app).
  apply same_sum_unique; [apply ones_complement_range; clia|by apply word_sum_nonneg|].
  etransitivity; [apply ones_complement_same; clia|]. symmetry.
  etransitivity; [by apply word_sum_app|].
  change (Nat.even (length (pseudo_header src dest proto proto_len))) with true. cbv iota.
  assert (word_sum (pseudo_header src dest proto proto_len) =
    word_sum (le_bytes 4 src ++ le_bytes 4 dest) + lwip_htons proto + lwip_htons proto_len) as ->.
  { rewrite !htons_eq by clia. unfold pseudo_header. cbn [le_bytes app word_sum]. clia. }
  assert (0 ≤ word_sum (le_bytes 4 src ++ le_bytes 4 dest)) as Hn.
  { apply word_sum_nonneg, list.Forall_app. split; apply le_bytes_wf. }
  transitivity (addr_acc src dest + word_sum s + lwip_htons proto + lwip_htons proto_len).
  - rewrite (addr_acc_ok src dest) by done.
    replace (_ + _ + _ + word_sum s) with
      (word_sum (le_bytes 4 src ++ le_bytes 4 dest) + (word_sum s + lwip_htons proto + lwip_htons proto_len)) by lia.
    pose proof (ones_complement_range _ Hn). rewrite <- !Z.add_assoc.
    apply same_sum_add; [clia..| |by rewrite !Z.add_assoc]. symmetry. by apply ones_complement_same.
  - apply same_sum_add; [clia..| |done]. apply same_sum_add; [clia..| |done].
    symmetry. by apply ones_complement_same.
Qed.
(** Once the length is used up the partial loop stops. *)
Lemma chksum_partial_stop n q acc k w : chksum_partial_loop addr n q acc k 0 w = Ret ((acc, k), w).
Proof. by destruct n, q. Qed.

Lemma chksum_partial_loop_ok n w q cs ds acc pre s0 m :
  chain w q cs → content w cs ds → Forall wf_bytes ds → Forall (λ c, is_u16 (len c.2)) cs →
  (length cs ≤ n)%nat → 0 ≤ s0 → wf_bytes pre → 0 ≤ m < 0x7fff →
  summed acc (parity pre) (s0 + word_sum pre) →
  ∃ acc' k', chksum_partial_loop addr n q acc (parity pre) m w = Ret ((acc', k'), w) ∧
    summed acc' k' (s0 + word_sum (pre ++ take (Z.to_nat m) (concat ds))).
Proof.
  revert n q ds acc pre m.
  induction cs as [|[l pb] cs IH]; intros n q ds acc pre m Hc Hd Hw Hl Hn H0 Hp Hm Hs.
  { apply Forall2_nil_inv_l in Hd as ->. simpl in Hc. subst q. exists acc, (parity pre).
    cbn [concat]. rewrite take_nil, app_nil_r. split; [by destruct n|done]. }
  destruct ds as [|d ds]; [by apply Forall2_nil_inv_r in Hd|].
  apply list.Forall2_cons in Hd as [Hd Hds]. apply list.Forall_cons in Hw as [Hwd Hws].
  apply list.Forall_cons in Hl as [Hl Hls]. cbn [snd] in *. destruct Hc as (-> & Hlv & Hpb & Hc).
  destruct (decide (m = 0)) as [->|Hm0].
  { rewrite chksum_partial_stop. exists acc, (parity pre). by rewrite take_0, app_nil_r. }
  destruct n as [|n]; [simpl in Hn; lia|]. cbn [chksum_partial_loop].
  rewrite (proj2 (Z.gtb_lt m 0)) by lia. rewrite (bind_rd w l pb) by done.
  pose proof (load_length _ _ _ _ _ Hd (proj1 Hl)) as Hlen. cbn [concat].
  set (c := if len pb >? m then m else len pb).
  assert (0 ≤ c ≤ m ∧ c ≤ len pb ∧ (c = m ∨ c = len pb)) as (Hcm & Hcl & Hcc).
  { unfold c. destruct (Z.gtb_spec (len pb) m); unfold is_u16 in Hl; lia. }
  pose proof (load_sub _ _ _ _ 0 c Hd) as Hld. rewrite drop_0 in Hld.
  assert (wf_bytes (take (Z.to_nat c) d)) as Hwt by (by apply Forall_take).
  erewrite bind_Ret; [|apply chksum_payload_ok; [apply Hld; lia|done|clia]].
  rewrite (u16_id (m - c)) by clia. rewrite bind_assert by lia.
  destruct (chksum_step _ _ _ _) as [acc1 k1] eqn:E.
  apply (chksum_step_ok _ _ _ _ _ _ _ Hs Hwt) in E as [Hs1 Hk].
  apply summed_app in Hs1; [|done..].
  destruct (decide (c = len pb)) as [Ec|Ec].
  - rewrite take_ge in Hs1 by lia. rewrite <- (parity_app pre d) in Hk by done. subst k1.
    rewrite take_app_ge, (assoc_L app) by lia.
    replace (Z.to_nat m - length d)%nat with (Z.to_nat (m - c)) by lia.
    apply IH; try done; [simpl in Hn; lia|by apply list.Forall_app|lia].
  - assert (c = m) as -> by lia. rewrite Z.sub_diag, chksum_partial_stop. exists acc1, k1.
    rewrite take_app_le by lia. done.
Qed.

(** The initial accumulator. *)
Lemma summed_init s : 0 ≤ s → summed (ones_complement s) (parity []) (ones_complement s + word_sum []).
Proof.
  intros Hs. pose proof (ones_complement_range s Hs) as Hr. cbn. rewrite Z.add_0_r.
  split_and!; [done|apply Hr|by left|done].
Qed.

Lemma addr_acc_summed src dest : is_u32 src → is_u32 dest →
  0 ≤ addr_acc src dest ∧ summed (addr_acc src dest) (parity []) (addr_acc src dest + word_sum []).
Proof.
  intros Hs Hd. rewrite addr_acc_ok by done.
  assert (0 ≤ word_sum (le_bytes 4 src ++ le_bytes 4 dest)) as Hn.
  { apply word_sum_nonneg, list.Forall_app. split; apply le_bytes_wf. }
  split; [apply (ones_complement_range _ Hn)|by apply summed_init].
Qed.

Lemma wf_concat (ds : list bytes) : Forall wf_bytes ds → wf_bytes (concat ds).
Proof. intros Hw. induction Hw; cbn [concat]; [constructor|]. by apply list.Forall_app. Qed.

(** ** Theorems *)

(** [inet_chksum_pbuf]: the checksum of the packet's bytes. *)
Lemma inet_chksum_pbuf_ok w p cs ds : packet w p cs ds → Forall wf_bytes ds →
  inet_chksum_pbuf addr p w = Ret (65535 - rfc1071 (concat ds), w).
Proof.
  intros [Hc Ht Hd] Hw. unfold inet_chksum_pbuf. rewrite bind_get.
  destruct (chksum_loop_ok (fuel w) w p cs ds 0 [] 0) as (acc & k & Hrun & Hsum); try done.
  - by apply tot_ok_lens.
  - pose proof (chain_length _ _ _ Hc). unfold fuel. lia.
  - constructor.
  - by apply (summed_init 0).
  - change (parity []) with 0 in Hrun. erewrite bind_Ret by exact Hrun. cbv beta iota.
    rewrite (summed_done _ _ _ Hsum). cbn [app].
    rewrite complement_eq; [done|]. apply ones_complement_range, word_sum_nonneg. by apply wf_concat.
Qed.

(** C37: the checksum TCP puts in its header, [inet_chksum_pseudo], is the RFC 1071
    checksum of the pseudo header followed by the bytes of the packet, however the
    packet is split over pbufs (odd lengths included) and wherever they are in
    memory; the partial version covers the first [m] bytes. *)
Theorem inet_chksum_pseudo_correct w p cs ds proto proto_len src dest m :
  packet w p cs ds → Forall wf_bytes ds → is_u8 proto → is_u16 proto_len → is_u32 src →
  is_u32 dest → 0 ≤ m < 0x7fff →
  inet_chksum_pseudo addr p proto proto_len src dest w =
    Ret (65535 - rfc1071 (pseudo_header src dest proto proto_len ++ concat ds), w) ∧
  inet_chksum_pseudo_partial addr p proto proto_len m src dest w =
    Ret (65535 - rfc1071 (pseudo_header src dest proto proto_len ++ take (Z.to_nat m) (concat ds)), w).
Proof.
  intros [Hc Ht Hd] Hw Hpr Hpl Hs Hde Hm. destruct (addr_acc_summed src dest Hs Hde) as [H0 Hi].
  assert (length cs ≤ fuel w)%nat by (pose proof (chain_length _ _ _ Hc); unfold fuel; lia).
  pose proof (tot_ok_lens _ Ht). pose proof (wf_concat _ Hw). assert (wf_bytes []) by constructor.
  split.
  - unfold inet_chksum_pseudo, inet_cksum_pseudo_base. rewrite bind_get.
    destruct (chksum_loop_ok (fuel w) w p cs ds (addr_acc src dest) [] (addr_acc src dest))
      as (acc & k & Hrun & Hsum); try done.
    change (parity []) with 0 in Hrun. erewrite bind_Ret by exact Hrun. cbv beta iota.
    unfold mret, M_ret. by erewrite pseudo_finish_ok.
  - unfold inet_chksum_pseudo_partial, inet_cksum_pseudo_partial_base. rewrite bind_get.
    destruct (chksum_partial_loop_ok (fuel w) w p cs ds (addr_acc src dest) [] (addr_acc src dest) m)
      as (acc & k & Hrun & Hsum); try done.
    change (parity []) with 0 in Hrun. erewrite bind_Ret by exact Hrun. cbv beta iota.
    unfold mret, M_ret. erewrite pseudo_finish_ok; [done|done..| |exact Hsum]. by apply Forall_take.
Qed.
End Chains.

(** C36: the three versions of [lwip_standard_chksum], 16 bits in network order,
    16 bits in host order and 32 bits at a time with carries added back, compute
    the same number, the one of RFC 1071, at every alignment of the buffer and
    for every length up to 0x20000, the limit the comment on version 2 gives.  The
    64k of the note on version 1 are not its limit: its accumulator holds the sum of
    0x10000 words as well. *)
Theorem standard_chksum_equivalent odd align l :
  wf_bytes l → Z.of_nat (length l) ≤ 0x20000 →
  lwip_standard_chksum_1 l = rfc1071 l ∧ lwip_standard_chksum_2 odd l = rfc1071 l ∧
  lwip_standard_chksum_3 align l = rfc1071 l.
Proof. intros. by rewrite chksum_1_ok, chksum_2_ok, chksum_3_ok. Qed.

Lemma standard_chksum_equivalent_witness :
  lwip_standard_chksum_1 [0x45; 0; 0x1c; 7; 0xff] = 0x860 ∧
  lwip_standard_chksum_1 [0x45; 0; 0x1c; 7; 0xff] = rfc1071 [0x45; 0; 0x1c; 7; 0xff].
Proof.
  split; [reflexivity|].
  apply (standard_chksum_equivalent true 3); [|vm_compute; discriminate].
  repeat (constructor; [split; vm_compute; [discriminate|reflexivity]|]). constructor.
Defined.

(** A header whose checksum field holds what [inet_chksum] computed over it
    with the field zero passes the receiver's test, [inet_chksum(header) == 0],
    whatever the alignments on the two sides. *)
Lemma checksum_verifies odd odd' a b c :
  wf_bytes a → wf_bytes b → Nat.even (length a) = true →
  Z.of_nat (length a + length b + 2) ≤ 0x20000 →
  inet_chksum odd (a ++ [0; 0] ++ b) = c →
  inet_chksum odd' (a ++ le_bytes 2 c ++ b) = 0.
Proof.
  intros Ha Hb He Hl Hc. pose proof (word_sum_nonneg _ Ha). pose proof (word_sum_nonneg _ Hb).
  assert (∀ x y, is_u8 x → is_u8 y → wf_bytes (a ++ [x; y] ++ b) ∧
    word_sum (a ++ [x; y] ++ b) = word_sum a + (x + 256 * y) + word_sum b ∧
    0 ≤ word_sum (a ++ [x; y] ++ b)) as Hsum.
  { intros x y Hx Hy. assert (wf_bytes (a ++ [x; y] ++ b)) as Hw.
    { apply Forall_app_2; [done|]. apply Forall_app_2; [|done]. by apply list.Forall_cons; split; [|apply list.Forall_singleton]. }
    split_and!; [done| |by apply word_sum_nonneg]. clear - He.
    induction a as [|?|u v a IH] using bytes_ind2; [cbn; lia|done|]. cbn [app word_sum].
    cbn [app] in IH. rewrite IH by done. lia. }
  destruct (Hsum 0 0) as (W0 & E0 & N0); [done..|].
  unfold inet_chksum in Hc. rewrite chksum_2_ok in Hc; [|done|rewrite !length_app; simpl; lia].
  pose proof (ones_complement_range _ N0) as Hr. unfold rfc1071 in Hc.
  assert (c = 65535 - ones_complement (word_sum (a ++ [0; 0] ++ b))) as Hc'.
  { subst c. unfold Z.lnot. clia. }
  assert (is_u16 c) as Hu by clia. cbn [le_bytes].
  destruct (Hsum (c mod 256) (c / 256 mod 256)) as (W1 & E1 & N1); [clia..|].
  unfold inet_chksum. rewrite chksum_2_ok; [|done|rewrite !length_app; simpl; lia].
  assert (rfc1071 (a ++ [c mod 256; c / 256 mod 256] ++ b) = 65535) as ->; [|done].
  symmetry. apply same_sum_unique; [done|done|]. rewrite E1.
  replace (word_sum a + (c mod 256 + 256 * (c / 256 mod 256)) + word_sum b)
    with (word_sum (a ++ [0; 0] ++ b) + c) by clia.
  transitivity (ones_complement (word_sum (a ++ [0; 0] ++ b)) + c); [by rewrite Hc', Z.add_sub_assoc, Z.add_simpl_l|].
  apply same_sum_add; [apply Hr|apply Hu|done|apply Hu|by apply ones_complement_same|done].
Qed.

Lemma inet_chksum_pseudo_correct_witness :
  let a (p : ptr) : Z := p.2 in
  inet_chksum_pseudo a (Some (CUSTOM, 1)) 6 5 0x0200a8c0 0x0100a8c0 ex_world =
    Ret (65535 - rfc1071 (pseudo_header 0x0200a8c0 0x0100a8c0 6 5 ++ concat ex_ds), ex_world) ∧
  inet_chksum_pseudo_partial a (Some (CUSTOM, 1)) 6 5 4 0x0200a8c0 0x0100a8c0 ex_world =
    Ret (65535 - rfc1071 (pseudo_header 0x0200a8c0 0x0100a8c0 6 5 ++ take 4 (concat ex_ds)), ex_world).
Proof.
  intros a. apply (inet_chksum_pseudo_correct a ex_world _ ex_cs ex_ds 6 5 0x0200a8c0 0x0100a8c0 4 ex_packet);
    try (split; vm_compute; congruence).
  repeat (constructor; [repeat (constructor; [split; vm_compute; congruence|]); constructor|]).
  constructor.
Defined.
