(* ===== verification/Ip4Addr.v ===== *)
(** * IPv4 addresses: [lwip/src/core/ipv4/ip4_addr.c]

    Addresses are 32-bit numbers in network order, as the code keeps them; text is
    the bytes before the NUL.  [main] sets the server's address with [IP4_ADDR]. *)

From S2P Require Import Prelude CLib Def.
Import Def.

Module Ip4Addr.

Definition IPADDR_NONE : Z := 0xffffffff.
Definition IPADDR_ANY : Z := 0x00000000.
Definition IPADDR_BROADCAST : Z := 0xffffffff.
Definition IP4ADDR_STRLEN_MAX : Z := 16.
Definition NETIF_FLAG_BROADCAST : Z := 0x02.

(** The fields of [struct netif] the functions read. *)
Record netif := mk_netif {
  flags : Z;
  ip_addr : Z;
  netmask : Z;
  gw : Z;
  mtu : Z;
  hwaddr_len : Z;
  hwaddr : bytes;
}.

Definition ip4_addr_netcmp (addr1 addr2 mask : Z) : bool := Z.land addr1 mask =? Z.land addr2 mask.

(** [ip4_addr_isbroadcast_u32(addr, netif)] *)
Definition ip4_addr_isbroadcast_u32 (addr : Z) (n : netif) : Z :=
  if (u32 (Z.lnot addr) =? IPADDR_ANY) || (addr =? IPADDR_ANY) then 1
  else if Z.land (flags n) NETIF_FLAG_BROADCAST =? 0 then 0
  else if addr =? ip_addr n then 0
  else if ip4_addr_netcmp addr (ip_addr n) (netmask n)
          && (Z.land addr (u32 (Z.lnot (netmask n))) =?
              Z.land IPADDR_BROADCAST (u32 (Z.lnot (netmask n)))) then 1
  else 0.

(** The two loops of [ip4_addr_netmask_valid]; [mask] has 32 bits. *)
Fixpoint first_zero (fuel : nat) (nm mask : Z) : res Z :=
  if mask =? 0 then Ret mask
  else if Z.land nm mask =? 0 then Ret mask
  else match fuel with O => Err Diverges | S f => first_zero f nm (Z.shiftr mask 1) end.
Fixpoint no_one (fuel : nat) (nm mask : Z) : res Z :=
  if mask =? 0 then Ret 1
  else if negb (Z.land nm mask =? 0) then Ret 0
  else match fuel with O => Err Diverges | S f => no_one f nm (Z.shiftr mask 1) end.

(** [ip4_addr_netmask_valid(netmask)] *)
Definition ip4_addr_netmask_valid (netmask : Z) : res Z :=
  let nm_hostorder := lwip_htonl netmask in
  mask ← first_zero 32 nm_hostorder (Z.shiftl 1 31);
  no_one 32 nm_hostorder mask.

(** ** Text to address *)

Definition in_range (c lo up : Z) : bool := (lo <=? u8 c) && (u8 c <=? up).
Definition isdigit (c : Z) : bool := in_range c 48 57.
Definition isxdigit (c : Z) : bool := isdigit c || in_range c 97 102 || in_range c 65 70.
Definition islower (c : Z) : bool := in_range c 97 122.

(** The inner loop: the value and the rest of the text. *)
Fixpoint aton_digits (base val : Z) (cp : bytes) : Z * bytes :=
  match cp with
  | [] => (val, [])
  | c :: cp' =>
      if isdigit c then aton_digits base (u32 (u32 (val * base) + (c - 48))) cp'
      else if (base =? 16) && isxdigit c then
        aton_digits base (Z.lor (u32 (Z.shiftl val 4))
                            (u32 (c + 10 - (if islower c then 97 else 65)))) cp'
      else (val, cp)
  end.

(** The prefix of a number selects the base. *)
Definition aton_base (cp : bytes) : Z * bytes :=
  if char0 cp =? 48 then
    let cp := tail cp in
    if (char0 cp =? 120) || (char0 cp =? 88) then (16, tail cp) else (8, cp)
  else (10, cp).

(** The outer loop: the parts before the last number, that number and the rest;
    [None] is the early [return 0]. *)
Fixpoint aton_parts (fuel : nat) (cp : bytes) (parts : list Z) : res (option (list Z * Z * bytes)) :=
  if negb (isdigit (char0 cp)) then Ret None else
  let '(base, cp) := aton_base cp in
  let '(val, cp) := aton_digits base 0 cp in
  if char0 cp =? 46 then
    if (3 <=? length parts)%nat then Ret None
    else match fuel with
         | O => Err Diverges
         | S f => aton_parts f (tail cp) (parts ++ [val])
         end
  else Ret (Some (parts, val, cp)).

(** The [switch] on the number of parts. *)
Definition aton_concoct (parts : list Z) (val : Z) : option Z :=
  match parts with
  | [] => Some val
  | [p0] =>
      if val >? 0xffffff then None else
      if p0 >? 0xff then None else
      Some (Z.lor val (u32 (Z.shiftl p0 24)))
  | [p0; p1] =>
      if val >? 0xffff then None else
      if (p0 >? 0xff) || (p1 >? 0xff) then None else
      Some (Z.lor val (Z.lor (u32 (Z.shiftl p0 24)) (u32 (Z.shiftl p1 16))))
  | [p0; p1; p2] =>
      if val >? 0xff then None else
      if (p0 >? 0xff) || (p1 >? 0xff) || (p2 >? 0xff) then None else
      Some (Z.lor val (Z.lor (Z.lor (u32 (Z.shiftl p0 24)) (u32 (Z.shiftl p1 16)))
                         (u32 (Z.shiftl p2 8))))
  | _ => None
  end.

(** [ip4addr_aton(cp, addr)]: the address, [None] when it returns 0. *)
Definition ip4addr_aton (cp : bytes) : res (option Z) :=
  r ← aton_parts 3 cp [];
  match r with
  | None => Ret None
  | Some (parts, val, cp) =>
      if negb (char0 cp =? 0) && negb (isspace (char0 cp)) then Ret None
      else Ret (lwip_htonl <$> aton_concoct parts val)
  end.

(** [ipaddr_addr(cp)] *)
Definition ipaddr_addr (cp : bytes) : res Z :=
  r ← ip4addr_aton cp;
  Ret (match r with Some a => a | None => IPADDR_NONE end).

(** ** Address to text *)

(** The [do] loop of [ip4addr_ntoa_r]: the digits of a byte, last one first; the
    array [inv] has three elements. *)
Fixpoint octet_digits (fuel : nat) (ap : Z) : res bytes :=
  match fuel with
  | O => Err OutOfBounds
  | S f =>
      let c := 48 + ap mod 10 in
      let ap := ap / 10 in
      if ap =? 0 then Ret [c] else inv ← octet_digits f ap; Ret (c :: inv)
  end.

(** Writing characters with the check on the length; [None]: the buffer is full. *)
Fixpoint put_chars (cs out : bytes) (buflen : Z) : option bytes :=
  match cs with
  | [] => Some out
  | c :: cs' =>
      if Z.of_nat (length out) >=? buflen then None else put_chars cs' (out ++ [c]) buflen
  end.

Fixpoint ntoa_loop (octets out : bytes) (buflen : Z) : res (option bytes) :=
  match octets with
  | [] => Ret (Some out)
  | ap :: octets' =>
      inv ← octet_digits 3 ap;
      match put_chars (rev inv ++ [46]) out buflen with
      | None => Ret None
      | Some out => ntoa_loop octets' out buflen
      end
  end.

(** [ip4addr_ntoa_r(addr, buf, buflen)]: the text in [buf]; the last dot becomes
    the NUL. *)
Definition ip4addr_ntoa_r (addr buflen : Z) : res (option bytes) :=
  r ← ntoa_loop (le_bytes 4 addr) [] buflen;
  match r with Some out => Ret (Some (@removelast Z out)) | None => Ret None end.

(** [ip4addr_ntoa(addr)] *)
Definition ip4addr_ntoa (addr : Z) : res (option bytes) := ip4addr_ntoa_r addr IP4ADDR_STRLEN_MAX.

End Ip4Addr.
Import Ip4Addr.

(** ** Round trip *)

(** The decimal text of a byte. *)
Definition octet_text (x : Z) : bytes := match octet_digits 3 x with Ret inv => rev inv | Err _ => [] end.

(** What every byte satisfies, checked one by one: the digits fit the array, and
    the parser reads the text back before a dot and at the end. *)
Lemma octets_ok : Forall (λ x, octet_digits 3 x = Ret (rev (octet_text x)) ∧
  (length (octet_text x) ≤ 3)%nat ∧ isdigit (char0 (octet_text x)) = true ∧ octet_text x ≠ [] ∧
  (∀ r, (let '(base, cp) := aton_base (octet_text x ++ 46 :: r) in aton_digits base 0 cp) = (x, 46 :: r)) ∧
  (let '(base, cp) := aton_base (octet_text x) in aton_digits base 0 cp) = (x, [])) (seqZ 0 256).
Proof.
  let l := eval vm_compute in (seqZ 0 256) in change (seqZ 0 256) with l.
  repeat (apply list.Forall_cons; split;
    [split_and!; [reflexivity|vm_compute; lia|reflexivity|discriminate|intros r; reflexivity|reflexivity]|]).
  apply list.Forall_nil. exact I.
Qed.

Lemma octet_ok x : is_u8 x → octet_digits 3 x = Ret (rev (octet_text x)) ∧
  (length (octet_text x) ≤ 3)%nat ∧ isdigit (char0 (octet_text x)) = true ∧ octet_text x ≠ [] ∧
  (∀ r, (let '(base, cp) := aton_base (octet_text x ++ 46 :: r) in aton_digits base 0 cp) = (x, 46 :: r)) ∧
  (let '(base, cp) := aton_base (octet_text x) in aton_digits base 0 cp) = (x, []).
Proof.
  intros Hx. pose proof octets_ok as H. rewrite list.Forall_forall in H. apply H, elem_of_seqZ.
  unfold is_u8 in Hx. lia.
Qed.

Lemma put_chars_ok cs out buflen : Z.of_nat (length out + length cs) ≤ buflen →
  put_chars cs out buflen = Some (out ++ cs).
Proof.
  revert out. induction cs as [|c cs IH]; intros out H; cbn [put_chars]; [by rewrite app_nil_r|].
  cbn [length] in H. rewrite Z.geb_leb, (proj2 (Z.leb_gt _ _)) by lia.
  rewrite IH by (rewrite length_app; simpl; lia). by rewrite <- (assoc_L app).
Qed.

Lemma ntoa_step x octets out buflen : is_u8 x → Z.of_nat (length out + 4) ≤ buflen →
  ntoa_loop (x :: octets) out buflen = ntoa_loop octets (out ++ octet_text x ++ [46]) buflen.
Proof.
  intros Hx Hb. destruct (octet_ok x Hx) as (Hd & Hl & _). cbn [ntoa_loop]. rewrite Hd.
  cbn [mbind res_bind]. rewrite rev_involutive, put_chars_ok; [done|].
  rewrite length_app. simpl. lia.
Qed.

Lemma char0_app s r : s ≠ [] → char0 (s ++ r) = char0 s.
Proof. by destruct s. Qed.

Lemma aton_step fuel x r parts : is_u8 x → (length parts < 3)%nat →
  aton_parts (S fuel) (octet_text x ++ 46 :: r) parts = aton_parts fuel r (parts ++ [x]).
Proof.
  intros Hx Hp. destruct (octet_ok x Hx) as (_ & _ & Hc & Hne & Hr & _). cbn [aton_parts].
  rewrite char0_app, Hc by done. cbn [negb]. specialize (Hr r). destruct (aton_base _) as [base cp].
  rewrite Hr. cbn [char0 Z.eqb Pos.eqb tail]. by rewrite (proj2 (Nat.leb_gt _ _)) by lia.
Qed.

Lemma aton_last fuel x parts : is_u8 x →
  aton_parts fuel (octet_text x) parts = Ret (Some (parts, x, [])).
Proof.
  intros Hx. destruct (octet_ok x Hx) as (_ & _ & Hc & _ & _ & Hr).
  destruct fuel; cbn [aton_parts]; rewrite Hc; cbn [negb];
    destruct (aton_base _) as [base cp]; by rewrite Hr.
Qed.

Lemma concoct4 a b c d : is_u8 a → is_u8 b → is_u8 c → is_u8 d →
  aton_concoct [a; b; c] d = Some (d + 256 * (c + 256 * (b + 256 * a))).
Proof.
  intros Ha Hb Hc Hd. cbn [aton_concoct]. unfold is_u8 in *.
  rewrite !Z.gtb_ltb, !(proj2 (Z.ltb_ge _ _)) by lia. cbn [orb]. f_equal.
  rewrite !u32_id by (rewrite Z.shiftl_mul_pow2 by lia; change (2 ^ 24) with 16777216; clia).
  replace (Z.shiftl a 24) with (Z.shiftl (Z.shiftl a 8) 16) by (by rewrite Z.shiftl_shiftl).
  rewrite <- Z.shiftl_lor, (lor_shiftl_add a b 8) by lia.
  replace (Z.shiftl (a * 2 ^ 8 + b) 16) with (Z.shiftl (Z.shiftl (a * 2 ^ 8 + b) 8) 8) by
    (by rewrite Z.shiftl_shiftl).
  rewrite <- Z.shiftl_lor, (lor_shiftl_add _ c 8) by lia.
  rewrite Z.lor_comm, (lor_shiftl_add _ d 8) by lia. lia.
Qed.

(** C40: every address survives the way to text and back: [ip4addr_ntoa] fits its
    16-byte buffer and [ip4addr_aton] reads the same address from the text. *)
Theorem ip4addr_roundtrip addr : is_u32 addr →
  ∃ s, ip4addr_ntoa addr = Ret (Some s) ∧ (length s < 16)%nat ∧
    ip4addr_aton s = Ret (Some addr).
Proof.
  intros Ha. pose proof (le_bytes_wf 4 addr) as Hw.
  pose proof (le_word_bytes 4 addr ltac:(change (256 ^ Z.of_nat 4) with (2 ^ 32); apply Ha)) as He.
  destruct (le_bytes 4 addr) as [|a [|b [|c [|d [|? ?]]]]] eqn:E; try done.
  cbn [le_word] in He. rewrite Z.mul_0_r, Z.add_0_r in He.
  repeat (apply list.Forall_cons in Hw as [? Hw]).
  assert (∀ x, is_u8 x → (length (octet_text x) ≤ 3)%nat) as Hl by (intros; by apply octet_ok).
  pose proof (Hl a ltac:(done)). pose proof (Hl b ltac:(done)).
  pose proof (Hl c ltac:(done)). pose proof (Hl d ltac:(done)).
  exists (octet_text a ++ 46 :: octet_text b ++ 46 :: octet_text c ++ 46 :: octet_text d).
  split_and!.
  - unfold ip4addr_ntoa, ip4addr_ntoa_r, IP4ADDR_STRLEN_MAX. rewrite E.
    rewrite !ntoa_step by (done || (rewrite ?length_app; cbn [length]; lia)).
    cbn [ntoa_loop mbind res_bind app]. rewrite !(assoc_L app), removelast_last.
    by rewrite <- !(assoc_L app).
  - rewrite !length_app. cbn [length]. rewrite !length_app. cbn [length]. rewrite !length_app.
    cbn [length]. lia.
  - unfold ip4addr_aton. rewrite !aton_step, aton_last by (done || (simpl; lia)).
    cbn [mbind res_bind char0 Z.eqb negb andb app]. rewrite concoct4 by done. cbn [fmap option_fmap option_map].
    by rewrite htonl_bytes, He.
Qed.

Lemma ip4addr_roundtrip_witness :
  ip4addr_ntoa 0x0200a8c0 = Ret (Some (cstr "192.168.0.2")) ∧
  ∃ s, ip4addr_ntoa 0x0200a8c0 = Ret (Some s) ∧ (length s < 16)%nat ∧
    ip4addr_aton s = Ret (Some 0x0200a8c0).
Proof. split; [vm_compute; reflexivity|]. apply ip4addr_roundtrip. by split. Defined.

(** A number too large for 32 bits wraps around and is accepted. *)
Example aton_overflow : ip4addr_aton (cstr "4294967297") = Ret (Some (lwip_htonl 1)).
Proof. vm_compute. reflexivity. Qed.

(** ** Netmasks *)

Lemma land_bit nm i : 0 ≤ i → (Z.land nm (2 ^ i) =? 0) = negb (Z.testbit nm i).
Proof.
  intros Hi. assert (Z.land nm (2 ^ i) = if Z.testbit nm i then 2 ^ i else 0) as ->.
  { apply Z.bits_inj'. intros j Hj. rewrite Z.land_spec, Z.pow2_bits_eqb by lia.
    destruct (Z.testbit nm i) eqn:E.
    - rewrite Z.pow2_bits_eqb by lia. destruct (Z.eqb_spec i j) as [->|]; [by rewrite E|].
      by rewrite andb_false_r.
    - rewrite Z.bits_0. destruct (Z.eqb_spec i j) as [->|]; [by rewrite E|]. by rewrite andb_false_r. }
  pose proof (Z.pow_pos_nonneg 2 i). destruct (Z.testbit nm i); cbn [negb]; [|done].
  apply Z.eqb_neq. lia.
Qed.

(** The masks the loops go through: the powers of two, then 0. *)
Definition nth_mask (n : nat) : Z := match n with O => 0 | S i => 2 ^ Z.of_nat i end.

Lemma shiftr_mask n : Z.shiftr (nth_mask (S n)) 1 = nth_mask n.
Proof.
  rewrite Z.shiftr_div_pow2 by lia. destruct n as [|i]; [done|]. cbn [nth_mask].
  rewrite Nat2Z.inj_succ, Z.pow_succ_r by lia. change (2 ^ 1) with 2.
  rewrite Z.mul_comm, Z.div_mul by lia. done.
Qed.

Lemma first_zero_ok n fuel nm : (n ≤ fuel)%nat → ∃ k, (k ≤ n)%nat ∧
  first_zero fuel nm (nth_mask n) = Ret (nth_mask k) ∧
  (∀ i, Z.of_nat k ≤ i < Z.of_nat n → Z.testbit nm i = true) ∧
  (k ≠ O → Z.testbit nm (Z.of_nat k - 1) = false).
Proof.
  revert fuel. induction n as [|n IH]; intros fuel Hf.
  { exists O. split_and!; [done|by destruct fuel|lia|done]. }
  destruct fuel as [|fuel]; [lia|]. cbn [first_zero].
  pose proof (Z.pow_pos_nonneg 2 (Z.of_nat n)) as Hp.
  change (nth_mask (S n)) with (2 ^ Z.of_nat n) at 1 2 3. rewrite (proj2 (Z.eqb_neq _ _)) by lia.
  rewrite land_bit by lia. destruct (Z.testbit nm (Z.of_nat n)) eqn:E; cbn [negb].
  - rewrite shiftr_mask. destruct (IH fuel) as (k & Hk & Hr & H1 & H0); [lia|].
    exists k. split_and!; [lia|done| |done]. intros i Hi.
    destruct (decide (i = Z.of_nat n)) as [->|]; [done|apply H1; lia].
  - exists (S n). split_and!; [done|done|lia|]. intros _. by replace (Z.of_nat (S n) - 1) with (Z.of_nat n) by lia.
Qed.

Lemma no_one_ok n fuel nm : (n ≤ fuel)%nat →
  ∃ r, no_one fuel nm (nth_mask n) = Ret r ∧
    (r = 1 ↔ ∀ i, 0 ≤ i < Z.of_nat n → Z.testbit nm i = false).
Proof.
  revert fuel. induction n as [|n IH]; intros fuel Hf.
  { exists 1. split; [by destruct fuel|]. split; [lia|done]. }
  destruct fuel as [|fuel]; [lia|]. cbn [no_one].
  pose proof (Z.pow_pos_nonneg 2 (Z.of_nat n)) as Hp.
  change (nth_mask (S n)) with (2 ^ Z.of_nat n) at 1 2. rewrite (proj2 (Z.eqb_neq _ _)) by lia.
  rewrite land_bit by lia. destruct (Z.testbit nm (Z.of_nat n)) eqn:E; cbn [negb].
  - exists 0. split; [done|]. split; [done|]. intros H. rewrite H in E by lia. done.
  - rewrite shiftr_mask. destruct (IH fuel) as (r & Hr & H); [lia|]. exists r. split; [done|].
    rewrite H. split; intros Hi i Hb; [|apply Hi; lia].
    destruct (decide (i = Z.of_nat n)) as [->|]; [done|apply Hi; lia].
Qed.

Lemma mask_bits k i : (k ≤ 32)%nat → 0 ≤ i →
  Z.testbit (2 ^ 32 - 2 ^ Z.of_nat k) i = (Z.of_nat k <=? i) && (i <? 32).
Proof.
  intros Hk Hi. replace (2 ^ 32 - 2 ^ Z.of_nat k) with (Z.shiftl (Z.ones (32 - Z.of_nat k)) (Z.of_nat k)).
  2:{ rewrite Z.shiftl_mul_pow2, Z.ones_equiv by lia. unfold Z.pred.
      rewrite Z.mul_add_distr_r, <- Z.pow_add_r by lia. replace (32 - Z.of_nat k + Z.of_nat k) with 32 by lia. lia. }
  rewrite Z.shiftl_spec by lia. destruct (Z.leb_spec (Z.of_nat k) i) as [H|H]; cbn [andb].
  - destruct (Z.ltb_spec i 32); [apply Z.ones_spec_low; lia|apply Z.ones_spec_high; lia].
  - by rewrite Z.testbit_neg_r by lia.
Qed.

(** [ip4_addr_netmask_valid] terminates and accepts exactly the contiguous
    masks: those that in host order are [32 - k] ones followed by [k] zeros. *)
Theorem netmask_valid_correct netmask :
  ∃ r, ip4_addr_netmask_valid netmask = Ret r ∧
    (r = 1 ↔ ∃ k, (k ≤ 32)%nat ∧ lwip_htonl netmask = 2 ^ 32 - 2 ^ Z.of_nat k).
Proof.
  unfold ip4_addr_netmask_valid. set (nm := lwip_htonl netmask).
  assert (is_u32 nm) as Hnm by apply htonl_range.
  change (Z.shiftl 1 31) with (nth_mask 32).
  destruct (first_zero_ok 32 32 nm) as (k & Hk & -> & H1 & H0); [done|]. cbn [mbind res_bind].
  destruct (no_one_ok k 32 nm) as (r & -> & Hr); [lia|]. exists r. split; [done|]. rewrite Hr. split.
  - intros Hz. exists k. split; [done|]. apply Z.bits_inj'. intros i Hi. rewrite mask_bits by done.
    destruct (Z.leb_spec (Z.of_nat k) i); cbn [andb]; [|apply Hz; lia].
    destruct (Z.ltb_spec i 32); [apply H1; lia|].
    replace nm with (nm mod 2 ^ 32) by (by apply Z.mod_small). by apply Z.mod_pow2_bits_high.
  - intros (j & Hj & E) i Hi. rewrite E in *. rewrite mask_bits by lia.
    assert (¬ (Z.of_nat j < Z.of_nat k)); [|by rewrite (proj2 (Z.leb_gt _ _)) by lia].
    intros Hlt. assert (k ≠ O) as Hne by lia. specialize (H0 Hne). rewrite mask_bits in H0 by lia. lia.
Qed.
