(* ===== verification/TcpRaw.v ===== *)
(** * The server: [server_dir/minimal/tcp_raw.c]

    The server is a set of callbacks the TCP stack calls.  Its state: the packet
    buffers and allocators, the TCP control blocks, the [struct tcp_raw_state] of
    each connection, which lives on the lwIP heap, and whether a netlink socket
    is left bound to the process.

    Of [tcp.c] the functions the server uses to register callbacks and to open
    the receive window are here; sending, closing and opening are the class
    [TcpCore].  The exchange with the kernel over netlink is the parameter
    [netlink]: the payload sent determines what [socket], [bind], [sendmsg] and
    [recvmsg] do. *)

From S2P Require Import Prelude CLib Kernel Mem Alloc Pbuf.
Import Pbuf.

Module TcpRaw.

(** ** Control blocks *)

Inductive tcp_state :=
  | CLOSED | LISTEN | SYN_SENT | SYN_RCVD | ESTABLISHED | FIN_WAIT_1 | FIN_WAIT_2
  | CLOSE_WAIT | CLOSING | LAST_ACK | TIME_WAIT.

#[global] Instance tcp_state_eq_dec : EqDecision tcp_state.
Proof. solve_decision. Defined.

Definition TCP_MSS : Z := 536.
Definition TCP_WND : Z := 4 * TCP_MSS.
Definition TCP_WND_UPDATE_THRESHOLD : Z := Z.min (TCP_WND / 4) (TCP_MSS * 4).
Definition TCP_PRIO_MIN : Z := 1.
Definition TF_ACK_NOW : Z := 0x02.

(** The fields the server and the functions below use; a callback field is
    [true] when it holds the function of [tcp_raw.c] of that name and [false] when
    it is NULL.  [rest] is what only [TcpCore] uses: queues, sequence numbers of
    the sender and timers. *)
Record tcp_pcb (Q : Type) := mk_pcb {
  pstate : tcp_state;
  prio : Z;
  callback_arg : option Z;
  recv : bool; sent : bool; errf : bool; poll : bool; accept : bool;
  pollinterval : Z;
  pflags : Z;
  rcv_nxt : Z; rcv_wnd : Z; rcv_ann_wnd : Z; rcv_ann_right_edge : Z;
  mss : Z;
  snd_buf : Z;
  rest : Q;
}.
Arguments mk_pcb {Q} _ _ _ _ _ _ _ _ _ _ _ _ _ _ _ _ _.
Arguments pstate {Q} _.
Arguments prio {Q} _.
Arguments callback_arg {Q} _.
Arguments recv {Q} _.
Arguments sent {Q} _.
Arguments errf {Q} _.
Arguments poll {Q} _.
Arguments accept {Q} _.
Arguments pollinterval {Q} _.
Arguments pflags {Q} _.
Arguments rcv_nxt {Q} _.
Arguments rcv_wnd {Q} _.
Arguments rcv_ann_wnd {Q} _.
Arguments rcv_ann_right_edge {Q} _.
Arguments mss {Q} _.
Arguments snd_buf {Q} _.
Arguments rest {Q} _.

(** The memory of the stack: packet buffers and control blocks. *)
Record stack (A Q : Type) := mk_stack {
  wld : world A;
  pcbs : gmap Z (tcp_pcb Q);
}.
Arguments mk_stack {A Q} _ _.
Arguments wld {A Q} _.
Arguments pcbs {A Q} _.

(** What the server calls of the stack besides the functions below. *)
Class TcpCore (A Q : Type) := {
  tcp_write : Z → option ptr → Z → M (stack A Q) err_t;   (* TCP_WRITE_FLAG_COPY *)
  tcp_output : Z → M (stack A Q) err_t;
  tcp_close : Z → M (stack A Q) err_t;
  tcp_abort : Z → M (stack A Q) ();
  tcp_new_ip_type : M (stack A Q) (option Z);
  tcp_bind : Z → Z → M (stack A Q) err_t;
  tcp_listen : Z → M (stack A Q) (option Z);
}.

(** ** The server's state *)

Inductive tcp_raw_states := ES_NONE | ES_ACCEPTED | ES_RECEIVED | ES_CLOSING.

#[global] Instance tcp_raw_states_eq_dec : EqDecision tcp_raw_states.
Proof. solve_decision. Defined.

Record tcp_raw_state := mk_es {
  state : tcp_raw_states;
  retries : Z;
  pcb : Z;
  p : option loc;
}.

Definition SIZEOF_TCP_RAW_STATE : Z := 24.
Definition MAX_PAYLOAD : Z := 256.
Definition PORT : Z := 1202.

Definition set_state x es := mk_es x (retries es) (pcb es) (p es).
Definition set_retries x es := mk_es (state es) x (pcb es) (p es).
Definition set_p x es := mk_es (state es) (retries es) (pcb es) x.

Record server (A Q : Type) := mk_server {
  stk : stack A Q;
  ess : gmap Z tcp_raw_state;      (* by address in the heap *)
  tcp_raw_pcb : option Z;
  nl_bound : bool;
}.
Arguments mk_server {A Q} _ _ _ _.
Arguments stk {A Q} _.
Arguments ess {A Q} _.
Arguments tcp_raw_pcb {A Q} _.
Arguments nl_bound {A Q} _.

(** What the netlink calls do with a message. *)
Inductive nl_result :=
  | NlSocketFail | NlBindFail | NlSendFail | NlRecvFail
  | NlBlocked                 (* no message ever arrives *)
  | NlReply (msg : bytes).

Section Server.
Context {A Q : Type} `{Alloc A} `{TcpCore A Q}.
Context (custom_free_function : loc → M (world A) ()).
Context (netlink : bytes → nl_result).

Abbreviation S := (server A Q).
Abbreviation pcb_t := (tcp_pcb Q).

(** ** Access to the parts of the state *)

Definition lift_world {B} (m : M (world A) B) : M (stack A Q) B := λ s,
  match m (wld s) with
  | Ret (x, w) => Ret (x, mk_stack w (pcbs s))
  | Err f => Err f
  end.
Definition on_stack {B} (m : M (stack A Q) B) : M S B := λ s,
  match m (stk s) with
  | Ret (x, t) => Ret (x, mk_server t (ess s) (tcp_raw_pcb s) (nl_bound s))
  | Err f => Err f
  end.
Definition on_world {B} (m : M (world A) B) : M S B := on_stack (lift_world m).

Definition rd_pcb (id : Z) : M (stack A Q) pcb_t := λ s,
  match pcbs s !! id with Some c => Ret (c, s) | None => Err DanglingPtr end.
Definition upd_pcb (id : Z) (f : pcb_t → pcb_t) : M (stack A Q) () :=
  c ← rd_pcb id; modify (λ s, mk_stack (wld s) (<[id := f c]> (pcbs s))).

Definition rd_es (x : Z) : M S tcp_raw_state := λ s,
  match ess s !! x with Some es => Ret (es, s) | None => Err DanglingPtr end.
Definition set_ess f (s : S) : S := mk_server (stk s) (f (ess s)) (tcp_raw_pcb s) (nl_bound s).
Definition upd_es (x : Z) (f : tcp_raw_state → tcp_raw_state) : M S () :=
  es ← rd_es x; modify (set_ess <[x := f es]>).

(** ** Functions of [tcp.c] *)

Definition tcp_arg (id : Z) (arg : option Z) : M (stack A Q) () :=
  upd_pcb id (λ c, mk_pcb (pstate c) (prio c) arg (recv c) (sent c) (errf c) (poll c) (accept c)
    (pollinterval c) (pflags c) (rcv_nxt c) (rcv_wnd c) (rcv_ann_wnd c) (rcv_ann_right_edge c)
    (mss c) (snd_buf c) (rest c)).
Definition tcp_recv (id : Z) (b : bool) : M (stack A Q) () :=
  c ← rd_pcb id;
  _ ← assert_ (bool_decide (pstate c ≠ LISTEN));
  upd_pcb id (λ c, mk_pcb (pstate c) (prio c) (callback_arg c) b (sent c) (errf c) (poll c)
    (accept c) (pollinterval c) (pflags c) (rcv_nxt c) (rcv_wnd c) (rcv_ann_wnd c)
    (rcv_ann_right_edge c) (mss c) (snd_buf c) (rest c)).
Definition tcp_sent (id : Z) (b : bool) : M (stack A Q) () :=
  c ← rd_pcb id;
  _ ← assert_ (bool_decide (pstate c ≠ LISTEN));
  upd_pcb id (λ c, mk_pcb (pstate c) (prio c) (callback_arg c) (recv c) b (errf c) (poll c)
    (accept c) (pollinterval c) (pflags c) (rcv_nxt c) (rcv_wnd c) (rcv_ann_wnd c)
    (rcv_ann_right_edge c) (mss c) (snd_buf c) (rest c)).
Definition tcp_err (id : Z) (b : bool) : M (stack A Q) () :=
  c ← rd_pcb id;
  _ ← assert_ (bool_decide (pstate c ≠ LISTEN));
  upd_pcb id (λ c, mk_pcb (pstate c) (prio c) (callback_arg c) (recv c) (sent c) b (poll c)
    (accept c) (pollinterval c) (pflags c) (rcv_nxt c) (rcv_wnd c) (rcv_ann_wnd c)
    (rcv_ann_right_edge c) (mss c) (snd_buf c) (rest c)).
Definition tcp_poll (id : Z) (b : bool) (interval : Z) : M (stack A Q) () :=
  c ← rd_pcb id;
  _ ← assert_ (bool_decide (pstate c ≠ LISTEN));
  upd_pcb id (λ c, mk_pcb (pstate c) (prio c) (callback_arg c) (recv c) (sent c) (errf c) b
    (accept c) interval (pflags c) (rcv_nxt c) (rcv_wnd c) (rcv_ann_wnd c)
    (rcv_ann_right_edge c) (mss c) (snd_buf c) (rest c)).
Definition tcp_accept (id : option Z) (b : bool) : M (stack A Q) () :=
  match id with
  | None => mret ()
  | Some id =>
      c ← rd_pcb id;
      if decide (pstate c = LISTEN) then
        upd_pcb id (λ c, mk_pcb (pstate c) (prio c) (callback_arg c) (recv c) (sent c) (errf c)
          (poll c) b (pollinterval c) (pflags c) (rcv_nxt c) (rcv_wnd c) (rcv_ann_wnd c)
          (rcv_ann_right_edge c) (mss c) (snd_buf c) (rest c))
      else mret ()
  end.
Definition tcp_setprio (id : Z) (pr : Z) : M (stack A Q) () :=
  upd_pcb id (λ c, mk_pcb (pstate c) pr (callback_arg c) (recv c) (sent c) (errf c) (poll c)
    (accept c) (pollinterval c) (pflags c) (rcv_nxt c) (rcv_wnd c) (rcv_ann_wnd c)
    (rcv_ann_right_edge c) (mss c) (snd_buf c) (rest c)).

Definition TCP_SEQ_GEQ (a b : Z) : bool := 0 <=? s32 (u32 a - u32 b).
Definition TCP_SEQ_GT (a b : Z) : bool := 0 <? s32 (u32 a - u32 b).

Definition set_rcv_ann_wnd (z : Z) (c : pcb_t) : pcb_t :=
  mk_pcb (pstate c) (prio c) (callback_arg c) (recv c) (sent c) (errf c) (poll c) (accept c)
    (pollinterval c) (pflags c) (rcv_nxt c) (rcv_wnd c) z (rcv_ann_right_edge c) (mss c)
    (snd_buf c) (rest c).
Definition set_rcv_wnd (z : Z) (c : pcb_t) : pcb_t :=
  mk_pcb (pstate c) (prio c) (callback_arg c) (recv c) (sent c) (errf c) (poll c) (accept c)
    (pollinterval c) (pflags c) (rcv_nxt c) z (rcv_ann_wnd c) (rcv_ann_right_edge c) (mss c)
    (snd_buf c) (rest c).
Definition set_pflags (z : Z) (c : pcb_t) : pcb_t :=
  mk_pcb (pstate c) (prio c) (callback_arg c) (recv c) (sent c) (errf c) (poll c) (accept c)
    (pollinterval c) z (rcv_nxt c) (rcv_wnd c) (rcv_ann_wnd c) (rcv_ann_right_edge c) (mss c)
    (snd_buf c) (rest c).

(** [tcp_update_rcv_ann_wnd(pcb)]; the result is a [u32_t]. *)
Definition tcp_update_rcv_ann_wnd (id : Z) : M (stack A Q) Z :=
  c ← rd_pcb id;
  let new_right_edge := u32 (rcv_nxt c + rcv_wnd c) in
  if TCP_SEQ_GEQ new_right_edge (rcv_ann_right_edge c + Z.min (TCP_WND / 2) (mss c)) then
    _ ← upd_pcb id (set_rcv_ann_wnd (rcv_wnd c));
    mret (u32 (new_right_edge - rcv_ann_right_edge c))
  else if TCP_SEQ_GT (rcv_nxt c) (rcv_ann_right_edge c) then
    _ ← upd_pcb id (set_rcv_ann_wnd 0);
    mret 0
  else
    let new_rcv_ann_wnd := u32 (rcv_ann_right_edge c - rcv_nxt c) in
    _ ← assert_ (new_rcv_ann_wnd <=? 0xffff);
    _ ← upd_pcb id (set_rcv_ann_wnd (u16 new_rcv_ann_wnd));
    mret 0.

(** [tcp_recved(pcb, len)] *)
Definition tcp_recved (id len : Z) : M (stack A Q) () :=
  c ← rd_pcb id;
  _ ← assert_ (bool_decide (pstate c ≠ LISTEN));
  let wnd := u16 (rcv_wnd c + len) in
  _ ← upd_pcb id (set_rcv_wnd wnd);
  _ ← (if TCP_WND <? wnd then upd_pcb id (set_rcv_wnd TCP_WND)
       else if wnd =? 0 then
         if decide (pstate c = CLOSE_WAIT ∨ pstate c = LAST_ACK)
         then upd_pcb id (set_rcv_wnd TCP_WND)
         else assert_ false
       else mret ());
  wnd_inflation ← tcp_update_rcv_ann_wnd id;
  if s32 wnd_inflation >=? TCP_WND_UPDATE_THRESHOLD then
    c ← rd_pcb id;
    _ ← upd_pcb id (set_pflags (Z.lor (pflags c) TF_ACK_NOW));
    _ ← tcp_output id;
    mret ()
  else mret ().

(** [tcp_recv_null(arg, pcb, p, err)]: what runs when no callback is set. *)
Definition tcp_recv_null (id : Z) (q : option loc) (err : err_t) : M (stack A Q) err_t :=
  match q with
  | Some l =>
      pb ← lift_world (rd l);
      _ ← tcp_recved id (tot_len pb);
      _ ← lift_world (pbuf_free custom_free_function (Some l));
      mret ERR_OK
  | None => match err with ERR_OK => tcp_close id | _ => mret ERR_OK end
  end.

(** ** Netlink *)

(** The payload of the message [send_netlink_request] sends: the request text in
    a zeroed buffer. *)
Definition netlink_request (address length : Z) : bytes :=
  splice 0 (request_text address length ++ [0]) (replicate (Z.to_nat MAX_PAYLOAD) 0).

(** [send_netlink_request(address, length)], with [init_netlink_socket]: the
    [MAX_PAYLOAD] bytes at the pointer it returns, [None] for NULL.  A socket left
    open on an error keeps the process's netlink address, and the next [bind]
    fails. *)
Definition send_netlink_request (address length : Z) : M S (option bytes) :=
  s ← get;
  if nl_bound s then fail Exits else
  let payload := netlink_request address length in
  match netlink payload with
  | NlSocketFail | NlBindFail => fail Exits
  | NlSendFail | NlRecvFail =>
      _ ← modify (λ s, mk_server (stk s) (ess s) (tcp_raw_pcb s) true);
      mret None
  | NlBlocked => fail Diverges
  | NlReply msg => mret (Some (splice 0 (take (Z.to_nat MAX_PAYLOAD) msg) payload))
  end.

(** ** The server *)

(** [tcp_raw_free(es)] *)
Definition tcp_raw_free (x : option Z) : M S () :=
  match x with
  | None => mret ()
  | Some x =>
      es ← rd_es x;
      _ ← match p es with
          | Some l => _ ← on_world (pbuf_free custom_free_function (Some l)); mret ()
          | None => mret ()
          end;
      _ ← on_world (on_alloc (heap_free x));
      modify (set_ess (delete x))
  end.

(** [do_action(es)] *)
Definition do_action (x : Z) : M S () :=
  es ← rd_es x;
  l ← of_option NullDeref (p es);
  pb ← on_world (rd l);
  data ← on_world (load (payload pb) 0 8);
  let data0 := le_word (take 4 data) in
  let data1 := le_word (drop 4 data) in
  res ← send_netlink_request data0 data1;
  _ ← on_world (upd l (set_len (u16 data1)));
  src ← match res with
        | Some r => on_world (read_from r 0 data1)
        | None => if data1 =? 0 then mret [] else fail NullDeref
        end;
  on_world (store (payload pb) 0 src).

(** [tcp_raw_close(tpcb, es)] *)
Definition tcp_raw_close (id x : Z) : M S () :=
  _ ← on_stack (tcp_arg id None);
  _ ← on_stack (tcp_sent id false);
  _ ← on_stack (tcp_recv id false);
  _ ← on_stack (tcp_err id false);
  _ ← on_stack (tcp_poll id false 0);
  _ ← tcp_raw_free (Some x);
  _ ← on_stack (tcp_close id);
  mret ().

(** [tcp_raw_send(tpcb, es)] *)
Fixpoint send_loop (n : nat) (id x : Z) : M S () :=
  es ← rd_es x;
  match p es with
  | None => mret ()
  | Some ptr =>
      pb ← on_world (rd ptr);
      c ← on_stack (rd_pcb id);
      if len pb <=? snd_buf c then
        match n with
        | O => fail Diverges
        | Datatypes.S n' =>
            wr_err ← on_stack (tcp_write id (payload pb) (len pb));
            match wr_err with
            | ERR_OK =>
                pb ← on_world (rd ptr);
                let plen := len pb in
                _ ← upd_es x (set_p (next pb));
                _ ← match next pb with
                    | Some q => on_world (pbuf_ref (Some q))
                    | None => mret ()
                    end;
                _ ← on_world (pbuf_free custom_free_function (Some ptr));
                _ ← on_stack (tcp_recved id plen);
                send_loop n' id x
            | ERR_MEM => upd_es x (set_p (Some ptr))
            | _ => mret ()
            end
        end
      else mret ()
  end.

Definition tcp_raw_send (id x : Z) : M S () :=
  s ← get;
  send_loop (fuel (wld (stk s))) id x.

(** [tcp_raw_error(arg, err)] *)
Definition tcp_raw_error (arg : option Z) (err : err_t) : M S () := tcp_raw_free arg.

(** [tcp_raw_poll(arg, tpcb)] *)
Definition tcp_raw_poll (arg : option Z) (id : Z) : M S err_t :=
  match arg with
  | Some x =>
      es ← rd_es x;
      _ ← match p es with
          | Some _ => tcp_raw_send id x
          | None => if decide (state es = ES_CLOSING) then tcp_raw_close id x else mret ()
          end;
      mret ERR_OK
  | None => _ ← on_stack (tcp_abort id); mret ERR_ABRT
  end.

(** [tcp_raw_sent(arg, tpcb, len)] *)
Definition tcp_raw_sent (arg : option Z) (id len : Z) : M S err_t :=
  x ← of_option NullDeref arg;
  _ ← upd_es x (set_retries 0);
  es ← rd_es x;
  _ ← match p es with
      | Some _ => _ ← on_stack (tcp_sent id true); tcp_raw_send id x
      | None => if decide (state es = ES_CLOSING) then tcp_raw_close id x else mret ()
      end;
  mret ERR_OK.

(** [tcp_raw_recv(arg, tpcb, p, err)]: a new request ... *)
Definition recv_request (id x : Z) (l : loc) : M S () :=
  _ ← upd_es x (set_p (Some l));
  _ ← do_action x;
  tcp_raw_send id x.

(** ... and the dispatch on the state. *)
Definition tcp_raw_recv (arg : option Z) (id : Z) (q : option loc) (err : err_t) : M S err_t :=
  _ ← assert_ (bool_decide (is_Some arg));
  x ← of_option NullDeref arg;
  es ← rd_es x;
  match q with
  | None =>
      _ ← upd_es x (set_state ES_CLOSING);
      _ ← match p es with None => tcp_raw_close id x | Some _ => tcp_raw_send id x end;
      mret ERR_OK
  | Some l =>
      match err with
      | ERR_OK =>
          match state es with
          | ES_ACCEPTED =>
              _ ← upd_es x (set_state ES_RECEIVED);
              _ ← recv_request id x l;
              mret ERR_OK
          | ES_RECEIVED =>
              _ ← match p es with
                  | None => recv_request id x l
                  | Some ptr => on_world (pbuf_cat (Some ptr) (Some l))
                  end;
              mret ERR_OK
          | _ =>
              pb ← on_world (rd l);
              _ ← on_stack (tcp_recved id (tot_len pb));
              _ ← on_world (pbuf_free custom_free_function (Some l));
              mret ERR_OK
          end
      | _ =>
          _ ← on_world (pbuf_free custom_free_function (Some l));
          mret err
      end
  end.

(** [tcp_raw_accept(arg, newpcb, err)] *)
Definition tcp_raw_accept (newpcb : option Z) (err : err_t) : M S err_t :=
  match err, newpcb with
  | ERR_OK, Some id =>
      _ ← on_stack (tcp_setprio id TCP_PRIO_MIN);
      r ← on_world (on_alloc (heap_malloc SIZEOF_TCP_RAW_STATE));
      match r with
      | Some x =>
          _ ← modify (set_ess <[x := mk_es ES_ACCEPTED 0 id None]>);
          _ ← on_stack (tcp_arg id (Some x));
          _ ← on_stack (tcp_recv id true);
          _ ← on_stack (tcp_err id true);
          _ ← on_stack (tcp_poll id true 0);
          _ ← on_stack (tcp_sent id true);
          mret ERR_OK
      | None => mret ERR_MEM
      end
  | _, _ => mret ERR_VAL
  end.

(** [tcp_raw_init()] *)
Definition tcp_raw_init : M S () :=
  r ← on_stack tcp_new_ip_type;
  _ ← modify (λ s, mk_server (stk s) (ess s) r (nl_bound s));
  match r with
  | Some id =>
      err ← on_stack (tcp_bind id PORT);
      match err with
      | ERR_OK =>
          l ← on_stack (tcp_listen id);
          _ ← modify (λ s, mk_server (stk s) (ess s) l (nl_bound s));
          on_stack (tcp_accept l true)
      | _ => mret ()
      end
  | None => mret ()
  end.

(** ** Events: the calls the stack makes, through the macros of [tcp_priv.h] *)

Definition TCP_EVENT_ACCEPT (lid : Z) (newpcb : option Z) (err : err_t) : M S err_t :=
  c ← on_stack (rd_pcb lid);
  if accept c then tcp_raw_accept newpcb err else mret ERR_ARG.
Definition TCP_EVENT_SENT (id space : Z) : M S err_t :=
  c ← on_stack (rd_pcb id);
  if sent c then tcp_raw_sent (callback_arg c) id space else mret ERR_OK.
Definition TCP_EVENT_RECV (id : Z) (q : option loc) (err : err_t) : M S err_t :=
  c ← on_stack (rd_pcb id);
  if recv c then tcp_raw_recv (callback_arg c) id q err
  else on_stack (tcp_recv_null id q err).
Definition TCP_EVENT_CLOSED (id : Z) : M S err_t :=
  c ← on_stack (rd_pcb id);
  if recv c then tcp_raw_recv (callback_arg c) id None ERR_OK else mret ERR_OK.
Definition TCP_EVENT_POLL (id : Z) : M S err_t :=
  c ← on_stack (rd_pcb id);
  if poll c then tcp_raw_poll (callback_arg c) id else mret ERR_OK.
Definition TCP_EVENT_ERR (errf : bool) (arg : option Z) (err : err_t) : M S () :=
  if errf then tcp_raw_error arg err else mret ().

End Server.
End TcpRaw.
