(* ===== verification/TcpRawSpec.v ===== *)
(** * The server against the TCP interface

    [TcpLaws] states what the server relies on of the sending half of TCP: memory
    is separated, [tcp_write] with the copy flag takes the bytes over or takes
    nothing.  Against it: the receive window, the transmission of a held chain of
    pbufs, and what the callbacks of the server do. *)

From S2P Require Import Prelude CLib Kernel Mem Memp Alloc Pbuf PbufChain PbufWrite PbufOwn PbufOps PbufSpec TcpRaw.
Import Pbuf TcpRaw.

(** ** Memory *)

Section Agree.
Context {A : Type}.
Implicit Types (w : world A) (L : gmap loc Z) (X Y : gset loc).

(** The blocks of [X] and what they hold are the same. *)
Definition agree X w L w' L' : Prop := ∀ l, l ∈ X →
  L' !! l = L !! l ∧ (l ∈ live w' ↔ l ∈ live w) ∧ pbs w' !! l = pbs w !! l ∧
  data w' !! Own l = data w !! Own l.

Lemma agree_refl X w L : agree X w L w L.
Proof. done. Qed.

Lemma agree_mono X Y w L w' L' : Y ⊆ X → agree X w L w' L' → agree Y w L w' L'.
Proof. intros Hs Ha l Hl. by apply Ha, Hs. Qed.

Lemma agree_trans X w1 L1 w2 L2 w3 L3 :
  agree X w1 L1 w2 L2 → agree X w2 L2 w3 L3 → agree X w1 L1 w3 L3.
Proof.
  intros H1 H2 l Hl. destruct (H1 l Hl) as (a1 & b1 & c1 & d1).
  destruct (H2 l Hl) as (a2 & b2 & c2 & d2). split_and!; [congruence|tauto|congruence|congruence].
Qed.

Lemma agree_chain X w L w' L' p cs : agree X w L w' L' → (∀ l, l ∈ cs.*1 → l ∈ X) →
  chain w p cs → chain w' p cs.
Proof.
  intros Ha Hs Hc. eapply chain_same; [|exact Hc]. intros l Hl.
  destruct (Ha l (Hs l Hl)) as (_ & Hlv & Hp & _). split; [done|].
  apply Hlv. by eapply chain_live.
Qed.

(** Payloads inside the pbufs' own blocks. *)
Definition own_payload (c : loc * pbuf) : Prop := ∃ o, payload c.2 = Some (Own c.1, o).

Lemma agree_load X w L w' L' l o off n d : agree X w L w' L' → l ∈ X →
  load (Some (Own l, o)) off n w = Ret (d, w) → load (Some (Own l, o)) off n w' = Ret (d, w').
Proof.
  intros Ha Hl. destruct (Ha l Hl) as (_ & Hlv & _ & Hd). unfold load, valid.
  destruct (n =? 0); [by intros [= <-]|]. case_bool_decide as H1; [|done].
  rewrite bool_decide_eq_true_2 by tauto. rewrite Hd.
  destruct (data w !! Own l) as [bs|]; [|done].
  destruct (_ && _); [|done]. by intros [= <-].
Qed.

Lemma agree_content X w L w' L' cs ds : agree X w L w' L' → (∀ l, l ∈ cs.*1 → l ∈ X) →
  Forall own_payload cs → content w cs ds → content w' cs ds.
Proof.
  intros Ha Hs Ho Hc. unfold content in *. induction Hc as [|[l pb] d cs ds Hd Hc IH]; [constructor|].
  apply list.Forall_cons in Ho as [[o Hp] Ho]. cbn [fst snd] in *. constructor.
  - cbn [fst snd]. rewrite Hp in *. eapply agree_load; [exact Ha| |done]. apply Hs. by left.
  - apply IH; [|done]. intros x Hx. apply Hs. by right.
Qed.

End Agree.

(** ** What TCP promises *)

(** The fields sending leaves alone; the announced right edge follows the window
    when a segment goes out. *)
Record same_app {Q : Type} (c c' : tcp_pcb Q) : Prop := mk_same_app {
  sa_pstate : pstate c' = pstate c;
  sa_arg : callback_arg c' = callback_arg c;
  sa_recv : recv c' = recv c;
  sa_sent : sent c' = sent c;
  sa_errf : errf c' = errf c;
  sa_poll : poll c' = poll c;
  sa_rcv_nxt : rcv_nxt c' = rcv_nxt c;
  sa_rcv_wnd : rcv_wnd c' = rcv_wnd c;
  sa_rcv_ann_wnd : rcv_ann_wnd c' = rcv_ann_wnd c;
  sa_mss : mss c' = mss c;
  sa_edge : rcv_ann_right_edge c' = rcv_ann_right_edge c ∨
            rcv_ann_right_edge c' = u32 (rcv_nxt c + rcv_ann_wnd c);
}.

Definition rests {A Q : Type} (s : stack A Q) : gmap Z Q := rest <$> pcbs s.

(** A call of TCP changes the blocks [mem] only, and what it takes in addition
    was free: it touches no block of others and loses none. *)
Record tcp_step {A Q : Type} (mem : gmap Z Q → gset loc) (ok : world A → gmap loc Z → gmap Z Q → Prop)
    (s : stack A Q) (L : gmap loc Z) (s' : stack A Q) (L' : gmap loc Z) : Prop := mk_tcp_step {
  ts_ok : ok (wld s') L' (rests s');
  ts_agree : agree (dom L ∖ mem (rests s)) (wld s) L (wld s') L';
  ts_dom : dom L' = mem (rests s') ∪ (dom L ∖ mem (rests s));
  ts_disj : mem (rests s') ## dom L ∖ mem (rests s);
}.

(** [tcp_mem qs] are the blocks TCP holds, [stream q] the bytes accepted for
    sending on a connection since it was opened. *)
Class TcpLaws (A Q : Type) `{HA : Alloc A} {elt_size : memp_t → Z} `{HL : !AllocLaws A elt_size}
    `{HT : !TcpCore A Q} := {
  stream : Q → bytes;
  tcp_mem : gmap Z Q → gset loc;
  tcp_ok : world A → gmap loc Z → gmap Z Q → Prop;
  tcp_ok_inv w L qs : tcp_ok w L qs → inv w L;
  tcp_ok_mem w L qs : tcp_ok w L qs → tcp_mem qs ⊆ dom L;
  tcp_ok_frame w L w' L' qs : tcp_ok w L qs → inv w' L' → agree (tcp_mem qs) w L w' L' →
    tcp_ok w' L' qs;
  tcp_write_ok s L id c r o n bs :
    tcp_ok (wld s) L (rests s) → pcbs s !! id = Some c →
    load (Some (r, o)) 0 n (wld s) = Ret (bs, wld s) → 0 ≤ n ≤ snd_buf c →
    ∃ e s' L' c', tcp_write id (Some (r, o)) n s = Ret (e, s') ∧ tcp_step tcp_mem tcp_ok s L s' L' ∧
      pcbs s' = <[id := c']> (pcbs s) ∧ same_app c c' ∧
      stream (rest c') = (if decide (e = ERR_OK) then stream (rest c) ++ bs else stream (rest c)) ∧
      snd_buf c' = (if decide (e = ERR_OK) then snd_buf c - n else snd_buf c);
  tcp_output_ok s L id c :
    tcp_ok (wld s) L (rests s) → pcbs s !! id = Some c →
    ∃ e s' L' c', tcp_output id s = Ret (e, s') ∧ tcp_step tcp_mem tcp_ok s L s' L' ∧
      pcbs s' = <[id := c']> (pcbs s) ∧ same_app c c' ∧
      stream (rest c') = stream (rest c) ∧ snd_buf c' = snd_buf c;
  tcp_close_ok s L id c :
    tcp_ok (wld s) L (rests s) → pcbs s !! id = Some c →
    ∃ e s' L', tcp_close id s = Ret (e, s') ∧ tcp_step tcp_mem tcp_ok s L s' L' ∧
      ∀ id', id' ≠ id → pcbs s' !! id' = pcbs s !! id';
}.

(** ** The receive window *)

Section Window.
Context {Q : Type}.
Implicit Types (c : tcp_pcb Q).

(** How far the announced right edge lies beyond the data received. *)
Definition ahead c : Z := s32 (rcv_ann_right_edge c - rcv_nxt c).

(** The announced edge lies inside the window. *)
Record wnd_ok c : Prop := mk_wnd_ok {
  wo_nxt : is_u32 (rcv_nxt c);
  wo_edge : is_u32 (rcv_ann_right_edge c);
  wo_wnd : 0 ≤ rcv_wnd c ≤ TCP_WND;
  wo_ann : 0 ≤ rcv_ann_wnd c ≤ rcv_wnd c;
  wo_mss : is_u16 (mss c);
  wo_ahead : - TCP_WND ≤ ahead c ≤ rcv_wnd c;
}.

(** The gain at which a larger window is announced. *)
Definition gain_step c : Z := Z.min (TCP_WND / 2) (mss c).

(** The window to announce: all of it when the edge can move far enough,
    otherwise what is left up to the edge already announced. *)
Definition new_ann_wnd c : Z :=
  if gain_step c <=? rcv_wnd c - ahead c then rcv_wnd c else Z.max 0 (ahead c).
Definition inflation c : Z :=
  if gain_step c <=? rcv_wnd c - ahead c then rcv_wnd c - ahead c else 0.

Definition recved_wnd c len : Z := Z.min (rcv_wnd c + len) TCP_WND.

(** The control block after [tcp_recved], before a window update is sent. *)
Definition recved c len : tcp_pcb Q :=
  let c1 := set_rcv_wnd (recved_wnd c len) c in set_rcv_ann_wnd (new_ann_wnd c1) c1.

Lemma geq_ahead c : wnd_ok c →
  TCP_SEQ_GEQ (u32 (rcv_nxt c + rcv_wnd c)) (rcv_ann_right_edge c + gain_step c) =
  (gain_step c <=? rcv_wnd c - ahead c).
Proof.
  intros [H1 H2 H3 H4 H5 H6]. unfold TCP_SEQ_GEQ, ahead, gain_step in *.
  change TCP_WND with 2144 in *. change (2144 / 2) with 1072 in *.
  assert (0 ≤ Z.min 1072 (mss c) ≤ 1072) by (unfold is_u16 in H5; lia).
  generalize dependent (Z.min 1072 (mss c)). intros g Hg.
  destruct (Z.leb_spec g (rcv_wnd c - s32 (rcv_ann_right_edge c - rcv_nxt c))); clia.
Qed.

Lemma gt_ahead c : wnd_ok c → TCP_SEQ_GT (rcv_nxt c) (rcv_ann_right_edge c) = (ahead c <? 0).
Proof.
  intros [H1 H2 H3 H4 H5 H6]. unfold TCP_SEQ_GT, ahead in *. change TCP_WND with 2144 in *.
  destruct (Z.ltb_spec (s32 (rcv_ann_right_edge c - rcv_nxt c)) 0); clia.
Qed.

Lemma gain_step_nonneg c : wnd_ok c → 0 ≤ gain_step c.
Proof. intros Hw. pose proof (wo_mss _ Hw). unfold gain_step, is_u16 in *. change (TCP_WND / 2) with 1072. lia. Qed.

Lemma wnd_ok_recved c len : wnd_ok c → 0 ≤ len → wnd_ok (recved c len).
Proof.
  intros Hw Hl. pose proof Hw as [H1 H2 H3 H4 H5 H6].
  assert (rcv_wnd c ≤ recved_wnd c len ≤ TCP_WND) as Hwnd by (unfold recved_wnd; lia).
  constructor; cbn; try done; [lia| |unfold ahead in *; cbn; lia].
  unfold new_ann_wnd, ahead, gain_step in *. cbn. destruct (_ <=? _); lia.
Qed.

Lemma same_app_wnd c c' : same_app c c' → wnd_ok c → wnd_ok c'.
Proof.
  intros [_ _ _ _ _ _ E1 E2 E3 E4 E5] [H1 H2 H3 H4 H5 H6]. unfold ahead in *.
  assert (is_u32 (rcv_ann_right_edge c')) by (destruct E5 as [->| ->]; [done|apply u32_range]).
  constructor; rewrite ?E1, ?E2, ?E3, ?E4; try done. unfold ahead. rewrite E1.
  destruct E5 as [->| ->]; [done|]. change TCP_WND with 2144 in *. clia.
Qed.

End Window.

Section Recved.
Context {A Q : Type} `{HA : Alloc A} {elt_size : memp_t → Z} `{HL : !AllocLaws A elt_size}.
Context `{HT : !TcpCore A Q}.
Implicit Types (s : stack A Q) (c : tcp_pcb Q).

Definition put_pcb (id : Z) c s : stack A Q := mk_stack (wld s) (<[id := c]> (pcbs s)).

Lemma rd_pcb_ok s id c : pcbs s !! id = Some c → rd_pcb id s = Ret (c, s).
Proof. intros H. unfold rd_pcb. by rewrite H. Qed.

Lemma bind_rd_pcb {B} s id c (k : tcp_pcb Q → M (stack A Q) B) :
  pcbs s !! id = Some c → (rd_pcb id ≫= k) s = k c s.
Proof. intros. by apply bind_Ret, rd_pcb_ok. Qed.

Lemma upd_pcb_ok s id c f : pcbs s !! id = Some c →
  upd_pcb id f s = Ret ((), put_pcb id (f c) s).
Proof. intros H. unfold upd_pcb. by rewrite (bind_rd_pcb _ _ c). Qed.

Lemma bind_upd_pcb {B} s id c f (k : () → M (stack A Q) B) : pcbs s !! id = Some c →
  (upd_pcb id f ≫= k) s = k () (put_pcb id (f c) s).
Proof. intros. by apply bind_Ret, upd_pcb_ok. Qed.

Lemma put_put id c c' s : put_pcb id c' (put_pcb id c s) = put_pcb id c' s.
Proof. unfold put_pcb. cbn. by rewrite insert_insert_eq. Qed.

Lemma put_lookup id c s : pcbs (put_pcb id c s) !! id = Some c.
Proof. apply lookup_insert_eq. Qed.

Lemma tcp_update_rcv_ann_wnd_ok s id c : pcbs s !! id = Some c → wnd_ok c →
  tcp_update_rcv_ann_wnd id s =
    Ret (inflation c, put_pcb id (set_rcv_ann_wnd (new_ann_wnd c) c) s).
Proof.
  intros Hc Hw. unfold tcp_update_rcv_ann_wnd, inflation, new_ann_wnd.
  rewrite (bind_rd_pcb _ _ c) by done. fold (gain_step c). rewrite geq_ahead, gt_ahead by done.
  pose proof (gain_step_nonneg c Hw). pose proof Hw as [H1 H2 H3 H4 H5 H6].
  change TCP_WND with 2144 in *. destruct (Z.leb_spec (gain_step c) (rcv_wnd c - ahead c)).
  - rewrite (bind_upd_pcb _ _ c) by done. unfold mret, M_ret. do 2 f_equal.
    unfold ahead in *. clia.
  - destruct (Z.ltb_spec (ahead c) 0).
    + rewrite (bind_upd_pcb _ _ c) by done. by rewrite Z.max_l by lia.
    + assert (u32 (rcv_ann_right_edge c - rcv_nxt c) = ahead c) as -> by (unfold ahead in *; clia).
      rewrite bind_assert by lia. rewrite (bind_upd_pcb _ _ c) by done.
      rewrite u16_id by clia. by rewrite Z.max_r by lia.
Qed.

(** [tcp_recved] up to the window update. *)
Lemma tcp_recved_run s id c len : pcbs s !! id = Some c → wnd_ok c → pstate c ≠ LISTEN →
  0 ≤ len < 60000 → 0 < rcv_wnd c + len →
  tcp_recved id len s =
    if TCP_WND_UPDATE_THRESHOLD <=? inflation (set_rcv_wnd (recved_wnd c len) c)
    then (_ ← tcp_output id; mret ())
           (put_pcb id (set_pflags (Z.lor (pflags c) TF_ACK_NOW) (recved c len)) s)
    else Ret ((), put_pcb id (recved c len) s).
Proof.
  intros Hc Hw Hs Hl Hpos. pose proof Hw as [H1 H2 H3 H4 H5 H6]. unfold tcp_recved.
  rewrite (bind_rd_pcb _ _ c) by done. rewrite bind_assert by (by apply bool_decide_eq_true).
  rewrite u16_id by (change TCP_WND with 2144 in *; clia).
  rewrite (bind_upd_pcb _ _ c) by done. set (c1 := set_rcv_wnd (rcv_wnd c + len) c).
  set (c2 := set_rcv_wnd (recved_wnd c len) c).
  rewrite (bind_Ret _ _ _ () (put_pcb id c2 s)).
  2:{ unfold c2, recved_wnd. destruct (Z.ltb_spec TCP_WND (rcv_wnd c + len)).
      - rewrite (upd_pcb_ok _ _ c1) by apply put_lookup. rewrite put_put, Z.min_r by lia. done.
      - replace (rcv_wnd c + len =? 0) with false by lia. by rewrite Z.min_l by lia. }
  assert (wnd_ok c2) as Hw2.
  { destruct (wnd_ok_recved c len Hw ltac:(lia)) as [G1 G2 G3 G4 G5 G6].
    constructor; try done. change (0 ≤ rcv_ann_wnd c ≤ recved_wnd c len).
    unfold recved_wnd. lia. }
  rewrite (bind_Ret _ _ _ _ _ (tcp_update_rcv_ann_wnd_ok _ _ c2 (put_lookup _ _ _) Hw2)).
  rewrite put_put. fold (recved c len).
  rewrite Z.geb_leb, s32_id.
  2:{ unfold inflation. destruct Hw2 as [_ _ G3 _ _ G6]. change TCP_WND with 2144 in *.
      change (2 ^ 31) with 2147483648. destruct (_ <=? _); lia. }
  destruct (_ <=? inflation c2); [|done].
  rewrite (bind_rd_pcb _ _ (recved c len)) by apply put_lookup.
  rewrite (bind_upd_pcb _ _ (recved c len)) by apply put_lookup. by rewrite put_put.
Qed.

End Recved.

(** ** Held pbufs *)

(** A pbuf the server alone refers to, with bytes of its own. *)
Record mine (c : loc * pbuf) : Prop := mk_mine {
  mi_src : c.1.1 ≠ CUSTOM;
  mi_ref : ref c.2 = 1;
  mi_own : own_payload c;
  mi_len : 0 < len c.2 < 60000;
}.

Record held {A} (w : world A) (q : option loc) (cs : list (loc * pbuf)) (ds : list bytes) : Prop :=
  mk_held {
  he_chain : chain w q cs;
  he_content : content w cs ds;
  he_mine : Forall mine cs;
  he_length : (length cs < 256)%nat;
}.

Section Chop.
Context {A : Type} `{HA : Alloc A} {elt_size : memp_t → Z} `{HL : !AllocLaws A elt_size}.
Context (custom_free_function : loc → M (world A) ()).
Implicit Types (w : world A) (cs : list (loc * pbuf)).

Lemma chain_pbs w w' p cs l : chain w p cs → chain w' p cs → l ∈ cs.*1 → pbs w' !! l = pbs w !! l.
Proof.
  revert p. induction cs as [|[l1 pb] cs IH]; intros p; [by intros _ _ ?%elem_of_nil|].
  intros (-> & _ & H1 & Hc) (_ & _ & H2 & Hc') [->|Hin]%elem_of_cons; [cbn; congruence|by eapply IH].
Qed.

Lemma set_ref_back l pb : mine (l, pb) → set_ref (u16 (ref pb + 1) - 1) (set_ref (u16 (ref pb + 1)) pb) = pb.
Proof. intros [_ Hr _ _]. cbn in Hr. destruct pb. cbn in *. by subst. Qed.

Lemma mine_droppable cs : Forall mine cs →
  Forall (λ c : loc * pbuf, c.1.1 ≠ CUSTOM ∧ 1 ≤ ref c.2 < 2 ^ 16) cs.
Proof.
  apply Forall_impl. intros c [H1 H2 _ _]. rewrite H2. done.
Qed.

Lemma mine_freed cs : Forall mine cs → freed cs = cs.
Proof.
  induction 1 as [|[l pb] cs [_ Hr _ _] _ IH]; cbn in *; [done|]. by rewrite Hr, IH.
Qed.

(** The first pbuf of a chain is cut off and released: [pbuf_ref] of the next one,
    [pbuf_free] of the first. *)
Lemma chop_head_ok w L l pb cs : inv w L → chain w (Some l) ((l, pb) :: cs) →
  Forall mine ((l, pb) :: cs) →
  ∃ w1 w2, match next pb with Some q => pbuf_ref (Some q) | None => mret () end w = Ret ((), w1) ∧
    pbuf_free custom_free_function (Some l) w1 = Ret (1, w2) ∧ inv w2 (delete l L) ∧
    live w2 = live w ∖ {[l]} ∧ data w2 = data w ∧ chain w2 (next pb) cs ∧
    ∀ l', l' ≠ l → pbs w2 !! l' = pbs w !! l'.
Proof.
  intros Hi Hc Hm. pose proof (chain_NoDup _ _ _ Hc) as Hnd.
  pose proof Hm as Hm0. apply list.Forall_cons in Hm as [Hml Hm].
  assert (ref pb = 1) as Hr1 by apply (mi_ref _ Hml).
  destruct cs as [|[q qb] cs].
  - pose proof Hc as (_ & Hl & Hp & Hn). cbn in Hn. exists w. rewrite Hn.
    destruct (pbuf_free_ok custom_free_function w L l [(l, pb)] Hi Hc) as (w2 & Hr & H1 & H2 & H3 & _ & H5).
    { by apply mine_droppable. }
    { by rewrite (mine_freed _ Hm0). }
    rewrite (mine_freed _ Hm0) in *. exists w2. cbn in H2. rewrite union_empty_r_L in H2.
    split_and!; try done. intros l' Hl'. apply H5. by intros ?%list_elem_of_singleton.
  - pose proof Hc as (_ & Hl & Hp & Hc2). pose proof Hc2 as (Hn & Hlq & Hpq & Hc3). rewrite Hn.
    set (qb2 := set_ref (u16 (ref qb + 1)) qb). exists (upd_pbs q qb2 w).
    pose proof (chain_update w (Some l) [(l, pb)] q qb qb2 cs Hc eq_refl) as Hc'.
    apply list.Forall_cons in Hm as [Hmq Hm].
    assert (ref qb2 = 2) as Hr2 by (cbn; pose proof (mi_ref _ Hmq) as E; cbn in E; by rewrite E).
    assert (freed ((l, pb) :: (q, qb2) :: cs) = [(l, pb)]) as Hf.
    { cbn [freed]. by rewrite Hr1, Hr2. }
    destruct (pbuf_free_ok custom_free_function (upd_pbs q qb2 w) L l ([(l, pb)] ++ (q, qb2) :: cs))
      as (w2 & Hr & H1 & H2 & H3 & H4 & H5); [eapply inv_upd; done|done| |cbn [app]; by rewrite Hf|].
    { cbn. apply list.Forall_cons. cbn [fst snd]. rewrite Hr1. split; [split; [apply Hml|done]|].
      apply list.Forall_cons. cbn [fst snd]. rewrite Hr2. split; [split; [apply Hmq|done]|by apply mine_droppable]. }
    cbn [app] in *. rewrite Hf in *. cbn [remaining] in H4. rewrite Hr1, Hr2 in H4. cbn in H4.
    fold qb2 in H4. replace (set_ref (2 - 1) qb2) with qb in H4
      by (rewrite <- Hr2; symmetry; by apply (set_ref_back q)).
    exists w2. cbn in H2. rewrite union_empty_r_L in H2. split_and!; try done.
    { unfold pbuf_ref. by rewrite (upd_ok w q qb). }
    intros l' Hl'. destruct (decide (l' ∈ ((q, qb) :: cs).*1)) as [Hin|Hin].
    + eapply (chain_pbs w w2); [exact Hc2|rewrite Hn; exact H4|exact Hin].
    + rewrite H5 by set_solver. cbn. rewrite lookup_insert_ne; [done|]. set_solver.
Qed.

End Chop.

(** ** Separation

    [sep X s L]: every block is TCP's or one of [X], and none is both. *)

Section Server.
Context {A Q : Type} `{HA : Alloc A} {elt_size : memp_t → Z} `{HL : !AllocLaws A elt_size}.
Context `{HT : !TcpCore A Q} `{TL : !TcpLaws A Q}.
Implicit Types (t : stack A Q) (s : server A Q) (c : tcp_pcb Q) (X Y : gset loc) (L : gmap loc Z).

Record sep X t L : Prop := mk_sep {
  sep_ok : tcp_ok (wld t) L (rests t);
  sep_dom : dom L = X ∪ tcp_mem (rests t);
  sep_disj : X ## tcp_mem (rests t);
}.

Lemma sep_diff X t L : sep X t L → dom L ∖ tcp_mem (rests t) = X.
Proof. intros [_ H1 H2]. rewrite H1. set_solver. Qed.

(** Calls of TCP keep what is not its own. *)
Lemma tcp_step_sep X t L t' L' : sep X t L → tcp_step tcp_mem tcp_ok t L t' L' →
  sep X t' L' ∧ agree X (wld t) L (wld t') L'.
Proof.
  intros Hs [Hok Ha Hd Hj]. rewrite (sep_diff _ _ _ Hs) in *. split; [|done].
  constructor; [done| |done]. rewrite Hd. set_solver.
Qed.

(** Work of the server on its own blocks [Y], which become [Y']. *)
Lemma sep_own X Y Y' t L w' L' : sep (Y ∪ X) t L → Y ## X → inv w' L' →
  (∀ l, l ∉ Y → l ∉ Y' → L' !! l = L !! l ∧ (l ∈ live w' ↔ l ∈ live (wld t)) ∧
     pbs w' !! l = pbs (wld t) !! l ∧ data w' !! Own l = data (wld t) !! Own l) →
  dom L' = Y' ∪ dom L ∖ Y → Y' ## dom L ∖ Y →
  sep (Y' ∪ X) (mk_stack w' (pcbs t)) L' ∧ agree X (wld t) L w' L'.
Proof.
  intros [Hok Hd Hj] Hyx Hi Hs Hd' Hyd.
  assert (agree (X ∪ tcp_mem (rests t)) (wld t) L w' L') as Ha.
  { intros l Hl. apply Hs; set_solver. }
  split; [constructor|eapply agree_mono; [|exact Ha]; set_solver].
  - apply (tcp_ok_frame (wld t) L); [done|done|]. eapply agree_mono; [|exact Ha]. set_solver.
  - change (rests (mk_stack w' (pcbs t))) with (rests t). rewrite Hd', Hd. set_solver.
  - change (rests (mk_stack w' (pcbs t))) with (rests t). set_solver.
Qed.

(** The part of a control block only the server changes. *)
Record kept c c' : Prop := mk_kept {
  ke_state : pstate c' = pstate c;
  ke_arg : callback_arg c' = callback_arg c;
  ke_recv : recv c' = recv c;
  ke_sent : sent c' = sent c;
  ke_errf : errf c' = errf c;
  ke_poll : poll c' = poll c;
}.

Lemma kept_trans c1 c2 c3 : kept c1 c2 → kept c2 c3 → kept c1 c3.
Proof. intros [] []. constructor; congruence. Qed.

Lemma same_app_kept c c' : same_app c c' → kept c c'.
Proof. intros []. by constructor. Qed.

Lemma rests_put id c c' t : pcbs t !! id = Some c → rest c' = rest c → rests (put_pcb id c' t) = rests t.
Proof.
  intros Hc Hr. unfold rests. cbn. rewrite fmap_insert, Hr. apply insert_id. by rewrite lookup_fmap, Hc.
Qed.

Lemma sep_put X t L id c c' : sep X t L → pcbs t !! id = Some c → rest c' = rest c →
  sep X (put_pcb id c' t) L.
Proof.
  intros [H1 H2 H3] Hc Hr. constructor; rewrite (rests_put id c) by done; done.
Qed.

Lemma tcp_recved_ok X t L id c len : sep X t L → pcbs t !! id = Some c → wnd_ok c →
  pstate c ≠ LISTEN → 0 ≤ len < 60000 → 0 < rcv_wnd c + len →
  ∃ t' L' c', tcp_recved id len t = Ret ((), t') ∧ sep X t' L' ∧ agree X (wld t) L (wld t') L' ∧
    pcbs t' = <[id := c']> (pcbs t) ∧ kept c c' ∧ wnd_ok c' ∧ rcv_wnd c' = recved_wnd c len ∧
    rcv_nxt c' = rcv_nxt c ∧ rcv_ann_wnd c' = rcv_ann_wnd (recved c len) ∧
    stream (rest c') = stream (rest c) ∧ snd_buf c' = snd_buf c.
Proof.
  intros Hs Hc Hw Hst Hl Hpos. rewrite (tcp_recved_run t id c len) by done.
  pose proof (wnd_ok_recved c len Hw ltac:(lia)) as Hw'.
  destruct (_ <=? inflation _).
  - set (c1 := set_pflags _ _). set (t1 := put_pcb id c1 t).
    assert (sep X t1 L) as Hs1 by (by apply (sep_put X t L id c)).
    destruct (tcp_output_ok t1 L id c1 (sep_ok _ _ _ Hs1) (put_lookup _ _ _))
      as (e & t' & L' & c' & Hr & Hstep & Hp & Hsa & Hstr & Hsb).
    destruct (tcp_step_sep X t1 L t' L' Hs1 Hstep) as [Hs' Ha'].
    exists t', L', c'. rewrite (bind_Ret _ _ _ _ _ Hr).
    assert (wnd_ok c1) as Hw1 by (by destruct Hw').
    assert (kept c c1) as Hk by done.
    split_and!; try done.
    + rewrite Hp. cbn. by rewrite insert_insert_eq.
    + eapply kept_trans; [exact Hk|by apply same_app_kept].
    + by eapply same_app_wnd.
    + by rewrite (sa_rcv_wnd _ _ Hsa).
    + by rewrite (sa_rcv_nxt _ _ Hsa).
    + by rewrite (sa_rcv_ann_wnd _ _ Hsa).
  - exists (put_pcb id (recved c len) t), L, (recved c len).
    split_and!; try done. by apply (sep_put X t L id c).
Qed.

(** ** Sending *)

Abbreviation locs cs := (list_to_set (cs : list (loc * pbuf)).*1 : gset loc).

Definition put_stk t s : server A Q := mk_server t (ess s) (tcp_raw_pcb s) (nl_bound s).

Lemma bind_on_stack {B C} (m : M (stack A Q) B) (k : B → M (server A Q) C) s r t :
  m (stk s) = Ret (r, t) → (on_stack m ≫= k) s = k r (put_stk t s).
Proof. intros H. unfold mbind, M_bind, on_stack. by rewrite H. Qed.

Lemma bind_on_world {B C} (m : M (world A) B) (k : B → M (server A Q) C) s r w :
  m (wld (stk s)) = Ret (r, w) →
  (on_world m ≫= k) s = k r (put_stk (mk_stack w (pcbs (stk s))) s).
Proof. intros H. apply bind_on_stack. unfold lift_world. by rewrite H. Qed.

Lemma bind_rd_es {C} s x es (k : tcp_raw_state → M (server A Q) C) :
  ess s !! x = Some es → (rd_es x ≫= k) s = k es s.
Proof. intros H. unfold mbind, M_bind, rd_es. by rewrite H. Qed.

Lemma bind_upd_es {C} s x es f (k : () → M (server A Q) C) : ess s !! x = Some es →
  (upd_es x f ≫= k) s = k () (set_ess <[x := f es]> s).
Proof. intros H. unfold upd_es, mbind, M_bind, rd_es. by rewrite H. Qed.

Lemma put_stk_id s : put_stk (mk_stack (wld (stk s)) (pcbs (stk s))) s = s.
Proof. by destruct s as [[]]. Qed.

Lemma put_stk_same s : put_stk (stk s) s = s.
Proof. by destruct s. Qed.

(** The world after the first pbuf is gone. *)
Lemma sep_chop X t L l pb cs w2 : sep (locs ((l, pb) :: cs) ∪ X) t L → locs ((l, pb) :: cs) ## X →
  l ∉ cs.*1 → inv w2 (delete l L) → live w2 = live (wld t) ∖ {[l]} → data w2 = data (wld t) →
  (∀ l', l' ≠ l → pbs w2 !! l' = pbs (wld t) !! l') →
  sep (locs cs ∪ X) (mk_stack w2 (pcbs t)) (delete l L) ∧
  agree (locs cs ∪ X) (wld t) L w2 (delete l L).
Proof.
  intros Hs Hd Hl Hi Hlv Hda Hp.
  replace (locs ((l, pb) :: cs) ∪ X) with ({[l]} ∪ (locs cs ∪ X)) in Hs by set_solver.
  replace (locs cs ∪ X) with (∅ ∪ (locs cs ∪ X)) at 1 by set_solver.
  assert (l ∈ dom L) by (rewrite (sep_dom _ _ _ Hs); set_solver).
  apply (sep_own (locs cs ∪ X) {[l]} ∅ t L w2 (delete l L) Hs).
  - assert (l ∉ locs cs) by set_solver. set_solver.
  - done.
  - intros l' Hl' _. assert (l' ≠ l) by set_solver. rewrite lookup_delete_ne by done.
    rewrite Hlv, Hda, Hp by done. split_and!; [done|set_solver|done|done].
  - rewrite dom_delete_L. set_solver.
  - set_solver.
Qed.

Context (custom_free_function : loc → M (world A) ()).

(** *** The steps of the loop

    What the loop does is a sequence of steps on the server's state: each step
    hands one pbuf to TCP, and a last state in which it does not go on. *)

(** A pbuf TCP has copied leaves the queue: the next one becomes the first, the
    pbuf is released and the receive window opens by its length. *)
Definition release_head (id x : Z) (l : loc) : M (server A Q) () :=
  pb ← on_world (rd l);
  let plen := len pb in
  _ ← upd_es x (set_p (next pb));
  _ ← match next pb with
      | Some q => on_world (pbuf_ref (Some q))
      | None => mret ()
      end;
  _ ← on_world (pbuf_free custom_free_function (Some l));
  _ ← on_stack (tcp_recved id plen);
  mret ().

(** One step: the first pbuf fits the send buffer, and TCP takes it in the state
    the loop is in. *)
Inductive hands_over (id x : Z) s s' : Prop :=
  | hands_over_intro es l pb c t1 :
      ess s !! x = Some es → p es = Some l → pbs (wld (stk s)) !! l = Some pb →
      pcbs (stk s) !! id = Some c → len pb ≤ snd_buf c →
      tcp_write id (payload pb) (len pb) (stk s) = Ret (ERR_OK, t1) →
      release_head id x l (put_stk t1 s) = Ret ((), s') → hands_over id x s s'.

(** The state [s] the loop stops in, and the state [s'] it leaves: nothing is
    left, or the next pbuf does not fit the send buffer of [s], or TCP, called in
    [s], refuses it. *)
Definition stopped (id x : Z) s s' : Prop :=
  ∃ es, ess s !! x = Some es ∧
    match p es with
    | None => s' = s
    | Some l => ∃ pb c, pbs (wld (stk s)) !! l = Some pb ∧ pcbs (stk s) !! id = Some c ∧
        ((snd_buf c < len pb ∧ s' = s) ∨
         ∃ e t', tcp_write id (payload pb) (len pb) (stk s) = Ret (e, t') ∧ e ≠ ERR_OK ∧
           s' = put_stk t' s)
    end.

(** [k] pbufs are handed over, then the loop stops. *)
Definition sends (id x : Z) (k : nat) s s' : Prop :=
  ∃ s1, nsteps (hands_over id x) k s s1 ∧ stopped id x s1 s'.

Lemma sends_more id x k s s1 s' : hands_over id x s s1 → sends id x k s1 s' → sends id x (S k) s s'.
Proof. intros H (s2 & H2 & Hst). exists s2. split; [by eapply nsteps_l|done]. Qed.

Lemma sends_stop id x s s' : stopped id x s s' → sends id x 0 s s'.
Proof. intros H. exists s. split; [constructor|done]. Qed.

(** The bookkeeping after a successful [tcp_write], whatever follows. *)
Lemma chop_ok X s L id x es c l pb cs d ds :
  sep (locs ((l, pb) :: cs) ∪ X) (stk s) L → locs ((l, pb) :: cs) ## X →
  held (wld (stk s)) (Some l) ((l, pb) :: cs) (d :: ds) →
  ess s !! x = Some es → pcbs (stk s) !! id = Some c → wnd_ok c → pstate c ≠ LISTEN →
  ∃ t' L' c', (∀ k : M (server A Q) (), (pb ← on_world (rd l);
      let plen := len pb in
      _ ← upd_es x (set_p (next pb));
      _ ← match next pb with
          | Some q => on_world (pbuf_ref (Some q))
          | None => mret ()
          end;
      _ ← on_world (pbuf_free custom_free_function (Some l));
      _ ← on_stack (tcp_recved id plen);
      k) s = k (mk_server t' (<[x := set_p (next pb) es]> (ess s)) (tcp_raw_pcb s) (nl_bound s))) ∧
    sep (locs cs ∪ X) t' L' ∧ agree X (wld (stk s)) L (wld t') L' ∧
    held (wld t') (next pb) cs ds ∧ pcbs t' = <[id := c']> (pcbs (stk s)) ∧ kept c c' ∧ wnd_ok c' ∧
    rcv_wnd c' = recved_wnd c (len pb) ∧ stream (rest c') = stream (rest c) ∧
    snd_buf c' = snd_buf c.
Proof.
  intros Hs Hd [Hc Hct Hm Hlen] He Hp Hw Hst.
  pose proof (chain_NoDup _ _ _ Hc) as Hnd. apply list.NoDup_cons in Hnd as [Hnl _].
  pose proof (tcp_ok_inv _ _ _ (sep_ok _ _ _ Hs)) as Hi.
  destruct (chop_head_ok custom_free_function _ L l pb cs Hi Hc Hm)
    as (w1 & w2 & Hr1 & Hr2 & Hi2 & Hlv & Hda & Hc2 & Hpb).
  pose proof Hc as (_ & Hl & Hpl & _).
  destruct (sep_chop X (stk s) L l pb cs w2) as [Hs2 Ha2]; try done.
  destruct (tcp_recved_ok _ _ _ id c (len pb) Hs2 Hp Hw Hst) as
    (t' & L' & c' & Hr & Hs' & Ha' & Hp' & Hk & Hw' & Hwnd & _ & _ & Hstr & Hsb).
  { apply list.Forall_cons in Hm as [[_ _ _ H] _]. cbn in H. lia. }
  { apply list.Forall_cons in Hm as [[_ _ _ H] _]. cbn in H. pose proof (wo_wnd _ Hw). lia. }
  exists t', L', c'. split_and!; try done.
  - intros k. rewrite (bind_on_world (rd l) _ _ pb (wld (stk s))) by (by apply rd_ok). rewrite put_stk_id.
    cbn zeta. rewrite (bind_upd_es _ _ es) by done. set (s1 := set_ess _ s).
    erewrite (bind_Ret _ _ s1 () (put_stk (mk_stack w1 (pcbs (stk s))) s1)).
    2:{ destruct (next pb) as [q|].
        - unfold on_world, on_stack, lift_world. cbn [stk s1 set_ess wld]. by rewrite Hr1.
        - injection Hr1 as <-. unfold s1. by destruct s as [[]]. }
    erewrite bind_on_world by exact Hr2. cbn [put_stk stk pcbs].
    by erewrite bind_on_stack by exact Hr.
  - eapply agree_trans; (eapply agree_mono; [|eassumption]; set_solver).
  - pose proof (agree_trans _ _ _ _ _ _ _ Ha2 Ha') as Hag.
    apply list.Forall_cons in Hm as [_ Hm]. unfold content in Hct. apply list.Forall2_cons in Hct as [_ Hct].
    constructor; [|eapply agree_content; [exact Hag|set_solver|eapply Forall_impl; [|exact Hm]; by intros ? []|exact Hct]|done|cbn in Hlen; lia].
    eapply agree_chain; [exact Ha'|set_solver|exact Hc2].
Qed.

(** The outcome of the loop from [s] on. *)
Definition sent_some X s L id x es c cs ds (r : res (() * server A Q)) : Prop :=
  ∃ k t' L' c', let s' := mk_server t' (<[x := set_p (fst <$> head (drop k cs)) es]> (ess s))
                           (tcp_raw_pcb s) (nl_bound s) in
    r = Ret ((), s') ∧ sends id x k s s' ∧ (k ≤ length cs)%nat ∧ sep (locs (drop k cs) ∪ X) t' L' ∧ agree X (wld (stk s)) L (wld t') L' ∧
    held (wld t') (fst <$> head (drop k cs)) (drop k cs) (drop k ds) ∧
    pcbs t' = <[id := c']> (pcbs (stk s)) ∧ kept c c' ∧ wnd_ok c' ∧
    rcv_wnd c' = Z.min TCP_WND (rcv_wnd c + lens (take k cs)) ∧
    stream (rest c') = stream (rest c) ++ concat (take k ds) ∧
    snd_buf c' = snd_buf c - lens (take k cs).

Lemma set_p_id es q : p es = q → set_p q es = es.
Proof. intros <-. by destruct es. Qed.

Lemma chain_head_eq (w : world A) q cs : chain w q cs → fst <$> head cs = q.
Proof. destruct cs as [|[l pb] cs]; [by intros ->|by intros (-> & _)]. Qed.

(** The loop stops at once. *)
Lemma sent_none X s L id x es c cs ds t' L' c' :
  sep (locs cs ∪ X) t' L' → agree (locs cs ∪ X) (wld (stk s)) L (wld t') L' →
  held (wld (stk s)) (p es) cs ds → ess s !! x = Some es → pcbs t' = <[id := c']> (pcbs (stk s)) →
  kept c c' → wnd_ok c' → rcv_wnd c' = rcv_wnd c → stream (rest c') = stream (rest c) →
  snd_buf c' = snd_buf c → stopped id x s (put_stk t' s) →
  sent_some X s L id x es c cs ds (Ret ((), put_stk t' s)).
Proof.
  intros Hs Ha [Hc Hct Hm Hlen] He Hp Hk Hw Hwnd Hstr Hsb Hstop. exists 0%nat, t', L', c'.
  rewrite !drop_0, (chain_head_eq _ _ _ Hc), (set_p_id es _ eq_refl), insert_id by done.
  cbn [take concat lens]. rewrite app_nil_r, Z.sub_0_r, Z.add_0_r, Hwnd.
  pose proof (wo_wnd _ Hw). rewrite Hwnd in *. split_and!; try done; [by apply sends_stop|lia| | |lia].
  - eapply agree_mono; [|exact Ha]. set_solver.
  - constructor; [eapply agree_chain; [exact Ha|set_solver|done]| |done|done].
    eapply agree_content; [exact Ha|set_solver| |done].
    eapply Forall_impl; [|exact Hm]. by intros ? [].
Qed.

Lemma kept_refl c : kept c c.
Proof. done. Qed.

Lemma mine_lens cs k : Forall mine cs → 0 ≤ lens (take k cs).
Proof.
  intros Hm. revert k. induction Hm as [|[l pb] cs [_ _ _ Hl] _ IH]; intros [|k]; cbn in *; try done.
  specialize (IH k). lia.
Qed.

(** One pbuf is sent, then the loop goes on from [s1]. *)
Lemma sent_more X s L s1 L1 id x es c c1 l pb cs d ds r :
  Forall mine cs → hands_over id x s s1 → ess s1 = <[x := set_p (next pb) es]> (ess s) →
  tcp_raw_pcb s1 = tcp_raw_pcb s → nl_bound s1 = nl_bound s →
  agree X (wld (stk s)) L (wld (stk s1)) L1 → pcbs (stk s1) = <[id := c1]> (pcbs (stk s)) →
  kept c c1 → rcv_wnd c1 = recved_wnd c (len pb) → stream (rest c1) = stream (rest c) ++ d →
  snd_buf c1 = snd_buf c - len pb →
  sent_some X s1 L1 id x (set_p (next pb) es) c1 cs ds r →
  sent_some X s L id x es c ((l, pb) :: cs) (d :: ds) r.
Proof.
  intros Hm Ho He E1 E2 Ha Hp Hk Hwnd Hstr Hsb
    (k & t' & L' & c' & Hr & Hse & Hle & Hs' & Ha' & Hh' & Hp' & Hk' & Hw' & Hwnd' & Hstr' & Hsb').
  exists (S k), t', L', c'. cbn [drop take concat lens length]. pose proof (mine_lens cs k Hm).
  rewrite He, E1, E2, insert_insert_eq in Hr, Hse.
  split_and!; try done; [|lia| | | | | |].
  - by eapply sends_more.
  - by eapply agree_trans.
  - by rewrite Hp', Hp, insert_insert_eq.
  - by eapply kept_trans.
  - rewrite Hwnd', Hwnd. unfold recved_wnd. lia.
  - by rewrite Hstr', Hstr, (assoc_L app).
  - lia.
Qed.

Lemma set_ess_id s x es : ess s !! x = Some es → set_ess <[x := es]> s = s.
Proof. intros H. unfold set_ess. rewrite insert_id by done. by destruct s. Qed.

(** A round of the loop with room for the next pbuf: TCP refuses it, or it is
    sent and the loop goes on. *)
Lemma send_round n X s L id x es c l pb cs d ds :
  sep (locs ((l, pb) :: cs) ∪ X) (stk s) L → locs ((l, pb) :: cs) ## X →
  held (wld (stk s)) (p es) ((l, pb) :: cs) (d :: ds) →
  ess s !! x = Some es → pcbs (stk s) !! id = Some c → wnd_ok c → pstate c ≠ LISTEN →
  len pb ≤ snd_buf c →
  sent_some X s L id x es c ((l, pb) :: cs) (d :: ds) (send_loop custom_free_function (S n) id x s) ∨
  ∃ t1 L1 c1, let s1 := mk_server t1 (<[x := set_p (next pb) es]> (ess s)) (tcp_raw_pcb s) (nl_bound s) in
    send_loop custom_free_function (S n) id x s = send_loop custom_free_function n id x s1 ∧
    hands_over id x s s1 ∧ sep (locs cs ∪ X) t1 L1 ∧ agree X (wld (stk s)) L (wld t1) L1 ∧ held (wld t1) (next pb) cs ds ∧
    pcbs t1 = <[id := c1]> (pcbs (stk s)) ∧ kept c c1 ∧ wnd_ok c1 ∧
    rcv_wnd c1 = recved_wnd c (len pb) ∧ stream (rest c1) = stream (rest c) ++ d ∧
    snd_buf c1 = snd_buf c - len pb.
Proof.
  intros Hs Hd Hh He Hp Hw Hst Hfit. pose proof Hh as [Hc Hct Hm Hlen].
  pose proof Hc as (Hpe & Hl & Hpl & _). pose proof Hm as Hm'.
  apply list.Forall_cons in Hm' as [[_ _ [o Hpay] Hlp] Hm']. cbn [fst snd] in Hpay, Hlp.
  pose proof Hct as Hct'. apply list.Forall2_cons in Hct' as [Hload _]. cbn [snd] in Hload.
  cbn [send_loop]. rewrite (bind_rd_es _ _ es), Hpe by done.
  rewrite (bind_on_world (rd l) _ _ pb (wld (stk s))) by (by apply rd_ok). rewrite put_stk_id.
  rewrite (bind_on_stack (rd_pcb id) _ _ c (stk s)) by (by apply rd_pcb_ok). rewrite put_stk_same.
  rewrite (proj2 (Z.leb_le _ _)) by done.
  assert (∃ e t1 L1 c1, tcp_write id (payload pb) (len pb) (stk s) = Ret (e, t1) ∧
    tcp_step tcp_mem tcp_ok (stk s) L t1 L1 ∧ pcbs t1 = <[id := c1]> (pcbs (stk s)) ∧ same_app c c1 ∧
    stream (rest c1) = (if decide (e = ERR_OK) then stream (rest c) ++ d else stream (rest c)) ∧
    snd_buf c1 = (if decide (e = ERR_OK) then snd_buf c - len pb else snd_buf c)) as
    (e & t1 & L1 & c1 & Hr & Hstep & Hp1 & Hsa & Hstr & Hsb).
  { rewrite Hpay in *. apply tcp_write_ok; [apply Hs|done|done|lia]. }
  destruct (tcp_step_sep _ _ _ _ _ Hs Hstep) as [Hs1 Ha1].
  pose proof (same_app_wnd _ _ Hsa Hw) as Hw1. pose proof (same_app_kept _ _ Hsa) as Hk1.
  erewrite bind_on_stack by exact Hr. destruct (decide (e = ERR_OK)) as [->|Hne].
  - right. destruct (chop_ok X (put_stk t1 s) L1 id x es c1 l pb cs d ds)
      as (t2 & L2 & c2 & Hr2 & Hs2 & Ha2 & Hh2 & Hp2 & Hk2 & Hw2 & Hwnd2 & Hstr2 & Hsb2); try done.
    + constructor; [eapply agree_chain; [exact Ha1|set_solver|by rewrite <- Hpe]| |done|done].
      eapply agree_content; [exact Ha1|set_solver| |done]. eapply Forall_impl; [|exact Hm]. by intros ? [].
    + cbn. by rewrite Hp1, lookup_insert_eq.
    + by rewrite (ke_state _ _ Hk1).
    + exists t2, L2, c2. cbn [put_stk stk] in Ha2, Hp2. split_and!; try done; try congruence.
      * apply (hands_over_intro _ _ _ _ es l pb c t1); try done. etrans; [exact (Hr2 (mret ()))|done].
      * eapply agree_trans; [eapply agree_mono; [|exact Ha1]; set_solver|exact Ha2].
      * by rewrite Hp2, Hp1, insert_insert_eq.
      * by eapply kept_trans.
      * rewrite Hwnd2. unfold recved_wnd. by rewrite (sa_rcv_wnd _ _ Hsa).
  - left. assert (match e with ERR_OK => mret () | ERR_MEM => upd_es x (set_p (Some l)) | _ => mret () end
                   (put_stk t1 s) = Ret ((), put_stk t1 s)) as Hend.
    { destruct e; try done. unfold upd_es. rewrite (bind_rd_es _ _ es) by done.
      unfold modify. by rewrite (set_p_id es _ Hpe), set_ess_id. }
    replace (match e with ERR_OK => _ | ERR_MEM => _ | _ => _ end (put_stk t1 s)) with (Ret ((), put_stk t1 s) : res (() * server A Q))
      by (rewrite <- Hend; by destruct e).
    apply (sent_none X s L id x es c _ _ t1 L1 c1); try done.
    + apply Hsa.
    + exists es. split; [done|]. rewrite Hpe. exists pb, c. eauto 10.
Qed.

(** Rounds that end the loop without a call of [tcp_write]. *)
Lemma send_stop n X s L id x es c cs ds :
  sep (locs cs ∪ X) (stk s) L → held (wld (stk s)) (p es) cs ds →
  ess s !! x = Some es → pcbs (stk s) !! id = Some c → wnd_ok c →
  match cs with [] => True | (_, pb) :: _ => snd_buf c < len pb end →
  sent_some X s L id x es c cs ds (send_loop custom_free_function n id x s).
Proof.
  intros Hs Hh He Hp Hw Hstop.
  assert (send_loop custom_free_function n id x s = Ret ((), put_stk (stk s) s)) as ->.
  { rewrite put_stk_same. pose proof (he_chain _ _ _ _ Hh) as Hc.
    destruct n; cbn [send_loop]; rewrite (bind_rd_es _ _ es) by done; destruct cs as [|[l pb] cs];
      cbn in Hc; try (by rewrite Hc); destruct Hc as (-> & Hl & Hpl & _);
      rewrite (bind_on_world (rd l) _ _ pb (wld (stk s))), put_stk_id by (by apply rd_ok);
      rewrite (bind_on_stack (rd_pcb id) _ _ c (stk s)), put_stk_same by (by apply rd_pcb_ok);
      by rewrite (proj2 (Z.leb_gt _ _)). }
  apply (sent_none X s L id x es c cs ds (stk s) L c); try done.
  - by rewrite insert_id.
  - rewrite put_stk_same. exists es. split; [done|]. pose proof (he_chain _ _ _ _ Hh) as Hc.
    destruct cs as [|[l pb] cs]; cbn in Hc; [by rewrite Hc|]. destruct Hc as (-> & Hl & Hpl & _).
    exists pb, c. eauto 10.
Qed.

Lemma send_loop_ok n X s L id x es c cs ds :
  sep (locs cs ∪ X) (stk s) L → locs cs ## X → held (wld (stk s)) (p es) cs ds →
  ess s !! x = Some es → pcbs (stk s) !! id = Some c → wnd_ok c → pstate c ≠ LISTEN →
  (length cs ≤ n)%nat →
  sent_some X s L id x es c cs ds (send_loop custom_free_function n id x s).
Proof.
  revert s L es c cs ds. induction n as [|n IH]; intros s L es c cs ds Hs Hd Hh He Hp Hw Hst Hn.
  { destruct cs; [|cbn in Hn; lia]. by apply send_stop. }
  destruct cs as [|[l pb] cs]; [by apply send_stop|].
  destruct (Z.le_gt_cases (len pb) (snd_buf c)) as [Hfit|Hfit]; [|by apply send_stop].
  pose proof (he_content _ _ _ _ Hh) as Hct. destruct ds as [|d ds]; [by inversion Hct|].
  destruct (send_round n X s L id x es c l pb cs d ds Hs Hd Hh He Hp Hw Hst Hfit)
    as [?|(t1 & L1 & c1 & Hr & Ho & Hs1 & Ha1 & Hh1 & Hp1 & Hk1 & Hw1 & Hwnd1 & Hstr1 & Hsb1)]; [done|].
  rewrite Hr. apply (sent_more X s L (mk_server t1 (<[x := set_p (next pb) es]> (ess s)) (tcp_raw_pcb s) (nl_bound s))
    L1 id x es c c1);
    [apply (he_mine _ _ _ _ Hh1)|exact Ho|done|done|done|exact Ha1|exact Hp1|done|done|done|done|].
  apply IH; cbn [ess stk]; try done.
  - set_solver.
  - by rewrite lookup_insert_eq.
  - by rewrite Hp1, lookup_insert_eq.
  - by rewrite (ke_state _ _ Hk1).
  - cbn in Hn. lia.
Qed.

Lemma tcp_raw_send_ok X s L id x es c cs ds :
  sep (locs cs ∪ X) (stk s) L → locs cs ## X → held (wld (stk s)) (p es) cs ds →
  ess s !! x = Some es → pcbs (stk s) !! id = Some c → wnd_ok c → pstate c ≠ LISTEN →
  sent_some X s L id x es c cs ds (tcp_raw_send custom_free_function id x s).
Proof.
  intros. unfold tcp_raw_send. unfold mbind, M_bind, get. apply send_loop_ok; try done.
  match goal with H : held _ _ _ _ |- _ => pose proof (chain_length _ _ _ (he_chain _ _ _ _ H)) end.
  unfold fuel. lia.
Qed.

End Server.
