(* ===== verification/ServerSpec.v ===== *)
(** * The server: claims

    What the callbacks of [tcp_raw.c] do with a connection: how a request is
    answered, how a held answer goes out later, how connections are opened and
    closed, and the requests the server does not survive. *)

From S2P Require Import Prelude CLib Kernel Mem Memp Alloc Pbuf PbufChain PbufWrite PbufOwn PbufOps PbufSpec TcpRaw TcpRawSpec.
Import Pbuf TcpRaw.

(** ** Requests and replies *)

(** The two words at the payload of a request. *)
Definition req_addr (bs : bytes) (o : Z) : Z := le_word (take 4 (drop (Z.to_nat o) bs)).
Definition req_len (bs : bytes) (o : Z) : Z := le_word (take 4 (drop (Z.to_nat o + 4) bs)).

Lemma req_addr_eq bs o : le_word (take 4 (take 8 (drop (Z.to_nat o) bs))) = req_addr bs o.
Proof. by rewrite take_take. Qed.
Lemma req_len_eq bs o : le_word (drop 4 (take 8 (drop (Z.to_nat o) bs))) = req_len bs o.
Proof. change 8%nat with (4 + 4)%nat. by rewrite <- take_drop_commute, drop_drop. Qed.

(** What [send_netlink_request] returns when the kernel answers [msg]: the
    buffer of the request, overwritten from its start. *)
Definition nl_reply (a n : Z) (msg : bytes) : bytes :=
  splice 0 (take (Z.to_nat MAX_PAYLOAD) msg) (netlink_request a n).

(** The bytes the server sends for a request. *)
Definition answer (a n : Z) (msg : bytes) : bytes := take (Z.to_nat n) (nl_reply a n msg).

Lemma netlink_request_length a n : length (netlink_request a n) = 256%nat.
Proof.
  unfold netlink_request. rewrite splice_length; rewrite length_replicate; [done|].
  rewrite length_app, length_request_text. change (Z.to_nat MAX_PAYLOAD) with 256%nat. cbn. lia.
Qed.

Lemma nl_reply_length a n msg : length (nl_reply a n msg) = 256%nat.
Proof.
  unfold nl_reply. rewrite splice_length; rewrite netlink_request_length; [done|].
  rewrite length_take. change (Z.to_nat MAX_PAYLOAD) with 256%nat. lia.
Qed.

Lemma answer_length a n msg : 0 ≤ n ≤ MAX_PAYLOAD → Z.of_nat (length (answer a n msg)) = n.
Proof.
  intros H. unfold answer. rewrite length_take, nl_reply_length. change MAX_PAYLOAD with 256 in H. lia.
Qed.

Section Server.
Context {A Q : Type} `{HA : Alloc A} {elt_size : memp_t → Z} `{HL : !AllocLaws A elt_size}.
Context `{HT : !TcpCore A Q} `{TL : !TcpLaws A Q}.
Implicit Types (t : stack A Q) (s : server A Q) (c : tcp_pcb Q) (X Y : gset loc) (L : gmap loc Z)
  (w : world A).

Abbreviation locs cs := (list_to_set (cs : list (loc * pbuf)).*1 : gset loc).

(** C8: [tcp_recved] opens the receive window by the bytes read, never beyond
    [TCP_WND]; the window it announces never takes back what was announced, never
    exceeds the window, and grows only when the gain is worth it (half the window or
    one segment). *)
Theorem tcp_recved_window X t L id c len : sep X t L → pcbs t !! id = Some c → wnd_ok c →
  pstate c ≠ LISTEN → 0 ≤ len < 60000 → 0 < rcv_wnd c + len →
  ∃ t' L' c', tcp_recved id len t = Ret ((), t') ∧ sep X t' L' ∧
    pcbs t' = <[id := c']> (pcbs t) ∧ wnd_ok c' ∧ stream (rest c') = stream (rest c) ∧
    rcv_nxt c' = rcv_nxt c ∧ rcv_wnd c' = Z.min (rcv_wnd c + len) TCP_WND ∧
    ahead c ≤ rcv_ann_wnd c' ≤ rcv_wnd c' ∧
    (rcv_ann_wnd c' = rcv_wnd c' ∨ rcv_wnd c' - ahead c < gain_step c).
Proof.
  intros Hs Hc Hw Hst Hl Hpos.
  destruct (tcp_recved_ok X t L id c len Hs Hc Hw Hst Hl Hpos) as
    (t' & L' & c' & Hr & Hs' & _ & Hp & _ & Hw' & Hwnd & Hn & Hann & Hstr & _).
  exists t', L', c'. pose proof (wo_ann _ Hw'). pose proof (wo_ahead _ Hw).
  unfold recved, new_ann_wnd in Hann. cbn [rcv_ann_wnd set_rcv_ann_wnd rcv_wnd set_rcv_wnd] in Hann.
  change (ahead (set_rcv_wnd (recved_wnd c len) c)) with (ahead c) in Hann.
  change (gain_step (set_rcv_wnd (recved_wnd c len) c)) with (gain_step c) in Hann.
  rewrite Hwnd in *. fold (recved_wnd c len).
  assert (rcv_wnd c ≤ recved_wnd c len) by (pose proof (wo_wnd _ Hw); unfold recved_wnd; lia).
  split_and!; try done; try lia;
    (destruct (Z.leb_spec (gain_step c) (recved_wnd c len - ahead c)); lia).
Qed.

(** A received pbuf [l] at the head of [es->p], its payload at offset [o] of its
    own block [bs], with at least the two words of a request in the block. *)
Record request w l pb (o : Z) (bs : bytes) : Prop := mk_req {
  rq_live : l ∈ live w;
  rq_pbuf : pbs w !! l = Some pb;
  rq_payload : payload pb = Some (Own l, o);
  rq_data : data w !! Own l = Some bs;
  rq_off : 0 ≤ o;
  rq_size : o + 8 ≤ Z.of_nat (length bs);
}.

Lemma request_load w l pb o bs : request w l pb o bs →
  load (payload pb) 0 8 w = Ret (take 8 (drop (Z.to_nat o) bs), w).
Proof.
  intros [H1 H2 H3 H4 H5 H6]. rewrite H3. unfold load, valid.
  rewrite bool_decide_eq_true_2 by done. rewrite H4, Z.add_0_r.
  replace (0 <=? o) with true by lia. by replace (o + 8 <=? Z.of_nat (length bs)) with true by lia.
Qed.

(** The state when the kernel's answer has arrived. *)
Definition answered_world w l pb (o : Z) bs (n : Z) (r : bytes) : world A :=
  set_data <[Own l := splice (Z.to_nat o) r bs]> (upd_pbs l (set_len n pb) w).

Definition answered_stack t l pb o bs n r : stack A Q :=
  mk_stack (answered_world (wld t) l pb o bs n r) (pcbs t).

(** TCP, in the state [t], takes [n] bytes at [q] for the control block [c] ... *)
Definition tcp_takes t id c (q : option ptr) (n : Z) : Prop :=
  n ≤ snd_buf c ∧ ∃ t', tcp_write id q n t = Ret (ERR_OK, t').

(** ... or does not: the send buffer has no room, or [tcp_write] fails. *)
Definition tcp_refuses t id c (q : option ptr) (n : Z) : Prop :=
  snd_buf c < n ∨ ∃ e t', tcp_write id q n t = Ret (e, t') ∧ e ≠ ERR_OK.

Lemma takes_not_refuses t id c q n : tcp_takes t id c q n → ¬ tcp_refuses t id c q n.
Proof. intros [Hn [t' Hr]] [?|(e & t2 & Hr2 & He)]; [lia|congruence]. Qed.

(** The memory of the answered request. *)
Lemma answered_inv w L l pb o bs n r : inv w L → request w l pb o bs →
  o + Z.of_nat (length r) ≤ Z.of_nat (length bs) → inv (answered_world w l pb o bs n r) L.
Proof.
  intros Hi Hq Hr. pose proof Hq as [H1 H2 H3 H4 H5 H6].
  apply (inv_frame [Own l] (upd_pbs l (set_len n pb) w)).
  - by eapply inv_upd.
  - constructor; try done; cbn; intros r'.
    + intros Hne. rewrite lookup_insert_ne; [done|]. set_solver.
    + rewrite lookup_insert. case_decide as E; [|done]. subst r'. rewrite H4. cbn.
      rewrite splice_length by lia. done.
Qed.

Lemma answered_held w l pb o bs n r cs ds d : request w l pb o bs → 0 < n ≤ MAX_PAYLOAD →
  Z.of_nat (length r) = n → o + n ≤ Z.of_nat (length bs) →
  held w (Some l) ((l, pb) :: cs) (d :: ds) →
  held (answered_world w l pb o bs n r) (Some l) ((l, set_len n pb) :: cs) (r :: ds).
Proof.
  intros [H1 H2 H3 H4 H5 H6] Hn Hr Hfit [Hc Hct Hm Hlen]. change MAX_PAYLOAD with 256 in Hn.
  pose proof (chain_NoDup _ _ _ Hc) as Hnd. apply list.NoDup_cons in Hnd as [Hnl _].
  apply list.Forall_cons in Hm as [[M1 M2 [o' M3] M4] Hm].
  unfold content in *. apply list.Forall2_cons in Hct as [_ Hct].
  assert (agree (locs cs) w (∅ : gmap loc Z) (answered_world w l pb o bs n r) (∅ : gmap loc Z)) as Ha.
  { intros l' Hl'. assert (l' ≠ l) by set_solver. cbn.
    rewrite !lookup_insert_ne by congruence. done. }
  constructor.
  - pose proof (chain_update w (Some l) [] l pb (set_len n pb) cs Hc eq_refl) as Hu.
    eapply chain_same; [|exact Hu]. intros l' Hl'. split; [done|]. by eapply (chain_live _ _ _ _ Hu).
  - constructor.
    + cbn [snd payload set_len len]. rewrite H3. unfold load, valid.
      replace (n =? 0) with false by lia. rewrite bool_decide_eq_true_2 by done.
      cbn [answered_world set_data data]. rewrite lookup_insert_eq, splice_length, Z.add_0_r by lia.
      replace (0 <=? o) with true by lia. replace (o + n <=? Z.of_nat (length bs)) with true by lia.
      cbn [andb]. do 2 f_equal. unfold splice. rewrite drop_app_length' by (rewrite length_take; lia).
      by rewrite take_app_length' by lia.
    + eapply agree_content; [exact Ha|set_solver| |exact Hct]. eapply Forall_impl; [|exact Hm]. by intros ? [].
  - constructor; [|done]. constructor; cbn [fst snd ref set_len len]; [done|done|by exists o'|lia].
  - done.
Qed.

Lemma answered_sep X t L l pb o bs n r cs :
  sep (locs ((l, pb) :: cs) ∪ X) t L → locs ((l, pb) :: cs) ## X → request (wld t) l pb o bs →
  o + Z.of_nat (length r) ≤ Z.of_nat (length bs) →
  let w' := answered_world (wld t) l pb o bs n r in
  sep (locs ((l, pb) :: cs) ∪ X) (mk_stack w' (pcbs t)) L ∧ agree X (wld t) L w' L.
Proof.
  intros Hs Hd Hq Hr w'.
  apply (sep_own X (locs ((l, pb) :: cs)) (locs ((l, pb) :: cs)) t L w' L Hs Hd).
  - apply answered_inv; [apply (tcp_ok_inv _ _ _ (sep_ok _ _ _ Hs))|done|done].
  - intros l' Hl' _. assert (l' ≠ l) by set_solver. cbn. rewrite !lookup_insert_ne by congruence. done.
  - pose proof (sep_dom _ _ _ Hs) as E. apply set_eq. intros y. rewrite elem_of_union, elem_of_difference, E.
    destruct (decide (y ∈ locs ((l, pb) :: cs))); set_solver.
  - set_solver.
Qed.

(** ** Connections

    Connection [x] of the control block [id]: the block of its [tcp_raw_state], the
    pbufs [cs] waiting to be sent with their bytes [ds], and [X], the memory of
    everything else but TCP. *)

Record connection X s L (id x : Z) es c cs ds : Prop := mk_connection {
  cn_sep : sep (locs cs ∪ ({[(HEAP, x)]} ∪ X)) (stk s) L;
  cn_disj : locs cs ## {[(HEAP, x)]} ∪ X;
  cn_fresh : (HEAP, x) ∉ X;
  cn_block : (HEAP, x) ∉ live (wld (stk s));
  cn_es : ess s !! x = Some es;
  cn_pcb : pcbs (stk s) !! id = Some c;
  cn_arg : callback_arg c = Some x;
  cn_calls : recv c = true ∧ sent c = true ∧ errf c = true ∧ poll c = true;
  cn_held : held (wld (stk s)) (p es) cs ds;
  cn_wnd : wnd_ok c;
  cn_state : pstate c ≠ LISTEN;
}.

(** What other connections see: their blocks, their states, their control blocks
    and the listening one are as before. *)
Record untouched X s L s' L' (id x : Z) : Prop := mk_untouched {
  un_mem : agree X (wld (stk s)) L (wld (stk s')) L';
  un_ess y : y ≠ x → ess s' !! y = ess s !! y;
  un_pcbs i : i ≠ id → pcbs (stk s') !! i = pcbs (stk s) !! i;
  un_listen : tcp_raw_pcb s' = tcp_raw_pcb s;
}.

Lemma untouched_trans X s1 L1 s2 L2 s3 L3 id x :
  untouched X s1 L1 s2 L2 id x → untouched X s2 L2 s3 L3 id x → untouched X s1 L1 s3 L3 id x.
Proof.
  intros [A1 B1 C1 D1] [A2 B2 C2 D2]. constructor.
  - by eapply agree_trans.
  - intros y Hy. by rewrite B2, B1.
  - intros y Hy. by rewrite C2, C1.
  - congruence.
Qed.

(** ** Opening and closing *)

Lemma dom_without (ls : list loc) L : dom (without ls L) = dom L ∖ list_to_set ls.
Proof.
  unfold without. revert L. induction ls as [|l ls IH]; intros L; cbn [foldl list_to_set]; [set_solver|].
  rewrite IH, dom_delete_L. set_solver.
Qed.

Lemma without_other (ls : list loc) L l : l ∉ ls → without ls L !! l = L !! l.
Proof.
  unfold without. revert L. induction ls as [|x ls IH]; intros L Hl; cbn [foldl]; [done|].
  apply not_elem_of_cons in Hl as [Hne Hl]. by rewrite IH, lookup_delete_ne.
Qed.

(** The block of a [tcp_raw_state] is released. *)
Lemma free_es_ok X t L x : sep ({[(HEAP, x)]} ∪ X) t L → (HEAP, x) ∉ X →
  (HEAP, x) ∉ live (wld t) →
  ∃ w' L', on_alloc (heap_free x) (wld t) = Ret ((), w') ∧ sep X (mk_stack w' (pcbs t)) L' ∧
    agree X (wld t) L w' L'.
Proof.
  intros Hs Hx Hlv. pose proof (tcp_ok_inv _ _ _ (sep_ok _ _ _ Hs)) as Hi.
  assert (is_Some (L !! (HEAP, x))) as [k Hk].
  { apply elem_of_dom. rewrite (sep_dom _ _ _ Hs). set_solver. }
  destruct (heap_free_ok _ _ _ _ (inv_owns _ _ Hi) Hk) as (a & Ha & Hoa).
  unfold on_alloc. rewrite Ha. eexists _, (delete (HEAP, x) L). split; [done|].
  rewrite <- (union_empty_l_L X) at 1.
  apply (sep_own X {[(HEAP, x)]} ∅ t L _ (delete (HEAP, x) L) Hs); [set_solver| | | |set_solver].
  - destruct Hi as [_ Hv Hfl]. constructor; [done| |done]. intros l Hl Hc. cbn in Hl |- *.
    rewrite lookup_delete_ne by (intros <-; done). by apply Hv.
  - intros l Hl _. cbn. rewrite lookup_delete_ne by set_solver. done.
  - rewrite dom_delete_L. set_solver.
Qed.

(** The callbacks are taken off the control block. *)
Definition detached c : tcp_pcb Q :=
  mk_pcb (pstate c) (prio c) None false false false false (accept c) 0 (pflags c) (rcv_nxt c)
    (rcv_wnd c) (rcv_ann_wnd c) (rcv_ann_right_edge c) (mss c) (snd_buf c) (rest c).

Lemma detach_ok t id c : pcbs t !! id = Some c → pstate c ≠ LISTEN →
  (_ ← tcp_arg id None; _ ← tcp_sent id false; _ ← tcp_recv id false; _ ← tcp_err id false;
   tcp_poll id false 0) t = Ret ((), put_pcb id (detached c) t).
Proof.
  intros Hc Hst. unfold tcp_arg. rewrite (bind_upd_pcb _ _ c) by done.
  unfold tcp_sent, tcp_recv, tcp_err, tcp_poll, rd_pcb, upd_pcb, assert_, modify, mbind, M_bind.
  repeat (unfold rd_pcb; cbn; rewrite ?lookup_insert_eq; cbn;
          rewrite ?bool_decide_eq_true_2 by done; cbn).
  unfold put_pcb. cbn. by rewrite !insert_insert_eq.
Qed.

(** The callbacks are put on the control block. *)
Definition attached (x : Z) c : tcp_pcb Q :=
  mk_pcb (pstate c) (prio c) (Some x) true true true true (accept c) 0 (pflags c) (rcv_nxt c)
    (rcv_wnd c) (rcv_ann_wnd c) (rcv_ann_right_edge c) (mss c) (snd_buf c) (rest c).

Lemma attach_ok t id c x : pcbs t !! id = Some c → pstate c ≠ LISTEN →
  (_ ← tcp_arg id (Some x); _ ← tcp_recv id true;
   _ ← tcp_err id true; _ ← tcp_poll id true 0; tcp_sent id true) t =
    Ret ((), put_pcb id (attached x c) t).
Proof.
  intros Hc Hst. unfold tcp_arg. rewrite (bind_upd_pcb _ _ c) by done.
  unfold tcp_sent, tcp_recv, tcp_err, tcp_poll, rd_pcb, upd_pcb, assert_, modify, mbind, M_bind.
  repeat (unfold rd_pcb; cbn; rewrite ?lookup_insert_eq; cbn;
          rewrite ?bool_decide_eq_true_2 by done; cbn).
  unfold put_pcb. cbn. by rewrite !insert_insert_eq.
Qed.

(** A block for a new state. *)
Lemma malloc_es_ok X t L : sep X t L →
  ∃ r w' L', on_alloc (heap_malloc SIZEOF_TCP_RAW_STATE) (wld t) = Ret (r, w') ∧
    agree X (wld t) L w' L' ∧
    match r with
    | None => sep X (mk_stack w' (pcbs t)) L'
    | Some x => sep ({[(HEAP, x)]} ∪ X) (mk_stack w' (pcbs t)) L' ∧ (HEAP, x) ∉ X ∧
        (HEAP, x) ∉ live w'
    end.
Proof.
  intros Hs. pose proof (tcp_ok_inv _ _ _ (sep_ok _ _ _ Hs)) as Hi.
  destruct (heap_malloc_ok (allocs (wld t)) L SIZEOF_TCP_RAW_STATE (inv_owns _ _ Hi)) as (r & a & Hr & Ho);
    [by vm_compute|].
  unfold on_alloc. rewrite Hr. destruct r as [x|].
  - destruct Ho as (k & Hfr & _ & Ho). assert ((HEAP, x) ∉ dom L) as Hnd by (by apply not_elem_of_dom).
    assert ((HEAP, x) ∉ live (wld t)) as Hnl.
    { intros Hl. destruct (inv_live _ _ Hi (HEAP, x) Hl) as (? & ? & _ & ? & _); [done|]. congruence. }
    rewrite <- (union_empty_l_L X) in Hs.
    destruct (sep_own X ∅ {[(HEAP, x)]} t L
      (mk_world (pbs (wld t)) (live (wld t)) (data (wld t)) a (pbuf_free_ooseq_pending (wld t)))
      (<[(HEAP, x) := k]> L) Hs) as [Hs' Ha']; [set_solver| | | |set_solver|].
    + destruct Hi as [_ Hv Hfl]. constructor; [done| |done]. intros l Hl Hc. cbn in Hl |- *.
      rewrite lookup_insert_ne by (by intros <-). by apply Hv.
    + intros l _ Hl. cbn. rewrite lookup_insert_ne by set_solver. done.
    + rewrite dom_insert_L. set_solver.
    + eexists (Some x), _, _. split_and!; [done|exact Ha'|exact Hs'| |done].
      rewrite (sep_dom _ _ _ Hs) in Hnd. set_solver.
  - eexists None, _, L. split_and!; [done|done|]. destruct Hs as [H1 H2 H3]. constructor; [|done|done].
    apply (tcp_ok_frame (wld t) L); [done| |done]. destruct Hi as [_ Hv Hfl]. by constructor.
Qed.

Lemma event_accept_ok X s L lid lc id c :
  sep X (stk s) L → pcbs (stk s) !! lid = Some lc → accept lc = true →
  pcbs (stk s) !! id = Some c → wnd_ok c → pstate c ≠ LISTEN →
  ∃ e s' L', TCP_EVENT_ACCEPT lid (Some id) ERR_OK s = Ret (e, s') ∧
    ((e = ERR_MEM ∧ sep X (stk s') L' ∧ ess s' = ess s) ∨
     (e = ERR_OK ∧ ∃ x c', connection X s' L' id x (mk_es ES_ACCEPTED 0 id None) c' [] [] ∧
        stream (rest c') = stream (rest c) ∧ untouched X s L s' L' id x)).
Proof.
  intros Hs Hlc Hacc Hc Hw Hst. unfold TCP_EVENT_ACCEPT.
  rewrite (bind_on_stack (rd_pcb lid) _ _ lc (stk s)), put_stk_same, Hacc by (by apply rd_pcb_ok).
  unfold tcp_raw_accept. set (c1 := mk_pcb (pstate c) TCP_PRIO_MIN (callback_arg c) (recv c) (sent c)
    (errf c) (poll c) (accept c) (pollinterval c) (pflags c) (rcv_nxt c) (rcv_wnd c) (rcv_ann_wnd c)
    (rcv_ann_right_edge c) (mss c) (snd_buf c) (rest c)).
  set (t1 := put_pcb id c1 (stk s)).
  erewrite (bind_on_stack (tcp_setprio id TCP_PRIO_MIN) _ _ () t1) by (by apply (upd_pcb_ok _ _ c)).
  assert (sep X t1 L) as Hs1 by (by apply (sep_put _ _ _ _ c)).
  destruct (malloc_es_ok X t1 L Hs1) as (r & w & L' & Hr & Ha & Hres).
  erewrite bind_on_world by exact Hr. destruct r as [x|].
  2:{ eexists ERR_MEM, _, L'. split; [done|]. left. by split_and!. }
  destruct Hres as (Hs2 & Hx & Hlv). rewrite bind_modify. set (s2 := set_ess _ _).
  set (t2 := mk_stack w (pcbs t1)) in *.
  assert (pcbs t2 !! id = Some c1) as Hc1 by (cbn; by rewrite lookup_insert_eq).
  pose proof (attach_ok t2 id c1 x Hc1 Hst) as Hat. set (t3 := put_pcb id (attached x c1) t2) in Hat.
  eexists ERR_OK, (put_stk t3 s2), L'. split.
  { revert Hat. unfold on_stack, mbind, M_bind. cbn [stk put_stk s2 set_ess]. fold t2.
    destruct (tcp_arg id (Some x) t2) as [[[] ta]|]; [|done]. cbn [stk].
    destruct (tcp_recv id true ta) as [[[] tb]|]; [|done]. cbn [stk].
    destruct (tcp_err id true tb) as [[[] tc]|]; [|done]. cbn [stk].
    destruct (tcp_poll id true 0 tc) as [[[] td]|]; [|done]. cbn [stk].
    by intros ->. }
  right. split; [done|]. exists x, (attached x c1). split_and!; [|done|].
  - constructor; cbn [put_stk stk ess s2 set_ess]; try done.
    + cbn [fmap list_fmap list_to_set]. rewrite union_empty_l_L. by apply (sep_put _ _ _ _ c1).
    + by rewrite lookup_insert_eq.
    + apply lookup_insert_eq.
    + constructor; [done|constructor|done|cbn; lia].
    + by destruct Hw.
  - constructor; cbn [put_stk stk ess s2 set_ess tcp_raw_pcb]; [exact Ha| | |done].
    + intros y Hy. by rewrite lookup_insert_ne.
    + intros i Hi. cbn. by rewrite !lookup_insert_ne.
Qed.

(** C5: accepting a connection.  The server allocates a state for it, in a block
    nobody held, and registers its callbacks with that state as their argument; the
    connection then has nothing pending.  When the heap is exhausted it answers
    ERR_MEM and keeps nothing. *)
Theorem accept_opens X s L lid lc id c :
  sep X (stk s) L → pcbs (stk s) !! lid = Some lc → accept lc = true →
  pcbs (stk s) !! id = Some c → wnd_ok c → pstate c ≠ LISTEN →
  ∃ e s' L', TCP_EVENT_ACCEPT lid (Some id) ERR_OK s = Ret (e, s') ∧
    ((e = ERR_MEM ∧ sep X (stk s') L' ∧ ess s' = ess s) ∨
     (e = ERR_OK ∧ ∃ x c', connection X s' L' id x (mk_es ES_ACCEPTED 0 id None) c' [] [] ∧
        stream (rest c') = stream (rest c) ∧ untouched X s L s' L' id x)).
Proof. apply event_accept_ok. Qed.

(** ** The callbacks *)

Context (custom_free_function : loc → M (world A) ()).
Context (netlink : bytes → nl_result).

Abbreviation do_action := (TcpRaw.do_action netlink).
Abbreviation tcp_raw_recv := (TcpRaw.tcp_raw_recv custom_free_function netlink).

(** [do_action] up to the exchange with the kernel. *)
Lemma do_action_run s x es l pb o bs :
  ess s !! x = Some es → p es = Some l → request (wld (stk s)) l pb o bs →
  do_action x s = (res ← send_netlink_request netlink (req_addr bs o) (req_len bs o);
    _ ← on_world (upd l (set_len (u16 (req_len bs o))));
    src ← match res with
          | Some r => on_world (read_from r 0 (req_len bs o))
          | None => if req_len bs o =? 0 then mret [] else fail NullDeref
          end;
    on_world (store (payload pb) 0 src)) s.
Proof.
  intros He Hp Hq. unfold do_action. rewrite (bind_rd_es _ _ es), Hp by done.
  rewrite (bind_Ret (of_option NullDeref (Some l)) _ s l s) by done.
  rewrite (bind_on_world (rd l) _ _ pb (wld (stk s))), put_stk_id by (apply rd_ok; apply Hq).
  erewrite bind_on_world by (by eapply request_load). rewrite put_stk_id. cbn zeta.
  by rewrite req_addr_eq, req_len_eq.
Qed.

Lemma send_netlink_reply s a n msg : nl_bound s = false →
  netlink (netlink_request a n) = NlReply msg →
  send_netlink_request netlink a n s = Ret (Some (nl_reply a n msg), s).
Proof.
  intros Hb Hn. unfold send_netlink_request, mbind, M_bind, get. by rewrite Hb, Hn.
Qed.

(** A request for at most 256 bytes that fit the pbuf's block: the answer replaces
    the request. *)
Lemma do_action_ok s x es l pb o bs msg n :
  req_len bs o = n → ess s !! x = Some es → p es = Some l → request (wld (stk s)) l pb o bs → nl_bound s = false →
  netlink (netlink_request (req_addr bs o) n) = NlReply msg → 0 < n ≤ MAX_PAYLOAD →
  o + n ≤ Z.of_nat (length bs) →
  do_action x s = Ret ((), put_stk (mk_stack
    (answered_world (wld (stk s)) l pb o bs n (answer (req_addr bs o) n msg)) (pcbs (stk s))) s).
Proof.
  intros En He Hp Hq Hb Hn Hlen Hfit. rewrite (do_action_run s x es l pb o bs), En by done.
  rewrite (bind_Ret _ _ _ _ _ (send_netlink_reply s _ _ _ Hb Hn)). change MAX_PAYLOAD with 256 in Hlen.
  rewrite (u16_id n) by clia. destruct Hq as [H1 H2 H3 H4 H5 H6].
  erewrite bind_on_world by (by apply upd_ok). set (w1 := upd_pbs l (set_len n pb) (wld (stk s))).
  rewrite (bind_on_world (read_from _ 0 n) _ _ (answer (req_addr bs o) n msg) w1).
  2:{ unfold read_from. rewrite nl_reply_length, Z.add_0_l. change (Z.of_nat 256) with 256.
      by replace (n <=? 256) with true by lia. }
  unfold on_world, on_stack, lift_world. cbn [put_stk stk wld pcbs ess tcp_raw_pcb nl_bound].
  assert (Z.of_nat (length (answer (req_addr bs o) n msg)) = n) as Ha
    by (apply answer_length; change MAX_PAYLOAD with 256; lia).
  rewrite H3. unfold store, valid. replace (length (answer (req_addr bs o) n msg) =? 0)%nat with false by (symmetry; apply Nat.eqb_neq; lia).
  rewrite bool_decide_eq_true_2 by done. change (data w1) with (data (wld (stk s))).
  rewrite H4, Z.add_0_r, Ha. replace (0 <=? o) with true by lia.
  by replace (o + n <=? Z.of_nat (length bs)) with true by lia.
Qed.

(** A request for more than 256 bytes reads past the reply. *)
Lemma do_action_oversize s x es l pb o bs msg :
  ess s !! x = Some es → p es = Some l → request (wld (stk s)) l pb o bs → nl_bound s = false →
  netlink (netlink_request (req_addr bs o) (req_len bs o)) = NlReply msg →
  MAX_PAYLOAD < req_len bs o → do_action x s = Err OutOfBounds.
Proof.
  intros He Hp Hq Hb Hn Hlen. rewrite (do_action_run s x es l pb o bs) by done.
  rewrite (bind_Ret _ _ _ _ _ (send_netlink_reply s _ _ _ Hb Hn)).
  erewrite bind_on_world by (apply upd_ok; apply Hq). apply bind_Err.
  unfold on_world, on_stack, lift_world, read_from. rewrite nl_reply_length.
  change MAX_PAYLOAD with 256 in Hlen.
  change (Z.of_nat 256) with 256. replace (0 + req_len bs o <=? 256) with false by lia. by rewrite andb_false_r.
Qed.

Lemma tcp_raw_send_connection X s L id x es c cs ds : connection X s L id x es c cs ds →
  ∃ k s' L' c', tcp_raw_send custom_free_function id x s = Ret ((), s') ∧
    sends custom_free_function id x k s s' ∧ (k ≤ length cs)%nat ∧
    connection X s' L' id x (set_p (fst <$> head (drop k cs)) es) c' (drop k cs) (drop k ds) ∧
    untouched X s L s' L' id x ∧ nl_bound s' = nl_bound s ∧
    rcv_wnd c' = Z.min TCP_WND (rcv_wnd c + lens (take k cs)) ∧
    stream (rest c') = stream (rest c) ++ concat (take k ds).
Proof.
  intros [H1 H2 H3 H4 H5 H6 H7 H8 H9 H10 H11].
  destruct (tcp_raw_send_ok custom_free_function _ _ _ id x es c cs ds H1 H2 H9 H5 H6 H10 H11) as
    (k & t' & L' & c' & Hr & Hse & Hle & Hs' & Ha & Hh & Hp & Hk & Hw & Hwnd & Hstr & Hsb).
  eexists k, _, L', c'. split_and!; [exact Hr|exact Hse|done| | |done|done|done].
  - destruct Hk as [K1 K2 K3 K4 K5 K6]. constructor; cbn [stk ess]; try done.
    + assert (locs (drop k cs) ⊆ locs cs); [|set_solver]. intros y Hy.
      apply elem_of_list_to_set. apply elem_of_list_to_set in Hy. rewrite fmap_drop in Hy.
      rewrite <- (take_drop k cs.*1). apply elem_of_app. by right.
    + destruct (Ha (HEAP, x)) as (_ & Hlv & _); [set_solver|]. tauto.
    + by rewrite lookup_insert_eq.
    + by rewrite Hp, lookup_insert_eq.
    + by rewrite K2.
    + by rewrite K3, K4, K5, K6.
    + by rewrite K1.
  - constructor; cbn [stk ess tcp_raw_pcb]; [eapply agree_mono; [|exact Ha]; set_solver| | |done].
    + intros y Hy. by rewrite lookup_insert_ne.
    + intros i Hi. by rewrite Hp, lookup_insert_ne.
Qed.

(** ** A request is answered *)

Lemma connection_upd_es X s L id x es c cs ds f : connection X s L id x es c cs ds →
  p (f es) = p es → connection X (set_ess <[x := f es]> s) L id x (f es) c cs ds.
Proof.
  intros [H1 H2 H3 H4 H5 H6 H7 H8 H9 H10 H11] Hf. constructor; try done.
  - cbn. by rewrite lookup_insert_eq.
  - cbn. by rewrite Hf.
Qed.

Lemma untouched_upd_es X s L id x (es : tcp_raw_state) : untouched X s L (set_ess <[x := es]> s) L id x.
Proof. constructor; try done. intros y Hy. cbn. by rewrite lookup_insert_ne. Qed.

(** The request [l] becomes the pending answer. *)
Lemma recv_request_run X s L id x es c l pb o bs d msg n :
  connection ({[l]} ∪ X) s L id x es c [] [] → l ∉ X →
  held (wld (stk s)) (Some l) [(l, pb)] [d] → request (wld (stk s)) l pb o bs →
  nl_bound s = false → req_len bs o = n →
  netlink (netlink_request (req_addr bs o) n) = NlReply msg → 0 < n ≤ MAX_PAYLOAD →
  o + n ≤ Z.of_nat (length bs) →
  ∃ s1, recv_request custom_free_function netlink id x l s = tcp_raw_send custom_free_function id x s1 ∧
    connection X s1 L id x (set_p (Some l) es) c [(l, set_len n pb)] [answer (req_addr bs o) n msg] ∧
    untouched X s L s1 L id x ∧ nl_bound s1 = false ∧
    stk s1 = answered_stack (stk s) l pb o bs n (answer (req_addr bs o) n msg).
Proof.
  intros [H1 H2 H3 H4 H5 H6 H7 H8 H9 H10 H11] Hl Hh Hq Hb En Hn Hlen Hfit.
  unfold recv_request. rewrite (bind_upd_es _ _ es) by done. set (s0 := set_ess _ s).
  rewrite (bind_Ret _ _ _ _ _ (do_action_ok s0 x (set_p (Some l) es) l pb o bs msg n En
    ltac:(cbn; by rewrite lookup_insert_eq) eq_refl Hq Hb Hn Hlen Hfit)).
  eexists. split; [reflexivity|]. cbn [put_stk stk s0 set_ess wld pcbs].
  assert (Z.of_nat (length (answer (req_addr bs o) n msg)) = n) as Hal
    by (apply answer_length; change MAX_PAYLOAD with 256 in *; lia).
  assert (sep (locs [(l, pb)] ∪ ({[(HEAP, x)]} ∪ X)) (stk s) L) as Hs.
  { cbn [fmap list_fmap list_to_set] in H1 |- *.
    replace ({[(l, pb).1]} ∪ ∅ ∪ ({[(HEAP, x)]} ∪ X)) with (∅ ∪ ({[(HEAP, x)]} ∪ ({[l]} ∪ X)))
      by (cbn; set_solver). done. }
  assert (l ≠ (HEAP, x)) as Hne by (intros ->; apply H4; apply Hq).
  assert (locs [(l, pb)] ## {[(HEAP, x)]} ∪ X) as Hd by (cbn; set_solver).
  destruct (answered_sep _ (stk s) L l pb o bs n (answer (req_addr bs o) n msg) [] Hs Hd Hq) as [Hs' Ha'];
    [lia|]. split_and!; [|constructor; cbn [stk ess tcp_raw_pcb]|done|done].
  - constructor; cbn [stk ess wld pcbs]; try done.
    + set_solver.
    + cbn. by rewrite lookup_insert_eq.
    + by eapply answered_held.
  - eapply agree_mono; [|exact Ha']. set_solver.
  - intros y Hy. cbn. by rewrite lookup_insert_ne.
  - done.
  - done.
Qed.

(** Dispatch: in both states a request goes the same way. *)
Lemma event_recv_request s id x es c l : pcbs (stk s) !! id = Some c → callback_arg c = Some x →
  recv c = true → ess s !! x = Some es → p es = None →
  state es = ES_ACCEPTED ∨ state es = ES_RECEIVED →
  TCP_EVENT_RECV custom_free_function netlink id (Some l) ERR_OK s =
    (_ ← recv_request custom_free_function netlink id x l; mret ERR_OK)
      (set_ess <[x := set_state ES_RECEIVED es]> s).
Proof.
  intros Hc Ha Hrc He Hp Hst. unfold TCP_EVENT_RECV.
  rewrite (bind_on_stack (rd_pcb id) _ _ c (stk s)), put_stk_same, Hrc, Ha by (by apply rd_pcb_ok).
  unfold tcp_raw_recv. rewrite bind_assert by done.
  rewrite (bind_Ret (of_option NullDeref (Some x)) _ s x s) by done. rewrite (bind_rd_es _ _ es) by done.
  destruct Hst as [E|E]; rewrite E.
  - by rewrite (bind_upd_es _ _ es).
  - rewrite Hp, set_ess_id; [done|]. rewrite He. f_equal. destruct es. cbn in *. by subst.
Qed.

(** What the first step of the loop says of TCP. *)
Lemma sends_one X s L id x es c l pb cs ds k s' : connection X s L id x es c ((l, pb) :: cs) ds →
  p es = Some l → sends custom_free_function id x k s s' →
  match k with
  | O => tcp_refuses (stk s) id c (payload pb) (len pb)
  | S _ => tcp_takes (stk s) id c (payload pb) (len pb)
  end.
Proof.
  intros [_ _ _ _ H5 H6 _ _ H9 _ _] Hp (s1 & Hn & Hst).
  destruct (he_chain _ _ _ _ H9) as (_ & _ & Hpb & _). destruct k as [|k]; inversion Hn as [|? ? s2 ? Hh]; subst.
  - destruct Hst as (es' & He & Hst). assert (es' = es) as -> by congruence. rewrite Hp in Hst.
    destruct Hst as (pb' & c' & Hpb' & Hc' & Hst). assert (pb' = pb) as -> by congruence.
    assert (c' = c) as -> by congruence. destruct Hst as [[? _]|(e & t' & Hr & He' & _)]; [by left|right; eauto].
  - destruct Hh as [es' l' pb' c' t1 He Hl Hpb' Hc' Hle Hr _]. assert (es' = es) as -> by congruence.
    assert (l' = l) as -> by congruence. assert (pb' = pb) as -> by congruence.
    assert (c' = c) as -> by congruence. split; eauto.
Qed.

(** The answer is sent, or kept. *)
Lemma event_recv_ok X s L id x es c l pb o bs d msg n :
  connection ({[l]} ∪ X) s L id x es c [] [] → l ∉ X →
  state es = ES_ACCEPTED ∨ state es = ES_RECEIVED →
  held (wld (stk s)) (Some l) [(l, pb)] [d] → request (wld (stk s)) l pb o bs →
  nl_bound s = false → req_len bs o = n →
  netlink (netlink_request (req_addr bs o) n) = NlReply msg → 0 < n ≤ MAX_PAYLOAD →
  o + n ≤ Z.of_nat (length bs) →
  let a := answer (req_addr bs o) n msg in
  let t1 := answered_stack (stk s) l pb o bs n a in
  ∃ s' L' c', TCP_EVENT_RECV custom_free_function netlink id (Some l) ERR_OK s = Ret (ERR_OK, s') ∧
    untouched X s L s' L' id x ∧ nl_bound s' = false ∧ Z.of_nat (length a) = n ∧
    ((tcp_takes t1 id c (payload pb) n ∧
      connection X s' L' id x (mk_es ES_RECEIVED (retries es) (pcb es) None) c' [] [] ∧
      stream (rest c') = stream (rest c) ++ a ∧ rcv_wnd c' = Z.min TCP_WND (rcv_wnd c + n)) ∨
     (tcp_refuses t1 id c (payload pb) n ∧
      connection X s' L' id x (mk_es ES_RECEIVED (retries es) (pcb es) (Some l)) c'
        [(l, set_len n pb)] [a] ∧
      stream (rest c') = stream (rest c))).
Proof.
  intros Hcn Hl Hst Hh Hq Hb En Hn Hlen Hfit a t1. pose proof Hcn as [_ _ _ _ H5 H6 H7 H8 H9 _ _].
  rewrite (event_recv_request s id x es c l) by (done || apply H8 || exact (he_chain _ _ _ _ H9)).
  apply (connection_upd_es _ _ _ _ _ _ _ _ _ (set_state ES_RECEIVED)) in Hcn; [|done].
  destruct (recv_request_run X _ L id x _ c l pb o bs d msg n Hcn Hl Hh Hq Hb En Hn Hlen Hfit)
    as (s1 & Hr & Hc1 & Hu1 & Hb1 & Ht1).
  destruct (tcp_raw_send_connection X s1 L id x _ c _ _ Hc1)
    as (k & s' & L' & c' & Hr' & Hse & Hk & Hc' & Hu' & Hb' & Hwnd & Hstr).
  pose proof (sends_one X s1 L id x _ c l _ _ _ k s' Hc1 eq_refl Hse) as Hone. rewrite Ht1 in Hone.
  exists s', L', c'. rewrite (bind_Ret _ _ _ () s') by (by rewrite Hr).
  split_and!; [done| |congruence|apply answer_length; lia|].
  { eapply untouched_trans; [apply untouched_upd_es|]. by eapply untouched_trans. }
  destruct k as [|k].
  - right. split_and!; [exact Hone|exact Hc'|by rewrite Hstr; cbn; rewrite app_nil_r].
  - left. assert (k = 0)%nat as -> by (cbn in Hk; lia).
    split_and!; [exact Hone|exact Hc'|by rewrite Hstr; cbn; rewrite app_nil_r|].
    rewrite Hwnd. cbn. f_equal. lia.
Qed.

(** C2: a request is answered.  When a packet with a request for [n] bytes, at most
    256, reaches a connection that has nothing to send, the server asks the kernel
    and either all of the answer, exactly [n] bytes, is handed to TCP and the
    packet's memory is released, or the answer is kept in the packet's place for
    later.  Which of the two is TCP's choice in the very state [t1] with the answer
    in the packet: it is kept exactly when the send buffer has no room for [n]
    bytes or [tcp_write], called in [t1], fails.  Nothing else changes. *)
Theorem request_answered X s L id x es c l pb o bs d msg n :
  connection ({[l]} ∪ X) s L id x es c [] [] → l ∉ X →
  state es = ES_ACCEPTED ∨ state es = ES_RECEIVED →
  held (wld (stk s)) (Some l) [(l, pb)] [d] → request (wld (stk s)) l pb o bs →
  nl_bound s = false → req_len bs o = n →
  netlink (netlink_request (req_addr bs o) n) = NlReply msg → 0 < n ≤ MAX_PAYLOAD →
  o + n ≤ Z.of_nat (length bs) →
  let a := answer (req_addr bs o) n msg in
  let t1 := answered_stack (stk s) l pb o bs n a in
  ∃ s' L' c', TCP_EVENT_RECV custom_free_function netlink id (Some l) ERR_OK s = Ret (ERR_OK, s') ∧
    untouched X s L s' L' id x ∧ nl_bound s' = false ∧ Z.of_nat (length a) = n ∧
    ((tcp_takes t1 id c (payload pb) n ∧
      connection X s' L' id x (mk_es ES_RECEIVED (retries es) (pcb es) None) c' [] [] ∧
      stream (rest c') = stream (rest c) ++ a ∧ rcv_wnd c' = Z.min TCP_WND (rcv_wnd c + n)) ∨
     (tcp_refuses t1 id c (payload pb) n ∧
      connection X s' L' id x (mk_es ES_RECEIVED (retries es) (pcb es) (Some l)) c'
        [(l, set_len n pb)] [a] ∧
      stream (rest c') = stream (rest c))).
Proof. apply event_recv_ok. Qed.

(** ** Requests the server does not survive *)

(** A fault of [do_action] ends the event. *)
Lemma recv_fault X s L id x es c l pb o bs d f :
  connection ({[l]} ∪ X) s L id x es c [] [] → state es = ES_ACCEPTED ∨ state es = ES_RECEIVED →
  held (wld (stk s)) (Some l) [(l, pb)] [d] → request (wld (stk s)) l pb o bs →
  (∀ s0 es0, ess s0 !! x = Some es0 → p es0 = Some l → request (wld (stk s0)) l pb o bs →
     nl_bound s0 = nl_bound s → do_action x s0 = Err f) →
  TCP_EVENT_RECV custom_free_function netlink id (Some l) ERR_OK s = Err f.
Proof.
  intros [_ _ _ _ H5 H6 H7 H8 H9 _ _] Hst Hh Hq Hf.
  rewrite (event_recv_request s id x es c l) by (done || apply H8 || exact (he_chain _ _ _ _ H9)).
  apply bind_Err. unfold recv_request.
  rewrite (bind_upd_es _ _ (set_state ES_RECEIVED es)) by (cbn; by rewrite lookup_insert_eq).
  apply bind_Err, (Hf _ (set_p (Some l) (set_state ES_RECEIVED es))); [|done..].
  cbn. by rewrite lookup_insert_eq.
Qed.

(** A request the kernel cannot be asked about: the failing [sendmsg] or [recvmsg]
    yields NULL, which the server copies from. *)
Lemma do_action_no_reply s x es l pb o bs r :
  ess s !! x = Some es → p es = Some l → request (wld (stk s)) l pb o bs → nl_bound s = false →
  netlink (netlink_request (req_addr bs o) (req_len bs o)) = r → r = NlSendFail ∨ r = NlRecvFail →
  req_len bs o ≠ 0 → do_action x s = Err NullDeref.
Proof.
  intros He Hp Hq Hb Hn Hr Hlen. rewrite (do_action_run s x es l pb o bs) by done.
  rewrite (bind_Ret _ _ _ None (mk_server (stk s) (ess s) (tcp_raw_pcb s) true)).
  2:{ unfold send_netlink_request, mbind, M_bind, get. rewrite Hb, Hn. by destruct Hr as [-> | ->]. }
  erewrite bind_on_world by (apply upd_ok; apply Hq). apply bind_Err.
  by rewrite (proj2 (Z.eqb_neq _ _)).
Qed.

(** C6: the requests the server does not survive.  One for more than 256 bytes,
    which no check refuses, makes it copy past the end of the kernel's reply; when
    [sendmsg] or [recvmsg] fails, it copies from NULL. *)
Theorem request_faults X s L id x es c l pb o bs d r :
  connection ({[l]} ∪ X) s L id x es c [] [] → state es = ES_ACCEPTED ∨ state es = ES_RECEIVED →
  held (wld (stk s)) (Some l) [(l, pb)] [d] → request (wld (stk s)) l pb o bs →
  nl_bound s = false →
  netlink (netlink_request (req_addr bs o) (req_len bs o)) = r →
  ((∃ msg, r = NlReply msg) → MAX_PAYLOAD < req_len bs o →
     TCP_EVENT_RECV custom_free_function netlink id (Some l) ERR_OK s = Err OutOfBounds) ∧
  (r = NlSendFail ∨ r = NlRecvFail → req_len bs o ≠ 0 →
     TCP_EVENT_RECV custom_free_function netlink id (Some l) ERR_OK s = Err NullDeref).
Proof.
  intros Hcn Hst Hh Hq Hb Hn. split; intros Hr Hlen.
  - destruct Hr as [msg ->]. apply (recv_fault X s L id x es c l pb o bs d); try done.
    intros s0 es0 He0 Hp0 Hq0 Hb0. apply (do_action_oversize s0 x es0 l pb o bs msg); try done.
    by rewrite Hb0.
  - apply (recv_fault X s L id x es c l pb o bs d); try done.
    intros s0 es0 He0 Hp0 Hq0 Hb0. apply (do_action_no_reply s0 x es0 l pb o bs r); try done.
    by rewrite Hb0.
Qed.

(** A packet for a connection whose pending pbuf has lengths that disagree. *)
Lemma recv_cat_fails X s L id x es c l pb ds l2 :
  connection X s L id x es c [(l, pb)] ds → state es = ES_RECEIVED → tot_len pb ≠ len pb →
  TCP_EVENT_RECV custom_free_function netlink id (Some l2) ERR_OK s = Err AssertFail.
Proof.
  intros [_ _ _ _ H5 H6 H7 H8 H9 _ _] Hst Htot. unfold TCP_EVENT_RECV. destruct H8 as (Hrc & _).
  rewrite (bind_on_stack (rd_pcb id) _ _ c (stk s)), put_stk_same, Hrc, H7 by (by apply rd_pcb_ok).
  unfold tcp_raw_recv. rewrite bind_assert by done.
  rewrite (bind_Ret (of_option NullDeref (Some x)) _ s x s) by done.
  rewrite (bind_rd_es _ _ es), Hst by done.
  destruct (he_chain _ _ _ _ H9) as (Hp & Hl & Hpb & Hnx). cbn in Hnx. rewrite Hp. apply bind_Err.
  unfold on_world, on_stack, lift_world.
  assert (pbuf_cat (Some l) (Some l2) (wld (stk s)) = Err AssertFail) as ->; [|done].
  unfold pbuf_cat. rewrite bind_assert, !bind_deref, bind_get by done.
  rewrite (bind_Ret _ _ _ l (wld (stk s))).
  2:{ destruct (fuel _); cbn [cat_loop]; rewrite (bind_rd _ l pb), Hnx by done; done. }
  rewrite (bind_rd _ l pb) by done. apply bind_Err. unfold assert_.
  by rewrite (proj2 (Z.eqb_neq _ _)).
Qed.

(** C7: a second request while the answer to the first is waiting aborts the
    server.  [do_action] gives the packet of the request the length [n] of the
    answer but leaves its [tot_len] alone; when TCP does not take the answer at
    once, the next packet of the connection, whatever it is, is chained to the
    waiting one with [pbuf_cat], which asserts that the two lengths agree.  Only an
    answer exactly as long as the request's packet escapes this. *)
Theorem pipelined_request_aborts X s L id x es c l pb o bs d msg n :
  connection ({[l]} ∪ X) s L id x es c [] [] → l ∉ X →
  state es = ES_ACCEPTED ∨ state es = ES_RECEIVED →
  held (wld (stk s)) (Some l) [(l, pb)] [d] → request (wld (stk s)) l pb o bs →
  nl_bound s = false → req_len bs o = n →
  netlink (netlink_request (req_addr bs o) n) = NlReply msg → 0 < n ≤ MAX_PAYLOAD →
  o + n ≤ Z.of_nat (length bs) → n ≠ tot_len pb →
  tcp_refuses (answered_stack (stk s) l pb o bs n (answer (req_addr bs o) n msg)) id c (payload pb) n →
  ∃ s1, TCP_EVENT_RECV custom_free_function netlink id (Some l) ERR_OK s = Ret (ERR_OK, s1) ∧
    ∀ l2, TCP_EVENT_RECV custom_free_function netlink id (Some l2) ERR_OK s1 = Err AssertFail.
Proof.
  intros Hcn Hl Hst Hh Hq Hb En Hn Hlen Hfit Htot Href.
  destruct (event_recv_ok X s L id x es c l pb o bs d msg n Hcn Hl Hst Hh Hq Hb En Hn Hlen Hfit)
    as (s1 & L1 & c1 & Hr & _ & _ & _ & [(Ht & _)|(_ & Hc1 & _)]).
  { by destruct (takes_not_refuses _ _ _ _ _ Ht). }
  exists s1. split; [done|]. intros l2. by eapply recv_cat_fails; [exact Hc1|done|cbn; congruence].
Qed.

(** ** Pending answers, closing and failing connections *)

(** Setting the callback that is set changes nothing. *)
Lemma tcp_sent_again t id c : pcbs t !! id = Some c → sent c = true → pstate c ≠ LISTEN →
  tcp_sent id true t = Ret ((), t).
Proof.
  intros Hc Hs Hl. unfold tcp_sent. rewrite (bind_rd_pcb _ _ c) by done.
  rewrite bind_assert by (by apply bool_decide_eq_true). rewrite (upd_pcb_ok _ _ c) by done.
  do 2 f_equal. destruct t as [w m]. unfold put_pcb. cbn in *. f_equal. apply insert_id.
  rewrite Hc. f_equal. destruct c. cbn in *. by subst.
Qed.

(** The two events that make the server send go on with what is pending. *)
Lemma event_sent_run s id x es c l space : pcbs (stk s) !! id = Some c → callback_arg c = Some x →
  sent c = true → pstate c ≠ LISTEN → ess s !! x = Some es → p es = Some l →
  TCP_EVENT_SENT custom_free_function id space s =
    (_ ← tcp_raw_send custom_free_function id x; mret ERR_OK) (set_ess <[x := set_retries 0 es]> s).
Proof.
  intros Hc Ha Hs Hst He Hp. unfold TCP_EVENT_SENT.
  rewrite (bind_on_stack (rd_pcb id) _ _ c (stk s)), put_stk_same, Hs, Ha by (by apply rd_pcb_ok).
  unfold tcp_raw_sent. rewrite (bind_Ret (of_option NullDeref (Some x)) _ s x s) by done.
  rewrite (bind_upd_es _ _ es) by done. set (s1 := set_ess _ s).
  rewrite (bind_rd_es _ _ (set_retries 0 es)) by (cbn; by rewrite lookup_insert_eq).
  cbn [p set_retries]. rewrite Hp. unfold mbind at 1, M_bind at 1.
  erewrite (bind_on_stack (tcp_sent id true)) by (by apply (tcp_sent_again (stk s) id c)).
  change (put_stk (stk s) s1) with (put_stk (stk s1) s1). by rewrite put_stk_same.
Qed.

Lemma event_poll_run s id x es c l : pcbs (stk s) !! id = Some c → callback_arg c = Some x →
  poll c = true → ess s !! x = Some es → p es = Some l →
  TCP_EVENT_POLL custom_free_function id s =
    (_ ← tcp_raw_send custom_free_function id x; mret ERR_OK) s.
Proof.
  intros Hc Ha Hs He Hp. unfold TCP_EVENT_POLL.
  rewrite (bind_on_stack (rd_pcb id) _ _ c (stk s)), put_stk_same, Hs, Ha by (by apply rd_pcb_ok).
  unfold tcp_raw_poll. by rewrite (bind_rd_es _ _ es), Hp by done.
Qed.

(** C3: what is pending goes out later.  When TCP reports that data was
    acknowledged, and at every poll, the server hands over the waiting pbufs in
    order, each exactly once, and releases their memory: [k] steps of [hands_over],
    each a successful [tcp_write] of the first pbuf in the state reached, lead to the
    state [s1], and there all is sent, or the next pbuf does not fit the send
    buffer, or [tcp_write], called in [s1], refuses it.  The bytes handed over are
    those of the first [k] pbufs, the rest is kept as it was. *)
Theorem pending_answer_sent X s L id x es c cs ds (sent_event : bool) space :
  connection X s L id x es c cs ds → cs ≠ [] →
  let s0 := if sent_event then set_ess <[x := set_retries 0 es]> s else s in
  ∃ k s1 s' L' c' es', (if sent_event then TCP_EVENT_SENT custom_free_function id space
                     else TCP_EVENT_POLL custom_free_function id) s = Ret (ERR_OK, s') ∧
    nsteps (hands_over custom_free_function id x) k s0 s1 ∧ stopped id x s1 s' ∧
    (k ≤ length cs)%nat ∧ p es' = fst <$> head (drop k cs) ∧ state es' = state es ∧
    connection X s' L' id x es' c' (drop k cs) (drop k ds) ∧ untouched X s L s' L' id x ∧
    stream (rest c') = stream (rest c) ++ concat (take k ds).
Proof.
  intros Hcn Hne. pose proof Hcn as [_ _ _ _ H5 H6 H7 H8 H9 _ H11]. destruct H8 as (_ & Hsc & _ & Hpc).
  assert (∃ l, p es = Some l) as [l Hl].
  { pose proof (he_chain _ _ _ _ H9) as Hc. destruct cs as [|[l pb] cs]; [done|].
    destruct Hc as (-> & _). eauto. }
  destruct sent_event.
  - rewrite (event_sent_run s id x es c l space) by done.
    apply (connection_upd_es _ _ _ _ _ _ _ _ _ (set_retries 0)) in Hcn; [|done].
    destruct (tcp_raw_send_connection X _ L id x _ c _ _ Hcn)
      as (k & s' & L' & c' & Hr & (s1 & Hn & Hstop) & Hk & Hc' & Hu & _ & _ & Hstr).
    eexists k, s1, s', L', c', _. rewrite (bind_Ret _ _ _ _ _ Hr).
    split_and!; [done|exact Hn|exact Hstop|done| | |exact Hc'| |done]; [done|done|].
    eapply untouched_trans; [apply untouched_upd_es|exact Hu].
  - rewrite (event_poll_run s id x es c l) by done.
    destruct (tcp_raw_send_connection X _ L id x _ c _ _ Hcn)
      as (k & s' & L' & c' & Hr & (s1 & Hn & Hstop) & Hk & Hc' & Hu & _ & _ & Hstr).
    eexists k, s1, s', L', c', _. rewrite (bind_Ret _ _ _ _ _ Hr).
    split_and!; [done|exact Hn|exact Hstop|done| | |exact Hc'|done|done]; done.
Qed.

(** [tcp_raw_free] of a connection: its block and all that is pending. *)
Lemma tcp_raw_free_ok X s L x es cs ds :
  sep (locs cs ∪ ({[(HEAP, x)]} ∪ X)) (stk s) L → locs cs ## {[(HEAP, x)]} ∪ X → (HEAP, x) ∉ X →
  (HEAP, x) ∉ live (wld (stk s)) → ess s !! x = Some es → held (wld (stk s)) (p es) cs ds →
  ∃ w' L', tcp_raw_free custom_free_function (Some x) s =
      Ret ((), mk_server (mk_stack w' (pcbs (stk s))) (delete x (ess s)) (tcp_raw_pcb s) (nl_bound s)) ∧
    sep X (mk_stack w' (pcbs (stk s))) L' ∧ agree X (wld (stk s)) L w' L'.
Proof.
  intros Hs Hd Hx Hlv He [Hc Hct Hm Hlen]. unfold tcp_raw_free. rewrite (bind_rd_es _ _ es) by done.
  assert (∃ w1 L1, (match p es with Some l => _ ← on_world (pbuf_free custom_free_function (Some l)); mret ()
                    | None => mret () end) s = Ret ((), put_stk (mk_stack w1 (pcbs (stk s))) s) ∧
    sep ({[(HEAP, x)]} ∪ X) (mk_stack w1 (pcbs (stk s))) L1 ∧
    agree ({[(HEAP, x)]} ∪ X) (wld (stk s)) L w1 L1) as (w1 & L1 & Hr1 & Hs1 & Ha1).
  { destruct cs as [|[l pb] cs].
    - cbn in Hc. rewrite Hc. exists (wld (stk s)), L. rewrite put_stk_id. split_and!; [done| |done].
      cbn [fmap list_fmap list_to_set] in Hs. rewrite union_empty_l_L in Hs. by destruct (stk s).
    - pose proof Hc as (Hpe & _). rewrite Hpe in *. pose proof (tcp_ok_inv _ _ _ (sep_ok _ _ _ Hs)) as Hi.
      destruct (pbuf_free_ok custom_free_function _ L l _ Hi Hc (mine_droppable _ Hm)) as (w1 & Hr & Hi1 & Hl1 & Hd1 & _ & Hp1).
      { rewrite (mine_freed _ Hm). change (2 ^ 8) with 256. lia. }
      rewrite (mine_freed _ Hm) in *. exists w1, (without ((l, pb) :: cs).*1 L).
      erewrite bind_on_world by exact Hr. split; [done|]. rewrite <- (union_empty_l_L ({[(HEAP, x)]} ∪ X)) at 1.
      apply (sep_own _ (locs ((l, pb) :: cs)) ∅ _ L w1 _ Hs Hd Hi1); [|rewrite dom_without; set_solver|set_solver].
      intros y Hy _. rewrite without_other, Hl1, Hd1, Hp1 by set_solver.
      split_and!; [done|set_solver|done|done]. }
  rewrite (bind_Ret _ _ _ _ _ Hr1). assert ((HEAP, x) ∉ live w1) as Hlv1.
  { destruct (Ha1 (HEAP, x)) as (_ & H & _); [set_solver|]. tauto. }
  destruct (free_es_ok X _ L1 x Hs1 Hx Hlv1) as (w2 & L2 & Hr2 & Hs2 & Ha2).
  erewrite bind_on_world by exact Hr2. exists w2, L2. split_and!; [done|done|].
  eapply agree_trans; [|exact Ha2]. eapply agree_mono; [|exact Ha1]. set_solver.
Qed.

Lemma tcp_raw_close_ok X s L id x es c cs ds : connection X s L id x es c cs ds →
  ∃ s' L', tcp_raw_close custom_free_function id x s = Ret ((), s') ∧ sep X (stk s') L' ∧
    ess s' = delete x (ess s) ∧ untouched X s L s' L' id x.
Proof.
  intros [H1 H2 H3 H4 H5 H6 H7 H8 H9 H10 H11].
  set (t1 := put_pcb id (detached c) (stk s)).
  assert (tcp_raw_close custom_free_function id x s =
    (_ ← tcp_raw_free custom_free_function (Some x); _ ← on_stack (tcp_close id); mret ()) (put_stk t1 s)) as ->.
  { pose proof (detach_ok (stk s) id c H6 H11) as Hd. fold t1 in Hd. revert Hd.
    unfold tcp_raw_close, on_stack, mbind, M_bind.
    destruct (tcp_arg id None (stk s)) as [[[] ta]|]; [|done]. cbn [stk put_stk].
    destruct (tcp_sent id false ta) as [[[] tb]|]; [|done]. cbn [stk put_stk].
    destruct (tcp_recv id false tb) as [[[] tc]|]; [|done]. cbn [stk put_stk].
    destruct (tcp_err id false tc) as [[[] td]|]; [|done]. cbn [stk put_stk].
    by intros ->. }
  assert (sep (locs cs ∪ ({[(HEAP, x)]} ∪ X)) t1 L) as Hs1 by (by apply (sep_put _ _ _ _ c)).
  destruct (tcp_raw_free_ok X (put_stk t1 s) L x es cs ds Hs1 H2 H3 H4 H5 H9) as (w & L1 & Hr & Hs2 & Ha2).
  rewrite (bind_Ret _ _ _ _ _ Hr). cbn [put_stk stk ess tcp_raw_pcb nl_bound] in *.
  destruct (tcp_close_ok _ L1 id (detached c) (sep_ok _ _ _ Hs2)) as (e & t' & L' & Hr' & Hstep & Ho).
  { cbn. by rewrite lookup_insert_eq. }
  destruct (tcp_step_sep _ _ _ _ _ Hs2 Hstep) as [Hs' Ha'].
  erewrite bind_on_stack by exact Hr'. eexists _, L'. split_and!; [done|done|done|].
  constructor; cbn [put_stk stk ess tcp_raw_pcb]; [|by intros y Hy; rewrite lookup_delete_ne| |done].
  - by eapply agree_trans.
  - intros i Hi. rewrite Ho by done. cbn. by rewrite lookup_insert_ne.
Qed.

(** The handlers that close update the state first. *)
Lemma close_after X s L id x es c ds f : connection X s L id x es c [] ds → p (f es) = p es →
  ∃ s' L', (_ ← tcp_raw_close custom_free_function id x; mret ERR_OK) (set_ess <[x := f es]> s) =
      Ret (ERR_OK, s') ∧ sep X (stk s') L' ∧ ess s' = delete x (ess s) ∧ untouched X s L s' L' id x.
Proof.
  intros Hcn Hf. apply (connection_upd_es _ _ _ _ _ _ _ _ _ f) in Hcn; [|done].
  destruct (tcp_raw_close_ok X _ L id x _ c [] ds Hcn) as (s' & L' & Hr & Hs' & He' & Hu').
  exists s', L'. rewrite (bind_Ret _ _ _ _ _ Hr). split_and!; [done|done| |].
  - rewrite He'. cbn. by rewrite delete_insert_eq.
  - eapply untouched_trans; [apply untouched_upd_es|exact Hu'].
Qed.

(** C4: nothing is lost when a connection ends.  Whether the peer closes it, TCP
    reports a fatal error, or the last answer has gone out after the peer closed,
    its state is removed and all its memory, the block of its state and every
    pending pbuf, goes back to the allocators. *)
Theorem connection_released X s L id x es c cs ds err space : connection X s L id x es c cs ds →
  (∃ s' L', TCP_EVENT_ERR custom_free_function (errf c) (callback_arg c) err s = Ret ((), s') ∧
     sep X (stk s') L' ∧ ess s' = delete x (ess s) ∧ untouched X s L s' L' id x) ∧
  (cs = [] → ∃ s' L', TCP_EVENT_RECV custom_free_function netlink id None ERR_OK s = Ret (ERR_OK, s') ∧
     sep X (stk s') L' ∧ ess s' = delete x (ess s) ∧ untouched X s L s' L' id x) ∧
  (cs = [] → state es = ES_CLOSING → ∃ s' L',
     TCP_EVENT_SENT custom_free_function id space s = Ret (ERR_OK, s') ∧
     sep X (stk s') L' ∧ ess s' = delete x (ess s) ∧ untouched X s L s' L' id x).
Proof.
  intros Hcn. pose proof Hcn as [H1 H2 H3 H4 H5 H6 H7 (Hrc & Hsc & Hec & Hpc) H9 H10 H11].
  split_and!.
  - unfold TCP_EVENT_ERR, tcp_raw_error. rewrite Hec, H7.
    destruct (tcp_raw_free_ok X s L x es cs ds H1 H2 H3 H4 H5 H9) as (w & L1 & Hr & Hs2 & Ha2).
    eexists _, L1. split_and!; [exact Hr|done|done|]. constructor; cbn [stk ess]; try done.
    intros y Hy. by rewrite lookup_delete_ne.
  - intros ->. unfold TCP_EVENT_RECV.
    rewrite (bind_on_stack (rd_pcb id) _ _ c (stk s)), put_stk_same, Hrc, H7 by (by apply rd_pcb_ok).
    unfold tcp_raw_recv. rewrite bind_assert by done.
    rewrite (bind_Ret (of_option NullDeref (Some x)) _ s x s) by done. rewrite (bind_rd_es _ _ es) by done.
    rewrite (bind_upd_es _ _ es), (he_chain _ _ _ _ H9 : p es = None) by done.
    by apply (close_after X s L id x es c ds (set_state ES_CLOSING)).
  - intros -> Hst. unfold TCP_EVENT_SENT.
    rewrite (bind_on_stack (rd_pcb id) _ _ c (stk s)), put_stk_same, Hsc, H7 by (by apply rd_pcb_ok).
    unfold tcp_raw_sent. rewrite (bind_Ret (of_option NullDeref (Some x)) _ s x s) by done.
    rewrite (bind_upd_es _ _ es) by done.
    rewrite (bind_rd_es _ _ (set_retries 0 es)) by (cbn; by rewrite lookup_insert_eq).
    cbn [p state set_retries]. rewrite (he_chain _ _ _ _ H9 : p es = None), decide_True by done.
    by apply (close_after X s L id x es c ds (set_retries 0)).
Qed.

End Server.

(** ** A concrete server

    A TCP that keeps nothing but the bytes written, on the heap and the pools of
    the code. *)

Section ExampleTcp.
Context {A : Type}.

Definition ex_pcb_write (bs : bytes) (n : Z) (c : tcp_pcb bytes) : tcp_pcb bytes :=
  mk_pcb (pstate c) (prio c) (callback_arg c) (recv c) (sent c) (errf c) (poll c) (accept c)
    (pollinterval c) (pflags c) (rcv_nxt c) (rcv_wnd c) (rcv_ann_wnd c) (rcv_ann_right_edge c)
    (mss c) (snd_buf c - n) (rest c ++ bs).

Definition ex_tcp_write (id : Z) (p : option ptr) (n : Z) : M (stack A bytes) err_t :=
  c ← rd_pcb id;
  if snd_buf c <? n then mret ERR_MEM else
  bs ← lift_world (load p 0 n);
  _ ← upd_pcb id (ex_pcb_write bs n);
  mret ERR_OK.

#[local] Instance example_tcp : TcpCore A bytes := {|
  tcp_write := ex_tcp_write;
  tcp_output id := mret ERR_OK;
  tcp_close id := _ ← modify (λ s, mk_stack (wld s) (delete id (pcbs s))); mret ERR_OK;
  tcp_abort id := modify (λ s, mk_stack (wld s) (delete id (pcbs s)));
  tcp_new_ip_type := mret None;
  tcp_bind id port := mret ERR_OK;
  tcp_listen id := mret None;
|}.

Context `{HA : Alloc A} {elt_size : memp_t → Z} `{HL : !AllocLaws A elt_size}.

Lemma ex_tcp_step (w : world A) L m m' : inv w L →
  tcp_step (λ _ : gmap Z bytes, ∅) (λ w L _, inv w L) (mk_stack w m) L (mk_stack w m') L.
Proof. intros Hi. constructor; [done|done|set_solver|set_solver]. Qed.

#[local] Instance example_tcp_laws : TcpLaws A bytes.
Proof.
  refine {| stream := id; tcp_mem _ := ∅; tcp_ok w L _ := inv w L |}; try done.
  - intros [w m] L i c r o n bs Hi Hc Hld Hn. cbn in Hc, Hld, Hi.
    exists ERR_OK, (mk_stack w (<[i := ex_pcb_write bs n c]> m)), L, (ex_pcb_write bs n c).
    split_and!; try done; [|by apply ex_tcp_step|constructor; try done; by left].
    cbn [tcp_write example_tcp]. unfold ex_tcp_write. rewrite (bind_rd_pcb _ _ c) by done.
    rewrite (proj2 (Z.ltb_ge _ _)) by lia.
    rewrite (bind_Ret _ _ _ bs (mk_stack w m)) by (unfold lift_world; cbn [wld]; by rewrite Hld).
    by rewrite (bind_upd_pcb _ _ c).
  - intros [w m] L i c Hi Hc. exists ERR_OK, (mk_stack w m), L, c. cbn in Hc.
    split_and!; try done; [by apply ex_tcp_step|by rewrite insert_id|constructor; try done; by left].
  - intros [w m] L i c Hi Hc. exists ERR_OK, (mk_stack w (delete i m)), L.
    split_and!; try done; [by apply ex_tcp_step|]. intros j Hj. cbn. by rewrite lookup_delete_ne.
Defined.

End ExampleTcp.

#[local] Existing Instance example_tcp.
#[local] Existing Instance example_tcp_laws.
#[local] Existing Instance ex_laws.

(** A packet with a request for [n] bytes at 4096. *)
Definition ex_request (n : Z) : bytes := le_bytes 4 4096 ++ le_bytes 4 n.
Definition ex_l : loc := (POOL MEMP_PBUF_POOL, 19816).
Definition ex_pb : pbuf := mk_pbuf None (Some (Own ex_l, 0)) 8 8 PBUF_POOL 0 1.
Definition ex_w1 : world allocators := run (pbuf_alloc zeros no_custom PBUF_RAW 8 PBUF_POOL w0).
Definition ex_w2 (n : Z) : world allocators := run (pbuf_take (Some ex_l) (Some (ex_request n)) 8 ex_w1).

Lemma ex_w2_inv n : ∃ L, inv (ex_w2 n) L ∧ dom L = {[ex_l]}.
Proof.
  destruct (pbuf_alloc_ok no_custom zeros zeros_length eq_refl eq_refl w0 ∅ PBUF_RAW 8 PBUF_POOL
    w0_inv ltac:(by vm_compute) ltac:(done)) as (r & w' & Hrun & Hpost).
  assert (w' = ex_w1) as -> by (unfold ex_w1; rewrite Hrun; reflexivity).
  assert (r = Some ex_l) as ->.
  { assert (fst <$> (match pbuf_alloc zeros no_custom PBUF_RAW 8 PBUF_POOL w0 with
      Ret x => Some x | Err _ => None end) = Some (Some ex_l)) as E by (vm_compute; reflexivity).
    rewrite Hrun in E. by injection E as ->. }
  destruct Hpost as (L & cs & [Hb Hc _ _ _ _ _]). exists L.
  assert (packet ex_w1 (Some ex_l) [(ex_l, ex_pb)] [replicate 8 0]) as Hp
    by (constructor; [concrete|concrete|constructor; [vm_compute; reflexivity|constructor]]).
  destruct (pbuf_take_ok ex_w1 ex_l [(ex_l, ex_pb)] [replicate 8 0] (ex_request n) 8 Hp) as (w2 & ds' & Hr & Hf & _);
    [apply (bool_decide_unpack _); by vm_compute|cbn; lia|cbn; lia|].
  assert (w2 = ex_w2 n) as -> by (unfold ex_w2; rewrite Hr; reflexivity).
  split; [eapply inv_frame; [apply Hb|exact Hf]|].
  assert (cs = [(ex_l, ex_pb)]) as -> by (eapply chain_fun; [exact Hc|apply Hp]).
  apply set_eq. intros y. rewrite elem_of_dom, elem_of_singleton. split.
  - intros [k Hk]. destruct (decide (y ∈ [(ex_l, ex_pb)].*1)) as [H|H]; [by apply list_elem_of_singleton in H|].
    rewrite (bu_blocks _ _ _ _ _ Hb) in Hk by done. done.
  - intros ->. destruct (inv_live _ _ (bu_inv _ _ _ _ _ Hb) ex_l) as (? & k & _ & ? & _); [concrete|done|by exists k].
Qed.

Definition ex_pcb (buf : Z) : tcp_pcb bytes :=
  mk_pcb ESTABLISHED 64 None false false false false false 0 0 1000 2136 2136 3136 536 buf [].
Definition ex_listen : tcp_pcb bytes :=
  mk_pcb LISTEN 64 None false false false false true 0 0 0 0 0 0 0 0 [].
Definition ex_srv0 (n buf : Z) : server allocators bytes :=
  mk_server (mk_stack (ex_w2 n) (<[0 := ex_listen]> (<[1 := ex_pcb buf]> ∅))) ∅ (Some 0) false.

Lemma ex_sep n buf : ∃ L, sep {[ex_l]} (stk (ex_srv0 n buf)) L.
Proof.
  destruct (ex_w2_inv n) as (L & Hi & Hd). exists L. constructor; [exact Hi| |set_solver].
  rewrite Hd. cbn. set_solver.
Qed.

Lemma ex_wnd buf : wnd_ok (ex_pcb buf).
Proof. constructor; by vm_compute. Qed.

Definition run_server {B} (s0 : server allocators bytes) (r : res (B * server allocators bytes)) :
    server allocators bytes :=
  match r with Ret (_, s) => s | Err _ => s0 end.

(** The server with that connection accepted. *)
Definition ex_srv (n buf : Z) : server allocators bytes :=
  run_server (ex_srv0 n buf) (TCP_EVENT_ACCEPT 0 (Some 1) ERR_OK (ex_srv0 n buf)).

Lemma accept_opens_witness : ∃ s' L' x c',
  TCP_EVENT_ACCEPT 0 (Some 1) ERR_OK (ex_srv0 16 1072) = Ret (ERR_OK, s') ∧
  connection {[ex_l]} s' L' 1 x (mk_es ES_ACCEPTED 0 1 None) c' [] [].
Proof.
  destruct (ex_sep 16 1072) as (L & Hs).
  destruct (accept_opens {[ex_l]} (ex_srv0 16 1072) L 0 ex_listen 1 (ex_pcb 1072) Hs eq_refl eq_refl eq_refl (ex_wnd 1072) ltac:(done))
    as (e & s' & L' & Hr & [(-> & _)|(-> & x & c' & Hc & _)]).
  - exfalso. revert Hr. vm_compute. congruence.
  - exists s', L', x, c'. split; [exact Hr|exact Hc].
Defined.

Lemma ex_connection n buf : ∃ L x c,
  connection ({[ex_l]} ∪ ∅) (ex_srv n buf) L 1 x (mk_es ES_ACCEPTED 0 1 None) c [] [].
Proof.
  destruct (ex_sep n buf) as (L & Hs).
  destruct (event_accept_ok {[ex_l]} (ex_srv0 n buf) L 0 ex_listen 1 (ex_pcb buf) Hs eq_refl eq_refl eq_refl (ex_wnd buf) ltac:(done))
    as (e & s' & L' & Hr & [(-> & _)|(-> & x & c' & Hc & _)]).
  - exfalso. revert Hr. vm_compute. congruence.
  - exists L', x, c'. unfold ex_srv. rewrite Hr, union_empty_r_L. exact Hc.
Qed.

Definition ex_bs (n : Z) : bytes := ex_request n ++ replicate 584 0.

Lemma ex_request_ok n buf : request (wld (stk (ex_srv n buf))) ex_l ex_pb 0 (ex_bs n).
Proof. constructor; [member|vm_compute; reflexivity..|done|by vm_compute]. Qed.

Lemma ex_held n buf : held (wld (stk (ex_srv n buf))) (Some ex_l) [(ex_l, ex_pb)] [ex_request n].
Proof.
  constructor; [concrete| |apply list.Forall_singleton; constructor; [done|done|by eexists|cbn; lia]|cbn; lia].
  constructor; [vm_compute; reflexivity|constructor].
Qed.

(** A kernel that answers every request with sixteen bytes of value 7. *)
Definition ex_netlink (payload : bytes) : nl_result := NlReply (replicate 16 7).

(** The control block of the accepted connection, and what TCP does with it. *)
Lemma ex_pcb_srv X n buf L x es c cs ds : connection X (ex_srv n buf) L 1 x es c cs ds →
  rest c = [] ∧ snd_buf c = buf.
Proof.
  intros H. pose proof (cn_pcb _ _ _ _ _ _ _ _ _ H) as E. vm_compute in E. injection E as <-. done.
Qed.

Lemma ex_taken (t : stack allocators bytes) c q n : n ≤ snd_buf c →
  match tcp_write 1 q n t with Ret (ERR_OK, _) => true | _ => false end = true →
  ¬ tcp_refuses t 1 c q n.
Proof. intros Hn Hw [?|(e & t' & Hr & He)]; [lia|]. rewrite Hr in Hw. by destruct e. Qed.

Lemma request_answered_witness : ∃ s' L' x c',
  TCP_EVENT_RECV no_custom ex_netlink 1 (Some ex_l) ERR_OK (ex_srv 16 1072) = Ret (ERR_OK, s') ∧
  connection ∅ s' L' 1 x (mk_es ES_RECEIVED 0 1 None) c' [] [] ∧ rest c' = replicate 16 7.
Proof.
  destruct (ex_connection 16 1072) as (L & x & c & Hcn). pose proof (ex_pcb_srv _ _ _ _ _ _ _ _ _ Hcn) as [Hc Hb].
  destruct (request_answered no_custom ex_netlink ∅ (ex_srv 16 1072) L 1 x _ c ex_l ex_pb 0 (ex_bs 16) _
    (replicate 16 7) 16 Hcn ltac:(set_solver) (or_introl eq_refl) (ex_held 16 1072) (ex_request_ok 16 1072)
    ltac:(vm_compute; reflexivity) ltac:(vm_compute; reflexivity) eq_refl ltac:(done) ltac:(by vm_compute))
    as (s' & L' & c' & Hr & _ & _ & _ & [(_ & Hc' & Hs & _)|(Ht & _)]).
  - exists s', L', x, c'. split_and!; [exact Hr|exact Hc'|]. cbn in Hs. rewrite Hs, Hc. vm_compute. reflexivity.
  - exfalso. revert Ht. apply ex_taken; [by rewrite Hb|vm_compute; reflexivity].
Defined.

Lemma request_faults_witness :
  TCP_EVENT_RECV no_custom ex_netlink 1 (Some ex_l) ERR_OK (ex_srv 300 1072) = Err OutOfBounds.
Proof.
  destruct (ex_connection 300 1072) as (L & x & c & Hcn).
  destruct (request_faults no_custom ex_netlink ∅ (ex_srv 300 1072) L 1 x _ c ex_l ex_pb 0 (ex_bs 300) _ _
    Hcn (or_introl eq_refl) (ex_held 300 1072) (ex_request_ok 300 1072) ltac:(vm_compute; reflexivity) eq_refl) as [H _].
  apply H; [by eexists|by vm_compute].
Defined.

(** No room in the send buffer: the answer waits. *)
Definition ex_waiting : server allocators bytes :=
  run_server (ex_srv 16 0) (TCP_EVENT_RECV no_custom ex_netlink 1 (Some ex_l) ERR_OK (ex_srv 16 0)).

Lemma ex_waiting_ok : ∃ L x c, connection ∅ ex_waiting L 1 x (mk_es ES_RECEIVED 0 1 (Some ex_l)) c
  [(ex_l, set_len 16 ex_pb)] [replicate 16 7].
Proof.
  destruct (ex_connection 16 0) as (L & x & c & Hcn).
  destruct (event_recv_ok no_custom ex_netlink ∅ (ex_srv 16 0) L 1 x _ c ex_l ex_pb 0 (ex_bs 16) _
    (replicate 16 7) 16 Hcn ltac:(set_solver) (or_introl eq_refl) (ex_held 16 0) (ex_request_ok 16 0)
    ltac:(vm_compute; reflexivity) ltac:(vm_compute; reflexivity) eq_refl ltac:(done) ltac:(by vm_compute))
    as (s' & L' & c' & Hr & _ & _ & _ & Hd).
  assert (s' = ex_waiting) as -> by (unfold ex_waiting; rewrite Hr; reflexivity).
  destruct Hd as [(_ & Hc' & _)|(_ & Hc' & _)]; [exfalso|by exists L', x, c'].
  pose proof (cn_pcb _ _ _ _ _ _ _ _ _ Hcn) as E. pose proof (cn_arg _ _ _ _ _ _ _ _ _ Hcn) as Ea.
  vm_compute in E. injection E as <-. cbn in Ea. injection Ea as <-.
  pose proof (cn_es _ _ _ _ _ _ _ _ _ Hc') as E. revert E. vm_compute. congruence.
Qed.

Lemma pipelined_request_aborts_witness : ∃ s1,
  TCP_EVENT_RECV no_custom ex_netlink 1 (Some ex_l) ERR_OK (ex_srv 16 0) = Ret (ERR_OK, s1) ∧
  TCP_EVENT_RECV no_custom ex_netlink 1 (Some (POOL MEMP_PBUF_POOL, 19200)) ERR_OK s1 = Err AssertFail.
Proof.
  destruct (ex_connection 16 0) as (L & x & c & Hcn).
  pose proof (ex_pcb_srv _ _ _ _ _ _ _ _ _ Hcn) as [_ Hb].
  destruct (pipelined_request_aborts no_custom ex_netlink ∅ (ex_srv 16 0) L 1 x _ c ex_l ex_pb 0 (ex_bs 16) _
    (replicate 16 7) 16 Hcn ltac:(set_solver) (or_introl eq_refl) (ex_held 16 0) (ex_request_ok 16 0)
    ltac:(vm_compute; reflexivity) ltac:(vm_compute; reflexivity) eq_refl ltac:(done) ltac:(by vm_compute)
    ltac:(done) ltac:(left; rewrite Hb; done)) as (s1 & Hr & Hab).
  exists s1. split; [exact Hr|apply Hab].
Defined.

Lemma pending_answer_sent_witness : ∃ k s' L' x c' es',
  TCP_EVENT_POLL no_custom 1 ex_waiting = Ret (ERR_OK, s') ∧
  connection ∅ s' L' 1 x es' c' (drop k [(ex_l, set_len 16 ex_pb)]) (drop k [replicate 16 7]).
Proof.
  destruct ex_waiting_ok as (L & x & c & Hcn).
  destruct (pending_answer_sent no_custom ∅ ex_waiting L 1 x _ c _ _ false 0 Hcn ltac:(done))
    as (k & s1 & s' & L' & c' & es' & Hr & _ & _ & _ & _ & _ & Hc' & _).
  exists k, s', L', x, c', es'. split; [exact Hr|exact Hc'].
Defined.

Lemma connection_released_witness : ∃ x s' L',
  TCP_EVENT_ERR no_custom true (Some x) ERR_ABRT ex_waiting = Ret ((), s') ∧ sep ∅ (stk s') L' ∧
  ess s' = delete x (ess ex_waiting).
Proof.
  destruct ex_waiting_ok as (L & x & c & Hcn). exists x.
  destruct (connection_released no_custom ex_netlink ∅ ex_waiting L 1 x _ c _ _ ERR_ABRT 0 Hcn)
    as [(s' & L' & Hr & Hs & He & _) _].
  rewrite (cn_arg _ _ _ _ _ _ _ _ _ Hcn) in Hr. destruct (cn_calls _ _ _ _ _ _ _ _ _ Hcn) as (_ & _ & E & _).
  rewrite E in Hr. exists s', L'. split_and!; [exact Hr|exact Hs|exact He].
Defined.

Lemma tcp_recved_window_witness : ∃ t' L' c',
  tcp_recved 1 8 (stk (ex_srv0 16 1072)) = Ret ((), t') ∧ sep {[ex_l]} t' L' ∧
  pcbs t' !! 1 = Some c' ∧ rcv_wnd c' = TCP_WND.
Proof.
  destruct (ex_sep 16 1072) as (L & Hs).
  destruct (tcp_recved_window {[ex_l]} (stk (ex_srv0 16 1072)) L 1 (ex_pcb 1072) 8 Hs eq_refl (ex_wnd 1072)
    ltac:(done) ltac:(done) ltac:(done)) as (t' & L' & c' & Hr & Hs' & Hp & _ & _ & _ & Hw & _).
  exists t', L', c'. split_and!; [exact Hr|exact Hs'| |exact Hw]. rewrite Hp. by rewrite lookup_insert_eq.
Defined.
