(* ===== verification/System.v ===== *)
(** * The system: client, server and kernel module together

    The netlink exchange of the server is the handler of the kernel module, and
    what the client receives is what the server hands to TCP. *)

From S2P Require Import Prelude CLib Client Kernel Mem Memp Alloc Pbuf PbufChain PbufWrite PbufOwn PbufOps PbufSpec TcpRaw TcpRawSpec ServerSpec.
Import KernelModule Pbuf TcpRaw.

(** [sendmsg] to the kernel and [recvmsg] of its answer: the module's input
    callback runs on the payload and answers, or never does. *)
Definition kernel_netlink (phys : Z → option Z) (payload : bytes) : nl_result :=
  match nl_recv_msg phys (λ _, true) payload with
  | Ret (Some msg) => NlReply msg
  | _ => NlBlocked
  end.

(** The bytes of physical memory a request asks for. *)
Definition memory_bytes (phys : Z → option Z) (a n : Z) : bytes :=
  (λ i, default 0 (phys (a + Z.of_nat i))) <$> seq 0 (Z.to_nat n).

Lemma netlink_request_split a n :
  netlink_request a n = request_text a n ++ 0 :: replicate 238 0.
Proof.
  unfold netlink_request, splice. rewrite take_0, length_app, length_request_text.
  change (Z.to_nat MAX_PAYLOAD) with 256%nat. cbn [app length Nat.add]. rewrite drop_replicate.
  change (256 - _)%nat with 238%nat. by rewrite <- (assoc_L app).
Qed.

(** Below the limit the kernel answers the whole range. *)
Lemma kernel_netlink_reply phys a n : 0 ≤ a → 0 < n ≤ MAX_PAYLOAD → a + n ≤ LAST_READABLE_ADDRESS →
  (∀ i, 0 ≤ i < n → is_Some (phys (a + i))) →
  kernel_netlink phys (netlink_request a n) = NlReply (memory_bytes phys a n).
Proof.
  intros Ha Hn Hlim Hm. change MAX_PAYLOAD with 256 in Hn. unfold LAST_READABLE_ADDRESS in *.
  assert (readable a n = n) as Hrd by (unfold readable, SIZE, LAST_READABLE_ADDRESS; lia).
  assert (∀ i, 0 ≤ i < n → phys_addr (a + i) = a + i) as Hpa.
  { intros i Hi. unfold phys_addr. rewrite s32_id by clia. apply Z.mod_small. clia. }
  destruct (nl_recv_request phys a n (replicate 238 0)) as (reply & Hr & Hlen & Hi); [|clia|clia|].
  { rewrite !s32_id by clia. intros i Hi. rewrite Hrd in Hi. rewrite Hpa by done. by apply Hm. }
  rewrite !s32_id in * by clia. rewrite Hrd in Hlen.
  unfold kernel_netlink. rewrite netlink_request_split, Hr. f_equal.
  apply list_eq. intros i. destruct (decide (i < length reply)%nat) as [Hlt|Hge].
  - rewrite Hi, Hpa by lia. unfold memory_bytes. rewrite list_lookup_fmap, lookup_seq_lt by lia. cbn.
    destruct (Hm (Z.of_nat i) ltac:(lia)) as [b ->]. done.
  - rewrite lookup_ge_None_2 by lia. symmetry. apply lookup_ge_None_2.
    unfold memory_bytes. rewrite length_fmap, length_seq. lia.
Qed.

Lemma memory_bytes_length phys a n : length (memory_bytes phys a n) = Z.to_nat n.
Proof. unfold memory_bytes. by rewrite length_fmap, length_seq. Qed.

Lemma answer_memory phys a n : 0 < n ≤ MAX_PAYLOAD →
  answer a n (memory_bytes phys a n) = memory_bytes phys a n.
Proof.
  intros Hn. change MAX_PAYLOAD with 256 in Hn. unfold answer, nl_reply, splice.
  change (Z.to_nat MAX_PAYLOAD) with 256%nat. rewrite take_0, (take_ge (memory_bytes _ _ _)) by (rewrite memory_bytes_length; lia).
  cbn [app]. apply take_app_length'. by rewrite memory_bytes_length.
Qed.

(** The wire format: the server reads what the client's struct holds. *)
Lemma wire_format a n (bs : bytes) o : is_u32 a → is_u32 n →
  take 8 (drop (Z.to_nat o) bs) = Main.parsed_request (mk_request a n) →
  req_addr bs o = a ∧ req_len bs o = n.
Proof.
  intros Ha Hn Hm. rewrite <- req_addr_eq, <- req_len_eq, Hm. unfold Main.parsed_request. cbn [starting_address length_].
  assert (length (le_bytes 4 a) = 4%nat) as H4 by (by rewrite length_le_bytes).
  rewrite take_app_length', drop_app_length' by done.
  rewrite !le_word_bytes by done. done.
Qed.

(** The client's part of a dump. *)
Lemma client_dump send_ok recv st a n line data :
  let '(buffer, stdin) := Main.fgets (Z.to_nat MAXDATASIZE - 1) (Main.c_stdin st) in
  Main.strlen buffer = S (length line) → take (length line) buffer = line →
  Parse.parse_input line = Ret (mk_request a n, MEM_DUMP) →
  send_ok (Main.c_sent st) (Main.parsed_request (mk_request a n)) = true →
  recv (Main.c_sent st ++ [Main.parsed_request (mk_request a n)]) n = Some data →
  Z.of_nat (length data) = n →
  Main.main_step send_ok recv st = Ret (Main.Continue (Main.mk_client stdin
    ((Main.c_stdout st ++ cstr ">>") ++ ref_dump (Z.to_nat n) a data)
    (Main.c_sent st ++ [Main.parsed_request (mk_request a n)]))).
Proof.
  destruct (Main.fgets _ _) as [buffer stdin] eqn:Ef. intros Hlen Hline Hp Hs Hr Hd.
  destruct (parse_input_accepts _ _ Hp) as [_ Hn]. cbn [length_] in Hn. unfold MAXDATASIZE in Hn.
  unfold Main.main_step. rewrite Ef, Hlen, Hline, Hp. cbn [mbind res_bind].
  change (strcmp_eq MEM_DUMP INVALID_INPUT) with false. change (strcmp_eq MEM_DUMP EXIT) with false.
  cbn [length_]. rewrite Hs, Hr. unfold Main.recv_buffer. rewrite take_ge by lia.
  unfold MAXDATASIZE. replace (length data <=? Z.to_nat 256)%nat with true by (symmetry; apply Nat.leb_le; lia).
  cbn [mbind res_bind]. rewrite print_mem_returns; cbn [length_ starting_address]; [|lia|rewrite length_app; lia].
  by rewrite take_app_length' by lia.
Qed.

Section System.
Context {A Q : Type} `{HA : Alloc A} {elt_size : memp_t → Z} `{HL : !AllocLaws A elt_size}.
Context `{HT : !TcpCore A Q} `{TL : !TcpLaws A Q}.
Context (custom_free_function : loc → M (world A) ()).

(** C1: a dump, end to end.  The user types a command for [n] bytes at [a], below
    the kernel's limit; the 8 bytes the client sends arrive in one packet on an
    idle connection of the server.  Then the server, with the kernel module behind
    it, puts exactly the bytes of physical memory at [a] in the packet's place and
    offers them to TCP.  When TCP takes them in that state, they are what is added
    to the connection's stream, and the client that receives them prints the dump
    of that memory and is ready for the next command; they wait only when the send
    buffer has no room for them or [tcp_write] fails in that very state. *)
Theorem dump_end_to_end phys X (s : server A Q) L id x es c l pb o bs d a n send_ok st line :
  (* the client *)
  let m := Main.parsed_request (mk_request a n) in
  let '(buffer, stdin) := Main.fgets (Z.to_nat MAXDATASIZE - 1) (Main.c_stdin st) in
  Main.strlen buffer = S (length line) → take (length line) buffer = line →
  Parse.parse_input line = Ret (mk_request a n, MEM_DUMP) → send_ok (Main.c_sent st) m = true →
  (* the memory *)
  a + n ≤ LAST_READABLE_ADDRESS → (∀ i, 0 ≤ i < n → is_Some (phys (a + i))) →
  (* the server *)
  connection ({[l]} ∪ X) s L id x es c [] [] → l ∉ X →
  state es = ES_ACCEPTED ∨ state es = ES_RECEIVED → nl_bound s = false →
  held (wld (stk s)) (Some l) [(l, pb)] [d] → request (wld (stk s)) l pb o bs →
  take 8 (drop (Z.to_nat o) bs) = m → o + n ≤ Z.of_nat (length bs) →
  let mem := memory_bytes phys a n in
  let t1 := answered_stack (stk s) l pb o bs n mem in
  ∃ s' L' c' es', TCP_EVENT_RECV custom_free_function (kernel_netlink phys) id (Some l) ERR_OK s =
      Ret (ERR_OK, s') ∧
    ((tcp_takes t1 id c (payload pb) n ∧ p es' = None ∧ connection X s' L' id x es' c' [] [] ∧
      stream (rest c') = stream (rest c) ++ mem ∧
      let delivered := drop (length (stream (rest c))) (stream (rest c')) in
      Main.main_step send_ok (λ _ _, Some delivered) st = Ret (Main.Continue (Main.mk_client stdin
        ((Main.c_stdout st ++ cstr ">>") ++ ref_dump (Z.to_nat n) a mem) (Main.c_sent st ++ [m])))) ∨
     (tcp_refuses t1 id c (payload pb) n ∧ p es' = Some l ∧ connection X s' L' id x es' c' [(l, set_len n pb)] [mem] ∧
      stream (rest c') = stream (rest c))).
Proof.
  intros m. destruct (Main.fgets _ _) as [buffer stdin] eqn:Ef.
  intros Hlen Hline Hp Hsend Hlim Hmem Hcn Hl Hst Hb Hh Hq Hm Hfit mem t1.
  destruct (parse_input_accepts _ _ Hp) as [Ha Hn]. cbn [starting_address length_] in Ha, Hn.
  unfold MAXDATASIZE in Hn.
  assert (0 < n ≤ MAX_PAYLOAD) as Hn' by (change MAX_PAYLOAD with 256; lia).
  destruct (wire_format a n bs o Ha ltac:(clia) Hm) as [Ea En].
  pose proof (kernel_netlink_reply phys a n ltac:(unfold is_u32 in Ha; lia) Hn' Hlim Hmem) as Hk.
  destruct (event_recv_ok custom_free_function (kernel_netlink phys) X s L id x es c l pb o bs d mem n
    Hcn Hl Hst Hh Hq Hb En ltac:(by rewrite Ea) Hn' Hfit) as (s' & L' & c' & Hr & _ & _ & _ & Hd).
  rewrite Ea in Hd. unfold mem in Hd. rewrite answer_memory in Hd by done.
  exists s', L', c'. destruct Hd as [(Ht & Hc' & Hs & _)|(Ht & Hc' & Hs)]; eexists; (split; [exact Hr|]).
  - left. split_and!; [exact Ht| |exact Hc'|exact Hs|]; [done|]. cbv zeta. rewrite Hs, drop_app_length.
    pose proof (client_dump send_ok (λ _ _, Some (memory_bytes phys a n)) st a n line (memory_bytes phys a n)) as H.
    rewrite Ef in H. apply H; try done. rewrite memory_bytes_length. lia.
  - right. split_and!; [exact Ht| |exact Hc'|exact Hs]. done.
Qed.

End System.

(** "d -a 0x00001000 -l 016" *)
Definition ex_line : bytes := cstr "d -a 0x00001000 -l 016".

#[local] Existing Instance example_tcp.
#[local] Existing Instance example_tcp_laws.
#[local] Existing Instance ex_laws.

Definition ex_phys (a : Z) : option Z := Some (a mod 251).

Lemma dump_end_to_end_witness : ∃ s' L' x c' es',
  TCP_EVENT_RECV no_custom (kernel_netlink ex_phys) 1 (Some ex_l) ERR_OK (ex_srv 16 1072) = Ret (ERR_OK, s') ∧
  p es' = None ∧ connection ∅ s' L' 1 x es' c' [] [] ∧
  Main.main_step (λ _ _, true) (λ _ _, Some (rest c')) (Main.mk_client (ex_line ++ [10]) [] []) =
    Ret (Main.Continue (Main.mk_client [] (cstr ">>" ++ ref_dump 16 4096 (memory_bytes ex_phys 4096 16))
      [Main.parsed_request (mk_request 4096 16)])).
Proof.
  destruct (ex_connection 16 1072) as (L & x & c & Hcn). pose proof (ex_pcb_srv _ _ _ _ _ _ _ _ _ Hcn) as [Hc Hb].
  destruct (dump_end_to_end no_custom ex_phys ∅ (ex_srv 16 1072) L 1 x _ c ex_l ex_pb 0 (ex_bs 16) _ 4096 16
    (λ _ _, true) (Main.mk_client (ex_line ++ [10]) [] []) ex_line eq_refl eq_refl
    ltac:(vm_compute; reflexivity) eq_refl ltac:(by vm_compute) ltac:(intros ? _; by eexists) Hcn ltac:(set_solver)
    (or_introl eq_refl) ltac:(vm_compute; reflexivity) (ex_held 16 1072) (ex_request_ok 16 1072)
    ltac:(vm_compute; reflexivity) ltac:(by vm_compute))
    as (s' & L' & c' & es' & Hr & [(_ & Hp & Hc' & _ & Hd)|(Ht & _)]).
  - exists s', L', x, c', es'. split_and!; [exact Hr|exact Hp|exact Hc'|]. cbn [stream example_tcp_laws id] in Hd.
    rewrite Hc in Hd. exact Hd.
  - exfalso. revert Ht. apply ex_taken; [by rewrite Hb|vm_compute; reflexivity].
Defined.
