(* ===== verification/TcpOut.v ===== *)
(** * TCP output queue: [lwip/src/core/tcp_out.c]

    Data to be sent is cut into segments: a [struct tcp_seg] from the pool
    [MEMP_TCP_SEG] with a chain of pbufs whose first bytes are the TCP header.  The
    queues [unsent] and [unacked] of a control block are lists of segments, each
    with the address of its struct; a segment is on one queue only.  This file has
    the functions that fill the queue; those that transmit it are not here.

    The build passes [-DLWIP_DEBUG] and [TCP_OVERSIZE] is not zero, so
    [TCP_OVERSIZE_DBGCHECK] is 1: segments have the field [oversize_left], and the
    assertions that compare it with [unsent_oversize] are compiled in. *)

From S2P Require Import Prelude CLib Def Mem Alloc Pbuf TcpRaw.
Import Def.Def Pbuf TcpRaw.

Module TcpOut.

Definition TCP_HLEN : Z := 20.
Definition TCP_OVERSIZE : Z := TCP_MSS.
Definition TCP_SND_BUF : Z := 2 * TCP_MSS.
Definition TCP_SND_QUEUELEN : Z := (4 * TCP_SND_BUF + (TCP_MSS - 1)) / TCP_MSS.
Definition TCP_SNDQUEUELEN_OVERFLOW : Z := 0xffff - 3.

Definition ERR_CONN : err_t := ERR_OTHER (-11).

Definition TCP_FIN : Z := 0x01.
Definition TCP_SYN : Z := 0x02.
Definition TCP_RST : Z := 0x04.
Definition TCP_PSH : Z := 0x08.
Definition TCP_FLAGS : Z := 0x3f.
Definition TF_FIN : Z := 0x20.
Definition TF_NODELAY : Z := 0x40.
Definition TF_NAGLEMEMERR : Z := 0x80.
Definition TCP_WRITE_FLAG_COPY : Z := 0x01.
Definition TCP_WRITE_FLAG_MORE : Z := 0x02.
Definition TF_SEG_OPTS_MSS : Z := 0x01.
Definition LWIP_TCP_OPT_LEN_MSS : Z := 4.

Definition has (flags bit : Z) : bool := negb (Z.land flags bit =? 0).

(** [LWIP_TCP_OPT_LENGTH(flags)]: time stamps and window scaling are off. *)
Definition LWIP_TCP_OPT_LENGTH (flags : Z) : Z :=
  if has flags TF_SEG_OPTS_MSS then LWIP_TCP_OPT_LEN_MSS else 0.

Record tcp_seg := mk_seg {
  seg_node : Z;              (* its address in the pool *)
  seg_p : option loc;
  seg_len : Z;               (* u16_t *)
  oversize_left : Z;         (* u16_t *)
  seg_flags : Z;             (* u8_t *)
  tcphdr : option ptr;
}.

Definition add_seg_len (n : Z) (s : tcp_seg) : tcp_seg :=
  mk_seg (seg_node s) (seg_p s) (u16 (seg_len s + n)) (oversize_left s) (seg_flags s) (tcphdr s).
Definition set_oversize_left (n : Z) (s : tcp_seg) : tcp_seg :=
  mk_seg (seg_node s) (seg_p s) (seg_len s) n (seg_flags s) (tcphdr s).

(** A change of the last segment of a queue, in place. *)
Definition upd_last (f : tcp_seg → tcp_seg) (l : list tcp_seg) : list tcp_seg :=
  match list.last l with Some s => removelast l ++ [f s] | None => l end.

(** The fields of a control block the sending half uses. *)
Record tcp_snd := mk_snd {
  local_port : Z;
  remote_port : Z;
  snd_lbb : Z;               (* u32_t *)
  snd_wnd_max : Z;           (* u16_t *)
  snd_queuelen : Z;          (* u16_t *)
  unsent_oversize : Z;       (* u16_t *)
  unsent : list tcp_seg;
  unacked : list tcp_seg;
}.

Section Ops.
Context {A : Type} `{Alloc A}.
Context (uninit : world A → loc → Z → bytes).
Context (custom_free_function : loc → M (world A) ()).

Abbreviation T := (stack A tcp_snd).
Abbreviation pcb_t := (tcp_pcb tcp_snd).

Definition set_rest (f : tcp_snd → tcp_snd) (c : pcb_t) : pcb_t :=
  mk_pcb (pstate c) (prio c) (callback_arg c) (recv c) (sent c) (errf c) (poll c) (accept c)
    (pollinterval c) (pflags c) (rcv_nxt c) (rcv_wnd c) (rcv_ann_wnd c) (rcv_ann_right_edge c)
    (mss c) (snd_buf c) (f (rest c)).
Definition set_snd_buf (z : Z) (c : pcb_t) : pcb_t :=
  mk_pcb (pstate c) (prio c) (callback_arg c) (recv c) (sent c) (errf c) (poll c) (accept c)
    (pollinterval c) (pflags c) (rcv_nxt c) (rcv_wnd c) (rcv_ann_wnd c) (rcv_ann_right_edge c)
    (mss c) z (rest c).
Definition set_snd_lbb z q := mk_snd (local_port q) (remote_port q) z (snd_wnd_max q) (snd_queuelen q)
  (unsent_oversize q) (unsent q) (unacked q).
Definition set_snd_queuelen z q := mk_snd (local_port q) (remote_port q) (snd_lbb q) (snd_wnd_max q) z
  (unsent_oversize q) (unsent q) (unacked q).
Definition set_unsent_oversize z q := mk_snd (local_port q) (remote_port q) (snd_lbb q) (snd_wnd_max q)
  (snd_queuelen q) z (unsent q) (unacked q).
Definition set_unsent l q := mk_snd (local_port q) (remote_port q) (snd_lbb q) (snd_wnd_max q)
  (snd_queuelen q) (unsent_oversize q) l (unacked q).

Definition or_flags (id f : Z) : M T () := upd_pcb id (λ c, set_pflags (Z.lor (pflags c) f) c).
Definition upd_rest (id : Z) (f : tcp_snd → tcp_snd) : M T () := upd_pcb id (set_rest f).

(** ** Headers *)

(** [struct tcp_hdr]: src, dest, seqno, ackno, hdrlen and flags, wnd, chksum, urgp. *)
Definition hdr_put (h : option ptr) (off : Z) (bs : bytes) : M T () := lift_world (store h off bs).
Definition TCPH_FLAGS (h : option ptr) : M T Z :=
  bs ← lift_world (load h 12 2); mret (Z.land (lwip_htons (le_word bs)) TCP_FLAGS).
Definition TCPH_SET_FLAG (h : option ptr) (flags : Z) : M T () :=
  bs ← lift_world (load h 12 2);
  hdr_put h 12 (le_bytes 2 (Z.lor (le_word bs) (lwip_htons flags))).

(** ** Segments *)

(** [tcp_seg_free(seg)] and [tcp_segs_free(seg)] *)
Definition tcp_seg_free (s : tcp_seg) : M T () :=
  _ ← match seg_p s with
      | Some l => _ ← lift_world (pbuf_free custom_free_function (Some l)); mret ()
      | None => mret ()
      end;
  lift_world (on_alloc (pool_free MEMP_TCP_SEG (seg_node s))).
Fixpoint tcp_segs_free (l : list tcp_seg) : M T () :=
  match l with [] => mret () | s :: l' => _ ← tcp_seg_free s; tcp_segs_free l' end.

(** [tcp_create_segment(pcb, p, flags, seqno, optflags)] *)
Definition tcp_create_segment (id : Z) (q : loc) (flags seqno optflags : Z) : M T (option tcp_seg) :=
  let optlen := LWIP_TCP_OPT_LENGTH optflags in
  r ← lift_world (on_alloc (pool_malloc MEMP_TCP_SEG));
  match r with
  | None => _ ← lift_world (pbuf_free custom_free_function (Some q)); mret None
  | Some node =>
      pb ← lift_world (rd q);
      _ ← assert_ (optlen <=? tot_len pb);
      let len := u16 (tot_len pb - optlen) in
      b ← lift_world (pbuf_header (Some q) TCP_HLEN);
      if (b : bool) then _ ← tcp_seg_free (mk_seg node (Some q) len 0 optflags None); mret None
      else
        pb ← lift_world (rd q);
        c ← rd_pcb id;
        let h := payload pb in
        _ ← hdr_put h 0 (le_bytes 2 (lwip_htons (local_port (rest c))));
        _ ← hdr_put h 2 (le_bytes 2 (lwip_htons (remote_port (rest c))));
        _ ← hdr_put h 4 (le_bytes 4 (lwip_htonl seqno));
        _ ← hdr_put h 12 (le_bytes 2 (lwip_htons (Z.lor (u16 (Z.shiftl (5 + optlen / 4) 12)) flags)));
        _ ← hdr_put h 18 (le_bytes 2 0);
        mret (Some (mk_seg node (Some q) len 0 optflags h))
  end.

(** [tcp_pbuf_prealloc(layer, length, max_length, &oversize, pcb, apiflags, first_seg)]:
    the pbuf and the value stored in [oversize]. *)
Definition tcp_pbuf_prealloc (layer : pbuf_layer) (length max_length id apiflags : Z)
    (first_seg : bool) : M T (option (loc * Z)) :=
  c ← rd_pcb id;
  let alloc :=
    if length <? max_length then
      if has apiflags TCP_WRITE_FLAG_MORE ||
         (negb (has (pflags c) TF_NODELAY) &&
          (negb first_seg || bool_decide (unsent (rest c) ≠ []) || bool_decide (unacked (rest c) ≠ [])))
      then u16 (Z.min max_length (Mem.LWIP_MEM_ALIGN_SIZE (length + TCP_OVERSIZE)))
      else length
    else length in
  r ← lift_world (pbuf_alloc uninit custom_free_function layer alloc PBUF_RAM);
  match r with
  | None => mret None
  | Some q =>
      pb ← lift_world (rd q);
      _ ← assert_ (bool_decide (next pb = None));
      let oversize := u16 (len pb - length) in
      _ ← lift_world (upd q (λ pb, set_len length (set_tot_len length pb)));
      mret (Some (q, oversize))
  end.

(** [tcp_write_checks(pcb, len)] *)
Definition tcp_write_checks (id len : Z) : M T err_t :=
  c ← rd_pcb id;
  let q := rest c in
  if negb (bool_decide (pstate c ∈ [ESTABLISHED; CLOSE_WAIT; SYN_SENT; SYN_RCVD]))
  then mret ERR_CONN
  else if len =? 0 then mret ERR_OK
  else if snd_buf c <? len then _ ← or_flags id TF_NAGLEMEMERR; mret ERR_MEM
  else if (TCP_SND_QUEUELEN <=? snd_queuelen q) || (TCP_SNDQUEUELEN_OVERFLOW <? snd_queuelen q)
  then _ ← or_flags id TF_NAGLEMEMERR; mret ERR_MEM
  else
    _ ← assert_ (if negb (snd_queuelen q =? 0)
                 then bool_decide (unacked q ≠ []) || bool_decide (unsent q ≠ [])
                 else bool_decide (unacked q = []) && bool_decide (unsent q = []));
    mret ERR_OK.

(** ** [tcp_write]

    The function plans in three phases with local variables only and commits at
    the end, so that a failed allocation can be undone. *)

(** [p + n] for a pointer to data *)
Definition offset_ptr (p : option ptr) (n : Z) : option ptr := (λ '(r, o), (r, o + n)) <$> p.

(** The local variables after phases 1 and 2. *)
Record plan := mk_plan {
  pl_pos : Z;
  pl_tail : bool;            (* [seg] is the last unsent segment, not NULL *)
  pl_oversize : Z;
  pl_oversize_used : Z;
  pl_concat_p : option loc;
  pl_extendlen : Z;
  pl_queuelen : Z;
}.

Definition mss_local (c : pcb_t) : Z :=
  let m := Z.min (mss c) (Z.min (snd_wnd_max (rest c) / 2) 0xffff) in
  if m =? 0 then mss c else m.

(** The last pbuf of a chain. *)
Fixpoint last_pbuf (n : nat) (p : loc) : M (world A) pbuf :=
  pb ← rd p;
  match next pb with
  | None => mret pb
  | Some q => match n with O => fail Diverges | S n' => last_pbuf n' q end
  end.

(** Phase 1: what goes into the room behind the last pbuf. *)
Definition write_oversize (c : pcb_t) (space len queuelen : Z) : plan * Z :=
  let oversize := unsent_oversize (rest c) in
  if 0 <? oversize then
    let used := Z.min space (Z.min oversize len) in
    (mk_plan (u16 (0 + used)) true (u16 (oversize - used)) used None 0 queuelen, u16 (space - used))
  else (mk_plan 0 false oversize 0 None 0 queuelen, space).

(** Phase 2: a new pbuf for the last unsent segment, or a longer reference; [None]
    is [goto memerr]. *)
Definition write_concat (id : Z) (s : tcp_seg) (arg : option ptr) (len apiflags space : Z) (pl : plan) :
    M T (option plan) :=
  if (pl_pos pl <? len) && (0 <? space) && (0 <? seg_len s) then
    let seglen := if space <? len - pl_pos pl then space else u16 (len - pl_pos pl) in
    let pos := u16 (pl_pos pl + seglen) in
    if has apiflags TCP_WRITE_FLAG_COPY then
      r ← tcp_pbuf_prealloc PBUF_RAW seglen space id apiflags true;
      match r with
      | None => mret None
      | Some (q, oversize) =>
          _ ← upd_rest id (λ r, set_unsent (upd_last (λ s,
                set_oversize_left (u16 (oversize_left s + oversize)) s) (unsent r)) r);
          bs ← lift_world (load arg (pl_pos pl) seglen);
          pb ← lift_world (rd q);
          _ ← lift_world (store (payload pb) 0 bs);
          n ← lift_world (pbuf_clen (Some q));
          mret (Some (mk_plan pos true oversize (pl_oversize_used pl) (Some q) 0
                        (u16 (pl_queuelen pl + n))))
      end
    else
      l ← lift_world (deref (seg_p s));
      w ← get;
      pb ← lift_world (last_pbuf (fuel (wld w)) l);
      if bool_decide (type pb = PBUF_ROM) &&
         bool_decide (offset_ptr (payload pb) (Pbuf.len pb) = arg)
      then
        _ ← assert_ (pl_pos pl =? 0);
        mret (Some (mk_plan pos true (pl_oversize pl) (pl_oversize_used pl) None seglen (pl_queuelen pl)))
      else
        r ← lift_world (pbuf_alloc uninit custom_free_function PBUF_RAW seglen PBUF_ROM);
        match r with
        | None => mret None
        | Some q =>
            _ ← lift_world (upd q (set_payload (offset_ptr arg (pl_pos pl))));
            n ← lift_world (pbuf_clen (Some q));
            mret (Some (mk_plan pos true (pl_oversize pl) (pl_oversize_used pl) (Some q) 0
                          (u16 (pl_queuelen pl + n))))
        end
  else mret (Some pl).

(** Phases 1 and 2. *)
Definition write_tail (id : Z) (arg : option ptr) (len apiflags : Z) : M T (option plan) :=
  c ← rd_pcb id;
  let queuelen := snd_queuelen (rest c) in
  match list.last (unsent (rest c)) with
  | Some s =>
      let used := seg_len s + LWIP_TCP_OPT_LENGTH (seg_flags s) in
      _ ← assert_ (used <=? mss_local c);
      _ ← assert_ (unsent_oversize (rest c) =? oversize_left s);
      let '(pl, space) := write_oversize c (u16 (mss_local c - used)) len queuelen in
      _ ← assert_ ((pl_oversize pl =? 0) || (pl_pos pl =? len));
      write_concat id s arg len apiflags space pl
  | None =>
      _ ← assert_ (unsent_oversize (rest c) =? 0);
      mret (Some (mk_plan 0 false 0 0 None 0 queuelen))
  end.

(** One pbuf chain for a new segment: the data copied, or a header pbuf with a
    reference to the data behind it; with the value of [oversize]. *)
Definition write_pbuf (id : Z) (arg : option ptr) (pos seglen mss_local apiflags oversize : Z)
    (first_seg : bool) : M T (option (loc * Z)) :=
  if has apiflags TCP_WRITE_FLAG_COPY then
    r ← tcp_pbuf_prealloc PBUF_TRANSPORT seglen mss_local id apiflags first_seg;
    match r with
    | None => mret None
    | Some (q, oversize) =>
        pb ← lift_world (rd q);
        _ ← assert_ (seglen <=? Pbuf.len pb);
        bs ← lift_world (load arg pos seglen);
        _ ← lift_world (store (payload pb) 0 bs);
        mret (Some (q, oversize))
    end
  else
    _ ← assert_ (oversize =? 0);
    r ← lift_world (pbuf_alloc uninit custom_free_function PBUF_TRANSPORT seglen PBUF_ROM);
    match r with
    | None => mret None
    | Some p2 =>
        _ ← lift_world (upd p2 (set_payload (offset_ptr arg pos)));
        r ← lift_world (pbuf_alloc uninit custom_free_function PBUF_TRANSPORT 0 PBUF_RAM);
        match r with
        | None => _ ← lift_world (pbuf_free custom_free_function (Some p2)); mret None
        | Some q => _ ← lift_world (pbuf_cat (Some q) (Some p2)); mret (Some (q, oversize))
        end
    end.

(** Phase 3: the new segments in [queue]; with the values of [oversize] and
    [queuelen], [None] for [goto memerr].  Every round takes a byte at least. *)
Fixpoint write_segs (n : nat) (id : Z) (arg : option ptr) (len apiflags mss_local pos oversize queuelen : Z)
    (queue : list tcp_seg) : M T (list tcp_seg * option (Z * Z)) :=
  if pos <? len then
    match n with
    | O => fail Diverges
    | S n' =>
        let left := u16 (len - pos) in
        let seglen := if mss_local <? left then mss_local else left in
        r ← write_pbuf id arg pos seglen mss_local apiflags oversize (bool_decide (queue = []));
        match r with
        | None => mret (queue, None)
        | Some (q, oversize) =>
            k ← lift_world (pbuf_clen (Some q));
            let queuelen := u16 (queuelen + k) in
            if (TCP_SND_QUEUELEN <? queuelen) || (TCP_SNDQUEUELEN_OVERFLOW <? queuelen) then
              _ ← lift_world (pbuf_free custom_free_function (Some q));
              mret (queue, None)
            else
              c ← rd_pcb id;
              r ← tcp_create_segment id q 0 (u32 (snd_lbb (rest c) + pos)) 0;
              match r with
              | None => mret (queue, None)
              | Some s =>
                  write_segs n' id arg len apiflags mss_local (u16 (pos + seglen)) oversize queuelen
                    (queue ++ [set_oversize_left oversize s])
              end
        end
    end
  else mret (queue, Some (oversize, queuelen)).

(** The loops that make a chain longer by [k] bytes at its end: [tot_len] of every
    pbuf, then [fill] and [len] at the last. *)
Fixpoint bump_loop (n : nat) (p : loc) (k : Z) (fill : pbuf → M (world A) ()) : M (world A) () :=
  _ ← upd p (λ pb, set_tot_len (u16 (tot_len pb + k)) pb);
  pb ← rd p;
  match next pb with
  | None => _ ← fill pb; upd p (λ pb, set_len (u16 (len pb + k)) pb)
  | Some q => match n with O => fail Diverges | S n' => bump_loop n' q k fill end
  end.

(** The commit of phases 1 and 2 on the last unsent segment. *)
Definition commit_oversize (arg : option ptr) (used : Z) (s : tcp_seg) : M T tcp_seg :=
  if 0 <? used then
    _ ← match seg_p s with
        | Some l => lift_world (w ← get;
            bump_loop (fuel w) l used (λ pb,
              bs ← load arg 0 used; store (payload pb) (len pb) bs))
        | None => mret ()
        end;
    _ ← assert_ (used <=? oversize_left s);
    mret (set_oversize_left (u16 (oversize_left s - used)) (add_seg_len used s))
  else mret s.
Definition commit_concat (pl : plan) (s : tcp_seg) : M T tcp_seg :=
  match pl_concat_p pl with
  | Some q =>
      _ ← lift_world (pbuf_cat (seg_p s) (Some q));
      qb ← lift_world (rd q);
      mret (add_seg_len (tot_len qb) s)
  | None =>
      if 0 <? pl_extendlen pl then
        _ ← assert_ (bool_decide (is_Some (seg_p s)));
        l ← lift_world (deref (seg_p s));
        _ ← lift_world (w ← get; bump_loop (fuel w) l (pl_extendlen pl) (λ _, mret ()));
        mret (add_seg_len (pl_extendlen pl) s)
      else mret s
  end.

(** What is left of [tcp_write] when all phases succeeded. *)
Definition write_commit (id : Z) (arg : option ptr) (len apiflags : Z) (pl : plan)
    (queue : list tcp_seg) (oversize queuelen : Z) : M T () :=
  c ← rd_pcb id;
  tail ← match list.last (unsent (rest c)) with
         | Some s =>
             s ← commit_oversize arg (pl_oversize_used pl) s;
             s ← commit_concat pl s;
             mret [s]
         | None =>
             _ ← assert_ (bool_decide (pl_concat_p pl = None));
             mret []
         end;
  _ ← upd_rest id (set_unsent_oversize oversize);
  let unsent' := removelast (unsent (rest c)) ++ tail ++ queue in
  _ ← upd_rest id (set_unsent unsent');
  _ ← upd_rest id (λ q, set_snd_lbb (u32 (snd_lbb q + len)) q);
  _ ← upd_pcb id (λ c, set_snd_buf (u16 (snd_buf c - len)) c);
  _ ← upd_rest id (set_snd_queuelen queuelen);
  _ ← assert_ ((queuelen =? 0) || bool_decide (unacked (rest c) ≠ []) || bool_decide (unsent' ≠ []));
  match (if bool_decide (queue = []) then if pl_tail pl then head tail else None else list.last queue) with
  | Some s =>
      match tcphdr s with
      | Some h => if has apiflags TCP_WRITE_FLAG_MORE then mret () else TCPH_SET_FLAG (Some h) TCP_PSH
      | None => mret ()
      end
  | None => mret ()
  end.

(** [memerr:] *)
Definition write_memerr (id : Z) (concat_p : option loc) (queue : list tcp_seg) : M T err_t :=
  _ ← or_flags id TF_NAGLEMEMERR;
  _ ← match concat_p with
      | Some q => _ ← lift_world (pbuf_free custom_free_function (Some q)); mret ()
      | None => mret ()
      end;
  _ ← tcp_segs_free queue;
  c ← rd_pcb id;
  _ ← assert_ ((snd_queuelen (rest c) =? 0) || bool_decide (unacked (rest c) ≠ []) ||
               bool_decide (unsent (rest c) ≠ []));
  mret ERR_MEM.

(** [tcp_write(pcb, arg, len, apiflags)] *)
Definition tcp_write (id : Z) (arg : option ptr) (len apiflags : Z) : M T err_t :=
  c ← rd_pcb id;
  _ ← assert_ (bool_decide (is_Some arg));
  err ← tcp_write_checks id len;
  if decide (err = ERR_OK) then
    r ← write_tail id arg len apiflags;
    match r with
    | None => write_memerr id None []
    | Some pl =>
        '(queue, r) ← write_segs (Z.to_nat len) id arg len apiflags (mss_local c) (pl_pos pl)
          (pl_oversize pl) (pl_queuelen pl) [];
        match r with
        | None => write_memerr id (pl_concat_p pl) queue
        | Some (oversize, queuelen) =>
            _ ← write_commit id arg len apiflags pl queue oversize queuelen;
            mret ERR_OK
        end
    end
  else mret err.

(** ** Segments without data *)

(** [tcp_enqueue_flags(pcb, flags)]; alignment is 1, the header always aligned. *)
Definition tcp_enqueue_flags (id flags : Z) : M T err_t :=
  c ← rd_pcb id;
  let q := rest c in
  _ ← assert_ (has flags (Z.lor TCP_SYN TCP_FIN));
  if ((TCP_SND_QUEUELEN <=? snd_queuelen q) || (TCP_SNDQUEUELEN_OVERFLOW <? snd_queuelen q))
     && negb (has flags TCP_FIN)
  then _ ← or_flags id TF_NAGLEMEMERR; mret ERR_MEM
  else
    let optflags := if has flags TCP_SYN then TF_SEG_OPTS_MSS else 0 in
    let optlen := LWIP_TCP_OPT_LENGTH optflags in
    r ← lift_world (pbuf_alloc uninit custom_free_function PBUF_TRANSPORT optlen PBUF_RAM);
    match r with
    | None => _ ← or_flags id TF_NAGLEMEMERR; mret ERR_MEM
    | Some p =>
        pb ← lift_world (rd p);
        _ ← assert_ (optlen <=? len pb);
        r ← tcp_create_segment id p flags (snd_lbb q) optflags;
        match r with
        | None => _ ← or_flags id TF_NAGLEMEMERR; mret ERR_MEM
        | Some s =>
            _ ← assert_ (seg_len s =? 0);
            _ ← upd_rest id (λ q, set_unsent (unsent q ++ [s]) q);
            _ ← upd_rest id (set_unsent_oversize 0);
            _ ← (if has flags TCP_SYN || has flags TCP_FIN
                 then upd_rest id (λ q, set_snd_lbb (u32 (snd_lbb q + 1)) q) else mret ());
            _ ← (if has flags TCP_FIN then or_flags id TF_FIN else mret ());
            k ← lift_world (pbuf_clen (seg_p s));
            _ ← upd_rest id (λ q, set_snd_queuelen (u16 (snd_queuelen q + k)) q);
            c ← rd_pcb id;
            _ ← assert_ ((snd_queuelen (rest c) =? 0) || bool_decide (unacked (rest c) ≠ []) ||
                         bool_decide (unsent (rest c) ≠ []));
            mret ERR_OK
        end
    end.

(** [tcp_send_fin(pcb)] *)
Definition tcp_send_fin (id : Z) : M T err_t :=
  c ← rd_pcb id;
  match list.last (unsent (rest c)) with
  | Some s =>
      fl ← TCPH_FLAGS (tcphdr s);
      if has fl (Z.lor TCP_SYN (Z.lor TCP_FIN TCP_RST)) then tcp_enqueue_flags id TCP_FIN
      else
        _ ← TCPH_SET_FLAG (tcphdr s) TCP_FIN;
        _ ← or_flags id TF_FIN;
        mret ERR_OK
  | None => tcp_enqueue_flags id TCP_FIN
  end.

End Ops.
End TcpOut.
