(* ===== verification/TcpQueue.v ===== *)
(** * TCP segments in memory

    What the output queue needs of memory: the pbufs [tcp_pbuf_prealloc] returns,
    and the header [tcp_create_segment] writes in front of them. *)

From S2P Require Import Prelude CLib Def Mem Memp Alloc Pbuf PbufChain PbufWrite PbufOwn PbufOps PbufSpec PbufRam TcpRaw TcpRawSpec TcpOut.
Import Def.Def Pbuf TcpRaw TcpOut.

(** ** Headers as bytes *)

(** What [tcphdr->seqno] and [TCPH_FLAGS(tcphdr)] read. *)
Definition seqno_of (h : bytes) : Z := lwip_htonl (le_word (take 4 (drop 4 h))).
Definition flags_of (h : bytes) : Z := Z.land (lwip_htons (le_word (take 2 (drop 12 h)))) TCP_FLAGS.

(** The header [tcp_create_segment] writes; [ack] and [wnd] are the bytes it leaves. *)
Definition tcp_header (sport dport seqno off_flags : Z) (ack wnd : bytes) : bytes :=
  le_bytes 2 (lwip_htons sport) ++ le_bytes 2 (lwip_htons dport) ++ le_bytes 4 (lwip_htonl seqno) ++
  ack ++ le_bytes 2 (lwip_htons off_flags) ++ wnd ++ le_bytes 2 0.

Lemma tcp_header_length sport dport seqno off_flags ack wnd : length ack = 4%nat → length wnd = 4%nat →
  length (tcp_header sport dport seqno off_flags ack wnd) = 20%nat.
Proof. intros Ha Hw. unfold tcp_header. by rewrite !length_app, Ha, Hw. Qed.

Lemma htonl_involutive n : is_u32 n → lwip_htonl (lwip_htonl n) = n.
Proof.
  intros Hn. assert (∃ a b c d, n = a + 256 * (b + 256 * (c + 256 * d)) ∧
    is_u8 a ∧ is_u8 b ∧ is_u8 c ∧ is_u8 d) as (a & b & c & d & -> & Ha & Hb & Hc & Hd).
  { exists (n mod 256), (n / 256 mod 256), (n / 65536 mod 256), (n / 16777216). split_and!; clia. }
  rewrite htonl_bytes by done. by apply htonl_bytes.
Qed.

Lemma tcp_header_seqno sport dport seqno off_flags ack wnd rest : is_u32 seqno →
  seqno_of (tcp_header sport dport seqno off_flags ack wnd ++ rest) = seqno.
Proof.
  intros Hs. unfold seqno_of.
  change (take 4 _) with (le_bytes 4 (lwip_htonl seqno)).
  rewrite le_word_bytes by apply htonl_range. by apply htonl_involutive.
Qed.

Lemma tcp_header_flags sport dport seqno off_flags ack wnd rest : length ack = 4%nat → is_u16 off_flags →
  flags_of (tcp_header sport dport seqno off_flags ack wnd ++ rest) = Z.land off_flags TCP_FLAGS.
Proof.
  intros Ha Ho. unfold flags_of. destruct ack as [|a0 [|a1 [|a2 [|a3 [|]]]]]; try done.
  change (take 2 _) with (le_bytes 2 (lwip_htons off_flags)).
  rewrite le_word_bytes by apply htons_range. by rewrite htons_involutive.
Qed.

(** [TCPH_SET_FLAG(tcphdr, f)] on the bytes of a header. *)
Definition set_flag (f : Z) (h : bytes) : bytes :=
  splice 12 (le_bytes 2 (Z.lor (le_word (take 2 (drop 12 h))) (lwip_htons f))) h.

Lemma lor_u16 x y : is_u16 x → is_u16 y → is_u16 (Z.lor x y).
Proof.
  unfold is_u16. intros Hx Hy. assert (0 ≤ Z.lor x y) as H0 by (apply Z.lor_nonneg; lia).
  split; [done|]. destruct (Z.eq_dec (Z.lor x y) 0) as [->|Hz]; [done|].
  apply Z.log2_lt_pow2; [lia|]. rewrite Z.log2_lor by lia.
  apply Z.max_lub_lt; (destruct (Z.eq_dec x 0) as [->|], (Z.eq_dec y 0) as [->|]; [done|..]); simpl; try lia;
    apply Z.log2_lt_pow2; lia.
Qed.

Lemma htons_lor x y : is_u16 x → is_u16 y → lwip_htons (Z.lor x y) = Z.lor (lwip_htons x) (lwip_htons y).
Proof.
  intros Hx Hy. unfold lwip_htons, u16, PP_HTONS. rewrite <- !Z.land_ones by lia.
  apply Z.bits_inj'. intros n Hn. rewrite ?Z.lor_spec, ?Z.land_spec, ?Z.lor_spec.
  rewrite ?Z.land_lor_distr_l, ?Z.shiftl_lor, ?Z.shiftr_lor, ?Z.lor_spec.
  repeat match goal with |- context [Z.testbit ?a n] => destruct (Z.testbit a n) end; done.
Qed.

Lemma split_flags (h : bytes) : (14 ≤ length h)%nat →
  ∃ a x y b, h = a ++ [x; y] ++ b ∧ length a = 12%nat.
Proof.
  intros Hh. exists (take 12 h). destruct (drop 12 h) as [|x [|y b]] eqn:E.
  - apply (f_equal length) in E. rewrite length_drop in E. simpl in E. lia.
  - apply (f_equal length) in E. rewrite length_drop in E. simpl in E. lia.
  - exists x, y, b. split; [|rewrite length_take; lia]. rewrite <- (take_drop 12 h) at 1. by rewrite E.
Qed.

Lemma flags_word (a b : bytes) x y : length a = 12%nat → take 2 (drop 12 (a ++ [x; y] ++ b)) = [x; y].
Proof. intros Ha. by rewrite drop_app_length' by done. Qed.

Lemma set_flag_eq f (a b : bytes) x y : length a = 12%nat →
  set_flag f (a ++ [x; y] ++ b) = a ++ le_bytes 2 (Z.lor (le_word [x; y]) (lwip_htons f)) ++ b.
Proof.
  intros Ha. unfold set_flag. rewrite flags_word by done.
  replace 12%nat with (length a + 0)%nat by lia. rewrite splice_app_l. reflexivity.
Qed.

(** The header [h'] is [h] with the flag [f]. *)
Record flag_set (f : Z) (h h' : bytes) : Prop := mk_flag_set {
  fs_length : length h' = length h;
  fs_seqno : seqno_of h' = seqno_of h;
  fs_flags : flags_of h' = Z.lor (flags_of h) f;
  fs_rest k : (14 ≤ k)%nat → drop k h' = drop k h;
  fs_wf : wf_bytes (take 2 (drop 12 h'));
}.

Lemma set_flag_ok f h : 0 ≤ f < 64 → (14 ≤ length h)%nat → wf_bytes (take 2 (drop 12 h)) →
  flag_set f h (set_flag f h).
Proof.
  intros Hf Hl Hw. destruct (split_flags h Hl) as (a & x & y & b & -> & Ha).
  rewrite set_flag_eq by done. rewrite flags_word in Hw by done.
  pose proof (le_word_range _ Hw) as Hr. change (256 ^ Z.of_nat (length [x; y])) with (2 ^ 16) in Hr.
  set (v := Z.lor (le_word [x; y]) (lwip_htons f)).
  assert (∃ x' y', le_bytes 2 v = [x'; y']) as (x' & y' & E) by (simpl; eauto).
  assert (is_u16 v) as Hv by (apply lor_u16; [done|apply htons_range]).
  constructor.
  - by rewrite !length_app, length_le_bytes.
  - unfold seqno_of. do 2 f_equal. rewrite !drop_app_le, !take_app_le by (rewrite ?length_drop; lia). done.
  - unfold flags_of. rewrite E, !flags_word by done. rewrite <- E, le_word_bytes by done. unfold v.
    rewrite htons_lor by (done || apply htons_range). rewrite htons_involutive by (unfold is_u16; lia).
    rewrite Z.land_lor_distr_l. f_equal. change TCP_FLAGS with (Z.ones 6). rewrite Z.land_ones by lia. by apply Z.mod_small.
  - intros k Hk. rewrite E, !(assoc_L app), !drop_app_ge by (rewrite !length_app, Ha; simpl; lia).
    by rewrite !length_app.
  - rewrite E, flags_word, <- E by done. apply le_bytes_wf.
Qed.

(** [PSH] does not change whether [SYN] or [FIN] is set. *)
Lemma psh_flags h h' : flag_set TCP_PSH h h' →
  has (flags_of h') (Z.lor TCP_FIN TCP_SYN) = has (flags_of h) (Z.lor TCP_FIN TCP_SYN).
Proof. intros H. unfold has. by rewrite (fs_flags _ _ _ H), Z.land_lor_distr_l, Z.lor_0_r. Qed.

Section Stack.
Context {A : Type} `{HA : Alloc A} {elt_size : memp_t → Z} `{HL : !AllocLaws A elt_size}.
Implicit Types (w : world A) (L : gmap loc Z) (X N : gset loc) (l : loc) (pb : pbuf).
Implicit Types (s : stack A tcp_snd) (c : tcp_pcb tcp_snd).

Lemma bind_lift {B C} (m : M (world A) B) (k : B → M (stack A tcp_snd) C) w P x w' :
  m w = Ret (x, w') → (lift_world m ≫= k) (mk_stack w P) = k x (mk_stack w' P).
Proof. intros Hm. apply bind_Ret. unfold lift_world. simpl. by rewrite Hm. Qed.

Lemma bind_pcb {B} w (P : gmap Z (tcp_pcb tcp_snd)) id c (k : tcp_pcb tcp_snd → M (stack A tcp_snd) B) :
  P !! id = Some c → (rd_pcb id ≫= k) (mk_stack w P) = k c (mk_stack w P).
Proof. intros. by apply bind_rd_pcb. Qed.

(** ** Segments *)

Lemma header_splices (pre h tl a b c d e : bytes) : length pre = 36%nat → length h = 20%nat →
  length a = 2%nat → length b = 2%nat → length c = 4%nat → length d = 2%nat → length e = 2%nat →
  splice 54 e (splice 48 d (splice 40 c (splice 38 b (splice 36 a (pre ++ h ++ tl))))) =
  pre ++ (a ++ b ++ c ++ take 4 (drop 8 h) ++ d ++ take 4 (drop 14 h) ++ e) ++ tl.
Proof.
  intros Hp Hh Ha Hb Hc Hd He.
  do 21 (destruct h as [|? h]; try done). clear Hh.
  do 3 (destruct a as [|? a]; try done). do 3 (destruct b as [|? b]; try done).
  do 5 (destruct c as [|? c]; try done). do 3 (destruct d as [|? d]; try done).
  do 3 (destruct e as [|? e]; try done).
  replace 54%nat with (length pre + 18)%nat by lia. replace 48%nat with (length pre + 12)%nat by lia.
  replace 40%nat with (length pre + 4)%nat by lia. replace 38%nat with (length pre + 2)%nat by lia.
  replace 36%nat with (length pre + 0)%nat by lia.
  by rewrite !splice_app_l.
Qed.

Lemma split_header (bs : bytes) : (56 ≤ length bs)%nat →
  ∃ pre h tl, bs = pre ++ h ++ tl ∧ length pre = 36%nat ∧ length h = 20%nat ∧
    take 36 bs = pre ∧ drop 56 bs = tl.
Proof.
  intros Hl. exists (take 36 bs), (take 20 (drop 36 bs)), (drop 56 bs). split_and!; try done.
  - rewrite <- (take_drop 36 bs) at 1. f_equal. rewrite <- (take_drop 20 (drop 36 bs)) at 1. f_equal.
    by rewrite drop_drop.
  - rewrite length_take. lia.
  - rewrite length_take, length_drop. lia.
Qed.

(** The stores of [tcp_create_segment] behind the room for the header. *)
Definition fill_header (h : option ptr) (sport dport seqno off_flags : Z) : M (stack A tcp_snd) () :=
  _ ← hdr_put h 0 (le_bytes 2 (lwip_htons sport));
  _ ← hdr_put h 2 (le_bytes 2 (lwip_htons dport));
  _ ← hdr_put h 4 (le_bytes 4 (lwip_htonl seqno));
  _ ← hdr_put h 12 (le_bytes 2 (lwip_htons off_flags));
  hdr_put h 18 (le_bytes 2 0).

Lemma hdr_put_ok w P q bs off src : q ∈ live w → (56 ≤ length bs)%nat → 0 ≤ off →
  off + Z.of_nat (length src) ≤ 20 →
  hdr_put (Some (Own q, 36)) off src (mk_stack (set_data <[Own q := bs]> w) P) =
  Ret ((), mk_stack (set_data <[Own q := splice (Z.to_nat (36 + off)) src bs]> w) P).
Proof.
  intros Hl Hbs H0 Hs. unfold hdr_put, lift_world. simpl wld. erewrite store_own.
  - by rewrite set_data_twice.
  - done.
  - apply lookup_insert_eq.
  - lia.
  - lia.
Qed.

Lemma fill_header_ok w P q bs sport dport seqno off_flags : q ∈ live w → data w !! Own q = Some bs →
  (56 ≤ length bs)%nat →
  ∃ ack wnd, length ack = 4%nat ∧ length wnd = 4%nat ∧
    fill_header (Some (Own q, 36)) sport dport seqno off_flags (mk_stack w P) =
    Ret ((), mk_stack (set_data <[Own q := take 36 bs ++ tcp_header sport dport seqno off_flags ack wnd ++
                                          drop 56 bs]> w) P).
Proof.
  intros Hl Hbs Hlen. destruct (split_header bs Hlen) as (pre & h & tl & E & Hp & Hh & Et & Ed).
  exists (take 4 (drop 8 h)), (take 4 (drop 14 h)).
  split; [rewrite length_take, length_drop; lia|]. split; [rewrite length_take, length_drop; lia|].
  assert (w = set_data <[Own q := bs]> w) as Ew by (unfold set_data; rewrite insert_id by done; by destruct w).
  rewrite Ew at 1. unfold fill_header.
  do 4 (erewrite bind_Ret by (apply hdr_put_ok; [done|repeat (apply splice_length_ge; [simpl; lia|]); done|done|done])).
  rewrite hdr_put_ok; [|done|repeat (apply splice_length_ge; [simpl; lia|]); done|done|done].
  do 5 f_equal. rewrite Et, Ed, E. by apply header_splices.
Qed.

End Stack.

Section Segment.
Context {A : Type} `{HA : Alloc A} {elt_size : memp_t → Z} `{HL : !AllocLaws A elt_size}.
Context (custom_free_function : loc → M (world A) ()).
Implicit Types (w : world A) (L : gmap loc Z) (X N : gset loc) (l : loc) (pb : pbuf).
Implicit Types (s : stack A tcp_snd) (c : tcp_pcb tcp_snd).

Lemma optlen_cases optflags : LWIP_TCP_OPT_LENGTH optflags = 0 ∨ LWIP_TCP_OPT_LENGTH optflags = 4.
Proof. unfold LWIP_TCP_OPT_LENGTH. destruct (has _ _); auto. Qed.

Definition off_flags (optflags flags : Z) : Z :=
  Z.lor (u16 (Z.shiftl (5 + LWIP_TCP_OPT_LENGTH optflags / 4) 12)) flags.

(** [tcp_create_segment] on a new pbuf with room for the headers: the header in
    front of the bytes, or no segment and the pbuf is gone. *)
Lemma tcp_create_segment_ok w0 L0 w P L X N id c q n bs flags seqno optflags :
  grown w0 L0 w L X N → P !! id = Some c → is_ram w X q 56 n bs →
  LWIP_TCP_OPT_LENGTH optflags ≤ n ≤ 60000 →
  ∃ r w' L', tcp_create_segment custom_free_function id q flags seqno optflags (mk_stack w P) =
      Ret (r, mk_stack w' P) ∧
    match r with
    | None => grown w0 L0 w' L' (X ∖ {[q]}) N
    | Some s => ∃ node ack wnd,
        s = mk_seg node (Some q) (n - LWIP_TCP_OPT_LENGTH optflags) 0 optflags (Some (Own q, 36)) ∧
        (POOL MEMP_TCP_SEG, node) ∉ N ∧ L0 !! (POOL MEMP_TCP_SEG, node) = None ∧
        grown w0 L0 w' L' X ({[(POOL MEMP_TCP_SEG, node)]} ∪ N) ∧
        length ack = 4%nat ∧ length wnd = 4%nat ∧
        is_ram w' X q 36 (n + 20) (take 36 bs ++
          tcp_header (local_port (rest c)) (remote_port (rest c)) seqno (off_flags optflags flags) ack wnd ++
          drop 56 bs)
    end ∧ (∀ l, l ≠ q → pbs w' !! l = pbs w !! l) ∧ (∀ r, r ≠ Own q → data w' !! r = data w !! r).
Proof.
  intros Hg Hc [Hin Hpb Hbs Hrg] Hn. unfold tcp_create_segment. cbv zeta.
  pose proof (optlen_cases optflags) as Hopt.
  destruct (pool_seg_ok w0 L0 w L X N Hg)
    as [(w1 & Hrun & Hg1 & Ep1 & Ed1)|(w1 & x & L1 & Hrun & Hg1 & HxN & HxL & Ep1 & Ed1)];
    rewrite (bind_lift _ _ _ _ _ _ Hrun).
  - destruct (grown_pbuf_free custom_free_function _ _ _ _ _ _ q (ram_pbuf q 56 n) Hg1)
      as (w2 & L2 & Hrun2 & Hg2 & Ed2 & Ep2); [done|by rewrite Ep1|done|done|].
    rewrite (bind_lift _ _ _ _ _ _ Hrun2). exists None, w2, L2. split; [done|]. split; [done|].
    split; [intros l Hl; by rewrite Ep2, Ep1|intros r _; by rewrite Ed2, Ed1].
  - assert (q ∈ live w1) as Hl by (rewrite (gr_live _ _ _ _ _ _ Hg1); set_solver).
    rewrite <- Ep1 in Hpb. rewrite <- Ed1 in Hbs.
    rewrite (bind_lift _ _ _ _ _ _ (rd_ok w1 q _ Hl Hpb)).
    rewrite bind_assert by (simpl; lia). unfold pbuf_header.
    assert (pbuf_header_impl (Some q) TCP_HLEN false w1 =
      Ret (false, upd_pbs q (moved TCP_HLEN (Own q) 56 (ram_pbuf q 56 n)) w1)) as Hhdr.
    { rewrite (header_impl_ok w1 q (ram_pbuf q 56 n) (Own q) 56) by
        (done || (simpl; change TCP_HLEN with 20; lia) || (simpl; by exists 56)). done. }
    rewrite (bind_lift _ _ _ _ _ _ Hhdr).
    cbv beta iota. set (pb2 := moved _ _ _ _). set (w2 := upd_pbs q pb2 w1).
    assert (pbs w2 !! q = Some pb2) as Hpb2 by (simpl; apply lookup_insert_eq).
    rewrite (bind_lift _ _ _ _ _ _ (rd_ok w2 q pb2 Hl Hpb2)). rewrite (bind_pcb _ _ _ _ _ Hc).
    destruct (fill_header_ok w2 P q bs (local_port (rest c)) (remote_port (rest c)) seqno
      (off_flags optflags flags)) as (ack & wnd & Ha & Hw & Hfill); [done|done|lia|].
    set (bs' := _ ++ tcp_header _ _ _ _ _ _ ++ _) in Hfill.
    assert (length bs' = length bs) as Hlen.
    { unfold bs'. rewrite !length_app, tcp_header_length, length_take, length_drop by done. lia. }
    eexists (Some _), _, L1. split.
    { transitivity ((fill_header (Some (Own q, 36)) (local_port (rest c)) (remote_port (rest c)) seqno
        (off_flags optflags flags) ≫= λ _, mret (Some (mk_seg x (Some q) (n - LWIP_TCP_OPT_LENGTH optflags) 0 optflags
          (Some (Own q, 36))))) (mk_stack w2 P)); [|by rewrite (bind_Ret _ _ _ _ _ Hfill)].
      unfold fill_header. rewrite u16_id by (unfold is_u16; simpl; lia).
      unfold mbind, M_bind. by repeat (destruct (hdr_put _ _ _ _) as [[? ?]|]; [|done]). }
    split; [|split].
    + exists x, ack, wnd. split; [done|]. split; [done|]. split.
      { apply (gr_new _ _ _ _ _ _ Hg1). set_solver. }
      split; [|split_and!; [done|done|]].
      * apply (grown_data _ _ w2 _ _ _ _ bs); try done. by eapply grown_upd.
      * constructor; [done| |apply lookup_insert_eq|unfold bs' in Hlen; rewrite Hlen; lia].
        simpl. rewrite lookup_insert_eq. unfold pb2, moved, ram_pbuf. simpl. do 3 f_equal; lia.
    + intros l Hne. simpl. rewrite lookup_insert_ne by done. by rewrite Ep1.
    + intros r Hne. simpl. rewrite lookup_insert_ne by done. by rewrite Ed1.
Qed.

End Segment.

Section Prealloc.
Context {A : Type} `{HA : Alloc A} {elt_size : memp_t → Z} `{HL : !AllocLaws A elt_size}.
Context (uninit : world A → loc → Z → bytes) (custom_free_function : loc → M (world A) ()).
Hypothesis uninit_length : ∀ w l n, 0 ≤ n → Z.of_nat (length (uninit w l n)) = n.
Hypothesis pool_size : elt_size MEMP_PBUF_POOL = SIZEOF_STRUCT_PBUF + PBUF_POOL_BUFSIZE_ALIGNED.
Hypothesis ref_size : elt_size MEMP_PBUF = SIZEOF_STRUCT_PBUF.
Implicit Types (w : world A) (L : gmap loc Z) (X N : gset loc) (l : loc) (pb : pbuf).
Implicit Types (s : stack A tcp_snd) (c : tcp_pcb tcp_snd).

(** [tcp_pbuf_prealloc]: the pbuf holds [length] bytes and [oversize] more fit. *)
Lemma tcp_pbuf_prealloc_ok w0 L0 w P L X N id c layer length max_length apiflags first_seg :
  grown w0 L0 w L X N → P !! id = Some c → 0 ≤ length ≤ max_length → max_length ≤ 60000 →
  ∃ r w', tcp_pbuf_prealloc uninit custom_free_function layer length max_length id apiflags first_seg (mk_stack w P) =
      Ret (r, mk_stack w' P) ∧
    match r with
    | None => grown w0 L0 w' L X N
    | Some (q, oversize) => ∃ L' bs, grown w0 L0 w' L' (X ∪ {[q]}) N ∧ q ∉ X ∧
        is_ram w' (X ∪ {[q]}) q (header_offset layer) length bs ∧
        0 ≤ oversize ∧ length + oversize ≤ max_length ∧
        header_offset layer + length + oversize ≤ Z.of_nat (List.length bs)
    end ∧ (∀ l, l ∈ live w → pbs w' !! l = pbs w !! l) ∧
    (∀ r, valid r w = true → data w' !! r = data w !! r).
Proof.
  intros Hg Hc Hn Hm. unfold tcp_pbuf_prealloc. rewrite (bind_pcb _ _ _ _ _ Hc). cbv zeta.
  match goal with |- context [pbuf_alloc _ _ _ ?e _] => set (alloc := e) end.
  assert (length ≤ alloc ≤ max_length) as Ha.
  { unfold alloc. destruct (Z.ltb_spec length max_length); [|lia]. destruct (_ || _); [|lia].
    rewrite align_size by (unfold is_u32; change TCP_OVERSIZE with 536; lia). change TCP_OVERSIZE with 536.
    rewrite u16_id by (unfold is_u16; lia). lia. }
  clearbody alloc.
  destruct (alloc_ram_ok uninit custom_free_function uninit_length pool_size ref_size w0 L0 w L X N layer alloc Hg) as (r & w' & Hrun & Hr & Hp & Hd); [lia|].
  rewrite (bind_lift _ _ _ _ _ _ Hrun). destruct r as [q|].
  2:{ exists None, w'. done. }
  destruct Hr as (L' & bs & Hg' & Hq & [Hin Hpb Hbs Hrg]).
  assert (q ∈ live w') as Hl by (rewrite (gr_live _ _ _ _ _ _ Hg'); set_solver).
  cbv beta iota. rewrite (bind_lift _ _ _ _ _ _ (rd_ok w' q _ Hl Hpb)). rewrite bind_assert by done.
  rewrite (bind_lift _ _ _ _ _ _ (upd_ok w' q _ _ Hl Hpb)).
  eexists (Some (q, _)), _. split; [reflexivity|]. simpl. rewrite u16_id by (unfold is_u16; lia).
  split; [|split].
  - exists L', bs. split; [by eapply grown_upd|]. split; [done|]. split; [|lia].
    constructor; simpl; [done|by rewrite lookup_insert_eq|done|lia].
  - intros l Hl'. rewrite lookup_insert_ne; [auto|]. intros <-.
    rewrite (gr_live _ _ _ _ _ _ Hg) in Hl'.
    pose proof (gr_fresh _ _ _ _ _ _ Hg'). set_solver.
  - auto.
Qed.

End Prealloc.
