(* ===== verification/TcpWrite.v ===== *)
(** * [tcp_write] appends

    [tcp_write] with the copy flag either appends the bytes to the output queue of
    the connection, in segments whose headers carry consecutive sequence numbers,
    or returns an error with the queue and all memory as they were. *)

From S2P Require Import Prelude CLib Def Mem Memp Alloc Pbuf PbufChain PbufWrite PbufOwn PbufOps PbufSpec PbufRam TcpRaw TcpRawSpec TcpOut TcpQueue.
Import Def.Def Pbuf TcpRaw TcpOut.

(** ** Queues *)

(** A segment on the queue with its pbufs and their bytes.  The first [u_low] bytes
    are headers of lower layers, when the segment was sent before. *)
Record useg := mk_useg {
  u_seg : tcp_seg;
  u_low : Z;
  u_cs : list (loc * pbuf);
  u_ds : list bytes;
}.

Definition u_hlen (u : useg) : Z := TCP_HLEN + LWIP_TCP_OPT_LENGTH (seg_flags (u_seg u)).
Definition u_bytes (u : useg) : bytes := drop (Z.to_nat (u_low u)) (concat (u_ds u)).
Definition u_data (u : useg) : bytes := drop (Z.to_nat (u_hlen u)) (u_bytes u).
Definition u_node (u : useg) : loc := (POOL MEMP_TCP_SEG, seg_node (u_seg u)).

(** [TCP_TCPLEN(seg)] *)
Definition u_tcplen (u : useg) : Z :=
  seg_len (u_seg u) + if has (flags_of (u_bytes u)) (Z.lor TCP_FIN TCP_SYN) then 1 else 0.

Definition queue_data (us : list useg) : bytes := concat (u_data <$> us).
Definition queue_locs (us : list useg) : list loc := concat ((λ u, (u_cs u).*1) <$> us).
Definition queue_nodes (us : list useg) : list loc := u_node <$> us.
Definition queue_clen (us : list useg) : Z := Z.of_nat (length (queue_locs us)).

(** The sequence numbers in the headers run from [a] to [b]. *)
Fixpoint seq_run (a : Z) (us : list useg) (b : Z) : Prop :=
  match us with
  | [] => a = b
  | u :: us' => seqno_of (u_bytes u) = a ∧ seq_run (u32 (a + u_tcplen u)) us' b
  end.

Lemma seq_run_app a us vs b c : seq_run a us b → seq_run b vs c → seq_run a (us ++ vs) c.
Proof.
  revert a. induction us as [|u us IH]; intros a; simpl; [by intros ->|]. intros [? ?] ?. auto.
Qed.

Lemma queue_data_app us vs : queue_data (us ++ vs) = queue_data us ++ queue_data vs.
Proof. unfold queue_data. by rewrite fmap_app, concat_app. Qed.
Lemma queue_locs_app us vs : queue_locs (us ++ vs) = queue_locs us ++ queue_locs vs.
Proof. unfold queue_locs. by rewrite fmap_app, concat_app. Qed.
Lemma queue_locs_elem us l : l ∈ queue_locs us ↔ ∃ u, u ∈ us ∧ l ∈ (u_cs u).*1.
Proof.
  induction us as [|u us IH].
  - split; [by intros ?%elem_of_nil|by intros (? & ?%elem_of_nil & _)].
  - change (queue_locs (u :: us)) with ((u_cs u).*1 ++ queue_locs us). rewrite elem_of_app, IH.
    setoid_rewrite elem_of_cons. naive_solver.
Qed.
Lemma queue_clen_app us vs : queue_clen (us ++ vs) = queue_clen us + queue_clen vs.
Proof. unfold queue_clen. rewrite queue_locs_app, length_app. lia. Qed.

Section Queue.
Context {A : Type} `{HA : Alloc A} {elt_size : memp_t → Z} `{HL : !AllocLaws A elt_size}.
Implicit Types (w : world A) (L : gmap loc Z) (X N : gset loc) (l : loc) (pb : pbuf) (u : useg).

(** A pbuf of the heap with its bytes in its own block. *)
Definition copied (c : loc * pbuf) : Prop :=
  c.1.1 = HEAP ∧ type c.2 = PBUF_RAM ∧ ∃ o, payload c.2 = Some (Own c.1, o) ∧ 0 ≤ o.

Record seg_ok w u : Prop := mk_seg_ok {
  so_packet : packet w (seg_p (u_seg u)) (u_cs u) (u_ds u);
  so_copied : Forall copied (u_cs u);
  so_low : 0 ≤ u_low u ≤ PBUF_IP_HLEN + PBUF_LINK_HLEN;
  so_hdr : ∃ l pb cs o, u_cs u = (l, pb) :: cs ∧ payload pb = Some (Own l, o) ∧
    tcphdr (u_seg u) = Some (Own l, o + u_low u) ∧ u_low u + u_hlen u ≤ len pb;
  so_len : seg_len (u_seg u) = lens (u_cs u) - u_low u - u_hlen u;
  so_wf : wf_bytes (take 2 (drop 12 (u_bytes u)));
}.

(** [n] more bytes fit behind the last pbuf. *)
Definition room w u (n : Z) : Prop :=
  0 ≤ n ∧ ∃ cs l pb o bs, u_cs u = cs ++ [(l, pb)] ∧ payload pb = Some (Own l, o) ∧
    data w !! Own l = Some bs ∧ o + len pb + n ≤ Z.of_nat (length bs).

(** The output queue of a connection; [na] pbufs are on the queue of segments that
    are not acknowledged. *)
Record queue_ok w L (c : tcp_pcb tcp_snd) (us : list useg) (na : Z) : Prop := mk_queue_ok {
  qo_unsent : unsent (rest c) = u_seg <$> us;
  qo_segs : Forall (seg_ok w) us;
  qo_locs : NoDup (queue_locs us);
  qo_nodes : NoDup (queue_nodes us);
  qo_held l : l ∈ queue_nodes us → is_Some (L !! l);
  qo_seq : ∃ a, seq_run a us (snd_lbb (rest c));
  qo_unacked : 0 ≤ na ∧ (unacked (rest c) = [] ↔ na = 0);
  qo_queuelen : snd_queuelen (rest c) = na + queue_clen us;
  qo_room : match list.last us with
    | None => unsent_oversize (rest c) = 0
    | Some u => room w u (unsent_oversize (rest c)) ∧
        seg_len (u_seg u) + LWIP_TCP_OPT_LENGTH (seg_flags (u_seg u)) + unsent_oversize (rest c) ≤ mss_local c ∧
        oversize_left (u_seg u) = unsent_oversize (rest c)
    end;
  qo_mss : 1 ≤ mss c ≤ TCP_MSS ∧ 0 ≤ snd_wnd_max (rest c);
  qo_buf : is_u16 (snd_buf c);
  qo_lbb : is_u32 (snd_lbb (rest c));
}.

Lemma mss_local_range c : 1 ≤ mss c ≤ TCP_MSS → 0 ≤ snd_wnd_max (rest c) →
  1 ≤ mss_local c ≤ mss c.
Proof.
  intros Hm Hw. unfold mss_local. assert (0 ≤ snd_wnd_max (rest c) / 2) by (apply Z.div_pos; lia).
  destruct (Z.eqb_spec (Z.min (mss c) (Z.min (snd_wnd_max (rest c) / 2) 0xffff)) 0); lia.
Qed.

(** ** New segments *)

(** A segment made of one pbuf that is not on a queue yet. *)
Record new_seg w X N u : Prop := mk_new_seg {
  ns_eq : ∃ node q n ol, u_seg u = mk_seg node (Some q) n ol 0 (Some (Own q, 36)) ∧
    u_cs u = [(q, ram_pbuf q 36 (n + 20))] ∧ 0 ≤ n ∧ n + 20 < 2 ^ 16 ∧
    ∃ bs, is_ram w X q 36 (n + 20) bs ∧ u_ds u = [take (Z.to_nat (n + 20)) (drop 36 bs)];
  ns_low : u_low u = 0;
  ns_node : u_node u ∈ N;
  ns_wf : wf_bytes (take 2 (drop 12 (u_bytes u)));
}.

Lemma new_seg_ok w0 L0 w L X N u : grown w0 L0 w L X N → new_seg w X N u → seg_ok w u.
Proof.
  intros Hg [(node & q & n & ol & Eu & Ec & Hn & Hn2 & bs & Hr & Ed) Hlow _ Hwf].
  pose proof (ram_live _ _ _ _ _ _ _ _ _ _ Hg Hr) as Hl. pose proof Hr as [Hin Hpb Hbs Hrg].
  constructor; [| | | | |done].
  - rewrite Eu, Ec, Ed. simpl seg_p. constructor.
    + simpl. by split_and!.
    + simpl. unfold is_u16. split_and!; try done; lia.
    + apply list.Forall2_cons. split; [|constructor]. cbn [snd]. simpl.
      by rewrite (load_own w q 36 0 (n + 20) bs) by (done || lia).
  - rewrite Ec. apply list.Forall_singleton. split_and!; [by apply (gr_heap _ _ _ _ _ _ Hg)|done|].
    exists 36. done.
  - by rewrite Hlow.
  - exists q, (ram_pbuf q 36 (n + 20)), [], 36. rewrite Ec, Eu, Hlow. split_and!; try done.
    unfold u_hlen. rewrite Eu. simpl. change (LWIP_TCP_OPT_LENGTH 0) with 0. change TCP_HLEN with 20. lia.
  - unfold u_hlen. rewrite Ec, Eu, Hlow. simpl. change (LWIP_TCP_OPT_LENGTH 0) with 0.
    change TCP_HLEN with 20. lia.
Qed.

Lemma new_seg_locs w X N u : new_seg w X N u → ∃ q, (u_cs u).*1 = [q] ∧ q ∈ X.
Proof. intros [(node & q & n & ol & _ & -> & _ & _ & bs & Hr & _) _ _ _]. exists q. split; [done|apply Hr]. Qed.

Lemma new_seg_keeps w w' X X' N N' u : keeps w w' → (∀ l, l ∈ X → l ∈ live w) → X ⊆ X' → N ⊆ N' →
  new_seg w X N u → new_seg w' X' N' u.
Proof.
  intros Hk Hx HX HN [(node & q & n & ol & Eu & Ec & Hn & Hn2 & bs & Hr & Ed) Hlow Hnd Hwf].
  constructor; [|done|by apply HN|done]. exists node, q, n, ol. split_and!; try done. exists bs. split; [|done].
  eapply keeps_ram; [exact Hk| | |exact Hr]; [apply Hx, Hr|apply HX, Hr].
Qed.

End Queue.

Section Free.
Context {A : Type} `{HA : Alloc A} {elt_size : memp_t → Z} `{HL : !AllocLaws A elt_size}.
Context (custom_free_function : loc → M (world A) ()).
Implicit Types (w : world A) (L : gmap loc Z) (X N : gset loc) (l : loc) (u : useg).

(** New segments go back with their pbufs. *)
Lemma tcp_seg_free_ok w0 L0 w P L X N u : grown w0 L0 w L X N → new_seg w X N u →
  ∃ w' L', tcp_seg_free custom_free_function (u_seg u) (mk_stack w P) = Ret ((), mk_stack w' P) ∧
    grown w0 L0 w' L' (X ∖ list_to_set (u_cs u).*1) (N ∖ {[u_node u]}) ∧
    data w' = data w ∧ ∀ l, l ∉ (u_cs u).*1 → pbs w' !! l = pbs w !! l.
Proof.
  intros Hg [(node & q & n & ol & Eu & Ec & _ & _ & bs & Hr & _) _ Hnd _].
  destruct (grown_pbuf_free custom_free_function _ _ _ _ _ _ q (ram_pbuf q 36 (n + 20)) Hg)
    as (w1 & L1 & Hrun & Hg1 & Ed & Ep); [apply Hr|apply Hr|done|done|].
  destruct (pool_seg_free_ok _ _ _ _ _ _ node Hg1) as (w2 & L2 & Hrun2 & Hg2 & Ep2 & Ed2).
  { unfold u_node in Hnd. by rewrite Eu in Hnd. }
  exists w2, L2. rewrite Eu, Ec. unfold u_node. rewrite Eu. unfold tcp_seg_free. simpl seg_p. cbv beta iota.
  split.
  - unfold mbind at 1, M_bind at 1. rewrite (bind_lift _ _ _ _ _ _ Hrun). cbn.
    unfold lift_world. simpl. by rewrite Hrun2.
  - split; [|split].
    + simpl. by replace ({[q]} ∪ ∅ : gset loc) with ({[q]} : gset loc) by set_solver.
    + congruence.
    + intros l Hl. rewrite Ep2. apply Ep. intros ->. apply Hl. by left.
Qed.

Lemma new_seg_frame w w' X X' N N' u : new_seg w X N u → data w' = data w →
  (∀ l, l ∈ (u_cs u).*1 → pbs w' !! l = pbs w !! l ∧ l ∈ X') → u_node u ∈ N' → new_seg w' X' N' u.
Proof.
  intros [(node & q & n & ol & Eu & Ec & Hn & Hn2 & bs & [Hin Hpb Hbs Hrg] & Ed) Hlow _ Hwf] E Hl HN.
  destruct (Hl q) as [Ep HX]; [rewrite Ec; by left|].
  constructor; [|done|done|done]. exists node, q, n, ol. split_and!; try done. exists bs. split; [|done].
  constructor; [done|by rewrite Ep|by rewrite E|done].
Qed.

Lemma tcp_segs_free_ok us w0 L0 w P L X N : grown w0 L0 w L X N → Forall (new_seg w X N) us →
  NoDup (queue_locs us) → NoDup (queue_nodes us) →
  ∃ w' L', tcp_segs_free custom_free_function (u_seg <$> us) (mk_stack w P) = Ret ((), mk_stack w' P) ∧
    grown w0 L0 w' L' (X ∖ list_to_set (queue_locs us)) (N ∖ list_to_set (queue_nodes us)).
Proof.
  revert w L X N. induction us as [|u us IH]; intros w L X N Hg Hns Hl Hnd.
  - exists w, L. split; [done|]. simpl. by rewrite !difference_empty_L.
  - apply list.Forall_cons in Hns as [Hu Hns].
    change (queue_locs (u :: us)) with ((u_cs u).*1 ++ queue_locs us) in *.
    change (queue_nodes (u :: us)) with (u_node u :: queue_nodes us) in *.
    apply list.NoDup_app in Hl as (_ & Hdis & Hl). apply list.NoDup_cons in Hnd as [Hfr Hnd].
    destruct (tcp_seg_free_ok _ _ _ P _ _ _ _ Hg Hu) as (w1 & L1 & Hrun & Hg1 & Ed & Ep).
    destruct (IH w1 L1 (X ∖ list_to_set (u_cs u).*1) (N ∖ {[u_node u]}) Hg1) as (w2 & L2 & Hrun2 & Hg2);
      [|done|done|].
    + rewrite list.Forall_forall in Hns |- *. intros v Hv. pose proof (Hns v Hv) as Hnv.
      assert (∀ l, l ∈ (u_cs v).*1 → l ∉ (u_cs u).*1) as Hsep.
      { intros l Hlv Hlu. apply (Hdis l Hlu). apply queue_locs_elem. by exists v. }
      apply (new_seg_frame w _ X _ N); [done|done| |].
      * intros l Hlv. split; [by apply Ep, Hsep|]. apply elem_of_difference.
        destruct (new_seg_locs _ _ _ _ Hnv) as (q & E & Hq). rewrite E in Hlv.
        apply list_elem_of_singleton in Hlv as ->. split; [done|]. rewrite elem_of_list_to_set. apply Hsep.
        rewrite E. by left.
      * apply elem_of_difference. split; [apply Hnv|]. rewrite elem_of_singleton. intros E. apply Hfr.
        rewrite <- E. apply list_elem_of_fmap. by exists v.
    + exists w2, L2. cbn [fmap list_fmap tcp_segs_free]. rewrite (bind_Ret _ _ _ _ _ Hrun). split; [done|].
      rewrite list_to_set_app_L, list_to_set_cons, <- !difference_difference_l_L. done.
Qed.

End Free.

Section Write.
Context {A : Type} `{HA : Alloc A} {elt_size : memp_t → Z} `{HL : !AllocLaws A elt_size}.
Context (uninit : world A → loc → Z → bytes) (custom_free_function : loc → M (world A) ()).
Hypothesis uninit_length : ∀ w l n, 0 ≤ n → Z.of_nat (length (uninit w l n)) = n.
Hypothesis pool_size : elt_size MEMP_PBUF_POOL = SIZEOF_STRUCT_PBUF + PBUF_POOL_BUFSIZE_ALIGNED.
Hypothesis ref_size : elt_size MEMP_PBUF = SIZEOF_STRUCT_PBUF.
Implicit Types (w : world A) (L : gmap loc Z) (X N : gset loc) (l : loc) (u : useg).

(** ** Copies of the data *)

(** A new pbuf [q] with the bytes [src] and room for [ov] more. *)
Record copy_of w X (q : loc) (off : Z) (src : bytes) (ov : Z) (bs : bytes) : Prop := mk_copy_of {
  co_ram : is_ram w X q off (Z.of_nat (length src)) bs;
  co_bytes : take (length src) (drop (Z.to_nat off) bs) = src;
  co_room : 0 ≤ ov ∧ off + Z.of_nat (length src) + ov ≤ Z.of_nat (length bs);
}.

Lemma copy_of_keeps w w' X X' q off src ov bs : keeps w w' → q ∈ live w → q ∈ X' →
  copy_of w X q off src ov bs → copy_of w' X' q off src ov bs.
Proof. intros Hk Hl Hx [Hr Hb Ho]. constructor; [by eapply keeps_ram|done|done]. Qed.

Lemma splice_middle (bs src : bytes) o : (o + length src ≤ length bs)%nat →
  take (length src) (drop o (splice o src bs)) = src.
Proof.
  intros Hl. unfold splice. rewrite drop_app_length' by (rewrite length_take; lia).
  by rewrite take_app_length.
Qed.

Lemma grown_X_live w0 L0 w L X N : grown w0 L0 w L X N → ∀ l, l ∈ X → l ∈ live w.
Proof. intros Hg l Hl. rewrite (gr_live _ _ _ _ _ _ Hg). by apply elem_of_union_l. Qed.

(** [tcp_pbuf_prealloc] and the copy into it. *)
Lemma prealloc_copy w0 L0 w P L X N id c layer src max_length apiflags first_seg :
  grown w0 L0 w L X N → P !! id = Some c → Z.of_nat (length src) ≤ max_length ≤ 60000 →
  (∃ w', tcp_pbuf_prealloc uninit custom_free_function layer (Z.of_nat (length src)) max_length id apiflags
     first_seg (mk_stack w P) = Ret (None, mk_stack w' P) ∧ keeps w w' ∧ grown w0 L0 w' L X N) ∨
  (∃ q ov w1 w' L' bs, tcp_pbuf_prealloc uninit custom_free_function layer (Z.of_nat (length src)) max_length id
     apiflags first_seg (mk_stack w P) = Ret (Some (q, ov), mk_stack w1 P) ∧
     grown w0 L0 w1 L' (X ∪ {[q]}) N ∧ q ∈ live w1 ∧
     pbs w1 !! q = Some (ram_pbuf q (header_offset layer) (Z.of_nat (length src))) ∧
     store (Some (Own q, header_offset layer)) 0 src w1 = Ret ((), w') ∧
     keeps w w' ∧ grown w0 L0 w' L' (X ∪ {[q]}) N ∧ q ∉ X ∧
     copy_of w' (X ∪ {[q]}) q (header_offset layer) src ov bs ∧ Z.of_nat (length src) + ov ≤ max_length).
Proof.
  intros Hg Hc Hm.
  destruct (tcp_pbuf_prealloc_ok uninit custom_free_function uninit_length pool_size ref_size w0 L0 w P L X N id c
    layer (Z.of_nat (length src)) max_length apiflags first_seg Hg Hc) as ([[q ov]|] & w1 & Hrun & Hr & Hp & Hd);
    [lia|lia| |].
  - right. destruct Hr as (L' & bs & Hg1 & Hq & Hram & Hov & Hmax & Hroom).
    assert (keeps w w1) as Hk1.
    { split; [|done]. intros l Hl. split; [|by apply Hp]. rewrite (gr_live _ _ _ _ _ _ Hg1).
      rewrite (gr_live _ _ _ _ _ _ Hg) in Hl. set_solver. }
    pose proof (ram_live _ _ _ _ _ _ _ _ _ _ Hg1 Hram) as Hlq.
    destruct (ram_store _ _ _ _ _ _ _ _ _ _ src Hg1 Hram) as (w2 & Hst & Hg2 & Hram2 & Hlv & Hp2 & Hd2); [lia|].
    pose proof (ir_range _ _ _ _ _ _ Hram) as Hrg.
    exists q, ov, w1, w2, L', (splice (Z.to_nat (header_offset layer)) src bs). split_and!; try done.
    + apply Hram.
    + apply (keeps_fresh w w1 w2 q); try done; [|by rewrite Hlv].
      intros Hl. rewrite (gr_live _ _ _ _ _ _ Hg) in Hl. pose proof (gr_fresh _ _ _ _ _ _ Hg1). set_solver.
    + constructor; [done| |].
      * apply splice_middle. lia.
      * rewrite splice_length by lia. lia.
  - left. exists w1. split; [done|]. split; [|done]. split; [|done]. intros l Hl. split; [|by apply Hp].
    rewrite (gr_live _ _ _ _ _ _ Hr). by rewrite <- (gr_live _ _ _ _ _ _ Hg).
Qed.

(** The bytes of [arg] that go into the next pbuf. *)
Definition chunk (bs : bytes) (pos n : Z) : bytes := take (Z.to_nat n) (drop (Z.to_nat pos) bs).

Lemma chunk_length bs pos n : 0 ≤ pos → 0 ≤ n → pos + n ≤ Z.of_nat (length bs) →
  Z.of_nat (length (chunk bs pos n)) = n.
Proof. intros. unfold chunk. rewrite length_take, length_drop. lia. Qed.

Lemma load_chunk w0 L0 w L X N arg len bs pos n : grown w0 L0 w L X N →
  load arg 0 len w0 = Ret (bs, w0) → 0 ≤ pos → 0 ≤ n → pos + n ≤ len →
  load arg pos n w = Ret (chunk bs pos n, w).
Proof. intros Hg Hld ???. eapply grown_load; [exact Hg|]. by apply (load_sub w0 arg len). Qed.

Lemma write_pbuf_ok w0 L0 w P L X N id c arg len bs pos n mss apiflags oversize first_seg :
  grown w0 L0 w L X N → P !! id = Some c → load arg 0 len w0 = Ret (bs, w0) → Z.of_nat (length bs) = len →
  has apiflags TCP_WRITE_FLAG_COPY = true → 0 ≤ pos → 0 ≤ n → pos + n ≤ len → n ≤ mss ≤ 60000 →
  ∃ r w', write_pbuf uninit custom_free_function id arg pos n mss apiflags oversize first_seg (mk_stack w P) =
      Ret (r, mk_stack w' P) ∧ keeps w w' ∧
    match r with
    | None => grown w0 L0 w' L X N
    | Some (q, ov) => ∃ L' bs', grown w0 L0 w' L' (X ∪ {[q]}) N ∧ q ∉ X ∧
        copy_of w' (X ∪ {[q]}) q 56 (chunk bs pos n) ov bs' ∧ n + ov ≤ mss
    end.
Proof.
  intros Hg Hc Hld Hlen Hcopy H0 H1 Hle Hm. unfold write_pbuf. rewrite Hcopy.
  pose proof (chunk_length bs pos n) as Hcl. rewrite <- Hcl by lia.
  destruct (prealloc_copy w0 L0 w P L X N id c PBUF_TRANSPORT (chunk bs pos n) mss apiflags first_seg)
    as [(w' & Hrun & Hk & Hg')|(q & ov & w1 & w' & L' & bs' & Hrun & Hg1 & Hl & Hpb & Hst & Hk & Hg' & Hq & Hco & Hov)];
    [done|done|lia| |]; rewrite (bind_Ret _ _ _ _ _ Hrun).
  - by exists None, w'.
  - rewrite (bind_lift _ _ _ _ _ _ (rd_ok _ _ _ Hl Hpb)).
    rewrite bind_assert by (simpl; lia). rewrite Hcl by lia.
    rewrite (bind_lift _ _ _ _ _ _ (load_chunk _ _ _ _ _ _ _ _ _ pos n Hg1 Hld H0 H1 Hle)).
    rewrite (bind_lift _ _ _ _ _ _ Hst). exists (Some (q, ov)), w'. split_and!; try done.
    exists L', bs'. rewrite Hcl in Hov by lia. done.
Qed.

(** ** Phase 3 *)

Definition data_useg (node : Z) (q : loc) (hdr src : bytes) (ol : Z) : useg :=
  let n := Z.of_nat (length src) in
  mk_useg (mk_seg node (Some q) n ol 0 (Some (Own q, 36))) 0 [(q, ram_pbuf q 36 (n + 20))] [hdr ++ src].

Lemma data_useg_ok w X N node q bs' sport dport seqno ack wnd src ov :
  let hdr := tcp_header sport dport seqno (off_flags 0 0) ack wnd in
  let u := data_useg node q hdr src ov in
  is_ram w X q 36 (Z.of_nat (length src) + 20) (take 36 bs' ++ hdr ++ drop 56 bs') →
  take (length src) (drop 56 bs') = src → 0 ≤ ov → 56 + Z.of_nat (length src) + ov ≤ Z.of_nat (length bs') →
  length ack = 4%nat → length wnd = 4%nat → is_u32 seqno → Z.of_nat (length src) ≤ 60000 →
  (POOL MEMP_TCP_SEG, node) ∈ N →
  new_seg w X N u ∧ u_data u = src ∧ seqno_of (u_bytes u) = seqno ∧
  u_tcplen u = Z.of_nat (length src) ∧ room w u ov.
Proof.
  intros hdr u Hr Hsrc Hov Hle Ha Hw Hs Hn HN.
  assert (length hdr = 20%nat) as Hh by (by apply tcp_header_length).
  assert (length (take 36 bs') = 36%nat) as H36 by (rewrite length_take; lia).
  assert (u_bytes u = hdr ++ src) as Eb by (unfold u_bytes; simpl; by rewrite app_nil_r).
  split_and!.
  - constructor; [|done|done|].
    + exists node, q, (Z.of_nat (length src)), ov. split_and!; try done; [lia|lia|]. eexists. split; [exact Hr|].
      change (u_ds u) with [hdr ++ src]. f_equal. rewrite drop_app_length' by done. rewrite take_app_ge by lia.
      f_equal. rewrite Hh. rewrite <- Hsrc at 1. f_equal. lia.
    + rewrite Eb. unfold hdr, tcp_header. destruct ack as [|a0 [|a1 [|a2 [|a3 [|]]]]]; try done.
      apply (le_bytes_wf 2).
  - unfold u_data. rewrite Eb. by rewrite drop_app_length' by done.
  - rewrite Eb. by apply tcp_header_seqno.
  - unfold u_tcplen. rewrite Eb. unfold hdr. rewrite tcp_header_flags by done.
    change (has _ _) with false. simpl. lia.
  - split; [done|]. exists [], q, (ram_pbuf q 36 (Z.of_nat (length src) + 20)), 36. eexists. split_and!; try done.
    + apply Hr.
    + rewrite !length_app, H36, Hh, length_drop. simpl len. lia.
Qed.

Lemma room_keeps w w' u ov : keeps w w' → (∀ l, l ∈ (u_cs u).*1 → l ∈ live w) → room w u ov → room w' u ov.
Proof.
  intros [_ Kd] Hl [H0 (cs & l & pb & o & bs & Ec & Hp & Hd & Hle)]. split; [done|].
  exists cs, l, pb, o, bs. split_and!; try done. rewrite Kd; [done|]. simpl. apply bool_decide_eq_true.
  apply Hl. rewrite Ec, fmap_app. apply elem_of_app. right. by left.
Qed.

(** One more segment, ready for the queue, or the state before it. *)
Lemma write_seg_ok w0 L0 w P L X N id c arg len bs pos n mss apiflags oversize queuelen first_seg :
  grown w0 L0 w L X N → P !! id = Some c → load arg 0 len w0 = Ret (bs, w0) → Z.of_nat (length bs) = len →
  has apiflags TCP_WRITE_FLAG_COPY = true → 0 ≤ pos → 0 ≤ n → pos + n ≤ len → n ≤ mss ≤ 60000 →
  0 ≤ queuelen ≤ 60000 →
  ∀ B (fail_ : M (stack A tcp_snd) B) (k : tcp_seg → Z → Z → M (stack A tcp_snd) B),
  let m := (r ← write_pbuf uninit custom_free_function id arg pos n mss apiflags oversize first_seg;
        match r with
        | None => fail_
        | Some (q, oversize) =>
            k' ← lift_world (pbuf_clen (Some q));
            let queuelen := u16 (queuelen + k') in
            if (TCP_SND_QUEUELEN <? queuelen) || (TCP_SNDQUEUELEN_OVERFLOW <? queuelen) then
              _ ← lift_world (pbuf_free custom_free_function (Some q));
              fail_
            else
              c ← rd_pcb id;
              r ← tcp_create_segment custom_free_function id q 0 (u32 (snd_lbb (rest c) + pos)) 0;
              match r with
              | None => fail_
              | Some s => k (set_oversize_left oversize s) oversize queuelen
              end
        end) in
  (∃ w' L', m (mk_stack w P) = fail_ (mk_stack w' P) ∧ keeps w w' ∧ grown w0 L0 w' L' X N) ∨
  (∃ w' L' u q ov, m (mk_stack w P) = k (u_seg u) ov (queuelen + 1) (mk_stack w' P) ∧ keeps w w' ∧
     grown w0 L0 w' L' (X ∪ {[q]}) ({[u_node u]} ∪ N) ∧ q ∉ X ∧ u_node u ∉ N ∧ (u_cs u).*1 = [q] ∧
     new_seg w' (X ∪ {[q]}) ({[u_node u]} ∪ N) u ∧ u_data u = chunk bs pos n ∧
     seqno_of (u_bytes u) = u32 (snd_lbb (rest c) + pos) ∧ u_tcplen u = n ∧ seg_len (u_seg u) = n ∧
     room w' u ov ∧ n + ov ≤ mss ∧ oversize_left (u_seg u) = ov ∧ queuelen + 1 ≤ TCP_SND_QUEUELEN).
Proof.
  intros Hg Hc Hld Hlen Hcopy H0 H1 Hle Hm Hq B fail_ k m. unfold m. clear m.
  destruct (write_pbuf_ok w0 L0 w P L X N id c arg len bs pos n mss apiflags oversize first_seg)
    as ([[q ov]|] & w1 & Hrun & Hk & Hr); try done; rewrite (bind_Ret _ _ _ _ _ Hrun).
  2:{ left. by exists w1, L. }
  destruct Hr as (L1 & bs' & Hg1 & HqX & [Hram Hsrc Hroom] & Hov).
  pose proof (ram_live _ _ _ _ _ _ _ _ _ _ Hg1 Hram) as Hl. assert (Z.of_nat (length (chunk bs pos n)) = n) as Hcl by (apply chunk_length; lia).
  rewrite Hcl in Hroom.
  assert (q ∉ live w) as Hqw.
  { intros Hl'. rewrite (gr_live _ _ _ _ _ _ Hg) in Hl'. pose proof (gr_fresh _ _ _ _ _ _ Hg1). set_solver. }
  assert ((X ∪ {[q]}) ∖ {[q]} = X) as EX by set_solver.
  rewrite (bind_lift _ _ _ _ _ _ (ram_clen _ _ _ _ Hl (ir_pbs _ _ _ _ _ _ Hram))). cbv beta zeta.
  rewrite u16_id by (unfold is_u16; lia).
  destruct (_ || _) eqn:Elim.
  - destruct (grown_pbuf_free custom_free_function _ _ _ _ _ _ q _ Hg1 (ir_in _ _ _ _ _ _ Hram) (ir_pbs _ _ _ _ _ _ Hram))
      as (w2 & L2 & Hfree & Hg2 & Ed & Ep); [done|done|].
    rewrite (bind_lift _ _ _ _ _ _ Hfree). left. exists w2, L2. split; [done|]. rewrite EX in Hg2.
    split; [|done]. destruct Hk as [K1 K2]. split.
    + intros l Hl'. destruct (K1 l Hl') as [Hl1 E1]. rewrite Ep by (by intros ->). split; [|done].
      rewrite (gr_live _ _ _ _ _ _ Hg2). by rewrite <- (gr_live _ _ _ _ _ _ Hg).
    + intros r Hr. rewrite Ed. by apply K2.
  - rewrite (bind_pcb _ _ _ _ _ Hc).
    destruct (tcp_create_segment_ok custom_free_function w0 L0 w1 P L1 (X ∪ {[q]}) N id c q
      (Z.of_nat (length (chunk bs pos n))) bs' 0 (u32 (snd_lbb (rest c) + pos)) 0 Hg1 Hc Hram)
      as (r & w2 & L2 & Hcr & Hr & Hp & Hd).
    { rewrite Hcl. change (LWIP_TCP_OPT_LENGTH 0) with 0. lia. }
    rewrite (bind_Ret _ _ _ _ _ Hcr). destruct r as [s|].
    + destruct Hr as (node & ack & wnd & -> & HnN & _ & Hg2 & Ha & Hw & Hram2).
      destruct (data_useg_ok w2 (X ∪ {[q]}) ({[(POOL MEMP_TCP_SEG, node)]} ∪ N) node q bs' (local_port (rest c))
        (remote_port (rest c)) (u32 (snd_lbb (rest c) + pos)) ack wnd (chunk bs pos n) ov Hram2 Hsrc)
        as (Hns & Hud & Hus & Hut & Hur); try done; try lia; [apply u32_range|set_solver|].
      right. exists w2, L2, (data_useg node q (tcp_header (local_port (rest c)) (remote_port (rest c))
        (u32 (snd_lbb (rest c) + pos)) (off_flags 0 0) ack wnd) (chunk bs pos n) ov), q, ov.
      split; [unfold data_useg, set_oversize_left; simpl; by rewrite Z.sub_0_r|]. split.
      { apply (keeps_fresh w w1 w2 q); try done. rewrite (gr_live _ _ _ _ _ _ Hg1), (gr_live _ _ _ _ _ _ Hg2). done. }
      rewrite Hut. split_and!; try done; try (by rewrite Hcl).
      apply orb_false_iff in Elim as [E1 _]. lia.
    + left. exists w2, L2. rewrite EX in Hr. split; [done|]. split; [|done].
      destruct Hk as [K1 K2]. split.
      * intros l Hl'. destruct (K1 l Hl') as [Hl1 E1]. rewrite Hp by (by intros ->). split; [|done].
        rewrite (gr_live _ _ _ _ _ _ Hr). by rewrite <- (gr_live _ _ _ _ _ _ Hg).
      * intros r Hr'. rewrite Hd; [by apply K2|]. intros ->. simpl in Hr'. by apply bool_decide_eq_true in Hr'.
Qed.

Lemma chunk_drop bs pos n : 0 ≤ pos → 0 ≤ n → chunk bs pos n ++ drop (Z.to_nat (pos + n)) bs = drop (Z.to_nat pos) bs.
Proof.
  intros. unfold chunk. rewrite Z2Nat.inj_add, <- drop_drop by lia. apply take_drop.
Qed.

(** What phase 3 has made of the rest of the data. *)
Definition segs_post c (bs : bytes) (len mss pos ov ql : Z) w' (us' : list useg) (r : option (Z * Z)) : Prop :=
  match r with
  | None => pos < len
  | Some (ov', ql') => queue_data us' = drop (Z.to_nat pos) bs ∧ ql' = ql + queue_clen us' ∧
      seq_run (u32 (snd_lbb (rest c) + pos)) us' (u32 (snd_lbb (rest c) + len)) ∧
      (us' ≠ [] → ql' ≤ TCP_SND_QUEUELEN) ∧
      match list.last us' with
      | None => ov' = ov
      | Some u => room w' u ov' ∧ seg_len (u_seg u) + ov' ≤ mss ∧ oversize_left (u_seg u) = ov'
      end ∧
      (len ≤ pos → us' = []) ∧ (0 < len - pos ≤ mss → length us' = 1%nat)
  end.

Record segs_new w0 L0 w L X N us w' us' : Prop := mk_segs_new {
  sn_keeps : keeps w w';
  sn_grown : ∃ L', grown w0 L0 w' L' (X ∪ list_to_set (queue_locs us')) (N ∪ list_to_set (queue_nodes us'));
  sn_new : Forall (new_seg w' (X ∪ list_to_set (queue_locs us')) (N ∪ list_to_set (queue_nodes us'))) (us ++ us');
  sn_locs : NoDup (queue_locs (us ++ us'));
  sn_nodes : NoDup (queue_nodes (us ++ us'));
  sn_disj l : l ∈ queue_locs us' → l ∉ X;
}.

Lemma segs_new_refl w0 L0 w w' L X N us L' : keeps w w' → grown w0 L0 w' L' X N → grown w0 L0 w L X N →
  Forall (new_seg w X N) us → NoDup (queue_locs us) → NoDup (queue_nodes us) →
  segs_new w0 L0 w L X N us w' [].
Proof.
  intros Hk Hg Hg0 Hns Hl Hn. constructor; rewrite ?app_nil_r; try done.
  - exists L'. simpl. by rewrite !union_empty_r_L.
  - simpl. rewrite !union_empty_r_L. eapply list.Forall_impl; [exact Hns|]. intros u.
    apply new_seg_keeps; [done|by eapply grown_X_live|done|done].
  - by intros l ?%elem_of_nil.
Qed.

Lemma new_segs_sub w X N us : Forall (new_seg w X N) us →
  (∀ l, l ∈ queue_locs us → l ∈ X) ∧ (∀ l, l ∈ queue_nodes us → l ∈ N).
Proof.
  intros Hns. rewrite list.Forall_forall in Hns. split.
  - intros l (u & Hu & Hl)%queue_locs_elem. destruct (new_seg_locs _ _ _ _ (Hns u Hu)) as (q & E & Hq).
    rewrite E in Hl. by apply list_elem_of_singleton in Hl as ->.
  - intros l (u & -> & Hu)%list_elem_of_fmap. apply (Hns u Hu).
Qed.

Lemma segs_new_app w0 L0 w L X N us w1 u q w' us' L1 : segs_new w0 L0 w1 L1 (X ∪ {[q]}) ({[u_node u]} ∪ N) (us ++ [u]) w' us' →
  keeps w w1 → (u_cs u).*1 = [q] → q ∉ X → segs_new w0 L0 w L X N us w' (u :: us').
Proof.
  intros [Hk [L' Hg] Hns Hl Hn Hd] Hk1 Eq HqX. rewrite <- (assoc_L app) in *.
  assert ((X ∪ {[q]}) ∪ list_to_set (queue_locs us') = X ∪ list_to_set (queue_locs (u :: us'))) as EX.
  { change (queue_locs (u :: us')) with ((u_cs u).*1 ++ queue_locs us'). rewrite Eq. simpl. set_solver. }
  assert (({[u_node u]} ∪ N) ∪ list_to_set (queue_nodes us') = N ∪ list_to_set (queue_nodes (u :: us'))) as EN.
  { simpl. set_solver. }
  rewrite EX, EN in *. constructor; try done; [by eapply keeps_trans|by exists L'|].
  change (queue_locs (u :: us')) with ((u_cs u).*1 ++ queue_locs us'). rewrite Eq. intros l Hl'.
  apply elem_of_app in Hl' as [->%list_elem_of_singleton|Hl']; [done|]. specialize (Hd l Hl'). set_solver.
Qed.

Lemma write_segs_ok k : ∀ w0 L0 w P L X N id c arg len bs mss apiflags pos ov ql us,
  grown w0 L0 w L X N → P !! id = Some c → load arg 0 len w0 = Ret (bs, w0) → Z.of_nat (length bs) = len →
  has apiflags TCP_WRITE_FLAG_COPY = true → len < 2 ^ 16 → 0 ≤ pos ≤ len → len - pos ≤ Z.of_nat k →
  1 ≤ mss ≤ 60000 → (pos < len → 0 ≤ ql ≤ 60000) →
  Forall (new_seg w X N) us → NoDup (queue_locs us) → NoDup (queue_nodes us) →
  ∃ us' r w', write_segs uninit custom_free_function k id arg len apiflags mss pos ov ql (u_seg <$> us) (mk_stack w P) =
      Ret ((u_seg <$> (us ++ us'), r), mk_stack w' P) ∧
    segs_new w0 L0 w L X N us w' us' ∧ segs_post c bs len mss pos ov ql w' us' r.
Proof.
  induction k as [|k IH]; intros w0 L0 w P L X N id c arg len bs mss apiflags pos ov ql us
    Hg Hc Hld Hlen Hcopy Hu16 Hpos Hfuel Hm Hq Hns Hl Hn.
  { exists [], (Some (ov, ql)), w. simpl. rewrite (proj2 (Z.ltb_ge _ _)) by lia. rewrite app_nil_r.
    split; [done|]. split; [by apply (segs_new_refl _ _ _ _ _ _ _ _ L)|]. simpl.
    replace pos with len by lia. rewrite <- Hlen, Nat2Z.id, drop_all. split_and!; try done; unfold queue_clen; simpl; lia. }
  simpl write_segs. destruct (Z.ltb_spec pos len) as [Hlt|Hge].
  2:{ exists [], (Some (ov, ql)), w. rewrite app_nil_r.
    split; [done|]. split; [by apply (segs_new_refl _ _ _ _ _ _ _ _ L)|]. simpl.
    replace pos with len by lia. rewrite <- Hlen, Nat2Z.id, drop_all. split_and!; try done; unfold queue_clen; simpl; lia. }
  specialize (Hq Hlt). rewrite !(u16_id (len - pos)) by (unfold is_u16; lia).
  set (n := if mss <? len - pos then mss else len - pos).
  assert (1 ≤ n ≤ mss ∧ pos + n ≤ len ∧ (len - pos ≤ mss → n = len - pos)) as Hnn
    by (unfold n; destruct (Z.ltb_spec mss (len - pos)); lia).
  clearbody n. rewrite (u16_id (pos + n)) by (unfold is_u16; lia).
  destruct (write_seg_ok w0 L0 w P L X N id c arg len bs pos n mss apiflags ov ql (bool_decide (u_seg <$> us = []))
    Hg Hc Hld Hlen Hcopy) with (B := (list tcp_seg * option (Z * Z))%type) (fail_ := mret (M := M (stack A tcp_snd)) (u_seg <$> us, @None (Z * Z)))
    (k := λ s oversize queuelen, write_segs uninit custom_free_function k id arg len apiflags mss (pos + n) oversize
       queuelen ((u_seg <$> us) ++ [s]))
    as [(w1 & L1 & Hrun & Hk & Hg1)|(w1 & L1 & u & q & ov1 & Hrun & Hk & Hg1 & HqX & HuN & Eq & Hnu & Hud & Hus & Hut & Hulen & Hur & Hov & Hol & Hql)];
    try lia.
  - exists [], None, w1. rewrite app_nil_r. split; [exact Hrun|]. split; [by eapply segs_new_refl|done].
  - assert ((u_seg <$> us) ++ [u_seg u] = u_seg <$> (us ++ [u])) as Eapp by (by rewrite fmap_app).
    rewrite Eapp in Hrun.
    destruct (new_segs_sub _ _ _ _ Hns) as [HsX HsN].
    change TCP_SND_QUEUELEN with 8 in *.
    destruct (IH w0 L0 w1 P L1 (X ∪ {[q]}) ({[u_node u]} ∪ N) id c arg len bs mss apiflags (pos + n) ov1 (ql + 1) (us ++ [u]))
      as (us' & r & w' & Hrun' & Hsn & Hpost); try done; try lia.
    + apply list.Forall_app. split; [|by apply list.Forall_singleton].
      eapply list.Forall_impl; [exact Hns|]. intros v. apply new_seg_keeps; [done|by eapply grown_X_live|set_solver|set_solver].
    + rewrite queue_locs_app. unfold queue_locs at 2. simpl. rewrite app_nil_r, Eq.
      apply list.NoDup_app. split_and!; [done| |apply list.NoDup_singleton].
      intros l Hl1 ->%list_elem_of_singleton. by apply HqX, HsX.
    + unfold queue_nodes. rewrite fmap_app. apply list.NoDup_app. split_and!; [done| |apply list.NoDup_singleton].
      intros l Hl1 ->%list_elem_of_singleton. by apply HuN, HsN.
    + exists (u :: us'), r, w'. split; [refine (eq_trans Hrun _); by rewrite Hrun', <- (assoc_L app)|].
      split; [by eapply segs_new_app|]. destruct r as [[ov' ql']|]; [|simpl in *; lia].
      destruct Hpost as (P1 & P2 & P3 & P4 & P5 & P6 & _). simpl. split_and!.
      * change (queue_data (u :: us')) with (u_data u ++ queue_data us'). rewrite Hud, P1. apply chunk_drop; lia.
      * rewrite P2. change (u :: us') with ([u] ++ us'). rewrite queue_clen_app.
        assert (queue_clen [u] = 1) as -> by (unfold queue_clen, queue_locs; simpl; by rewrite app_nil_r, Eq). lia.
      * done.
      * rewrite Hut, u32_add_l, <- Z.add_assoc. exact P3.
      * intros _. destruct us' as [|v us']; [|by apply P4]. rewrite P2. change TCP_SND_QUEUELEN with 8. unfold queue_clen. simpl. lia.
      * destruct us' as [|v us'].
        2:{ rewrite last_cons_cons. destruct (list.last (v :: us')) eqn:E; [done|]. by apply last_None in E. }
        simpl in P5 |- *. subst ov'.
        split; [|by rewrite Hulen, Hol]. eapply room_keeps; [apply Hsn| |exact Hur].
        intros l Hl1. rewrite Eq in Hl1. apply list_elem_of_singleton in Hl1 as ->.
        rewrite (gr_live _ _ _ _ _ _ Hg1). set_solver.
      * lia.
      * intros H. by rewrite P6 by lia.
Qed.

(** ** Phases 1 and 2 *)

Definition u_used u : Z := seg_len (u_seg u) + LWIP_TCP_OPT_LENGTH (seg_flags (u_seg u)).

(** What the plan takes up: [used] bytes behind the last pbuf, then a new pbuf. *)
Definition plan_ok c (us : list useg) (bs : bytes) (len : Z) w' X (pl : plan) : Prop :=
  match list.last us with
  | None => pl = mk_plan 0 false 0 0 None 0 (snd_queuelen (rest c)) ∧ X = ∅
  | Some u =>
      let used := pl_oversize_used pl in
      0 ≤ used ≤ unsent_oversize (rest c) ∧ used ≤ len ∧ pl_extendlen pl = 0 ∧
      match pl_concat_p pl with
      | None => X = ∅ ∧ pl_pos pl = used ∧ pl_oversize pl = unsent_oversize (rest c) - used ∧
          pl_queuelen pl = snd_queuelen (rest c)
      | Some q => ∃ n bs', X = {[q]} ∧ 0 < n ∧ pl_pos pl = used + n ∧ used + n ≤ len ∧ 0 < len ∧
          copy_of w' X q 0 (chunk bs used n) (pl_oversize pl) bs' ∧
          pl_queuelen pl = snd_queuelen (rest c) + 1 ∧ used = unsent_oversize (rest c) ∧
          u_used u + used + n + pl_oversize pl ≤ mss_local c ∧ (used + n < len → pl_oversize pl = 0)
      end
  end.

(** The control block after phases 1 and 2: the last unsent segment owns the room
    of the new pbuf already. *)
Definition tail_seg (pl : plan) (s : tcp_seg) : tcp_seg :=
  match pl_concat_p pl with
  | Some _ => set_oversize_left (u16 (oversize_left s + pl_oversize pl)) s
  | None => s
  end.
Definition tail_pcb (c : tcp_pcb tcp_snd) (pl : plan) : tcp_pcb tcp_snd :=
  match pl_concat_p pl with
  | Some _ => set_rest (λ r, set_unsent (upd_last (tail_seg pl) (unsent r)) r) c
  | None => c
  end.


Lemma grown_empty w L w' L' X N : grown w L w' L' X N → X = ∅ → N = ∅ → grown w L w' L ∅ ∅.
Proof. intros Hg -> ->. rewrite <- (grown_blocks _ _ _ _ _ _ Hg) at 2 by done. done. Qed.

Lemma write_oversize_ok c space len ql : 0 ≤ unsent_oversize (rest c) ≤ space → space < 2 ^ 16 → 0 ≤ len < 2 ^ 16 →
  ∃ pl used, write_oversize c space len ql = (pl, space - used) ∧ used = Z.min (unsent_oversize (rest c)) len ∧
    pl_oversize_used pl = used ∧ pl_pos pl = used ∧ pl_oversize pl = unsent_oversize (rest c) - used ∧
    pl_concat_p pl = None ∧ pl_extendlen pl = 0 ∧ pl_queuelen pl = ql.
Proof.
  intros Hov Hsp Hlen. unfold write_oversize. destruct (Z.ltb_spec 0 (unsent_oversize (rest c))).
  - eexists _, _. cbv zeta. rewrite !(u16_id _) by (unfold is_u16; lia). split; [reflexivity|]. simpl.
    split_and!; try done; lia.
  - eexists _, 0. rewrite Z.sub_0_r. split; [reflexivity|]. simpl. split_and!; try done; lia.
Qed.

Lemma write_tail_ok w P L id c us na arg len bs apiflags :
  inv w L → P !! id = Some c → queue_ok w L c us na → load arg 0 len w = Ret (bs, w) →
  Z.of_nat (length bs) = len → len < 2 ^ 16 → has apiflags TCP_WRITE_FLAG_COPY = true →
  (0 < len → snd_queuelen (rest c) < TCP_SND_QUEUELEN) →
  ∃ r w', write_tail uninit custom_free_function id arg len apiflags (mk_stack w P) =
      Ret (r, mk_stack w' (match r with None => P | Some pl => <[id := tail_pcb c pl]> P end)) ∧ keeps w w' ∧
    match r with
    | None => grown w L w' L ∅ ∅
    | Some pl => ∃ L' X, grown w L w' L' X ∅ ∧ plan_ok c us bs len w' X pl
    end.
Proof.
  intros Hi Hc Hq Hld Hlen Hu16 Hcopy Hql. pose proof (grown_refl w L Hi) as Hg.
  destruct (qo_mss _ _ _ _ _ Hq) as [Hmss Hwm]. pose proof (mss_local_range c Hmss Hwm) as Hml.
  change TCP_MSS with 536 in Hmss. unfold write_tail. rewrite (bind_pcb _ _ _ _ _ Hc). cbv beta zeta.
  rewrite (qo_unsent _ _ _ _ _ Hq), fmap_last. pose proof (qo_room _ _ _ _ _ Hq) as Hroom.
  destruct (list.last us) as [u|] eqn:Elast; simpl.
  2:{ rewrite Hroom, bind_assert by done. eexists (Some _), w. split; [simpl; by rewrite insert_id|]. split; [done|].
      exists L, ∅. split; [done|]. unfold plan_ok. by rewrite Elast. }
  destruct Hroom as [[Hov0 _] Hfit].
  assert (0 ≤ seg_len (u_seg u)) as Hsl.
  { apply last_Some in Elast as [us0 ->]. pose proof (qo_segs _ _ _ _ _ Hq) as Hs.
    apply list.Forall_app in Hs as [_ Hs]. apply list.Forall_singleton in Hs as [Hpk _ _ Hh Hsl _].
    destruct Hh as (l & pb & cs & o & Ec & _ & _ & Hle). rewrite Hsl, Ec in *.
    pose proof (pk_tot _ _ _ _ Hpk) as Ht. apply tot_ok_cons in Ht as (_ & _ & ? & _). simpl. lia. }
  pose proof (optlen_cases (seg_flags (u_seg u))) as Hopt.
  rewrite bind_assert by lia. rewrite bind_assert by lia. rewrite u16_id by (unfold is_u16; lia).
  set (ov := unsent_oversize (rest c)) in *. set (space := mss_local c - _).
  destruct (write_oversize_ok c space len (snd_queuelen (rest c)))
    as (pl & used & -> & Eused & E1 & E2 & E3 & E4 & E5 & E6); [unfold space; lia|lia|lia|]. fold ov in Eused, E3.
  rewrite bind_assert by lia. unfold write_concat.
  destruct ((pl_pos pl <? len) && (0 <? space - used) && (0 <? seg_len (u_seg u))) eqn:Eb.
  2:{ exists (Some pl), w. unfold tail_pcb. rewrite E4, insert_id by done. split; [done|]. split; [done|]. exists L, ∅. split; [done|]. unfold plan_ok.
      rewrite Elast, E4. cbv zeta. rewrite E1. fold ov. split_and!; try done; lia. }
  rewrite Hcopy. assert (used < len ∧ 0 < space - used ∧ 0 < len) as (Hlt & Hsp & Hpos) by lia.
  specialize (Hql Hpos). change TCP_SND_QUEUELEN with 8 in Hql.
  rewrite E2, (u16_id (len - used)) by (unfold is_u16; lia). cbv zeta.
  set (n := if space - used <? len - used then space - used else len - used).
  assert (0 < n ≤ space - used ∧ used + n ≤ len ∧ (used + n < len → n = space - used)) as Hn by (unfold n; destruct (Z.ltb_spec (space - used) (len - used)); lia).
  clearbody n. assert (Z.of_nat (length (chunk bs used n)) = n) as Hcl by (apply chunk_length; lia).
  destruct (prealloc_copy w L w P L ∅ ∅ id c PBUF_RAW (chunk bs used n) (space - used) apiflags true)
    as [(w' & Hrun & Hk & Hg')|(q & ov' & w1 & w' & L' & bs' & Hrun & Hg1 & Hl & Hpb & Hst & Hk & Hg' & Hq' & Hco & Hov)];
    [done|done|rewrite Hcl; unfold space; lia| |]; rewrite Hcl in Hrun; rewrite (bind_Ret _ _ _ _ _ Hrun).
  { exists None, w'. by split_and!. }
  unfold upd_rest. rewrite (bind_upd_pcb _ _ c) by done. unfold put_pcb at 1. cbn [wld pcbs].
  rewrite (bind_lift _ _ _ _ _ _ (load_chunk _ _ _ _ _ _ _ _ _ used n Hg1 Hld ltac:(lia) ltac:(lia) ltac:(lia))).
  rewrite (bind_lift _ _ _ _ _ _ (rd_ok _ _ _ Hl Hpb)). rewrite (bind_lift _ _ _ _ _ _ Hst).
  pose proof (co_ram _ _ _ _ _ _ _ Hco) as Hram.
  rewrite (bind_lift _ _ _ _ _ _ (ram_clen _ _ _ _ (ram_live _ _ _ _ _ _ _ _ _ _ Hg' Hram) (ir_pbs _ _ _ _ _ _ Hram))).
  assert (0 ≤ snd_queuelen (rest c)) as Hqn.
  { rewrite (qo_queuelen _ _ _ _ _ Hq). destruct (qo_unacked _ _ _ _ _ Hq). unfold queue_clen. lia. }
  exists (Some (mk_plan (used + n) true ov' (pl_oversize_used pl) (Some q) 0 (snd_queuelen (rest c) + 1))), w'.
  rewrite E6, (u16_id (used + n)), (u16_id (_ + 1)) by (unfold is_u16; lia). split; [reflexivity|]. split; [done|].
  exists L', (∅ ∪ {[q]}). split; [done|]. unfold plan_ok. rewrite Elast. simpl. rewrite E1.
  rewrite Hcl in Hov. fold ov. split_and!; try done; try lia. exists n, bs'. unfold u_used.
  unfold space in Hov. pose proof (co_room _ _ _ _ _ _ _ Hco). split_and!; try done; try lia. set_solver.
Qed.
End Write.

(** ** The commit *)

Section Commit.
Context {A : Type}.
Implicit Types (w : world A) (l : loc) (pb : pbuf) (cs : list (loc * pbuf)) (u : useg).

(** The pbufs [ls] and their bytes are the same. *)
Definition same_on (ls : list loc) w w' : Prop := ∀ l, l ∈ ls →
  (l ∈ live w → l ∈ live w') ∧ pbs w' !! l = pbs w !! l ∧ data w' !! Own l = data w !! Own l.

Lemma same_on_trans ls w1 w2 w3 : same_on ls w1 w2 → same_on ls w2 w3 → same_on ls w1 w3.
Proof.
  intros H1 H2 l Hl. destruct (H1 l Hl) as (a1 & b1 & c1), (H2 l Hl) as (a2 & b2 & c2).
  split_and!; [auto|congruence|congruence].
Qed.

Lemma keeps_same_on ls w w' : keeps w w' → (∀ l, l ∈ ls → l ∈ live w) → same_on ls w w'.
Proof.
  intros [K1 K2] Hl l Hin. destruct (K1 l (Hl l Hin)) as [? ?]. split_and!; [done|done|].
  apply K2. simpl. by apply bool_decide_eq_true, Hl.
Qed.

Lemma load_same_on w w' l o off n d : same_on [l] w w' → load (Some (Own l, o)) off n w = Ret (d, w) →
  load (Some (Own l, o)) off n w' = Ret (d, w').
Proof.
  intros Hs. destruct (Hs l) as (Hl & _ & Hd); [by left|]. intros Hld. eapply load_same; [|exact Hld].
  intros Hn r o' [= <- <-]. pose proof (load_valid _ _ _ _ _ _ Hld Hn) as Hv. split; [|done].
  simpl in *. apply bool_decide_eq_true in Hv. apply bool_decide_eq_true. auto.
Qed.

Lemma content_same_on w w' cs ds : same_on cs.*1 w w' → Forall copied cs → content w cs ds → content w' cs ds.
Proof.
  intros Hs Hcp Hc. unfold content in *. induction Hc as [|[l pb] d cs ds Hd Hc IH]; [constructor|].
  apply list.Forall_cons in Hcp as [(_ & _ & o & Ep & _) Hcp]. cbn [fst snd] in *. constructor; cbn [snd].
  - rewrite Ep in *. eapply load_same_on; [|exact Hd]. intros l' ->%list_elem_of_singleton. apply Hs. by left.
  - apply IH; [|done]. intros l' Hl'. apply Hs. by right.
Qed.

Lemma seg_ok_same w w' u : same_on (u_cs u).*1 w w' → seg_ok w u → seg_ok w' u.
Proof.
  intros Hs [[Hc Ht Hd] Hcp H3 H4 H5 H6]. constructor; [|done|done|done|done|done]. constructor; [|done|].
  - eapply chain_same; [|exact Hc]. intros l Hl. destruct (Hs l Hl) as (Hlv & Hp & _).
    split; [done|]. apply Hlv. by eapply chain_live.
  - by eapply content_same_on.
Qed.

Lemma room_same w w' u n : same_on (u_cs u).*1 w w' → room w u n → room w' u n.
Proof.
  intros Hs [H0 (cs & l & pb & o & bs & Ec & Hp & Hd & Hle)]. split; [done|].
  exists cs, l, pb, o, bs. split_and!; try done. destruct (Hs l) as (_ & _ & ->); [|done].
  rewrite Ec, fmap_app. apply elem_of_app. right. by left.
Qed.

(** The loop of the commit: every total length and the last length grow by [k],
    the bytes [src] follow those of the last pbuf. *)
Definition bumped (k : Z) pb : pbuf := set_len (u16 (len pb + k)) (set_tot_len (u16 (tot_len pb + k)) pb).

Lemma bump_loop_ok n w h p k arg src a b z zb o bs :
  chain w (Some h) (a ++ b ++ [(z, zb)]) → Some p = fst <$> head (b ++ [(z, zb)]) → (length b < n)%nat →
  payload zb = Some (Own z, o) → data w !! Own z = Some bs → load arg 0 k w = Ret (src, w) →
  0 ≤ o + len zb → Z.of_nat (length src) = k → o + len zb + k ≤ Z.of_nat (length bs) →
  ∃ w1, bump_loop n p k (λ pb, bs ← load arg 0 k; store (payload pb) (len pb) bs) w =
      Ret ((), set_data <[Own z := splice (Z.to_nat (o + len zb)) src bs]> w1) ∧
    only (b ++ [(z, zb)]).*1 w w1 ∧ chain w1 (Some h) (a ++ grow k b ++ [(z, bumped k zb)]).
Proof.
  revert w p a. revert n. induction b as [|[l pb] b IH]; intros n w p a Hc Hh Hn Hp Hbs Hld H0 Hsrc Hle.
  - simpl in Hh. injection Hh as ->. simpl app in *. destruct n as [|n]; [simpl in Hn; lia|].
    destruct (chain_suffix _ _ _ _ Hc) as (q & Hq). destruct Hq as (_ & Hl & Hpb & Hnx). simpl in Hnx.
    simpl bump_loop. rewrite (bind_upd w z zb) by done.
    set (zb1 := set_tot_len _ zb). set (w1 := upd_pbs z zb1 w).
    assert (pbs w1 !! z = Some zb1) as Hpb1 by apply lookup_insert_eq.
    rewrite (bind_rd w1 z zb1) by done. change (next zb1) with (next zb). rewrite Hnx.
    assert (load arg 0 k w1 = Ret (src, w1)) as Hld1 by (eapply (load_only [z] w); [apply only_upd|done]).
    assert ((bs ← load arg 0 k; store (payload zb1) (len zb1) bs) w1 =
      Ret ((), set_data <[Own z := splice (Z.to_nat (o + len zb)) src bs]> w1)) as Hfill.
    { rewrite (bind_Ret _ _ _ _ _ Hld1). change (payload zb1) with (payload zb). change (len zb1) with (len zb).
      rewrite Hp. apply store_own; [done|done|done|lia]. }
    rewrite (bind_Ret _ _ _ _ _ Hfill). erewrite upd_ok; [|exact Hl|exact Hpb1].
    exists (upd_pbs z (bumped k zb) w1). split; [done|]. split.
    + etransitivity; [apply only_upd|apply only_upd].
    + unfold w1. rewrite upd_upd. by eapply chain_update.
  - simpl in Hh. injection Hh as ->. destruct n as [|n]; [simpl in Hn; lia|].
    destruct (chain_suffix _ _ _ _ Hc) as (q & Hq). destruct Hq as (_ & Hl & Hpb & Hnx).
    assert (∃ p', next pb = Some p' ∧ Some p' = fst <$> head (b ++ [(z, zb)])) as (p' & Enx & Hh').
    { destruct b as [|[l' pb'] b]; simpl in *; destruct Hnx as (-> & _); eauto. }
    assert (z ≠ l) as Hne.
    { pose proof (chain_NoDup _ _ _ Hc) as Hnd. rewrite fmap_app in Hnd. apply list.NoDup_app in Hnd as (_ & _ & Hnd).
      simpl in Hnd. apply list.NoDup_cons in Hnd as [Hnd _]. rewrite fmap_app in Hnd. set_solver. }
    simpl bump_loop. rewrite (bind_upd w l pb) by done.
    set (pb1 := set_tot_len _ pb). set (w1 := upd_pbs l pb1 w).
    rewrite (bind_rd w1 l pb1) by (done || apply lookup_insert_eq). change (next pb1) with (next pb). rewrite Enx.
    destruct (IH n w1 p' (a ++ [(l, pb1)])) as (w2 & Hrun & Ho & Hc2); try done.
    + rewrite <- (assoc_L app). simpl. by eapply chain_update.
    + simpl in Hn. lia.
    + eapply (load_only [l] w); [apply only_upd|done].
    + exists w2. rewrite Hrun. split; [done|]. split.
      * rewrite <- (assoc_L app) in Hc2. etransitivity.
        -- eapply (only_mono [l]); [|apply only_upd]. intros x ->%list_elem_of_singleton. by left.
        -- eapply only_mono; [|exact Ho]. intros x Hx. by right.
      * by rewrite <- (assoc_L app) in Hc2.
Qed.

(** The segment [u'] is [u] with the bytes [extra] at the end. *)
Record extends u u' (extra : bytes) : Prop := mk_extends {
  ex_node : seg_node (u_seg u') = seg_node (u_seg u);
  ex_p : seg_p (u_seg u') = seg_p (u_seg u);
  ex_flags : seg_flags (u_seg u') = seg_flags (u_seg u);
  ex_hdr : tcphdr (u_seg u') = tcphdr (u_seg u);
  ex_low : u_low u' = u_low u;
  ex_len : seg_len (u_seg u') = seg_len (u_seg u) + Z.of_nat (length extra);
  ex_bytes : concat (u_ds u') = concat (u_ds u) ++ extra;
}.

Lemma seg_ok_length w u : seg_ok w u → 0 ≤ u_low u ∧ 20 ≤ u_hlen u ∧
  Z.of_nat (length (concat (u_ds u))) = lens (u_cs u) ∧ u_low u + u_hlen u ≤ lens (u_cs u).
Proof.
  intros [[Hc Ht Hd] _ [H0 _] (l & pb & cs & o & Ec & _ & _ & Hle) _ _].
  split; [done|]. split; [unfold u_hlen; destruct (optlen_cases (seg_flags (u_seg u))); change TCP_HLEN with 20; lia|].
  split; [by eapply content_lens|]. rewrite Ec in *. apply tot_ok_cons in Ht as (_ & _ & ? & _). simpl. lia.
Qed.

Lemma extends_facts w u u' extra : seg_ok w u → extends u u' extra →
  u_bytes u' = u_bytes u ++ extra ∧ u_hlen u' = u_hlen u ∧ u_data u' = u_data u ++ extra ∧
  seqno_of (u_bytes u') = seqno_of (u_bytes u) ∧ flags_of (u_bytes u') = flags_of (u_bytes u) ∧
  u_tcplen u' = u_tcplen u + Z.of_nat (length extra) ∧ u_node u' = u_node u ∧
  wf_bytes (take 2 (drop 12 (u_bytes u'))).
Proof.
  intros Hs [E1 E2 E3 E4 E5 E6 E7]. pose proof (seg_ok_length _ _ Hs) as (H0 & H20 & Hl & Hle).
  assert (u_bytes u' = u_bytes u ++ extra) as Eb.
  { unfold u_bytes. rewrite E5, E7. rewrite drop_app_le; [done|]. lia. }
  assert (u_hlen u' = u_hlen u) as Eh by (unfold u_hlen; by rewrite E3).
  assert (20 ≤ Z.of_nat (length (u_bytes u))) as Hb by (unfold u_bytes; rewrite length_drop; lia).
  assert (Z.to_nat (u_hlen u) ≤ length (u_bytes u))%nat as Hh by (unfold u_bytes; rewrite length_drop; lia).
  assert (∀ n k, (n + k ≤ 20)%nat → take k (drop n (u_bytes u ++ extra)) = take k (drop n (u_bytes u))) as Hf.
  { intros n k Hnk. rewrite drop_app_le by lia. rewrite take_app_le; [done|]. rewrite length_drop. lia. }
  assert (flags_of (u_bytes u') = flags_of (u_bytes u)) as Ef by (unfold flags_of; rewrite Eb, Hf by lia; done).
  split_and!; try done.
  - unfold u_data. rewrite Eb, Eh, drop_app_le by done. done.
  - unfold seqno_of. by rewrite Eb, Hf by lia.
  - unfold u_tcplen. rewrite Ef, E6. lia.
  - unfold u_node. by rewrite E1.
  - rewrite Eb, Hf by lia. apply Hs.
Qed.

(** Pbufs that keep where their bytes are and do not get shorter. *)
Definition longer (c c' : loc * pbuf) : Prop :=
  c'.1 = c.1 ∧ payload c'.2 = payload c.2 ∧ type c'.2 = type c.2 ∧ len c.2 ≤ len c'.2.

Lemma seg_ok_extend w w' u u' extra cs1 cs2 : seg_ok w u → extends u u' extra →
  packet w' (seg_p (u_seg u)) (u_cs u') (u_ds u') → u_cs u' = cs1 ++ cs2 → Forall2 longer (u_cs u) cs1 →
  Forall copied cs2 → seg_ok w' u'.
Proof.
  intros Hs Hx Hpk Ecs Hlg Hcp. pose proof (extends_facts _ _ _ _ Hs Hx) as (_ & Eh & _ & _ & _ & _ & _ & Hwf).
  pose proof (seg_ok_length _ _ Hs) as (_ & _ & Hl & _). pose proof Hx as [E1 E2 E3 E4 E5 E6 E7].
  destruct Hs as [_ Hc Hlow (l & pb & cs & o & Ec & Hp & Hh & Hle) Hlen _].
  constructor; [by rewrite E2| |by rewrite E5| | |done].
  - rewrite Ecs. apply list.Forall_app. split; [|done]. clear -Hlg Hc.
    induction Hlg as [|c c' cs cs' (H1 & H2 & H3 & _) Hlg IH]; [constructor|].
    apply list.Forall_cons in Hc as [(K1 & K2 & K3) Hc]. apply list.Forall_cons. split; [|by apply IH].
    unfold copied. by rewrite H1, H2, H3.
  - rewrite Ec in Hlg. apply Forall2_cons_inv_l in Hlg as ([l' pb'] & cs' & (H1 & H2 & H3 & H4) & _ & E).
    cbn [fst snd] in *. subst l'. exists l, pb', (cs' ++ cs2), o. rewrite Ecs, E, E4, E5, Eh, H2.
    split_and!; try done. lia.
  - rewrite E6, E5, Eh, Hlen. pose proof (content_lens _ _ _ (pk_tot _ _ _ _ Hpk) (pk_content _ _ _ _ Hpk)) as Hl'.
    rewrite E7, length_app in Hl'. lia.
Qed.

Lemma changes_same_on ls ls' w w' : changes ls w w' → (∀ l, l ∈ ls' → l ∉ ls) → same_on ls' w w'.
Proof.
  intros [A1 A2 A3 A4 A5 A6] Hd l Hl. split_and!; [by rewrite A1|by apply A3, Hd|].
  apply A5. intros l' Hl' [= ->]. by apply (Hd l' Hl).
Qed.

Lemma chain_kind w w' p cs cs' ls : chain w p cs → (∀ l pb, (l, pb) ∈ cs' → pbs w' !! l = Some pb) → only ls w w' →
  (∀ l, l ∈ ls → l ∈ cs.*1) →
  Forall2 (λ c c', c'.1 = c.1 ∧ type c'.2 = type c.2 ∧ flags c'.2 = flags c.2) cs cs' →
  ∀ l, (λ pb, (type pb, flags pb)) <$> pbs w' !! l = (λ pb, (type pb, flags pb)) <$> pbs w !! l.
Proof.
  intros Hc Hc' Ho Hls Hf l. destruct (decide (l ∈ ls)) as [Hl|Hl]; [|by rewrite (on_pbs _ _ _ Ho)].
  apply Hls in Hl. clear Hls Ho. revert p Hc.
  induction Hf as [|[l1 pb1] [l2 pb2] cs cs' (E & Et & Ef) Hf IH]; intros p Hc; [by apply elem_of_nil in Hl|].
  cbn [fst snd] in *. subst l2. destruct Hc as (_ & _ & Hp & Hc).
  simpl in Hl. apply elem_of_cons in Hl as [->|Hl].
  - rewrite Hp, (Hc' l1 pb2) by (by left). simpl. by rewrite Et, Ef.
  - eapply IH; [|done|exact Hc]. intros l' pb' Hin. apply Hc'. by right.
Qed.

Lemma splice_end (bs src : bytes) o n : (o + n + length src ≤ length bs)%nat →
  take (n + length src) (drop o (splice (o + n) src bs)) = take n (drop o bs) ++ src.
Proof.
  intros Hl. unfold splice. rewrite drop_app_le by (rewrite length_take; lia).
  rewrite take_app_ge by (rewrite length_drop, length_take; lia).
  rewrite length_drop, length_take.
  replace (n + length src - (Nat.min (o + n) (length bs) - o))%nat with (length src) by lia.
  rewrite take_app_length. f_equal. rewrite skipn_firstn_comm. f_equal. lia.
Qed.

(** The loop on a packet: the bytes follow those of the last pbuf. *)
Lemma bump_ok w h cs z zb o blk db dz arg used src : packet w (Some h) (cs ++ [(z, zb)]) (db ++ [dz]) →
  length cs = length db → Forall copied cs → payload zb = Some (Own z, o) → 0 ≤ o → data w !! Own z = Some blk →
  load arg 0 used w = Ret (src, w) → Z.of_nat (length src) = used → 0 ≤ used →
  o + len zb + used ≤ Z.of_nat (length blk) → lens (cs ++ [(z, zb)]) + used < 2 ^ 16 →
  ∃ w' blk', (w ← get; bump_loop (fuel w) h used (λ pb, bs ← load arg 0 used; store (payload pb) (len pb) bs)) w =
      Ret ((), w') ∧ packet w' (Some h) (grow used cs ++ [(z, bumped used zb)]) (db ++ [dz ++ src]) ∧
    data w' !! Own z = Some blk' ∧ length blk' = length blk ∧ len (bumped used zb) = len zb + used ∧
    changes (cs ++ [(z, zb)]).*1 w w'.
Proof.
  intros [Hc Ht Hcont] Elen Hcp Hp H0 Hd Hld Hsrc Hu Hle Hlt.
  apply Forall2_app_inv in Hcont as [Hcb Hcz]; [|done]. apply list.Forall2_cons in Hcz as [Hdz _]. cbn [snd] in Hdz.
  apply tot_plus_0, tot_plus_app in Ht as [Htb (Hz1 & Hz2 & Hz3 & _)]. cbn [lens] in *.
  rewrite lens_app in Hlt. cbn [lens] in Hlt. pose proof (tot_plus_lens _ _ Htb) as Hlb. unfold is_u16 in *.
  assert (z ∈ live w) as Hlz by (eapply chain_live; [exact Hc|]; rewrite fmap_app; apply elem_of_app; right; by left).
  destruct (bump_loop_ok (fuel w) w h h used arg src [] cs z zb o blk) as (w1 & Hrun & Ho & Hc1); try done; try lia.
  { by destruct (chain_head _ _ _ Hc) as (? & ? & -> & _). }
  { pose proof (chain_length _ _ _ Hc) as Hcl. rewrite length_app in Hcl. simpl in Hcl. unfold fuel. lia. }
  rewrite app_nil_l in Hc1. set (w2 := set_data _ w1) in Hrun.
  assert (bumped used zb = mk_pbuf (next zb) (payload zb) (tot_len zb + used) (len zb + used) (type zb) (flags zb) (ref zb)) as Ebz.
  { unfold bumped, set_len, set_tot_len. simpl. rewrite !u16_id by (unfold is_u16; lia). done. }
  assert (length (splice (Z.to_nat (o + len zb)) src blk) = length blk) as Espl by (apply splice_length; lia).
  exists w2. eexists. split; [by rewrite bind_get|]. split; [|split_and!; [apply lookup_insert_eq|done|by rewrite Ebz|]].
  - constructor.
    + eapply (chain_same w1); [|exact Hc1]. intros l Hl. split; [done|]. by eapply (chain_live w1).
    + apply tot_plus_0, tot_plus_app. rewrite Ebz. cbn [lens tot_plus len tot_len]. split; [|unfold is_u16; split_and!; lia].
      replace (len zb + used + 0 + 0) with (len zb + 0 + 0 + used) by lia. apply grow_tot; [done|lia..].
    + apply Forall2_app.
      * apply (content_same_on w1).
        -- rewrite grow_locs. intros l Hl. split_and!; try done. simpl. rewrite lookup_insert_ne; [done|]. intros [= ->].
           pose proof (chain_NoDup _ _ _ Hc) as Hnd. rewrite fmap_app in Hnd. apply list.NoDup_app in Hnd as (_ & Hnd & _).
           apply (Hnd l Hl). by left.
        -- clear -Hcp. induction Hcp as [|c cs' H1 H2 IH]; [constructor|]. by constructor.
        -- eapply content_only; [exact Ho|apply grow_bytes|exact Hcb].
      * apply list.Forall2_cons. split; [|constructor]. cbn [snd]. rewrite Ebz. cbn [payload len]. rewrite Hp in *.
        rewrite (load_own w z o 0 _ blk) in Hdz by (done || lia). injection Hdz as <-.
        rewrite (load_own w2 z o 0 _ (splice (Z.to_nat (o + len zb)) src blk));
          [|simpl; by rewrite (on_live _ _ _ Ho)|apply lookup_insert_eq|lia|lia|rewrite Espl; lia].
        do 2 f_equal. rewrite Z.add_0_r. replace (Z.to_nat (len zb + used)) with (Z.to_nat (len zb) + length src)%nat by lia.
        replace (Z.to_nat (o + len zb)) with (Z.to_nat o + Z.to_nat (len zb))%nat by lia. apply splice_end. lia.
  - constructor.
    + simpl. apply (on_live _ _ _ Ho).
    + simpl. apply (on_allocs _ _ _ Ho).
    + intros l Hl. simpl. by apply (on_pbs _ _ _ Ho).
    + eapply (chain_kind w w1); [exact Hc|intros l pb; by apply (chain_lookup w1 _ _ _ _ Hc1)|exact Ho|done|]. apply Forall2_app; [|by repeat constructor].
      clear. induction cs as [|c cs IH]; by constructor.
    + intros r Hr. simpl. rewrite lookup_insert_ne; [by rewrite (on_data _ _ _ Ho)|].
      intros <-. apply (Hr z); [|done]. rewrite fmap_app. apply elem_of_app. right. by left.
    + intros r. simpl. rewrite (on_data _ _ _ Ho), lookup_insert. case_decide as E; [subst r|done].
      rewrite Hd. simpl. by rewrite Espl.
Qed.

(** The commit of phase 1. *)
Lemma commit_oversize_ok w P u ov used arg src : seg_ok w u → room w u ov → 0 ≤ used ≤ ov →
  used ≤ oversize_left (u_seg u) < 2 ^ 16 →
  load arg 0 used w = Ret (src, w) → Z.of_nat (length src) = used → lens (u_cs u) + used < 2 ^ 16 →
  ∃ w' u', commit_oversize arg used (u_seg u) (mk_stack w P) = Ret (u_seg u', mk_stack w' P) ∧
    seg_ok w' u' ∧ extends u u' src ∧ (u_cs u').*1 = (u_cs u).*1 ∧ room w' u' (ov - used) ∧
    oversize_left (u_seg u') = oversize_left (u_seg u) - used ∧ changes (u_cs u).*1 w w'.
Proof.
  intros Hs Hroom Hu Hleft Hld Hsrc Hlt. unfold commit_oversize. destruct (Z.ltb_spec 0 used) as [Hpos|Hz].
  2:{ assert (used = 0) as -> by lia. destruct src; [|simpl in Hsrc; lia]. exists w, u.
      rewrite !Z.sub_0_r. split_and!; try done. constructor; try done; [simpl; lia|by rewrite app_nil_r]. }
  destruct Hroom as [_ (cs & z & zb & o & blk & Ec & Hp & Hd & Hle)].
  pose proof (so_packet _ _ Hs) as Hpk. pose proof (so_copied _ _ Hs) as Hcp. rewrite Ec in Hpk, Hcp, Hlt.
  assert (∃ h, seg_p (u_seg u) = Some h) as [h Eh].
  { destruct Hpk as [Hc _ _]. destruct cs as [|[? ?] ?]; destruct Hc as (E & _); eauto. }
  rewrite Eh in *. assert (∃ db dz, u_ds u = db ++ [dz] ∧ length cs = length db) as (db & dz & Ed & Elen).
  { destruct Hpk as [_ _ Hct]. apply Forall2_app_inv_l in Hct as (db & dz' & Hcb & Hcz & ->).
    apply Forall2_cons_inv_l in Hcz as (dz & ? & _ & ->%Forall2_nil_inv_l & ->).
    exists db, dz. split; [done|]. by eapply Forall2_length. }
  rewrite Ed in Hpk. apply list.Forall_app in Hcp as [Hcpb (K1 & K2 & oz & K3 & K4)%list.Forall_singleton]. cbn [fst snd] in *.
  assert (oz = o) as -> by congruence.
  destruct (bump_ok w h cs z zb o blk db dz arg used src) as (w' & blk' & Hrun & Hpk' & Hd' & Hl' & Elb & Hch); try done; try lia.
  set (u' := mk_useg (set_oversize_left (u16 (oversize_left (u_seg u) - used)) (add_seg_len used (u_seg u))) (u_low u) (grow used cs ++ [(z, bumped used zb)]) (db ++ [dz ++ src])).
  assert (seg_len (u_seg u) + used < 2 ^ 16 ∧ 0 ≤ seg_len (u_seg u)) as [Hsl Hsl0].
  { pose proof (seg_ok_length _ _ Hs) as (? & ? & _ & ?). pose proof (so_len _ _ Hs). rewrite <- Ec in Hlt. lia. }
  assert (extends u u' src) as Hx.
  { constructor; try done.
    - simpl. rewrite u16_id by (unfold is_u16; lia). lia.
    - simpl. rewrite Ed, !concat_app. simpl. by rewrite !app_nil_r, (assoc_L app). }
  exists w', u'. split; [erewrite bind_lift; [by rewrite bind_assert by lia|exact Hrun]|]. rewrite Ec. split_and!; try done.
  - eapply (seg_ok_extend w w' u u' src (u_cs u') []); [done|done|by rewrite Eh|by rewrite app_nil_r| |constructor].
    rewrite Ec. apply Forall2_app.
    + clear. induction cs as [|c cs IH]; by constructor.
    + apply list.Forall2_cons. split; [|constructor]. split_and!; try done. cbn [snd]. lia.
  - simpl. by rewrite !fmap_app, grow_locs.
  - split; [lia|]. exists (grow used cs), z, (bumped used zb), o, blk'. split_and!; [done|done|done|lia].
  - simpl. apply u16_id. unfold is_u16. lia.
Qed.

(** The commit of phase 2. *)
Lemma commit_concat_none w P u pl : pl_concat_p pl = None → pl_extendlen pl = 0 →
  commit_concat pl (u_seg u) (mk_stack w P) = Ret (u_seg u, mk_stack w P).
Proof. intros E1 E2. unfold commit_concat. by rewrite E1, E2. Qed.

Lemma commit_concat_ok w P u pl q src ov bs' X : seg_ok w u → pl_concat_p pl = Some q →
  copy_of w X q 0 src ov bs' → q ∈ live w → q ∉ (u_cs u).*1 → q.1 = HEAP →
  lens (u_cs u) + Z.of_nat (length src) < 2 ^ 16 →
  ∃ w' u', commit_concat pl (u_seg u) (mk_stack w P) = Ret (u_seg u', mk_stack w' P) ∧
    seg_ok w' u' ∧ extends u u' src ∧ (u_cs u').*1 = (u_cs u).*1 ++ [q] ∧ room w' u' ov ∧
    oversize_left (u_seg u') = oversize_left (u_seg u) ∧ changes (u_cs u).*1 w w'.
Proof.
  intros Hs Epl [Hram Hsrc Hov] Hl Hq Hh Hlt. unfold commit_concat. rewrite Epl.
  set (n := Z.of_nat (length src)) in *. pose proof Hram as [Hin Hpb Hd Hrg].
  pose proof (so_packet _ _ Hs) as Hpk. pose proof (seg_ok_length _ _ Hs) as (Hlow & Hhl & _ & Hfit).
  assert (∃ h, seg_p (u_seg u) = Some h) as [h Eh].
  { destruct (so_hdr _ _ Hs) as (l & pb & cs & o & Ec & _). destruct Hpk as [Hc _ _]. rewrite Ec in Hc.
    destruct Hc as (E & _). eauto. }
  rewrite Eh in *.
  assert (packet w (Some q) [(q, ram_pbuf q 0 n)] [src]) as Hpq.
  { constructor; simpl.
    - by split_and!.
    - unfold is_u16. split_and!; try done; lia.
    - apply list.Forall2_cons. split; [|constructor]. cbn [snd ram_pbuf payload len].
      rewrite (load_own w q 0 0 n bs') by (done || lia). do 2 f_equal. rewrite <- Hsrc. f_equal. unfold n. lia. }
  destruct (pbuf_cat_ok w h (u_cs u) (u_ds u) q [(q, ram_pbuf q 0 n)] [src]) as (w' & ch' & Hrun & Ho & El & Hpk' & Hrl); try done.
  { intros l Hlc ->%list_elem_of_singleton. by apply Hq. }
  { simpl. lia. }
  rewrite (bind_lift _ _ _ _ _ _ Hrun). assert (pbs w' !! q = Some (ram_pbuf q 0 n)) as Hpb' by (by rewrite (on_pbs _ _ _ Ho)).
  rewrite (bind_lift _ _ _ _ _ _ (rd_ok w' q (ram_pbuf q 0 n) ltac:(by rewrite (on_live _ _ _ Ho)) Hpb')).
  set (u' := mk_useg (add_seg_len n (u_seg u)) (u_low u) (ch' ++ [(q, ram_pbuf q 0 n)]) (u_ds u ++ [src])).
  assert (extends u u' src) as Hx.
  { pose proof (so_len _ _ Hs). constructor; try done.
    - simpl. rewrite u16_id by (unfold is_u16; lia). done.
    - simpl. rewrite concat_app. simpl. by rewrite app_nil_r. }
  exists w', u'. split; [done|]. split_and!; try done.
  - eapply (seg_ok_extend w w' u u' src ch'); [done|done|by rewrite Eh|done| |].
    + eapply list.Forall2_impl; [exact Hrl|]. intros c c' (H1 & (H2 & H3) & H4 & _). split_and!; try done. lia.
    + apply list.Forall_singleton. split_and!; [done|done|]. by exists 0.
  - simpl. by rewrite fmap_app, El.
  - split; [lia|]. exists ch', q, (ram_pbuf q 0 n), 0, bs'. split_and!; try done; [by rewrite (on_data _ _ _ Ho)|simpl; lia].
  - constructor.
    + apply (on_live _ _ _ Ho).
    + apply (on_allocs _ _ _ Ho).
    + apply (on_pbs _ _ _ Ho).
    + destruct Hpk as [Hc _ _], Hpk' as [Hc' _ _].
      eapply (chain_kind w w'); [exact Hc| |exact Ho|done|].
      * intros l pb Hc1. apply (chain_lookup w' _ _ _ _ Hc'). apply elem_of_app. by left.
      * eapply list.Forall2_impl; [exact Hrl|]. intros c c' (H1 & _ & H4 & H5 & _). done.
    + intros r _. by rewrite (on_data _ _ _ Ho).
    + intros r. by rewrite (on_data _ _ _ Ho).
Qed.

(** ** The push flag *)

Lemma copied_regions cs : Forall copied cs → NoDup cs.*1 →
  NoDup (regions cs) ∧ ∀ r, r ∈ regions cs → ∃ l, l ∈ cs.*1 ∧ r = Own l.
Proof.
  induction 1 as [|[l pb] cs (_ & _ & o & Hp & _) Hcp IH]; simpl; intros Hnd.
  { split; [constructor|]. by intros r ?%elem_of_nil. }
  apply list.NoDup_cons in Hnd as [Hl Hnd]. destruct (IH Hnd) as [Hr Hin]. cbn [snd fst] in Hp.
  unfold region_list. rewrite Hp. destruct (len pb =? 0); simpl.
  - split; [done|]. intros r (l' & ? & ->)%Hin. exists l'. split; [by right|done].
  - split.
    + apply list.NoDup_cons. split; [|done]. intros (l' & Hl' & [= ->])%Hin. done.
    + intros r [->|(l' & ? & ->)%Hin]%elem_of_cons; [exists l|exists l']; (split; [|done]); [by left|by right].
Qed.

Lemma drop_splice (X src : bytes) k i : (k ≤ length X)%nat → drop k (splice (k + i) src X) = splice i src (drop k X).
Proof.
  intros Hk. rewrite <- (take_drop k X) at 1. assert (length (take k X) = k) as E by (rewrite length_take; lia).
  rewrite <- E at 2. rewrite splice_app_l. by rewrite drop_app_length' by done.
Qed.

(** [TCPH_SET_FLAG(seg->tcphdr, f)] *)
Lemma set_flag_seg_ok f w P u : 0 ≤ f < 64 → seg_ok w u →
  ∃ w' u', TCPH_SET_FLAG (tcphdr (u_seg u)) f (mk_stack w P) = Ret ((), mk_stack w' P) ∧ seg_ok w' u' ∧
    u_seg u' = u_seg u ∧ u_cs u' = u_cs u ∧ u_low u' = u_low u ∧ flag_set f (u_bytes u) (u_bytes u') ∧
    (∀ n, room w u n → room w' u' n) ∧ changes (u_cs u).*1 w w'.
Proof.
  intros Hf Hs. pose proof (seg_ok_length _ _ Hs) as (H0 & H20 & Hl & Hle). pose proof Hs as [Hpk Hcp _ Hhd Hsl Hwf].
  destruct Hhd as (l & pb & cs & o & Ec & Hp & Eh & Hh). rewrite Ec in Hpk, Hcp.
  destruct (u_ds u) as [|d ds] eqn:Eds.
  { destruct Hpk as [_ _ Hct]. by apply Forall2_nil_inv_r in Hct. }
  pose proof (packet_cons _ _ _ _ _ _ _ Hpk) as (_ & Hlv & Hpb & _ & Hld & Hdl & _).
  pose proof (chain_NoDup _ _ _ (pk_chain _ _ _ _ Hpk)) as Hnd. destruct (copied_regions _ Hcp Hnd) as [Hnr Hrl].
  set (src := le_bytes 2 (Z.lor (le_word (take 2 (drop 12 (u_bytes u)))) (lwip_htons f))).
  assert (length src = 2%nat) as Hsrc by apply length_le_bytes.
  assert (take 2 (drop (Z.to_nat (u_low u + 12)) d) = take 2 (drop 12 (u_bytes u))) as Eb.
  { unfold u_bytes. rewrite Eds. simpl concat. rewrite drop_app_le by lia. rewrite drop_app_le by (rewrite length_drop; lia).
    rewrite take_app_le by (rewrite !length_drop; lia). rewrite drop_drop. do 2 f_equal. lia. }
  destruct (packet_store _ _ _ _ _ _ _ (u_low u + 12) src Hpk Hnr) as (w' & Hst & Hfr & Hpk'); [lia|lia|].
  set (u' := mk_useg (u_seg u) (u_low u) (u_cs u) (splice (Z.to_nat (u_low u + 12)) src d :: ds)).
  assert (u_bytes u' = set_flag f (u_bytes u)) as Eu.
  { unfold u_bytes at 1. simpl. rewrite <- splice_app_r by lia.
    replace (Z.to_nat (u_low u + 12)) with (Z.to_nat (u_low u) + 12)%nat by lia.
    rewrite drop_splice by (rewrite length_app; lia).
    unfold src, set_flag, u_bytes. by rewrite Eds. }
  assert (flag_set f (u_bytes u) (u_bytes u')) as Hph.
  { rewrite Eu. apply set_flag_ok; [done| |done]. unfold u_bytes. rewrite Eds, length_drop. lia. }
  exists w', u'. split.
  { unfold TCPH_SET_FLAG, hdr_put. rewrite Eh. rewrite Hp in *.
    erewrite bind_lift.
    2:{ transitivity (load (Some (Own l, o)) (u_low u + 12) 2 w).
        - unfold load. by rewrite !Z.add_assoc.
        - apply (load_sub _ _ _ _ _ _ Hld); lia. }
    change (Z.to_nat 2) with 2%nat. rewrite Eb. unfold lift_world. simpl wld.
    replace (store (Some (Own l, o + u_low u)) 12) with (store (A := A) (Some (Own l, o)) (u_low u + 12)).
    - unfold src in Hst. by rewrite Hst.
    - unfold store. by rewrite !Z.add_assoc. }
  split_and!; try done.
  - constructor; simpl.
    + by rewrite Ec.
    + by rewrite Ec.
    + apply Hs.
    + by exists l, pb, cs, o.
    + done.
    + apply (fs_wf _ _ _ Hph).
  - intros n [Hn (cs1 & z & zb & oz & bs & E1 & E2 & E3 & E4)]. split; [done|].
    pose proof (fr_size _ _ _ Hfr (Own z)) as Hsz. rewrite E3 in Hsz.
    destruct (data w' !! Own z) as [bs'|] eqn:Ed; [|done]. injection Hsz as Hsz.
    exists cs1, z, zb, oz, bs'. split_and!; try done. lia.
  - destruct Hfr as [F1 F2 F3 F4 F5 F6]. constructor; try done.
    + intros l' _. by rewrite F1.
    + intros l'. by rewrite F1.
    + intros r Hr. apply F5. unfold region_list. rewrite Hp. destruct (len pb =? 0); [by intros ?%elem_of_nil|].
      intros ->%list_elem_of_singleton. apply (Hr l); [|done]. rewrite Ec. by left.
Qed.
End Commit.
