(* ===== verification/TcpWriteSpec.v ===== *)
(** * The contract of [tcp_write]

    The phases of [tcp_write] put together: it appends to the queue or changes
    nothing; and the segments for flags. *)

From S2P Require Import Prelude CLib Def Mem Memp Alloc Pbuf PbufChain PbufWrite PbufOwn PbufOps PbufSpec PbufRam TcpRaw TcpRawSpec TcpOut TcpQueue TcpWrite.
Import Def.Def Pbuf TcpRaw TcpOut.

(** ** Queues without their control block *)

Section Lists.
Context {A : Type} `{HA : Alloc A} {elt_size : memp_t → Z} `{HL : !AllocLaws A elt_size}.
Implicit Types (w : world A) (L : gmap loc Z) (u : useg) (vs : list useg).

(** The segments [vs] end at the sequence number [lbb]; [ov] bytes fit behind the
    last and keep it within [ml] bytes. *)
Record list_ok w L vs (lbb ov ml : Z) : Prop := mk_list_ok {
  lo_segs : Forall (seg_ok w) vs;
  lo_locs : NoDup (queue_locs vs);
  lo_nodes : NoDup (queue_nodes vs);
  lo_held l : l ∈ queue_nodes vs → is_Some (L !! l);
  lo_seq : ∃ a, seq_run a vs lbb;
  lo_room : match list.last vs with
    | None => ov = 0
    | Some u => room w u ov ∧ u_used u + ov ≤ ml ∧ oversize_left (u_seg u) = ov
    end;
}.

Lemma queue_list_ok w L c us na : queue_ok w L c us na →
  list_ok w L us (snd_lbb (rest c)) (unsent_oversize (rest c)) (mss_local c).
Proof. intros []. by constructor. Qed.

(** The push flag on the last segment. *)
Record like u u' : Prop := mk_like {
  lk_seg : u_seg u' = u_seg u;
  lk_cs : u_cs u' = u_cs u;
  lk_data : u_data u' = u_data u;
  lk_seqno : seqno_of (u_bytes u') = seqno_of (u_bytes u);
  lk_tcplen : u_tcplen u' = u_tcplen u;
}.

Lemma seq_run_last a vs u u' b : like u u' → seq_run a (vs ++ [u]) b → seq_run a (vs ++ [u']) b.
Proof.
  intros Hk. revert a. induction vs as [|v vs IH]; intros a; simpl.
  - destruct Hk as [_ _ _ -> ->]. done.
  - intros [? ?]. auto.
Qed.

Lemma queue_locs_sub vs u l : u ∈ vs → l ∈ (u_cs u).*1 → l ∈ queue_locs vs.
Proof. intros. apply queue_locs_elem. eauto. Qed.

Lemma segs_same_on w w' vs ls : Forall (seg_ok w) vs → changes ls w w' →
  (∀ l, l ∈ queue_locs vs → l ∉ ls) → Forall (seg_ok w') vs.
Proof.
  intros Hs Hc Hd. rewrite list.Forall_forall in Hs |- *. intros u Hu. eapply seg_ok_same; [|by apply Hs].
  eapply changes_same_on; [exact Hc|]. intros l Hl. apply Hd. by eapply queue_locs_sub.
Qed.

Lemma queue_locs_snoc_disj vs u l : NoDup (queue_locs (vs ++ [u])) → l ∈ queue_locs vs → l ∉ (u_cs u).*1.
Proof.
  rewrite queue_locs_app. intros (_ & Hd & _)%list.NoDup_app Hl Hu. apply (Hd l Hl).
  eapply queue_locs_sub; [by apply list_elem_of_singleton|done].
Qed.

(** A flag in the header of the last segment changes no other segment. *)
Lemma flag_last f w P L vs u lbb ov ml : 0 ≤ f < 64 → list_ok w L (vs ++ [u]) lbb ov ml →
  ∃ w' u', TCPH_SET_FLAG (tcphdr (u_seg u)) f (mk_stack w P) = Ret ((), mk_stack w' P) ∧
    u_seg u' = u_seg u ∧ u_cs u' = u_cs u ∧ u_data u' = u_data u ∧ flag_set f (u_bytes u) (u_bytes u') ∧
    (∀ lbb', (∃ a, seq_run a (vs ++ [u']) lbb') → list_ok w' L (vs ++ [u']) lbb' ov ml) ∧ changes (u_cs u).*1 w w'.
Proof.
  intros Hf [Hs Hl Hn Hh _ Hr]. apply list.Forall_app in Hs as [Hs Hu]. rewrite list.Forall_singleton in Hu.
  destruct (set_flag_seg_ok f w P u Hf Hu) as (w' & u' & Hrun & Hu' & Es & Ec & El & Hfs & Hroom & Hch).
  exists w', u'. split_and!; try done.
  { unfold u_data, u_hlen. rewrite Es. apply (fs_rest _ _ _ Hfs).
    destruct (optlen_cases (seg_flags (u_seg u))); change TCP_HLEN with 20; lia. }
  intros lbb' Hq. constructor; [| | | |exact Hq|].
  - apply list.Forall_app. split; [|by apply list.Forall_singleton]. eapply segs_same_on; [done|exact Hch|].
    intros l Hlv. by eapply queue_locs_snoc_disj.
  - rewrite queue_locs_app in *. unfold queue_locs at 2 in Hl. unfold queue_locs at 2. simpl in *. by rewrite Ec.
  - unfold queue_nodes in *. rewrite fmap_app in *. simpl in *. unfold u_node at 2. by rewrite Es.
  - intros l. unfold queue_nodes in *. rewrite fmap_app in *. simpl in *. unfold u_node at 2. rewrite Es. apply Hh.
  - rewrite last_snoc in *. destruct Hr as [Hr1 Hr2]. split; [by apply Hroom|]. unfold u_used in *. by rewrite Es.
Qed.

Lemma push_last w P L vs u lbb ov ml : list_ok w L (vs ++ [u]) lbb ov ml →
  ∃ w' u', TCPH_SET_FLAG (tcphdr (u_seg u)) TCP_PSH (mk_stack w P) = Ret ((), mk_stack w' P) ∧ like u u' ∧
    list_ok w' L (vs ++ [u']) lbb ov ml ∧ changes (u_cs u).*1 w w'.
Proof.
  intros Hlo. destruct (flag_last TCP_PSH w P L vs u lbb ov ml ltac:(done) Hlo)
    as (w' & u' & Hrun & Es & Ec & Ed & Hfs & Hlo' & Hch).
  assert (like u u') as Hk.
  { constructor; try done; [by apply Hfs|]. unfold u_tcplen. by rewrite Es, (psh_flags _ _ Hfs). }
  exists w', u'. split_and!; try done. apply Hlo'. destruct (lo_seq _ _ _ _ _ _ Hlo) as [a Ha]. exists a. by eapply seq_run_last.
Qed.

End Lists.

Section Tail.
Context {A : Type} `{HA : Alloc A} {elt_size : memp_t → Z} `{HL : !AllocLaws A elt_size}.
Implicit Types (w : world A) (L : gmap loc Z) (X N : gset loc) (u : useg).

Lemma extends_trans u1 u2 u3 a b : extends u1 u2 a → extends u2 u3 b → extends u1 u3 (a ++ b).
Proof.
  intros [A1 A2 A3 A4 A5 A6 A7] [B1 B2 B3 B4 B5 B6 B7]. constructor; try congruence.
  - rewrite B6, A6, length_app. lia.
  - by rewrite B7, A7, (assoc_L app).
Qed.

Lemma plan_ok_keeps c us bs len w w' X pl : plan_ok c us bs len w X pl → keeps w w' →
  (∀ l, l ∈ X → l ∈ live w) → plan_ok c us bs len w' X pl.
Proof.
  intros Hp Hk Hx. unfold plan_ok in *. destruct (list.last us) as [u|]; [|done]. cbv zeta in *.
  destruct Hp as (H1 & H2 & H3 & H4). split_and!; try done; try apply H1.
  destruct (pl_concat_p pl) as [q|]; [|done]. destruct H4 as (n & bs' & -> & K1 & K2 & K3 & K4 & K5 & K6).
  exists n, bs'. split_and!; try done; try apply K6.
  eapply copy_of_keeps; [exact Hk|apply Hx; set_solver|set_solver|exact K5].
Qed.

Lemma queue_keeps w w' us : Forall (seg_ok w) us → keeps w w' → Forall (seg_ok w') us.
Proof.
  intros Hs Hk. eapply list.Forall_impl; [exact Hs|]. intros u Hu. eapply seg_ok_same; [|exact Hu].
  eapply keeps_same_on; [exact Hk|]. intros l. apply chain_live with (seg_p (u_seg u)), Hu.
Qed.

Lemma grown_keeps w0 L0 w L X N : grown w0 L0 w L X N → keeps w0 w.
Proof.
  intros Hg. split; [|apply Hg]. intros l Hl. split; [|by apply Hg].
  rewrite (gr_live _ _ _ _ _ _ Hg). by apply elem_of_union_r.
Qed.

(** What [tail_pcb] changes of a queue. *)
Definition tail_useg (pl : plan) u : useg := mk_useg (tail_seg pl (u_seg u)) (u_low u) (u_cs u) (u_ds u).

Lemma seg_ok_tail w pl u : seg_ok w u → seg_ok w (tail_useg pl u).
Proof.
  unfold tail_useg, tail_seg. destruct (pl_concat_p pl); [|by destruct u].
  intros [H1 H2 H3 H4 H5 H6]. by constructor.
Qed.

Lemma extends_tail pl u u' x : extends (tail_useg pl u) u' x → extends u u' x.
Proof.
  unfold tail_useg, tail_seg. destruct (pl_concat_p pl); [|by destruct u].
  intros [H1 H2 H3 H4 H5 H6 H7]. by constructor.
Qed.

Lemma tail_unsent c us u pl : unsent (rest c) = u_seg <$> us ++ [u] →
  unsent (rest (tail_pcb c pl)) = u_seg <$> us ++ [tail_useg pl u].
Proof.
  intros E. unfold tail_pcb, tail_useg, tail_seg. rewrite !fmap_app in *.
  change (u_seg <$> [u]) with [u_seg u] in E.
  destruct (pl_concat_p pl); simpl; [|done]. rewrite E. unfold upd_last. by rewrite last_snoc, removelast_last.
Qed.

Lemma tail_fields c pl : unacked (rest (tail_pcb c pl)) = unacked (rest c) ∧
  snd_lbb (rest (tail_pcb c pl)) = snd_lbb (rest c).
Proof. unfold tail_pcb. by destruct (pl_concat_p pl). Qed.

(** When data is left for phase 3, the new pbuf has no room to spare. *)
Lemma tail_pcb_id w L c us na bs len w' X pl : queue_ok w L c us na → plan_ok c us bs len w' X pl →
  pl_pos pl < len → tail_pcb c pl = c.
Proof.
  intros Hq Hp Hlt. unfold tail_pcb. destruct (pl_concat_p pl) as [q|] eqn:E; [|done].
  unfold plan_ok in Hp. pose proof (qo_room _ _ _ _ _ Hq) as Hr. pose proof (qo_unsent _ _ _ _ _ Hq) as Hu.
  destruct (list.last us) as [u|] eqn:El; [|destruct Hp as [-> _]; done].
  rewrite E in Hp. destruct Hp as (_ & _ & _ & n & bs' & _ & _ & Epos & _ & _ & _ & _ & _ & _ & Hz).
  destruct (qo_mss _ _ _ _ _ Hq) as [Hm Hw]. pose proof (mss_local_range c Hm Hw). change TCP_MSS with 536 in Hm.
  apply last_Some in El as [us0 ->]. rewrite fmap_app in Hu. change (u_seg <$> [u]) with [u_seg u] in Hu. destruct Hr as [[Hr0 _] [Hfit Hl]].
  assert (0 ≤ seg_len (u_seg u) + LWIP_TCP_OPT_LENGTH (seg_flags (u_seg u))) as H0.
  { pose proof (qo_segs _ _ _ _ _ Hq) as Hs. apply list.Forall_app in Hs as [_ Hs]. rewrite list.Forall_singleton in Hs.
    pose proof (seg_ok_length _ _ Hs). pose proof (so_len _ _ Hs). pose proof (optlen_cases (seg_flags (u_seg u))). lia. }
  assert (upd_last (tail_seg pl) (unsent (rest c)) = unsent (rest c)) as Eu.
  { rewrite Hu. unfold upd_last. rewrite last_snoc, removelast_last. do 2 f_equal. unfold tail_seg.
    rewrite E, Hz, Z.add_0_r, u16_id by (unfold is_u16 || idtac; lia). by destruct (u_seg u). }
  unfold set_rest, set_unsent. rewrite Eu. destruct c as [? ? ? ? ? ? ? ? ? ? ? ? ? ? ? ? []]. done.
Qed.

(** Phases 1 and 2 on the last unsent segment. *)
Lemma commit_tail_ok w0 L0 w P L X N c us0 u na bs len arg pl Xp :
  queue_ok w0 L0 c (us0 ++ [u]) na → grown w0 L0 w L X N → plan_ok c (us0 ++ [u]) bs len w Xp pl → Xp ⊆ X →
  load arg 0 len w0 = Ret (bs, w0) → Z.of_nat (length bs) = len →
  ∃ w' u', (s ← commit_oversize arg (pl_oversize_used pl) (tail_seg pl (u_seg u)); s ← commit_concat pl s; mret [s])
      (mk_stack w P) = Ret ([u_seg u'], mk_stack w' P) ∧ seg_ok w' u' ∧
    extends u u' (take (Z.to_nat (pl_pos pl)) bs) ∧ changes (u_cs u).*1 w w' ∧
    (u_cs u').*1 = (u_cs u).*1 ++ option_list (pl_concat_p pl) ∧ room w' u' (pl_oversize pl) ∧
    u_used u' + pl_oversize pl ≤ mss_local c ∧ oversize_left (u_seg u') = pl_oversize pl ∧ 0 ≤ pl_pos pl ≤ len.
Proof.
  intros Hq Hg Hp HX Hld Hlen. pose proof (grown_keeps _ _ _ _ _ _ Hg) as Hk.
  destruct (qo_mss _ _ _ _ _ Hq) as [Hm Hwm]. pose proof (mss_local_range c Hm Hwm) as Hml. change TCP_MSS with 536 in Hm.
  pose proof (qo_room _ _ _ _ _ Hq) as Hroom. rewrite last_snoc in Hroom. destruct Hroom as [Hroom [Hfit Hleft]].
  unfold plan_ok in Hp. rewrite last_snoc in Hp. cbv zeta in Hp. set (used := pl_oversize_used pl) in *.
  destruct Hp as (Hu & Hul & Hext & Hcat).
  pose proof (qo_segs _ _ _ _ _ Hq) as Hs. apply list.Forall_app in Hs as [_ Hs0]. rewrite list.Forall_singleton in Hs0.
  assert (∀ l, l ∈ (u_cs u).*1 → l ∈ live w0) as Hlive.
  { intros l. apply chain_live with (seg_p (u_seg u)), Hs0. }
  assert (seg_ok w u) as Hs by (eapply seg_ok_same; [eapply keeps_same_on; [exact Hk|exact Hlive]|done]).
  assert (room w u (unsent_oversize (rest c))) as Hroom'.
  { eapply room_same; [eapply keeps_same_on; [exact Hk|exact Hlive]|done]. }
  pose proof (seg_ok_length _ _ Hs) as (Hlow & Hhl & Hcl & Hle). pose proof (so_len _ _ Hs) as Hsl.
  pose proof (proj2 (so_low _ _ Hs)) as Hlow2. change (PBUF_IP_HLEN + PBUF_LINK_HLEN) with 36 in Hlow2.
  pose proof (optlen_cases (seg_flags (u_seg u))) as Hopt.
  assert (u_hlen u ≤ 24) as Hhl2 by (unfold u_hlen; change TCP_HLEN with 20; lia).
  assert (load arg 0 used w = Ret (take (Z.to_nat used) bs, w)) as Hld'.
  { eapply grown_load; [exact Hg|]. rewrite (load_sub w0 arg len bs 0 used); [done|done|lia|lia|lia]. }
  assert (Z.of_nat (length (take (Z.to_nat used) bs)) = used) as Htl by (rewrite length_take; lia).
  assert (oversize_left (u_seg (tail_useg pl u)) = unsent_oversize (rest c) +
    match pl_concat_p pl with Some _ => pl_oversize pl | None => 0 end) as Hol.
  { simpl. unfold tail_seg. destruct (pl_concat_p pl); simpl; [|lia]. rewrite Hleft. apply u16_id. unfold is_u16.
    destruct Hcat as (n & bs' & _ & Hn & _ & _ & _ & Hco & _ & _ & Hfit2 & _). pose proof (co_room _ _ _ _ _ _ _ Hco).
    unfold u_used in Hfit2. lia. }
  destruct (commit_oversize_ok w P (tail_useg pl u) (unsent_oversize (rest c)) used arg (take (Z.to_nat used) bs)
    (seg_ok_tail _ _ _ Hs) Hroom' Hu) as (w1 & u1 & Hrun1 & Hs1 & Hx1 & El1 & Hr1 & Hol1 & Hc1); [|done|done|simpl; lia|].
  { rewrite Hol. destruct (pl_concat_p pl); [|lia].
    destruct Hcat as (n & bs' & _ & Hn & _ & _ & _ & Hco & _ & _ & Hfit2 & _). pose proof (co_room _ _ _ _ _ _ _ Hco).
    unfold u_used in Hfit2. lia. }
  apply extends_tail in Hx1. change (u_cs (tail_useg pl u)) with (u_cs u) in *.
  change (tail_seg pl (u_seg u)) with (u_seg (tail_useg pl u)).
  rewrite (bind_Ret _ _ _ _ _ Hrun1). pose proof (ex_len _ _ _ Hx1) as Elen1. pose proof (ex_flags _ _ _ Hx1) as Ef1.
  destruct (pl_concat_p pl) as [q|] eqn:Epl.
  - destruct Hcat as (n & bs' & -> & Hn & Epos & Hle1 & Hlp & Hco & Eql & Eov & Hfit2 & _).
    assert (Z.of_nat (length (chunk bs used n)) = n) as Hchl by (apply chunk_length; lia).
    assert (q ∈ X) as HqX by set_solver. pose proof (grown_X_live _ _ _ _ _ _ Hg q HqX) as Hql.
    assert (q ∉ (u_cs u).*1) as Hqu.
    { intros Hin. apply (gr_fresh _ _ _ _ _ _ Hg q HqX). by apply Hlive. }
    assert (copy_of w1 {[q]} q 0 (chunk bs used n) (pl_oversize pl) bs') as Hco1.
    { destruct Hco as [[R1 R2 R3 R4] R5 R6]. constructor; [|done|done].
      destruct (changes_same_on _ [q] _ _ Hc1) with q as (_ & E1 & E2);
        [by intros l ->%list_elem_of_singleton|by left|]. constructor; [done|by rewrite E1|by rewrite E2|done]. }
    assert (lens (u_cs u1) = lens (u_cs u) + used) as El.
    { pose proof (seg_ok_length _ _ Hs1) as (_ & _ & <- & _). rewrite (ex_bytes _ _ _ Hx1), length_app, Nat2Z.inj_add. lia. }
    destruct (commit_concat_ok w1 P u1 pl q (chunk bs used n) (pl_oversize pl) bs' {[q]} Hs1 Epl Hco1)
      as (w2 & u2 & Hrun2 & Hs2 & Hx2 & El2 & Hr2 & Hol2 & Hc2).
    { by rewrite (ch_live _ _ _ Hc1). } { by rewrite El1. } { by apply (gr_heap _ _ _ _ _ _ Hg). }
    { unfold u_used in Hfit2. pose proof (co_room _ _ _ _ _ _ _ Hco). lia. }
    rewrite (bind_Ret _ _ _ _ _ Hrun2). exists w2, u2. split; [done|]. split; [done|].
    pose proof (extends_trans _ _ _ _ _ Hx1 Hx2) as Hx.
    assert (take (Z.to_nat used) bs ++ chunk bs used n = take (Z.to_nat (pl_pos pl)) bs) as Ech.
    { rewrite Epos, Z2Nat.inj_add by lia. unfold chunk. by rewrite take_take_drop. }
    rewrite Ech in Hx. split; [done|]. split_and!; try lia.
    + eapply changes_mono; [|by eapply changes_trans]. rewrite El1. set_solver.
    + by rewrite El2, El1.
    + done.
    + unfold u_used in *. rewrite (ex_flags _ _ _ Hx), (ex_len _ _ _ Hx). rewrite length_take. lia.
  - destruct Hcat as (-> & Epos & Eov & Eql). rewrite (bind_Ret _ _ _ _ _ (commit_concat_none w1 P u1 pl Epl Hext)).
    exists w1, u1. rewrite app_nil_r, Epos, Eov. split_and!; try done; try lia.
    unfold u_used. rewrite Ef1, Elen1, Htl. lia.
Qed.

End Tail.

Section Commit.
Context {A : Type} `{HA : Alloc A} {elt_size : memp_t → Z} `{HL : !AllocLaws A elt_size}.
Implicit Types (w : world A) (L : gmap loc Z) (X N : gset loc) (u : useg).

(** The queue [us] after the commit of phases 1 and 2. *)
Record prefix_ok c (us : list useg) (bs : bytes) (len : Z) (pl : plan) w w' (pre : list useg) : Prop := mk_prefix_ok {
  pf_segs : Forall (seg_ok w') pre;
  pf_locs : queue_locs pre = queue_locs us ++ option_list (pl_concat_p pl);
  pf_nodes : queue_nodes pre = queue_nodes us;
  pf_seq a : seq_run a us (snd_lbb (rest c)) → seq_run a pre (u32 (snd_lbb (rest c) + pl_pos pl));
  pf_data : queue_data pre = queue_data us ++ take (Z.to_nat (pl_pos pl)) bs;
  pf_room : match list.last pre with
    | None => pl_oversize pl = 0
    | Some u => room w' u (pl_oversize pl) ∧ u_used u + pl_oversize pl ≤ mss_local c ∧
        oversize_left (u_seg u) = pl_oversize pl
    end;
  pf_changes : changes (queue_locs us) w w';
  pf_pos : 0 ≤ pl_pos pl ≤ len;
  pf_queuelen : pl_queuelen pl = snd_queuelen (rest c) + Z.of_nat (length (option_list (pl_concat_p pl)));
}.

Definition commit_tail (arg : option ptr) (pl : plan) c : M (stack A tcp_snd) (list tcp_seg) :=
  match list.last (unsent (rest c)) with
  | Some s =>
      s ← commit_oversize arg (pl_oversize_used pl) s;
      s ← commit_concat pl s;
      mret [s]
  | None =>
      _ ← assert_ (bool_decide (pl_concat_p pl = None));
      mret []
  end.

Lemma seq_run_snoc a us u b : seq_run a (us ++ [u]) b ↔ seq_run a us (seqno_of (u_bytes u)) ∧
  u32 (seqno_of (u_bytes u) + u_tcplen u) = b.
Proof.
  revert a. induction us as [|v us IH]; intros a; simpl.
  - split; [intros [-> ?]; done|intros [-> ?]; done].
  - rewrite IH. naive_solver.
Qed.

Lemma queue_locs_one u : queue_locs [u] = (u_cs u).*1.
Proof. unfold queue_locs. simpl. by rewrite app_nil_r. Qed.

Lemma commit_prefix_ok w0 L0 w P L X N c us na bs len arg pl Xp :
  queue_ok w0 L0 c us na → grown w0 L0 w L X N → plan_ok c us bs len w Xp pl → Xp ⊆ X →
  load arg 0 len w0 = Ret (bs, w0) → Z.of_nat (length bs) = len →
  ∃ w' pre tail, commit_tail arg pl (tail_pcb c pl) (mk_stack w P) = Ret (tail, mk_stack w' P) ∧
    prefix_ok c us bs len pl w w' pre ∧
    removelast (unsent (rest (tail_pcb c pl))) ++ tail = u_seg <$> pre ∧
    head tail = u_seg <$> list.last pre ∧ (pl_tail pl = true → pre ≠ []).
Proof.
  intros Hq Hg Hp HX Hld Hlen. unfold commit_tail.
  destruct (list.last us) as [u|] eqn:Elast.
  - apply last_Some in Elast as [us0 ->].
    rewrite (tail_unsent c us0 u pl (qo_unsent _ _ _ _ _ Hq)), fmap_last, last_snoc.
    cbn [fmap option_fmap option_map tail_useg u_seg].
    destruct (commit_tail_ok w0 L0 w P L X N c us0 u na bs len arg pl Xp Hq Hg Hp HX Hld Hlen)
      as (w' & u' & Hrun & Hs' & Hx & Hch & El & Hr & Hfit & Hol & Hpos).
    pose proof (qo_segs _ _ _ _ _ Hq) as Hs. pose proof (queue_keeps _ _ _ Hs (grown_keeps _ _ _ _ _ _ Hg)) as Hsw.
    pose proof (qo_locs _ _ _ _ _ Hq) as Hnd. pose proof Hsw as Hsw'. apply list.Forall_app in Hsw as [Hs0 Hu].
    rewrite list.Forall_singleton in Hu.
    pose proof (extends_facts _ _ _ _ Hu Hx) as (_ & _ & Ed & Esq & _ & Etl & End & _).
    exists w', (us0 ++ [u']), [u_seg u']. split; [done|]. split_and!.
    + constructor; try done.
      * apply list.Forall_app. split; [|by rewrite list.Forall_singleton]. eapply segs_same_on; [done|exact Hch|].
        intros l Hl. by eapply queue_locs_snoc_disj.
      * by rewrite !queue_locs_app, !queue_locs_one, El, (assoc_L app).
      * unfold queue_nodes. rewrite !fmap_app. simpl. by rewrite End.
      * intros a [H1 H2]%seq_run_snoc. apply seq_run_snoc. rewrite Esq, Etl. split; [done|]. rewrite <- H2.
        rewrite u32_add_l, Z.add_assoc. do 2 f_equal. rewrite length_take. lia.
      * rewrite !queue_data_app, <- (assoc_L app). f_equal. unfold queue_data. simpl. by rewrite !app_nil_r.
      * by rewrite last_snoc.
      * eapply changes_mono; [|exact Hch]. rewrite queue_locs_app, queue_locs_one. set_solver.
      * unfold plan_ok in Hp. rewrite last_snoc in Hp. destruct Hp as (_ & _ & _ & Hcat).
        destruct (pl_concat_p pl); [destruct Hcat as (? & ? & _ & _ & _ & _ & _ & _ & -> & _); done|].
        destruct Hcat as (_ & _ & _ & ->). simpl. lia.
    + rewrite !fmap_app. simpl. by rewrite removelast_last.
    + by rewrite last_snoc.
    + intros _ E. by apply app_nil in E as [_ ?].
  - apply last_None in Elast as ->. unfold plan_ok in Hp. simpl in Hp. destruct Hp as [-> _].
    change (tail_pcb c _) with c. rewrite (qo_unsent _ _ _ _ _ Hq).
    exists w, [], []. split; [done|]. split_and!; try done. constructor; try done; simpl.
    + intros a ->. rewrite Z.add_0_r. symmetry. apply u32_id, Hq.
    + lia.
    + lia.
Qed.

(** ... and with the new segments behind it. *)
Lemma commit_list_ok w0 L0 w L X N c us na bs len ov ql pl w' pre us' :
  queue_ok w0 L0 c us na → prefix_ok c us bs len pl w w' pre →
  grown w0 L0 w L X N → Forall (new_seg w X N) us' → NoDup (queue_locs us') → NoDup (queue_nodes us') →
  (∀ l, l ∈ option_list (pl_concat_p pl) → l ∈ X ∧ l ∉ queue_locs us') →
  segs_post c bs len (mss_local c) (pl_pos pl) (pl_oversize pl) (pl_queuelen pl) w us' (Some (ov, ql)) →
  list_ok w' L (pre ++ us') (u32 (snd_lbb (rest c) + len)) ov (mss_local c) ∧
  queue_data (pre ++ us') = queue_data us ++ bs ∧ ql = na + queue_clen (pre ++ us').
Proof.
  intros Hq Hpf Hg Hns Hl' Hn' Hcat (P1 & P2 & P3 & _ & P5 & _ & _).
  destruct (new_segs_sub _ _ _ _ Hns) as [HsX HsN].
  assert (∀ l, l ∈ queue_locs us → l ∈ live w0) as Hlive.
  { intros l (u & Hu & Hl)%queue_locs_elem. pose proof (qo_segs _ _ _ _ _ Hq) as Hs. rewrite list.Forall_forall in Hs.
    eapply chain_live; [apply (Hs u Hu)|exact Hl]. }
  assert (∀ l, l ∈ X → l ∉ queue_locs us) as HXus.
  { intros l HlX Hlu. apply (gr_fresh _ _ _ _ _ _ Hg l HlX). auto. }
  split_and!.
  - constructor.
    + apply list.Forall_app. split; [apply Hpf|]. eapply segs_same_on; [|apply Hpf|].
      * eapply list.Forall_impl; [exact Hns|]. intros u. by apply (new_seg_ok w0 L0 w L).
      * intros l Hl. by apply HXus, HsX.
    + rewrite queue_locs_app, (pf_locs _ _ _ _ _ _ _ _ Hpf). apply list.NoDup_app. split_and!; [|intros l [Hl|Hl]%elem_of_app|done].
      * apply list.NoDup_app. split_and!; [apply Hq|intros l Hl Ho; apply (HXus l); [by apply Hcat|done]|].
        destruct (pl_concat_p pl); [apply list.NoDup_singleton|constructor].
      * intros Hin. by apply (HXus l); [apply HsX|].
      * by apply Hcat.
    + unfold queue_nodes. rewrite fmap_app. fold (queue_nodes pre) (queue_nodes us').
      rewrite (pf_nodes _ _ _ _ _ _ _ _ Hpf). apply list.NoDup_app. split_and!; [apply Hq| |done].
      intros l Hl Hin. destruct (qo_held _ _ _ _ _ Hq l Hl) as [k Hk].
      rewrite (gr_new _ _ _ _ _ _ Hg l) in Hk by (apply elem_of_union_r; auto). done.
    + intros l. unfold queue_nodes. rewrite fmap_app. fold (queue_nodes pre) (queue_nodes us').
      rewrite (pf_nodes _ _ _ _ _ _ _ _ Hpf). intros [Hl|Hl]%elem_of_app; [|by apply (gr_nodes _ _ _ _ _ _ Hg), HsN].
      destruct (qo_held _ _ _ _ _ Hq l Hl) as [k Hk].
      destruct (decide (l ∈ X ∪ N)) as [Hin|Hin].
      * by rewrite (gr_new _ _ _ _ _ _ Hg l Hin) in Hk.
      * rewrite (gr_blocks _ _ _ _ _ _ Hg); [eauto|set_solver..].
    + destruct (qo_seq _ _ _ _ _ Hq) as [a Ha]. exists a. eapply seq_run_app; [by apply Hpf|done].
    + destruct us' as [|v us'']; [rewrite app_nil_r; simpl in P5; subst ov; apply Hpf|].
      rewrite last_app_cons. destruct (list.last (v :: us'')) as [x|] eqn:Ex; [|by apply last_None in Ex].
      destruct P5 as [Hr [Hf Hol]]. assert (x ∈ v :: us'') as Hx by (by apply last_Some_elem_of).
      rewrite list.Forall_forall in Hns. pose proof (Hns x Hx) as Hnx. split_and!; [| |done].
      * eapply room_same; [|exact Hr]. eapply changes_same_on; [apply Hpf|]. intros l Hl.
        apply HXus, HsX. by eapply queue_locs_sub.
      * destruct (ns_eq _ _ _ _ Hnx) as (node & q & n & ol & Ex' & _). unfold u_used. rewrite Ex' in *. simpl in *.
        change (LWIP_TCP_OPT_LENGTH 0) with 0. lia.
  - rewrite queue_data_app, (pf_data _ _ _ _ _ _ _ _ Hpf), P1, <- (assoc_L app). f_equal. apply take_drop.
  - rewrite P2, queue_clen_app, (pf_queuelen _ _ _ _ _ _ _ _ Hpf), (qo_queuelen _ _ _ _ _ Hq).
    unfold queue_clen. rewrite (pf_locs _ _ _ _ _ _ _ _ Hpf), length_app. lia.
Qed.
End Commit.

Section Contract.
Context {A : Type} `{HA : Alloc A} {elt_size : memp_t → Z} `{HL : !AllocLaws A elt_size}.
Implicit Types (w : world A) (L : gmap loc Z) (X N : gset loc) (u : useg) (P : gmap Z (tcp_pcb tcp_snd)).

Lemma bind_upd_P {B} w P id c f (k : () → M (stack A tcp_snd) B) : P !! id = Some c →
  (upd_pcb id f ≫= k) (mk_stack w P) = k () (mk_stack w (<[id := f c]> P)).
Proof. intros Hc. by rewrite (bind_upd_pcb _ _ c). Qed.

(** The assertions on the length of the queue. *)
Lemma queue_nonempty w L c us na : queue_ok w L c us na →
  (snd_queuelen (rest c) =? 0) = bool_decide (unacked (rest c) = []) && bool_decide (unsent (rest c) = []).
Proof.
  intros Hq. destruct (qo_unacked _ _ _ _ _ Hq) as [Hn Hu]. rewrite (qo_queuelen _ _ _ _ _ Hq), (qo_unsent _ _ _ _ _ Hq).
  destruct us as [|u us].
  - rewrite (bool_decide_eq_true_2 (u_seg <$> [] = [])), andb_true_r by done. change (queue_clen []) with 0.
    rewrite Z.add_0_r. case_bool_decide as E; [apply Hu in E as ->; done|].
    apply Z.eqb_neq. intros ->. by apply E, Hu.
  - rewrite (bool_decide_eq_false_2 (u_seg <$> u :: us = [])), andb_false_r by done.
    pose proof (qo_segs _ _ _ _ _ Hq) as Hs. apply list.Forall_cons in Hs as [Hs _].
    destruct (so_hdr _ _ Hs) as (l & pb & cs & o & Ec & _). change (u :: us) with ([u] ++ us).
    rewrite queue_clen_app. unfold queue_clen. rewrite queue_locs_one, Ec. simpl length. apply Z.eqb_neq. lia.
Qed.

(** When [tcp_write] goes ahead, and what the checks answer otherwise. *)
Definition may_send (c : tcp_pcb tcp_snd) : bool := bool_decide (pstate c ∈ [ESTABLISHED; CLOSE_WAIT; SYN_SENT; SYN_RCVD]).
Definition has_space (c : tcp_pcb tcp_snd) (len : Z) : bool :=
  (len =? 0) || (len <=? snd_buf c) && (snd_queuelen (rest c) <? TCP_SND_QUEUELEN).
Definition memerr_pcb (c : tcp_pcb tcp_snd) : tcp_pcb tcp_snd := set_pflags (Z.lor (pflags c) TF_NAGLEMEMERR) c.

Lemma tcp_write_checks_ok w P L id c us na len : P !! id = Some c → queue_ok w L c us na → 0 ≤ len →
  tcp_write_checks id len (mk_stack w P) =
    if may_send c then
      if has_space c len then Ret (ERR_OK, mk_stack w P)
      else Ret (ERR_MEM, mk_stack w (<[id := memerr_pcb c]> P))
    else Ret (ERR_CONN, mk_stack w P).
Proof.
  intros Hc Hq Hl. unfold tcp_write_checks, has_space. rewrite (bind_pcb _ _ _ _ _ Hc). cbv zeta.
  change (bool_decide (pstate c ∈ _)) with (may_send c). destruct (may_send c); [|done]. cbn [negb]. cbv iota.
  destruct (Z.eqb_spec len 0) as [->|Hne]; [done|]. cbn [orb].
  unfold or_flags. destruct (Z.ltb_spec (snd_buf c) len) as [Hlt|Hge].
  { rewrite (proj2 (Z.leb_gt _ _)) by lia. cbv iota. by rewrite (bind_upd_P _ _ _ c). }
  rewrite (proj2 (Z.leb_le len (snd_buf c))) by lia. cbn [andb]. change TCP_SND_QUEUELEN with 8. change TCP_SNDQUEUELEN_OVERFLOW with 65532.
  destruct (Z.leb_spec 8 (snd_queuelen (rest c))) as [Hf|Hf]; cbn [orb].
  { rewrite (proj2 (Z.ltb_ge _ 8)) by lia. cbv iota. by rewrite (bind_upd_P _ _ _ c). }
  rewrite (proj2 (Z.ltb_ge 65532 _)), (proj2 (Z.ltb_lt _ 8)) by lia. rewrite bind_assert; [done|].
  rewrite (queue_nonempty _ _ _ _ _ Hq). repeat case_bool_decide; done.
Qed.

(** [memerr:] gives everything back. *)
Lemma write_memerr_ok (custom_free_function : loc → M (world A) ()) w0 L0 w P L X N id c us na concat_p us' :
  queue_ok w0 L0 c us na → P !! id = Some c → grown w0 L0 w L X N → Forall (new_seg w X N) us' →
  NoDup (queue_locs us') → NoDup (queue_nodes us') →
  (∀ l, l ∈ X ↔ l ∈ option_list concat_p ++ queue_locs us') → (∀ l, l ∈ N ↔ l ∈ queue_nodes us') →
  (∀ q, concat_p = Some q → q ∉ queue_locs us' ∧ ∃ n bs, is_ram w X q 0 n bs) →
  ∃ w', write_memerr custom_free_function id concat_p (u_seg <$> us') (mk_stack w P) =
      Ret (ERR_MEM, mk_stack w' (<[id := memerr_pcb c]> P)) ∧ grown w0 L0 w' L0 ∅ ∅.
Proof.
  intros Hq Hc Hg Hns Hl Hn HX HN Hcat. unfold write_memerr, or_flags. rewrite (bind_upd_P _ _ _ c) by done.
  set (P1 := <[id := _]> P). assert (P1 !! id = Some (memerr_pcb c)) as Hc1 by apply lookup_insert_eq.
  assert (∃ w1 L1 X1, (match concat_p with
      | Some q => _ ← lift_world (pbuf_free custom_free_function (Some q)); mret ()
      | None => mret ()
      end) (mk_stack w P1) = Ret ((), mk_stack w1 P1) ∧ grown w0 L0 w1 L1 X1 N ∧ Forall (new_seg w1 X1 N) us' ∧
      ∀ l, l ∈ X1 ↔ l ∈ queue_locs us') as (w1 & L1 & X1 & Hrun & Hg1 & Hns1 & HX1).
  { destruct concat_p as [q|]; [|exists w, L, X; split_and!; done].
    destruct (Hcat q eq_refl) as (Hqn & n & bs & Hr).
    destruct (grown_pbuf_free custom_free_function _ _ _ _ _ _ q _ Hg (ir_in _ _ _ _ _ _ Hr) (ir_pbs _ _ _ _ _ _ Hr))
      as (w1 & L1 & Hf & Hg1 & Ed & Ep); [done|done|].
    exists w1, L1, (X ∖ {[q]}). split; [by rewrite (bind_lift _ _ _ _ _ _ Hf)|]. split; [done|].
    assert (∀ l, l ∈ X ∖ {[q]} ↔ l ∈ queue_locs us') as HX'.
    { intros l. rewrite elem_of_difference, HX, elem_of_singleton. simpl. rewrite elem_of_cons. split; [tauto|].
      intros Hin. split; [by right|]. intros ->. done. }
    split; [|done]. rewrite list.Forall_forall in Hns |- *. intros v Hv. apply (new_seg_frame w _ X _ N); [auto|done| |].
    - intros l Hlv. assert (l ∈ queue_locs us') as Hin by (by eapply queue_locs_sub). split; [|by apply HX'].
      apply Ep. by intros ->.
    - apply (Hns v Hv). }
  rewrite (bind_Ret _ _ _ _ _ Hrun).
  destruct (tcp_segs_free_ok custom_free_function us' w0 L0 w1 P1 L1 X1 N Hg1 Hns1 Hl Hn) as (w2 & L2 & Hrun2 & Hg2).
  rewrite (bind_Ret _ _ _ _ _ Hrun2), (bind_pcb _ _ _ _ _ Hc1). rewrite bind_assert.
  2:{ simpl. rewrite (queue_nonempty _ _ _ _ _ Hq). repeat case_bool_decide; done. }
  exists w2. split; [done|]. eapply grown_empty; [exact Hg2| |].
  - apply set_eq. intros l. rewrite elem_of_difference, elem_of_list_to_set, HX1. set_solver.
  - apply set_eq. intros l. rewrite elem_of_difference, elem_of_list_to_set, HN. set_solver.
Qed.

(** The control block after a write of [len] bytes. *)
Definition sent_pcb (c : tcp_pcb tcp_snd) (len ov ql : Z) (l : list tcp_seg) : tcp_pcb tcp_snd :=
  set_rest (λ q, mk_snd (local_port q) (remote_port q) (u32 (snd_lbb q + len)) (snd_wnd_max q) ql ov l (unacked q))
    (set_snd_buf (u16 (snd_buf c - len)) c).

Lemma sent_tail c pl len ov ql l : sent_pcb (tail_pcb c pl) len ov ql l = sent_pcb c len ov ql l.
Proof. unfold tail_pcb. by destruct (pl_concat_p pl). Qed.

Lemma list_queue_ok w L c vs na len ov ql bs us : queue_ok w L c us na → ∀ w' L',
  list_ok w' L' vs (u32 (snd_lbb (rest c) + len)) ov (mss_local c) → queue_data vs = queue_data us ++ bs →
  ql = na + queue_clen vs → queue_ok w' L' (sent_pcb c len ov ql (u_seg <$> vs)) vs na.
Proof.
  intros Hq w' L' [H1 H2 H3 H4 H5 H6] Hd Hql. constructor; try done; simpl; try apply Hq.
  - apply u16_range.
  - apply u32_range.
Qed.

(** The flag goes on the last of the new list, or nowhere. *)
Lemma push_list_ok w P L vs lbb ov ml (o : option tcp_seg) (more : bool) : list_ok w L vs lbb ov ml →
  (o = None ∨ o = u_seg <$> list.last vs) →
  ∃ w' vs', (match o with
     | Some s => match tcphdr s with
                 | Some h => if more then mret () else TCPH_SET_FLAG (Some h) TCP_PSH
                 | None => mret ()
                 end
     | None => mret ()
     end : M (stack A tcp_snd) ()) (mk_stack w P) = Ret ((), mk_stack w' P) ∧
    list_ok w' L vs' lbb ov ml ∧ u_seg <$> vs' = u_seg <$> vs ∧ queue_locs vs' = queue_locs vs ∧
    queue_data vs' = queue_data vs ∧ changes (queue_locs vs) w w'.
Proof.
  intros Hl Ho. destruct o as [s|]; [|by exists w, vs]. destruct Ho as [|Ho]; [done|].
  destruct (list.last vs) as [u|] eqn:El; [|done]. injection Ho as ->.
  apply last_Some in El as [vs0 ->]. pose proof (lo_segs _ _ _ _ _ _ Hl) as Hs.
  apply list.Forall_app in Hs as [_ Hs]. rewrite list.Forall_singleton in Hs.
  destruct (so_hdr _ _ Hs) as (l & pb & cs & o & _ & _ & Eh & _). rewrite Eh.
  destruct more; [by exists w, (vs0 ++ [u])|]. rewrite <- Eh.
  destruct (push_last w P L vs0 u lbb ov ml Hl) as (w' & u' & Hrun & [K1 K2 K3 K4 K5] & Hl' & Hch).
  exists w', (vs0 ++ [u']). split; [done|]. split; [done|]. split_and!.
  - rewrite !fmap_app. simpl. by rewrite K1.
  - by rewrite !queue_locs_app, !queue_locs_one, K2.
  - rewrite !queue_data_app. unfold queue_data. simpl. by rewrite K3.
  - eapply changes_mono; [|exact Hch]. rewrite queue_locs_app, queue_locs_one. set_solver.
Qed.

Lemma commit_updates {B} w P id c len ov ql l (k : () → M (stack A tcp_snd) B) : P !! id = Some c →
  (_ ← upd_rest id (set_unsent_oversize ov);
   _ ← upd_rest id (set_unsent l);
   _ ← upd_rest id (λ q, set_snd_lbb (u32 (snd_lbb q + len)) q);
   _ ← upd_pcb id (λ c, set_snd_buf (u16 (snd_buf c - len)) c);
   upd_rest id (set_snd_queuelen ql) ≫= k) (mk_stack w P) =
  k () (mk_stack w (<[id := sent_pcb c len ov ql l]> P)).
Proof.
  intros Hc. unfold upd_rest. do 5 (erewrite bind_upd_P by (done || apply lookup_insert_eq)).
  rewrite !insert_insert_eq. done.
Qed.

Lemma write_commit_ok w0 L0 w P L X N id c us na bs len arg apiflags pl Xp us' ov ql :
  queue_ok w0 L0 c us na → P !! id = Some (tail_pcb c pl) → grown w0 L0 w L X N → plan_ok c us bs len w Xp pl → Xp ⊆ X →
  load arg 0 len w0 = Ret (bs, w0) → Z.of_nat (length bs) = len →
  Forall (new_seg w X N) us' → NoDup (queue_locs us') → NoDup (queue_nodes us') →
  (∀ l, l ∈ option_list (pl_concat_p pl) → l ∈ X ∧ l ∉ queue_locs us') →
  segs_post c bs len (mss_local c) (pl_pos pl) (pl_oversize pl) (pl_queuelen pl) w us' (Some (ov, ql)) →
  ∃ w' vs, write_commit id arg len apiflags pl (u_seg <$> us') ov ql (mk_stack w P) =
      Ret ((), mk_stack w' (<[id := sent_pcb c len ov ql (u_seg <$> vs)]> P)) ∧
    queue_ok w' L (sent_pcb c len ov ql (u_seg <$> vs)) vs na ∧ queue_data vs = queue_data us ++ bs ∧
    (∀ l, l ∈ queue_locs vs → l ∈ queue_locs us ∨ l ∈ X) ∧ changes (queue_locs us ++ queue_locs vs) w w' ∧
    length vs = (length us + length us')%nat.
Proof.
  intros Hq Hc Hg Hp HX Hld Hlen Hns Hl Hn Hcat Hpost. unfold write_commit. rewrite (bind_pcb _ _ _ _ _ Hc).
  destruct (commit_prefix_ok w0 L0 w P L X N c us na bs len arg pl Xp Hq Hg Hp HX Hld Hlen)
    as (w1 & pre & tail & Hrun & Hpf & Epre & Ehd & Htl).
  destruct (commit_list_ok w0 L0 w L X N c us na bs len ov ql pl w1 pre us' Hq Hpf Hg Hns Hl Hn Hcat Hpost)
    as (Hlo & Hd & Hql).
  unfold commit_tail in Hrun. rewrite (bind_Ret _ _ _ _ _ Hrun). cbv zeta.
  assert (removelast (unsent (rest (tail_pcb c pl))) ++ tail ++ (u_seg <$> us') = u_seg <$> (pre ++ us')) as Eu
    by (by rewrite (assoc_L app), Epre, fmap_app).
  rewrite Eu, (commit_updates _ _ _ (tail_pcb c pl)), sent_tail, (proj1 (tail_fields c pl)) by done.
  set (P' := <[id := _]> P).
  destruct (push_list_ok w1 P' L (pre ++ us') (u32 (snd_lbb (rest c) + len)) ov (mss_local c)
    (if bool_decide (u_seg <$> us' = []) then if pl_tail pl then head tail else None else list.last (u_seg <$> us'))
    (has apiflags TCP_WRITE_FLAG_MORE) Hlo) as (w2 & vs & Hrun2 & Hlo2 & Es & Elo & Eda & Hch).
  { destruct us' as [|v us''].
    - rewrite app_nil_r. cbn. destruct (pl_tail pl); [right; done|by left].
    - rewrite bool_decide_eq_false_2 by done. right. rewrite fmap_last, last_app_cons. done. }
  exists w2, vs. rewrite Es. split; [|split_and!].
  - rewrite bind_assert; [exact Hrun2|]. pose proof (qo_unacked _ _ _ _ _ Hq) as [Hna Hun].
    destruct (Z.eqb_spec ql 0) as [|Hz]; [done|]. cbn [orb]. apply orb_true_iff. rewrite !bool_decide_eq_true.
    destruct (decide (unacked (rest c) = [])) as [E|]; [right|by left]. apply Hun in E.
    intros E'. apply fmap_nil_inv in E'. rewrite E' in Hql. change (queue_clen []) with 0 in Hql. lia.
  - rewrite <- Es. eapply list_queue_ok; [exact Hq|done|by rewrite Eda|]. rewrite Hql. unfold queue_clen. by rewrite Elo.
  - by rewrite Eda.
  - intros l. rewrite Elo, queue_locs_app, (pf_locs _ _ _ _ _ _ _ _ Hpf), !elem_of_app.
    intros [[?|Ho]|Hin]; [by left|right; by apply Hcat|right]. by apply (proj1 (new_segs_sub _ _ _ _ Hns)).
  - rewrite Elo. eapply changes_trans; [apply Hpf|exact Hch].
  - apply (f_equal length) in Es. rewrite !length_fmap, length_app in Es. rewrite Es. f_equal.
    pose proof (pf_nodes _ _ _ _ _ _ _ _ Hpf) as En. apply (f_equal length) in En. unfold queue_nodes in En.
    by rewrite !length_fmap in En.
Qed.
End Contract.

(** ** The theorem *)

(** What a write leaves alone: every block but those of the queue [us], and memory
    outside. *)
Record untouched_by {A : Type} (us : list useg) (w : world A) (L : gmap loc Z) (w' : world A) (L' : gmap loc Z) : Prop :=
  mk_untouched_by {
  ub_blocks l : is_Some (L !! l) → L' !! l = L !! l;
  ub_live l : is_Some (L !! l) → l ∈ live w' ↔ l ∈ live w;
  ub_pbs l : l ∈ live w → l ∉ queue_locs us → pbs w' !! l = pbs w !! l ∧ data w' !! Own l = data w !! Own l;
  ub_ext n : data w' !! Ext n = data w !! Ext n;
}.

Section Append.
Context {A : Type} `{HA : Alloc A} {elt_size : memp_t → Z} `{HL : !AllocLaws A elt_size}.
Implicit Types (w : world A) (L : gmap loc Z) (s : stack A tcp_snd) (P : gmap Z (tcp_pcb tcp_snd)).

Lemma grown_untouched w0 L0 w L X N w' us vs : grown w0 L0 w L X N → (∀ l, l ∈ queue_locs us → l ∈ live w0) →
  (∀ l, l ∈ queue_locs vs → l ∈ queue_locs us ∨ l ∈ X) → changes (queue_locs us ++ queue_locs vs) w w' →
  untouched_by us w0 L0 w' L.
Proof.
  intros Hg Hus Hvs [C1 C2 C3 C4 C5 C6].
  assert (∀ l, is_Some (L0 !! l) → l ∉ X ∪ N) as Hold.
  { intros l [k Hk] Hin. by rewrite (gr_new _ _ _ _ _ _ Hg l Hin) in Hk. }
  assert (∀ l, l ∈ live w0 → l ∉ queue_locs us → l ∉ queue_locs us ++ queue_locs vs) as Hnot.
  { intros l Hl Hu [?|[?|HlX]%Hvs]%elem_of_app; [done|done|]. by apply (gr_fresh _ _ _ _ _ _ Hg l HlX). }
  constructor.
  - intros l Hl. specialize (Hold l Hl). apply (gr_blocks _ _ _ _ _ _ Hg); set_solver.
  - intros l Hl. specialize (Hold l Hl). rewrite C1, (gr_live _ _ _ _ _ _ Hg). set_solver.
  - intros l Hl Hu. specialize (Hnot l Hl Hu). split.
    + rewrite C3 by done. by apply Hg.
    + rewrite C5; [|by intros l' Hl' [= ->]]. apply Hg. simpl. by apply bool_decide_eq_true.
  - intros n. rewrite C5 by done. by apply Hg.
Qed.

Lemma plan_concat c us bs len w X pl : plan_ok c us bs len w X pl →
  (∀ l, l ∈ X ↔ l ∈ option_list (pl_concat_p pl)) ∧
  (∀ q, pl_concat_p pl = Some q → ∃ n bs', is_ram w X q 0 n bs') ∧
  (0 < len → snd_queuelen (rest c) < 60000 → pl_queuelen pl ≤ snd_queuelen (rest c) + 1) ∧
  snd_queuelen (rest c) ≤ pl_queuelen pl ∧ (0 ≤ unsent_oversize (rest c) → 0 ≤ len → 0 ≤ pl_pos pl ≤ len) ∧
  (pl_queuelen pl ≤ snd_queuelen (rest c) ∨ 0 < len).
Proof.
  unfold plan_ok. destruct (list.last us) as [u|].
  - intros (Hu & Hul & _ & Hcat). destruct (pl_concat_p pl) as [q|].
    + destruct Hcat as (n & bs' & -> & Hn & Epos & Hle & Hlp & Hco & Eql & _). split_and!.
      * intros l. rewrite elem_of_singleton. simpl. by rewrite list_elem_of_singleton.
      * intros q' [= <-]. eexists _, bs'. apply Hco.
      * lia.
      * lia.
      * lia.
      * by right.
    + destruct Hcat as (-> & -> & _ & ->). split_and!; try done; try lia. set_solver.
  - intros [-> ->]. simpl. split_and!; try done; try lia. set_solver.
Qed.

(** What [tcp_write] does with [bs]. *)
Definition write_post s L id c us na bs (e : err_t) s' : Prop :=
  if may_send c then
    (e = ERR_OK ∧ has_space c (Z.of_nat (length bs)) = true ∧
     ∃ L' c' vs, pcbs s' = <[id := c']> (pcbs s) ∧ inv (wld s') L' ∧ queue_ok (wld s') L' c' vs na ∧
       queue_data vs = queue_data us ++ bs ∧ untouched_by us (wld s) L (wld s') L' ∧
       (us = [] → 0 < Z.of_nat (length bs) ≤ mss_local c → length vs = 1%nat) ∧
       c' = sent_pcb c (Z.of_nat (length bs)) (unsent_oversize (rest c')) (snd_queuelen (rest c')) (unsent (rest c'))) ∨
    (e = ERR_MEM ∧ pcbs s' = <[id := memerr_pcb c]> (pcbs s) ∧ grown (wld s) L (wld s') L ∅ ∅ ∧
     inv (wld s') L)
  else e = ERR_CONN ∧ s' = s.

Lemma queue_live w L c us na : queue_ok w L c us na → ∀ l, l ∈ queue_locs us → l ∈ live w.
Proof.
  intros Hq l (u & Hu & Hl)%queue_locs_elem. pose proof (qo_segs _ _ _ _ _ Hq) as Hs. rewrite list.Forall_forall in Hs.
  eapply chain_live; [apply (Hs u Hu)|exact Hl].
Qed.

Context (uninit : world A → loc → Z → bytes) (custom_free_function : loc → M (world A) ()).
Hypothesis uninit_length : ∀ w l n, 0 ≤ n → Z.of_nat (length (uninit w l n)) = n.
Hypothesis pool_size : elt_size MEMP_PBUF_POOL = SIZEOF_STRUCT_PBUF + PBUF_POOL_BUFSIZE_ALIGNED.
Hypothesis ref_size : elt_size MEMP_PBUF = SIZEOF_STRUCT_PBUF.

Lemma tcp_write_ok s L id c us na arg bs apiflags :
  inv (wld s) L → pcbs s !! id = Some c → queue_ok (wld s) L c us na → is_Some arg →
  load arg 0 (Z.of_nat (length bs)) (wld s) = Ret (bs, wld s) → is_u16 (Z.of_nat (length bs)) →
  has apiflags TCP_WRITE_FLAG_COPY = true →
  ∃ e s', tcp_write uninit custom_free_function id arg (Z.of_nat (length bs)) apiflags s = Ret (e, s') ∧
    write_post s L id c us na bs e s'.
Proof.
  destruct s as [w P]. simpl. intros Hi Hc Hq Harg Hld Hu Hcopy. unfold write_post. remember (Z.of_nat (length bs)) as len eqn:Elen.
  symmetry in Elen.
  unfold tcp_write. rewrite (bind_pcb _ _ _ _ _ Hc). rewrite bind_assert by (by apply bool_decide_eq_true).
  pose proof (tcp_write_checks_ok w P L id c us na len Hc Hq ltac:(lia)) as Hck.
  destruct (may_send c).
  2:{ rewrite (bind_Ret _ _ _ _ _ Hck). exists ERR_CONN, (mk_stack w P). done. }
  destruct (has_space c len) eqn:Esp.
  2:{ rewrite (bind_Ret _ _ _ _ _ Hck). eexists ERR_MEM, _. split; [reflexivity|]. right. split_and!; try done.
      by apply grown_refl. }
  rewrite (bind_Ret _ _ _ _ _ Hck). rewrite decide_True by done.
  destruct (qo_mss _ _ _ _ _ Hq) as [Hm Hwm]. pose proof (mss_local_range c Hm Hwm) as Hml. change TCP_MSS with 536 in Hm.
  assert (0 < len → snd_queuelen (rest c) < TCP_SND_QUEUELEN) as Hql.
  { intros Hpos. unfold has_space in Esp. lia. }
  assert (0 ≤ snd_queuelen (rest c)) as Hq0.
  { rewrite (qo_queuelen _ _ _ _ _ Hq). destruct (qo_unacked _ _ _ _ _ Hq). unfold queue_clen. lia. }
  unfold is_u16 in Hu.
  assert (NoDup (queue_locs []) ∧ NoDup (queue_nodes [])) as [Hn1 Hn2] by (split; by apply (NoDup_nil_2 (A := loc))).
  destruct (write_tail_ok uninit custom_free_function uninit_length pool_size ref_size w P L id c us na arg len bs apiflags)
    as (r & w1 & Hrun1 & Hk1 & Hr); try done; try lia. rewrite (bind_Ret _ _ _ _ _ Hrun1).
  destruct r as [pl|].
  2:{ destruct (write_memerr_ok custom_free_function w L w1 P L ∅ ∅ id c us na None []) as (w' & Hrun & Hg'); try done;
        [intros l; split; intros Hin; set_solver..|].
      eexists ERR_MEM, _. split; [exact Hrun|]. right. split_and!; try done. apply Hg'. }
  destruct Hr as (L1 & X & Hg1 & Hp). set (P1 := <[id := tail_pcb c pl]> P).
  assert (P1 !! id = Some (tail_pcb c pl)) as Hc1 by apply lookup_insert_eq. pose proof (plan_concat _ _ _ _ _ _ _ Hp) as (HX & Hcat & Hql1 & Hql2 & Hpos & Hql3).
  change TCP_SND_QUEUELEN with 8 in Hql.
  assert (0 ≤ unsent_oversize (rest c)) as Hov.
  { pose proof (qo_room _ _ _ _ _ Hq) as Hroom. destruct (list.last us); [apply Hroom|lia]. }
  specialize (Hpos Hov ltac:(lia)).
  destruct (write_segs_ok uninit custom_free_function uninit_length pool_size ref_size (Z.to_nat len) w L w1 P1 L1 X ∅ id (tail_pcb c pl) arg
    len bs (mss_local c) apiflags (pl_pos pl) (pl_oversize pl) (pl_queuelen pl) [])
    as (us' & r & w2 & Hrun2 & [Hk2 [L2 Hg2] Hns Hl Hn Hdj] & Hpost); try done; try lia.
  rewrite app_nil_l in *. cbn [fmap list_fmap] in Hrun2. rewrite (bind_Ret _ _ _ _ _ Hrun2).
  set (X2 := X ∪ list_to_set (queue_locs us')) in *. set (N2 := ∅ ∪ list_to_set (queue_nodes us')) in *.
  assert (∀ l, l ∈ X2 ↔ l ∈ option_list (pl_concat_p pl) ++ queue_locs us') as HX2.
  { intros l. unfold X2. rewrite elem_of_union, elem_of_list_to_set, elem_of_app, HX. done. }
  pose proof (plan_ok_keeps _ _ _ _ _ _ _ _ Hp Hk2 (grown_X_live _ _ _ _ _ _ Hg1)) as Hp2.
  destruct r as [[ov ql]|].
  - destruct (write_commit_ok w L w2 P1 L2 X2 N2 id c us na bs len arg apiflags pl X us' ov ql)
      as (w' & vs & Hrun & Hq' & Hd & Hvs & Hch & Hlv); try done; [set_solver| | |].
    2:{ unfold segs_post in *. by rewrite (proj2 (tail_fields c pl)) in Hpost. }
    { intros l Hin. split; [apply HX2, elem_of_app; by left|]. intros Hl'. by apply (Hdj l Hl'), HX. }
    rewrite (bind_Ret _ _ _ _ _ Hrun). eexists ERR_OK, _. split; [reflexivity|]. left. split; [done|]. split; [done|].
    exists L2, (sent_pcb c len ov ql (u_seg <$> vs)), vs. unfold P1. rewrite insert_insert_eq. split_and!; try done.
    + simpl. eapply inv_changes; [apply Hg2|exact Hch].
    + eapply grown_untouched; [exact Hg2|by eapply queue_live|done|done].
    + intros -> Hb. destruct Hp as [-> _]. destruct Hpost as (_ & _ & _ & _ & _ & _ & P7). rewrite Hlv, P7; [done|simpl; lia].
  - simpl in Hpost. assert (P1 = P) as -> by (unfold P1; erewrite tail_pcb_id by done; by apply insert_id). destruct (write_memerr_ok custom_free_function w L w2 P L2 X2 N2 id c us na (pl_concat_p pl) us')
      as (w' & Hrun & Hg'); try done.
    { intros l. unfold N2. set_solver. }
    { intros q Eq. split.
      - intros Hin. apply (Hdj q Hin), HX. rewrite Eq. by left.
      - destruct (Hcat q Eq) as (n & bs' & Hr). exists n, bs'. eapply keeps_ram; [exact Hk2| | |exact Hr].
        + apply (grown_X_live _ _ _ _ _ _ Hg1), Hr.
        + unfold X2. apply elem_of_union_l, Hr. }
    eexists ERR_MEM, _. split; [exact Hrun|]. right. split_and!; try done. apply Hg'.
Qed.
End Append.

(** ** Flags without data *)

Section Flags.
Context {A : Type} `{HA : Alloc A} {elt_size : memp_t → Z} `{HL : !AllocLaws A elt_size}.
Implicit Types (w : world A) (L : gmap loc Z) (s : stack A tcp_snd) (P : gmap Z (tcp_pcb tcp_snd)).

Definition flag_opts (flags : Z) : Z := if has flags TCP_SYN then TF_SEG_OPTS_MSS else 0.

(** The segment for [flags] in the pbuf [q]. *)
Definition flag_useg (node : Z) (q : loc) (opts : Z) (blk : bytes) : useg :=
  let n := LWIP_TCP_OPT_LENGTH opts in
  mk_useg (mk_seg node (Some q) 0 0 opts (Some (Own q, 36))) 0 [(q, ram_pbuf q 36 (n + 20))]
    [take (Z.to_nat (n + 20)) (drop 36 blk)].

Lemma off_flags_ok opts flags : 0 ≤ flags < 64 →
  is_u16 (off_flags opts flags) ∧ Z.land (off_flags opts flags) TCP_FLAGS = flags.
Proof.
  intros Hf. unfold off_flags. set (n := 5 + LWIP_TCP_OPT_LENGTH opts / 4).
  assert (0 ≤ n < 16) as Hn by (unfold n; destruct (optlen_cases opts) as [-> | ->]; done).
  rewrite (u16_id (Z.shiftl n 12)).
  - rewrite lor_shiftl_add by lia. split; [unfold is_u16; lia|]. change TCP_FLAGS with (Z.ones 6).
    rewrite Z.land_ones by lia. change (2 ^ 6) with 64. change (2 ^ 12) with 4096. Z.div_mod_to_equations. lia.
  - rewrite Z.shiftl_mul_pow2 by lia. unfold is_u16. lia.
Qed.

Lemma flag_useg_ok w0 L0 w L X N node q opts bs sport dport seqno flags ack wnd :
  grown w0 L0 w L X N →
  let hdr := tcp_header sport dport seqno (off_flags opts flags) ack wnd in
  let blk := take 36 bs ++ hdr ++ drop 56 bs in
  let u := flag_useg node q opts blk in
  is_ram w X q 36 (LWIP_TCP_OPT_LENGTH opts + 20) blk → (56 ≤ length bs)%nat →
  length ack = 4%nat → length wnd = 4%nat → is_u32 seqno → 0 ≤ flags < 64 →
  seg_ok w u ∧ u_data u = [] ∧ seqno_of (u_bytes u) = seqno ∧ flags_of (u_bytes u) = flags ∧ room w u 0.
Proof.
  intros Hg hdr blk u Hr Hbs Ha Hw Hs Hf. pose proof (optlen_cases opts) as Hopt.
  destruct (off_flags_ok opts flags Hf) as [Ho1 Ho2].
  pose proof (ram_live _ _ _ _ _ _ _ _ _ _ Hg Hr) as Hl. pose proof Hr as [Hin Hpb Hd Hrg].
  assert (length hdr = 20%nat) as Hh by (by apply tcp_header_length).
  assert (∃ r, u_bytes u = hdr ++ r ∧ Z.of_nat (length r) = LWIP_TCP_OPT_LENGTH opts) as (r & Eb & Hr').
  { unfold u_bytes. simpl. rewrite app_nil_r. unfold blk at 1. rewrite drop_app_length' by (rewrite length_take; lia).
    rewrite take_app_ge by lia. eexists. split; [reflexivity|].
    unfold blk in Hrg. rewrite !length_app, length_take, Hh in Hrg. rewrite length_take. lia. }
  split_and!.
  - constructor; simpl.
    + constructor; simpl.
      * by split_and!.
      * unfold is_u16. split_and!; try done; lia.
      * apply list.Forall2_cons. split; [|constructor]. cbn [snd ram_pbuf payload len].
        by rewrite (load_own w q 36 0 _ blk) by (done || lia).
    + apply list.Forall_singleton. split_and!; [by apply (gr_heap _ _ _ _ _ _ Hg)|done|by exists 36].
    + done.
    + exists q, (ram_pbuf q 36 (LWIP_TCP_OPT_LENGTH opts + 20)), [], 36. split_and!; try done. simpl. unfold u_hlen. simpl.
      change TCP_HLEN with 20. lia.
    + unfold u_hlen. simpl. change TCP_HLEN with 20. lia.
    + rewrite Eb. unfold hdr, tcp_header. destruct ack as [|a0 [|a1 [|a2 [|a3 [|]]]]]; try done. apply (le_bytes_wf 2).
  - unfold u_data, u_hlen. rewrite Eb. change (seg_flags (u_seg u)) with opts. apply drop_ge. rewrite length_app, Hh. change TCP_HLEN with 20. lia.
  - rewrite Eb. by apply tcp_header_seqno.
  - rewrite Eb. unfold hdr. by rewrite tcp_header_flags.
  - split; [done|]. exists [], q, (ram_pbuf q 36 (LWIP_TCP_OPT_LENGTH opts + 20)), 36, blk. split_and!; try done. simpl. lia.
Qed.

Lemma has_or f a b : has f (Z.lor a b) = true → has f b || has f a = true.
Proof.
  unfold has. rewrite Z.land_lor_distr_r. destruct (Z.eqb_spec (Z.land f a) 0) as [->|]; [|by rewrite orb_true_r].
  by destruct (Z.eqb_spec (Z.land f b) 0) as [->|].
Qed.

(** The control block with a segment for [flags] appended. *)
Definition flagged_pcb (c : tcp_pcb tcp_snd) (flags : Z) (ql : Z) (l : list tcp_seg) : tcp_pcb tcp_snd :=
  let c' := set_rest (λ q, mk_snd (local_port q) (remote_port q) (u32 (snd_lbb q + 1)) (snd_wnd_max q) ql 0 l (unacked q)) c in
  if has flags TCP_FIN then set_pflags (Z.lor (pflags c) TF_FIN) c' else c'.

Definition full c : bool := TCP_SND_QUEUELEN <=? snd_queuelen (rest (Q := tcp_snd) c).

(** The updates of the control block, and the closing assertion. *)
Lemma flag_updates w P id c q off n flags sg : P !! id = Some c → q ∈ live w → pbs w !! q = Some (ram_pbuf q off n) →
  seg_p sg = Some q → has flags (Z.lor TCP_FIN TCP_SYN) = true → 0 ≤ snd_queuelen (rest c) < 60000 →
  (_ ← upd_rest id (λ q, set_unsent (unsent q ++ [sg]) q);
   _ ← upd_rest id (set_unsent_oversize 0);
   _ ← (if has flags TCP_SYN || has flags TCP_FIN
        then upd_rest id (λ q, set_snd_lbb (u32 (snd_lbb q + 1)) q) else mret ());
   _ ← (if has flags TCP_FIN then or_flags id TF_FIN else mret ());
   k ← lift_world (pbuf_clen (seg_p sg));
   _ ← upd_rest id (λ q, set_snd_queuelen (u16 (snd_queuelen q + k)) q);
   c ← rd_pcb id;
   _ ← assert_ ((snd_queuelen (rest c) =? 0) || bool_decide (unacked (rest c) ≠ []) ||
                bool_decide (unsent (rest c) ≠ []));
   mret ERR_OK) (mk_stack w P) =
  Ret (ERR_OK, mk_stack w (<[id := flagged_pcb c flags (snd_queuelen (rest c) + 1) (unsent (rest c) ++ [sg])]> P)).
Proof.
  intros Hc Hl Hp Esg Hsf Hql. rewrite Esg, (has_or _ _ _ Hsf). unfold upd_rest, or_flags.
  erewrite bind_upd_P by done. do 2 (erewrite bind_upd_P by apply lookup_insert_eq). rewrite !insert_insert_eq.
  set (c1 := set_rest _ _).
  assert (∃ c2, (if has flags TCP_FIN then upd_pcb id (λ c, set_pflags (Z.lor (pflags c) TF_FIN) c) else mret ())
    (mk_stack w (<[id := c1]> P)) = Ret ((), mk_stack w (<[id := c2]> P)) ∧
    c2 = if has flags TCP_FIN then set_pflags (Z.lor (pflags c) TF_FIN) c1 else c1) as (c2 & Hrun & Ec2).
  { destruct (has flags TCP_FIN); eexists; (split; [|reflexivity]); [|done].
    erewrite upd_pcb_ok by apply lookup_insert_eq. unfold put_pcb. simpl. by rewrite insert_insert_eq. }
  rewrite (bind_Ret _ _ _ _ _ Hrun), (bind_lift _ _ _ _ _ _ (ram_clen _ _ _ _ Hl Hp)).
  erewrite bind_upd_P by apply lookup_insert_eq. rewrite !insert_insert_eq.
  assert (snd_queuelen (rest c) +₁₆ 1 = snd_queuelen (rest c) + 1) as E1 by (apply u16_id; unfold is_u16; lia).
  set (c3 := set_rest _ _).
  assert (c3 = flagged_pcb c flags (snd_queuelen (rest c) + 1) (unsent (rest c) ++ [sg])) as <-.
  { unfold c3. rewrite Ec2. unfold c1, flagged_pcb. destruct c as [? ? ? ? ? ? ? ? ? ? ? ? ? ? ? ? []].
    destruct (has flags TCP_FIN); unfold set_rest, set_pflags; cbn in *; by rewrite E1. }
  erewrite bind_pcb by apply lookup_insert_eq. rewrite bind_assert; [done|].
  rewrite (bool_decide_eq_true_2 (unsent _ ≠ [])); [by rewrite orb_true_r|].
  unfold c3. rewrite Ec2. unfold c1. destruct (has flags TCP_FIN); cbn; by intros [_ ?]%app_nil.
Qed.

Lemma queue_ok_flagged w0 L0 w L X N c us na u q flags :
  queue_ok w0 L0 c us na → grown w0 L0 w L X N → (u_cs u).*1 = [q] → q ∈ X → u_node u ∈ N → seg_ok w u →
  seqno_of (u_bytes u) = snd_lbb (rest c) → seg_len (u_seg u) = 0 → has (flags_of (u_bytes u)) (Z.lor TCP_FIN TCP_SYN) = true →
  room w u 0 → LWIP_TCP_OPT_LENGTH (seg_flags (u_seg u)) ≤ mss_local c → oversize_left (u_seg u) = 0 →
  queue_ok w L (flagged_pcb c flags (snd_queuelen (rest c) + 1) (u_seg <$> (us ++ [u]))) (us ++ [u]) na.
Proof.
  intros Hq Hg Eq HqX HuN Hs Hsq Hsl Hfl Hr Hopt Hol.
  assert (∀ c', c' = flagged_pcb c flags (snd_queuelen (rest c) + 1) (u_seg <$> (us ++ [u])) →
    rest c' = mk_snd (local_port (rest c)) (remote_port (rest c)) (u32 (snd_lbb (rest c) + 1)) (snd_wnd_max (rest c))
      (snd_queuelen (rest c) + 1) 0 (u_seg <$> (us ++ [u])) (unacked (rest c)) ∧
    mss c' = mss c ∧ snd_buf c' = snd_buf c) as Hc'.
  { intros c' ->. unfold flagged_pcb. by destruct (has flags TCP_FIN). }
  remember (flagged_pcb _ _ _ _) as c' eqn:E. destruct (Hc' c' eq_refl) as (Er & Em & Eb). clear Hc' E.
  assert (mss_local c' = mss_local c) as Eml by (unfold mss_local; by rewrite Er, Em).
  assert (∀ l, is_Some (L0 !! l) → l ∉ X ∪ N) as Hold.
  { intros l [k Hk] Hin. by rewrite (gr_new _ _ _ _ _ _ Hg l Hin) in Hk. }
  constructor; rewrite ?Er, ?Em, ?Eb; cbn [unsent snd_lbb unacked snd_queuelen unsent_oversize snd_wnd_max]; try apply Hq.
  - done.
  - apply list.Forall_app. split; [|by rewrite list.Forall_singleton].
    eapply queue_keeps; [apply Hq|by eapply grown_keeps].
  - rewrite queue_locs_app, queue_locs_one, Eq. apply list.NoDup_app. split_and!; [apply Hq| |apply list.NoDup_singleton].
    intros l Hl ->%list_elem_of_singleton. apply (gr_fresh _ _ _ _ _ _ Hg q HqX). by eapply queue_live.
  - unfold queue_nodes. rewrite fmap_app. apply list.NoDup_app. split_and!; [apply Hq| |apply list.NoDup_singleton].
    intros l Hl ->%list_elem_of_singleton. apply (Hold (u_node u)); [by apply Hq|set_solver].
  - unfold queue_nodes. rewrite fmap_app. intros l [Hl|Hl]%elem_of_app.
    + pose proof (qo_held _ _ _ _ _ Hq l Hl) as Hk. specialize (Hold l Hk).
      rewrite (gr_blocks _ _ _ _ _ _ Hg) by set_solver. done.
    + apply list_elem_of_singleton in Hl as ->. by apply Hg.
  - destruct (qo_seq _ _ _ _ _ Hq) as [a Ha]. exists a. apply seq_run_snoc. rewrite Hsq. split; [done|].
    unfold u_tcplen. by rewrite Hfl, Hsl.
  - rewrite queue_clen_app, (qo_queuelen _ _ _ _ _ Hq). unfold queue_clen at 3. rewrite queue_locs_one, Eq. simpl. lia.
  - rewrite last_snoc, Eml. split; [done|]. lia.
  - apply u32_range.
Qed.

(** [tcp_enqueue_flags]: a segment without data and with the next sequence number,
    or nothing. *)
Definition flags_post s L id c us na flags (e : err_t) s' : Prop :=
  (e = ERR_OK ∧ (full c = true → has flags TCP_FIN = true) ∧ ∃ L' c' u,
     pcbs s' = <[id := c']> (pcbs s) ∧ inv (wld s') L' ∧ queue_ok (wld s') L' c' (us ++ [u]) na ∧ u_data u = [] ∧
     seqno_of (u_bytes u) = snd_lbb (rest c) ∧ flags_of (u_bytes u) = flags ∧
     c' = flagged_pcb c flags (snd_queuelen (rest c) + 1) (u_seg <$> (us ++ [u])) ∧
     untouched_by [] (wld s) L (wld s') L') ∨
  (e = ERR_MEM ∧ pcbs s' = <[id := memerr_pcb c]> (pcbs s) ∧ grown (wld s) L (wld s') L ∅ ∅).

Lemma grown_pristine w0 L0 w L X N : grown w0 L0 w L X N → untouched_by [] w0 L0 w L.
Proof.
  intros Hg. eapply (grown_untouched _ _ _ _ _ _ _ [] []); [exact Hg| | |done]; by intros l ?%elem_of_nil.
Qed.

Context (uninit : world A → loc → Z → bytes) (custom_free_function : loc → M (world A) ()).
Hypothesis uninit_length : ∀ w l n, 0 ≤ n → Z.of_nat (length (uninit w l n)) = n.
Hypothesis pool_size : elt_size MEMP_PBUF_POOL = SIZEOF_STRUCT_PBUF + PBUF_POOL_BUFSIZE_ALIGNED.
Hypothesis ref_size : elt_size MEMP_PBUF = SIZEOF_STRUCT_PBUF.

Lemma tcp_enqueue_flags_ok s L id c us na flags :
  inv (wld s) L → pcbs s !! id = Some c → queue_ok (wld s) L c us na → 0 ≤ flags < 64 →
  has flags (Z.lor TCP_FIN TCP_SYN) = true → snd_queuelen (rest c) < 60000 →
  LWIP_TCP_OPT_LENGTH (flag_opts flags) ≤ mss_local c →
  ∃ e s', tcp_enqueue_flags uninit custom_free_function id flags s = Ret (e, s') ∧ flags_post s L id c us na flags e s'.
Proof.
  destruct s as [w P]. simpl. intros Hi Hc Hq Hf Hsf Hql Hopt. unfold tcp_enqueue_flags. rewrite (bind_pcb _ _ _ _ _ Hc).
  pose proof (optlen_cases (flag_opts flags)) as Ho.
  assert (0 ≤ snd_queuelen (rest c)) as Hq0.
  { rewrite (qo_queuelen _ _ _ _ _ Hq). destruct (qo_unacked _ _ _ _ _ Hq). unfold queue_clen. lia. }
  cbv zeta. rewrite bind_assert by (by rewrite Z.lor_comm). fold (flag_opts flags). unfold or_flags.
  rewrite (proj2 (Z.ltb_ge TCP_SNDQUEUELEN_OVERFLOW _)) by (change TCP_SNDQUEUELEN_OVERFLOW with 65532; lia).
  rewrite orb_false_r. fold (full c). destruct (full c && negb (has flags TCP_FIN)) eqn:Efull.
  { rewrite (bind_upd_P _ _ _ c) by done. eexists ERR_MEM, _. split; [reflexivity|]. right. split_and!; try done.
    by apply grown_refl. }
  destruct (alloc_ram_ok uninit custom_free_function uninit_length pool_size ref_size w L w L ∅ ∅ PBUF_TRANSPORT
    (LWIP_TCP_OPT_LENGTH (flag_opts flags)) (grown_refl w L Hi)) as ([q|] & w1 & Hrun1 & Hr & _); [lia| |].
  2:{ rewrite (bind_lift _ _ _ _ _ _ Hrun1), (bind_upd_P _ _ _ c) by done. eexists ERR_MEM, _. split; [reflexivity|].
      right. split_and!; try done. }
  destruct Hr as (L1 & bs & Hg1 & Hq1 & Hram). change (header_offset PBUF_TRANSPORT) with 56 in Hram.
  rewrite (bind_lift _ _ _ _ _ _ Hrun1). pose proof (ram_live _ _ _ _ _ _ _ _ _ _ Hg1 Hram) as Hl1.
  rewrite (bind_lift _ _ _ _ _ _ (rd_ok _ _ _ Hl1 (ir_pbs _ _ _ _ _ _ Hram))). rewrite bind_assert by (simpl; lia).
  destruct (tcp_create_segment_ok custom_free_function w L w1 P L1 (∅ ∪ {[q]}) ∅ id c q _ bs flags (snd_lbb (rest c))
    (flag_opts flags) Hg1 Hc Hram) as (r & w2 & L2 & Hrun2 & Hr & _); [lia|].
  rewrite (bind_Ret _ _ _ _ _ Hrun2). destruct r as [sg|].
  2:{ rewrite (bind_upd_P _ _ _ c) by done. eexists ERR_MEM, _. split; [reflexivity|]. right. split_and!; try done.
      eapply grown_empty; [exact Hr|set_solver|done]. }
  destruct Hr as (node & ack & wnd & -> & HnN & _ & Hg2 & Ha & Hw & Hram2).
  destruct (flag_useg_ok w L w2 L2 _ _ node q (flag_opts flags) bs (local_port (rest c)) (remote_port (rest c))
    (snd_lbb (rest c)) flags ack wnd Hg2 Hram2) as (Hs & Hud & Hus & Huf & Hur); try done;
    [pose proof (ir_range _ _ _ _ _ _ Hram); lia|by apply Hq|].
  set (u := flag_useg _ _ _ _) in *.
  assert (queue_ok w2 L2 (flagged_pcb c flags (snd_queuelen (rest c) + 1) (u_seg <$> (us ++ [u]))) (us ++ [u]) na) as Hq'.
  { eapply (queue_ok_flagged w L); [done|exact Hg2|done|set_solver|set_solver|done|done|done| |done|exact Hopt|done].
    by rewrite Huf. }
  rewrite Z.sub_diag, bind_assert by done.
  eexists ERR_OK, _. split.
  { eapply (flag_updates _ _ _ c q 36 _ flags); try done; [by eapply ram_live|apply Hram2]. }
  left. split; [done|]. split.
  { intros Hfu. rewrite Hfu in Efull. by apply negb_false_iff in Efull. }
  rewrite (qo_unsent _ _ _ _ _ Hq). change [mk_seg _ _ _ _ _ _] with (u_seg <$> [u]). rewrite <- fmap_app.
  eexists L2, _, u. split_and!; try done; [apply Hg2|by eapply grown_pristine].
Qed.
End Flags.
