(* ===== verification/TcpSendSpec.v ===== *)
(** * Writing to and closing a connection

    The contracts of [tcp_write], [tcp_enqueue_flags] and [tcp_send_fin] on the
    output queue of a connection, and the abort a peer can cause by its window. *)

From S2P Require Import Prelude CLib Def Mem Memp Alloc Pbuf PbufChain PbufWrite PbufOwn PbufOps PbufSpec PbufRam TcpRaw TcpRawSpec TcpOut TcpQueue TcpWrite TcpWriteSpec.
Import Def.Def Pbuf TcpRaw TcpOut.

(** ** A flag for the end of the stream *)

Section Fin.
Context {A : Type} `{HA : Alloc A} {elt_size : memp_t → Z} `{HL : !AllocLaws A elt_size}.
Implicit Types (w : world A) (L : gmap loc Z) (s : stack A tcp_snd) (P : gmap Z (tcp_pcb tcp_snd)).







Context (uninit : world A → loc → Z → bytes) (custom_free_function : loc → M (world A) ()).
Hypothesis uninit_length : ∀ w l n, 0 ≤ n → Z.of_nat (length (uninit w l n)) = n.
Hypothesis pool_size : elt_size MEMP_PBUF_POOL = SIZEOF_STRUCT_PBUF + PBUF_POOL_BUFSIZE_ALIGNED.
Hypothesis ref_size : elt_size MEMP_PBUF = SIZEOF_STRUCT_PBUF.

End Fin.

(** ** The contracts *)

Section Claims.
Context {A : Type} `{HA : Alloc A} {elt_size : memp_t → Z} `{HL : !AllocLaws A elt_size}.
Context (uninit : world A → loc → Z → bytes) (custom_free_function : loc → M (world A) ()).
Hypothesis uninit_length : ∀ w l n, 0 ≤ n → Z.of_nat (length (uninit w l n)) = n.
Hypothesis pool_size : elt_size MEMP_PBUF_POOL = SIZEOF_STRUCT_PBUF + PBUF_POOL_BUFSIZE_ALIGNED.
Hypothesis ref_size : elt_size MEMP_PBUF = SIZEOF_STRUCT_PBUF.
Implicit Types (s : stack A tcp_snd) (L : gmap loc Z).

(** C9: [tcp_write] with the copy flag, on a connection with a well-formed output
    queue, always returns.  Where the connection may not send, it returns
    [ERR_CONN] and changes nothing.  Otherwise it returns [ERR_OK], and then the
    bytes stand behind the data of the queue, in segments whose headers carry
    consecutive sequence numbers up to the new [snd_lbb], with [snd_buf] smaller by
    their number; or [ERR_MEM], and then only the flag [TF_NAGLEMEMERR] is new and
    the allocator has the same blocks as before. *)
Theorem tcp_write_appends s L id c us na arg bs apiflags :
  inv (wld s) L → pcbs s !! id = Some c → queue_ok (wld s) L c us na → is_Some arg →
  load arg 0 (Z.of_nat (length bs)) (wld s) = Ret (bs, wld s) → is_u16 (Z.of_nat (length bs)) →
  has apiflags TCP_WRITE_FLAG_COPY = true →
  ∃ e s', tcp_write uninit custom_free_function id arg (Z.of_nat (length bs)) apiflags s = Ret (e, s') ∧
    write_post s L id c us na bs e s'.
Proof. by apply tcp_write_ok. Qed.

(** A segment for [SYN] or [FIN] goes to the end of the queue with the sequence
    number [snd_lbb], no data and exactly the flags asked for, and [snd_lbb] moves by
    one; a [FIN] is accepted even when the queue is full.  On [ERR_MEM] only the flag
    [TF_NAGLEMEMERR] is new and the allocator has the same blocks as before. *)
Theorem tcp_enqueue_flags_appends s L id c us na flags :
  inv (wld s) L → pcbs s !! id = Some c → queue_ok (wld s) L c us na → 0 ≤ flags < 64 →
  has flags (Z.lor TCP_FIN TCP_SYN) = true → snd_queuelen (rest c) < 60000 →
  LWIP_TCP_OPT_LENGTH (flag_opts flags) ≤ mss_local c →
  ∃ e s', tcp_enqueue_flags uninit custom_free_function id flags s = Ret (e, s') ∧
    flags_post s L id c us na flags e s'.
Proof. by apply tcp_enqueue_flags_ok. Qed.

End Claims.

Section Window.
Context {A : Type} `{HA : Alloc A} (uninit : world A → loc → Z → bytes) (custom_free_function : loc → M (world A) ()).

(** The segment limit below what the last unsent segment holds. *)
Lemma write_limit_aborts (s : stack A tcp_snd) id c sg arg len apiflags :
  pcbs s !! id = Some c → list.last (unsent (rest c)) = Some sg →
  mss_local c < seg_len sg + LWIP_TCP_OPT_LENGTH (seg_flags sg) →
  pstate c = ESTABLISHED → 0 ≤ len ≤ snd_buf c → 0 < snd_queuelen (rest c) < TCP_SND_QUEUELEN → is_Some arg →
  tcp_write uninit custom_free_function id arg len apiflags s = Err AssertFail.
Proof.
  destruct s as [w P]. cbn [pcbs]. intros Hc Hsg Hlt Hst Hlen Hql Harg. change TCP_SND_QUEUELEN with 8 in Hql.
  unfold tcp_write. rewrite (bind_pcb _ _ _ _ _ Hc), bind_assert by (by apply bool_decide_eq_true).
  assert (tcp_write_checks id len (mk_stack w P) = Ret (ERR_OK, mk_stack w P)) as Hck.
  { unfold tcp_write_checks. rewrite (bind_pcb _ _ _ _ _ Hc), Hst, bool_decide_eq_true_2 by by left.
    cbn [negb]. destruct (Z.eqb_spec len 0); [done|].
    rewrite (proj2 (Z.ltb_ge _ _)) by lia. change TCP_SND_QUEUELEN with 8. change TCP_SNDQUEUELEN_OVERFLOW with 65532.
    rewrite (proj2 (Z.leb_gt _ _)), (proj2 (Z.ltb_ge _ _)) by lia. cbn [orb].
    rewrite bind_assert; [done|]. rewrite (proj2 (Z.eqb_neq _ _)) by lia. cbn [negb].
    rewrite (bool_decide_eq_true_2 (unsent (rest c) ≠ [])); [by rewrite orb_true_r|]. by intros E; rewrite E in Hsg. }
  rewrite (bind_Ret _ _ _ _ _ Hck), decide_True by done. apply bind_Err. unfold write_tail.
  rewrite (bind_pcb _ _ _ _ _ Hc), Hsg. apply bind_Err. by rewrite (proj2 (Z.leb_gt _ _)).
Qed.

Context {elt_size : memp_t → Z} `{HL : !AllocLaws A elt_size}.
Hypothesis uninit_length : ∀ w l n, 0 ≤ n → Z.of_nat (length (uninit w l n)) = n.
Hypothesis pool_size : elt_size MEMP_PBUF_POOL = SIZEOF_STRUCT_PBUF + PBUF_POOL_BUFSIZE_ALIGNED.
Hypothesis ref_size : elt_size MEMP_PBUF = SIZEOF_STRUCT_PBUF.

(** The peer announces a window larger than any before. *)
Definition set_snd_wnd_max (wnd : Z) (q : tcp_snd) : tcp_snd :=
  mk_snd (local_port q) (remote_port q) (snd_lbb q) wnd (snd_queuelen q) (unsent_oversize q) (unsent q) (unacked q).

Lemma seg_len_data (w : world A) u : seg_ok w u → seg_len (u_seg u) = Z.of_nat (length (u_data u)).
Proof.
  intros Hs. pose proof (seg_ok_length _ _ Hs) as (H0 & H20 & Hl & Hle). pose proof (so_len _ _ Hs).
  unfold u_data, u_bytes. rewrite !length_drop. lia.
Qed.

(** C11: a peer can make the server abort with its window.  While the largest window
    it has announced is 0 or 1, the limit for a segment falls back to the MSS, and a
    write of [bs] to the empty queue makes one segment of up to that size.  When the
    peer then announces a window [wnd] of two bytes or more, but less than twice
    the length of that segment, the limit drops to [wnd / 2], below what the segment
    holds, and every further [tcp_write] that the send buffer and the queue have
    room for, of any length, stops in the assertion that the limit is never below
    the last unsent segment. *)
Theorem tcp_write_window_abort (s : stack A tcp_snd) L id c na arg bs apiflags s1 :
  inv (wld s) L → pcbs s !! id = Some c → queue_ok (wld s) L c [] na → pstate c = ESTABLISHED →
  snd_wnd_max (rest c) ≤ 1 → 1 ≤ Z.of_nat (length bs) ≤ mss c → is_Some arg →
  load arg 0 (Z.of_nat (length bs)) (wld s) = Ret (bs, wld s) → has apiflags TCP_WRITE_FLAG_COPY = true →
  tcp_write uninit custom_free_function id arg (Z.of_nat (length bs)) apiflags s = Ret (ERR_OK, s1) →
  ∃ c1, pcbs s1 !! id = Some c1 ∧
    ∀ wnd arg' len' apiflags', 2 ≤ wnd → wnd / 2 < Z.of_nat (length bs) → is_Some arg' →
      0 ≤ len' ≤ snd_buf c1 → snd_queuelen (rest c1) < TCP_SND_QUEUELEN →
      tcp_write uninit custom_free_function id arg' len' apiflags' (put_pcb id (set_rest (set_snd_wnd_max wnd) c1) s1) =
        Err AssertFail.
Proof.
  intros Hi Hc Hq Hst Hwm Hbs Harg Hld Hcopy Hrun.
  destruct (qo_mss _ _ _ _ _ Hq) as [Hm Hw0]. change TCP_MSS with 536 in Hm.
  assert (mss_local c = mss c) as Eml.
  { unfold mss_local. rewrite (Z.div_small (snd_wnd_max (rest c)) 2) by lia. by rewrite Z.min_r by lia. }
  destruct (tcp_write_ok uninit custom_free_function uninit_length pool_size ref_size s L id c [] na arg bs apiflags)
    as (e & s' & Hrun' & Hpost); try done; [unfold is_u16; lia|].
  rewrite Hrun in Hrun'. injection Hrun' as <- <-. unfold write_post in Hpost.
  assert (may_send c = true) as Ems by (unfold may_send; rewrite Hst; by apply bool_decide_eq_true_2; left).
  rewrite Ems in Hpost. destruct Hpost as [(_ & _ & L1 & c1 & vs & Hp & _ & Hq1 & Hd & _ & Hone & Ec1)|(E & _)]; [|done].
  specialize (Hone eq_refl ltac:(lia)). destruct vs as [|v [|]]; [done| |done].
  exists c1. split; [by rewrite Hp, lookup_insert_eq|].
  intros wnd arg' len' apiflags' Hwnd Hlim Harg' Hlen' Hql.
  pose proof (qo_segs _ _ _ _ _ Hq1) as Hs. rewrite list.Forall_singleton in Hs.
  assert (u_data v = bs) as Ed by (unfold queue_data in Hd; simpl in Hd; by rewrite app_nil_r in Hd).
  apply (write_limit_aborts _ id (set_rest (set_snd_wnd_max wnd) c1) (u_seg v)); cbn; try done.
  - by rewrite lookup_insert_eq.
  - by rewrite (qo_unsent _ _ _ _ _ Hq1).
  - rewrite (seg_len_data _ _ Hs), Ed. pose proof (optlen_cases (seg_flags (u_seg v))).
    assert (mss c1 = mss c) as Em by (by rewrite Ec1). unfold mss_local. cbn. rewrite Em.
    assert (1 ≤ wnd / 2) by (apply Z.div_le_lower_bound; lia). rewrite (proj2 (Z.eqb_neq _ 0)) by lia. lia.
  - by rewrite Ec1.
  - split; [|done]. rewrite (qo_queuelen _ _ _ _ _ Hq1). destruct (qo_unacked _ _ _ _ _ Hq1) as [Hna _].
    destruct (so_hdr _ _ Hs) as (l & pb & cs & o & Ecs & _). unfold queue_clen. rewrite queue_locs_one, Ecs. simpl. lia.
Qed.
End Window.

(** ** Witnesses *)

#[local] Instance send_laws : AllocLaws allocators (λ t, Memp.size (example_pools t)) :=
  lwip_laws example_pools example_pools_ok.

(** A connection in [state] with an empty queue, to a peer whose largest window was
    [wnd]; the data to send is at [Ext 7]. *)
Definition send_pcb (state : tcp_state) (wnd : Z) : tcp_pcb tcp_snd :=
  mk_pcb state 64 None true true true true false 2 0 100 2144 2144 2244 536 1072 (mk_snd 1202 4000 6510 wnd 0 0 [] []).
Definition send_data : bytes := (λ n, Z.of_nat n `mod` 256) <$> seq 0 600.
Definition send_world : world allocators := mk_world ∅ ∅ (<[Ext 7 := send_data]> ∅) (alloc_init example_pools) 0.
Definition send_st (state : tcp_state) (wnd : Z) : stack allocators tcp_snd :=
  mk_stack send_world (<[1 := send_pcb state wnd]> ∅).
Definition send_run {B} (r : res (B * stack allocators tcp_snd)) : stack allocators tcp_snd :=
  match r with Ret (_, s) => s | Err _ => send_st CLOSED 0 end.
Definition send_err {B} (r : res (B * stack allocators tcp_snd)) : option B :=
  match r with Ret (e, _) => Some e | Err _ => None end.

Lemma send_inv : inv send_world ∅.
Proof. constructor; [apply (alloc_init_owns example_pools example_pools_ok)|done|done]. Qed.

Lemma send_queue state wnd : 0 ≤ wnd → queue_ok send_world ∅ (send_pcb state wnd) [] 0.
Proof.
  intros Hw. constructor; try done; try constructor; try by (intros l ?%elem_of_nil). by exists 6510.
Qed.

Lemma send_load : load (Some (Ext 7, 0)) 0 (Z.of_nat (length send_data)) send_world = Ret (send_data, send_world).
Proof.
  unfold load, send_world. cbn [data valid]. rewrite lookup_insert_eq.
  assert (length send_data = 600%nat) as E by (by vm_compute). rewrite E.
  change (Z.to_nat (Z.of_nat 600)) with 600%nat. rewrite <- E. change (Z.to_nat (0 + 0)) with 0%nat.
  by rewrite drop_0, firstn_all, E.
Qed.

Definition send_written : stack allocators tcp_snd :=
  send_run (tcp_write zeros no_custom 1 (Some (Ext 7, 0)) 600 TCP_WRITE_FLAG_COPY (send_st ESTABLISHED 2144)).

Lemma tcp_write_appends_witness : ∃ L' c' vs,
  pcbs send_written !! 1 = Some c' ∧ inv (wld send_written) L' ∧ queue_ok (wld send_written) L' c' vs 0 ∧
  queue_data vs = send_data ∧ length vs = 2%nat ∧ snd_buf c' = 472 ∧ snd_lbb (rest c') = 7110.
Proof.
  destruct (tcp_write_appends zeros no_custom zeros_length eq_refl eq_refl (send_st ESTABLISHED 2144) ∅ 1
    (send_pcb ESTABLISHED 2144) [] 0 (Some (Ext 7, 0)) send_data TCP_WRITE_FLAG_COPY send_inv eq_refl
    (send_queue ESTABLISHED 2144 ltac:(done)) ltac:(by eexists) send_load ltac:(by vm_compute) eq_refl) as (e & s' & Hrun & Hpost).
  assert (s' = send_written) as Es by (unfold send_written; by rewrite (Hrun : tcp_write _ _ _ _ 600 _ _ = _)).
  assert (Some e = Some ERR_OK) as [= ->].
  { transitivity (send_err (tcp_write zeros no_custom 1 (Some (Ext 7, 0)) 600 TCP_WRITE_FLAG_COPY (send_st ESTABLISHED 2144))).
    - by rewrite (Hrun : tcp_write _ _ _ _ 600 _ _ = _).
    - by vm_compute. }
  subst s'. destruct Hpost as [(_ & _ & L' & c' & vs & Hp & Hi & Hq & Hd & _ & _ & Ec)|(E & _)]; [|discriminate E].
  exists L', c', vs. split; [by rewrite Hp|]. split; [exact Hi|]. split; [exact Hq|]. split; [exact Hd|]. split_and!.
  - assert (length (u_seg <$> vs) = 2%nat) as E; [|by rewrite length_fmap in E].
    rewrite <- (qo_unsent _ _ _ _ _ Hq).
    assert (length <$> (unsent <$> (rest <$> pcbs send_written !! 1)) = Some 2%nat) as E by (vm_compute; reflexivity).
    rewrite Hp in E. simpl in E. by injection E.
  - by rewrite Ec.
  - by rewrite Ec.
Defined.

Lemma tcp_enqueue_flags_appends_witness : ∃ s' L' c' u,
  tcp_enqueue_flags zeros no_custom 1 18 (send_st SYN_RCVD 2144) = Ret (ERR_OK, s') ∧
  pcbs s' !! 1 = Some c' ∧ queue_ok (wld s') L' c' [u] 0 ∧ flags_of (u_bytes u) = 18 ∧
  seqno_of (u_bytes u) = 6510 ∧ snd_lbb (rest c') = 6511.
Proof.
  destruct (tcp_enqueue_flags_appends zeros no_custom zeros_length eq_refl eq_refl (send_st SYN_RCVD 2144) ∅ 1
    (send_pcb SYN_RCVD 2144) [] 0 18 send_inv eq_refl
    (send_queue SYN_RCVD 2144 ltac:(done)) ltac:(done) eq_refl ltac:(done) ltac:(by vm_compute)) as (e & s' & Hrun & Hpost).
  assert (Some e = Some ERR_OK) as [= ->].
  { transitivity (send_err (tcp_enqueue_flags zeros no_custom 1 18 (send_st SYN_RCVD 2144))).
    - by rewrite Hrun.
    - by vm_compute. }
  destruct Hpost as [(_ & _ & L' & c' & u & Hp & _ & Hq & _ & Hs & Hf & Ec & _)|(E & _)]; [|discriminate E].
  exists s', L', c', u. rewrite Hp. split; [exact Hrun|]. split; [done|]. split; [exact Hq|]. split_and!; [exact Hf|exact Hs|by rewrite Ec].
Defined.


(** A write of 100 bytes while the window is zero, and then a window of ten. *)
Definition write_100 (s : stack allocators tcp_snd) : res (err_t * stack allocators tcp_snd) :=
  tcp_write zeros no_custom 1 (Some (Ext 7, 0)) 100 TCP_WRITE_FLAG_COPY s.

Lemma tcp_write_window_abort_witness : ∃ s1 c1,
  write_100 (send_st ESTABLISHED 0) = Ret (ERR_OK, s1) ∧ pcbs s1 !! 1 = Some c1 ∧
  write_100 (put_pcb 1 (set_rest (set_snd_wnd_max 10) c1) s1) = Err AssertFail.
Proof.
  destruct (write_100 (send_st ESTABLISHED 0)) as [[e s1]|] eqn:Hrun; [|by vm_compute in Hrun].
  assert (e = ERR_OK) as ->.
  { assert (Some e = send_err (write_100 (send_st ESTABLISHED 0))) as E by (by rewrite Hrun). vm_compute in E. by injection E. }
  assert (s1 = send_run (write_100 (send_st ESTABLISHED 0))) as Es by (by rewrite Hrun).
  assert (Z.of_nat (length (take 100 send_data)) = 100) as El by (by vm_compute).
  assert (load (Some (Ext 7, 0)) 0 100 send_world = Ret (take 100 send_data, send_world)) as Hld.
  { pose proof send_load as H. replace (Z.of_nat (length send_data)) with 600 in H by (by vm_compute).
    rewrite (load_sub _ _ _ _ 0 100 H) by done. reflexivity. }
  destruct (tcp_write_window_abort zeros no_custom zeros_length eq_refl eq_refl (send_st ESTABLISHED 0) ∅ 1
    (send_pcb ESTABLISHED 0) 0 (Some (Ext 7, 0)) (take 100 send_data) TCP_WRITE_FLAG_COPY s1 send_inv eq_refl
    (send_queue ESTABLISHED 0 ltac:(done)) eq_refl) as (c1 & Hc1 & Hab);
    [done|rewrite El; cbn; lia|by eexists|rewrite El; exact Hld|done|rewrite El; exact Hrun|].
  exists s1, c1. split; [reflexivity|]. split; [exact Hc1|].
  assert (Some (snd_buf c1, snd_queuelen (rest c1)) = Some (972, 1)) as [= Eb Eq].
  { transitivity ((λ c, (snd_buf c, snd_queuelen (rest c))) <$> pcbs (send_run (write_100 (send_st ESTABLISHED 0))) !! 1).
    - rewrite <- Es, Hc1. done.
    - vm_compute. reflexivity. }
  apply Hab; [done|by rewrite El|by eexists|rewrite Eb; lia|by rewrite Eq].
Defined.
