(* ===== verification/Link.v ===== *)
(** * Frames: [lwip/src/netif/ethernet.c] and [port/netif/tapif.c]

    The state of the link layer: memory, the interfaces, the ARP table (operated on
    in [Etharp]), the frames handed to [write] on the tap device, and the state
    [upper] of the protocols above.  Interfaces are named by numbers, as the code
    names them by address. *)

From S2P Require Import Prelude CLib Def Mem Alloc Pbuf Ip4Addr.
Import Def.Def Pbuf Ip4Addr.Ip4Addr.

Module Link.

Definition ETH_HWADDR_LEN : Z := 6.
Definition SIZEOF_ETH_HDR : Z := 14.
Definition ETHTYPE_IP : Z := 0x0800.
Definition ETHTYPE_ARP : Z := 0x0806.
Definition NETIF_FLAG_ETHARP : Z := 0x08.
Definition PBUF_FLAG_LLBCAST : Z := 0x08.
Definition PBUF_FLAG_LLMCAST : Z := 0x10.
Definition LL_IP4_MULTICAST_ADDR_0 : Z := 0x01.
Definition LL_IP4_MULTICAST_ADDR_1 : Z := 0x00.
Definition LL_IP4_MULTICAST_ADDR_2 : Z := 0x5e.
Definition ERR_BUF : err_t := ERR_OTHER (-2).
Definition ERR_RTE : err_t := ERR_OTHER (-4).

(** [struct eth_addr]: six bytes. *)
Abbreviation eth_addr := bytes.
Definition ethbroadcast : eth_addr := [0xff; 0xff; 0xff; 0xff; 0xff; 0xff].
Definition ethzero : eth_addr := [0; 0; 0; 0; 0; 0].

Inductive etharp_state :=
  ETHARP_STATE_EMPTY | ETHARP_STATE_PENDING | ETHARP_STATE_STABLE |
  ETHARP_STATE_STABLE_REREQUESTING_1 | ETHARP_STATE_STABLE_REREQUESTING_2.

#[global] Instance etharp_state_eq_dec : EqDecision etharp_state.
Proof. solve_decision. Defined.

(** [struct etharp_entry]; one packet may wait in [q]. *)
Record etharp_entry := mk_entry {
  q : option loc;
  ipaddr : Z;
  enetif : option Z;
  ethaddr : eth_addr;
  ctime : Z;   (* u16_t *)
  state : etharp_state;
}.

Record link (A U : Type) := mk_link {
  lwld : world A;
  netifs : gmap Z netif;
  arp_table : list etharp_entry;
  etharp_cached_entry : nat;   (* u8_t *)
  wire : list bytes;
  upper : U;
}.
Arguments mk_link {A U} _ _ _ _ _ _.
Arguments lwld {A U} _.
Arguments netifs {A U} _.
Arguments arp_table {A U} _.
Arguments etharp_cached_entry {A U} _.
Arguments wire {A U} _.
Arguments upper {A U} _.

Section Ops.
Context {A U : Type} `{Alloc A}.
Abbreviation S := (link A U).

Definition set_arp_table f (s : S) : S :=
  mk_link (lwld s) (netifs s) (f (arp_table s)) (etharp_cached_entry s) (wire s) (upper s).
Definition set_hint i (s : S) : S :=
  mk_link (lwld s) (netifs s) (arp_table s) i (wire s) (upper s).
Definition send_frame f (s : S) : S :=
  mk_link (lwld s) (netifs s) (arp_table s) (etharp_cached_entry s) (wire s ++ [f]) (upper s).

(** Operations on memory. *)
Definition on_mem {B} (m : M (world A) B) : M S B := λ s,
  match m (lwld s) with
  | Ret (x, w) => Ret (x, mk_link w (netifs s) (arp_table s) (etharp_cached_entry s) (wire s) (upper s))
  | Err f => Err f
  end.
Definition rd_netif (id : Z) : M S netif := λ s,
  match netifs s !! id with Some n => Ret (n, s) | None => Err DanglingPtr end.

(** The 1514 bytes of the array [buf] of [low_level_output] before it is filled. *)
Context (stack_bytes : bytes).

(** [low_level_output(netif, p)] of the tap interface: what [write] returns is only
    reported. *)
Definition low_level_output (p : loc) : M S err_t :=
  pb ← on_mem (rd p);
  '(_, buf) ← on_mem (pbuf_copy_partial (Some p) (Some stack_bytes) (tot_len pb) 0);
  buf ← on_mem (read_from buf 0 (tot_len pb));
  _ ← modify (send_frame buf);
  mret ERR_OK.

(** [ethernet_output(netif, p, src, dst, eth_type)] *)
Definition ethernet_output (id : Z) (p : loc) (src dst : eth_addr) (eth_type : Z) : M S err_t :=
  let eth_type_be := lwip_htons eth_type in
  failed ← on_mem (pbuf_header (Some p) SIZEOF_ETH_HDR);
  if (failed : bool) then mret ERR_BUF
  else
    pb ← on_mem (rd p);
    let ethhdr := payload pb in
    _ ← on_mem (store ethhdr 12 (le_bytes 2 eth_type_be));
    _ ← on_mem (store ethhdr 0 dst);
    _ ← on_mem (store ethhdr 6 src);
    n ← rd_netif id;
    _ ← assert_ (hwaddr_len n =? ETH_HWADDR_LEN);
    low_level_output p.
End Ops.
End Link.
