(* ===== verification/LinkSpec.v ===== *)
(** * Frames are sent as they should be

    [ethernet_output] puts the Ethernet header in front of a packet and hands exactly
    those bytes to the tap device. *)

From S2P Require Import Prelude CLib Def Mem Memp Alloc Pbuf PbufChain PbufWrite PbufOwn PbufOps PbufSpec PbufRam Ip4Addr Link.
Import Def.Def Pbuf Ip4Addr.Ip4Addr Link.

(** The bytes of a frame. *)
Definition eth_frame (dst src : eth_addr) (eth_type : Z) (body : bytes) : bytes :=
  dst ++ src ++ le_bytes 2 (lwip_htons eth_type) ++ body.

(** The state with memory [w] and the frames [f] sent in addition. *)
Definition sent {A U} (w : world A) (f : list bytes) (s : link A U) : link A U :=
  mk_link w (netifs s) (arp_table s) (etharp_cached_entry s) (wire s ++ f) (upper s).

(** An interface with an Ethernet address. *)
Definition netif_ok (n : netif) : Prop := hwaddr_len n = ETH_HWADDR_LEN ∧ length (hwaddr n) = 6%nat.

Section Output.
Context {A U : Type} `{HA : Alloc A}.
Implicit Types (w : world A) (s : link A U) (p : loc).

Lemma bind_mem {B C} (m : M (world A) B) (k : B → M (link A U) C) w x w' s :
  m w = Ret (x, w') → lwld s = w → (on_mem m ≫= k) s = k x (sent w' [] s).
Proof. intros Hm <-. apply bind_Ret. unfold on_mem, sent. by rewrite Hm, app_nil_r. Qed.

Lemma bind_netif {C} s id n (k : netif → M (link A U) C) :
  netifs s !! id = Some n → (rd_netif id ≫= k) s = k n s.
Proof. intros Hn. apply bind_Ret. unfold rd_netif. by rewrite Hn. Qed.

Lemma sent_sent w1 w2 f1 f2 s : sent w2 f2 (sent w1 f1 s) = sent w2 (f1 ++ f2) s.
Proof. unfold sent. simpl. by rewrite (assoc_L app). Qed.

Lemma changes_only ls w w' : only ls w w' →
  (∀ l, (λ pb, (type pb, Pbuf.flags pb)) <$> pbs w' !! l = (λ pb, (type pb, Pbuf.flags pb)) <$> pbs w !! l) → changes ls w w'.
Proof. intros [] Hk. constructor; try done; intros; congruence. Qed.

Lemma changes_frame w w' p pb o : payload pb = Some (Own p, o) → frame (region_list pb) w w' → changes [p] w w'.
Proof.
  intros Hp [F1 F2 F3 F4 F5 F6]. constructor; try done.
  - intros l _. by rewrite F1.
  - intros l. by rewrite F1.
  - intros r Hr. apply F5. unfold region_list. rewrite Hp. destruct (len pb =? 0); [by intros ?%elem_of_nil|].
    intros ->%list_elem_of_singleton. apply (Hr p); [by left|done].
Qed.

Lemma changes_same w1 w2 w3 ls : changes ls w1 w2 → changes ls w2 w3 → changes ls w1 w3.
Proof. intros H1 H2. eapply changes_mono; [|by eapply changes_trans]. intros l [?|?]%elem_of_app; done. Qed.

(** The stores of the three fields of a header of 14 bytes. *)
Lemma eth_hdr_splices (h rest dst src ty : bytes) : length h = 14%nat → length dst = 6%nat → length src = 6%nat →
  length ty = 2%nat → splice 6 src (splice 0 dst (splice 12 ty (h ++ rest))) = (dst ++ src ++ ty) ++ rest.
Proof.
  intros Hh Hd Hs Ht. do 15 (destruct h as [|? h]; try done). do 7 (destruct dst as [|? dst]; try done).
  do 7 (destruct src as [|? src]; try done). do 3 (destruct ty as [|? ty]; try done).
Qed.

Context (stack_bytes : bytes) (stack_length : length stack_bytes = 1514%nat).

(** [low_level_output] writes the bytes of the packet. *)
Lemma low_level_output_ok s p cs ds : packet (lwld s) (Some p) cs ds → lens cs ≤ 1514 →
  low_level_output stack_bytes p s = Ret (ERR_OK, sent (lwld s) [concat ds] s).
Proof.
  intros Hp Hl. pose proof (pk_tot _ _ _ _ Hp) as Ht. pose proof (content_lens _ _ _ Ht (pk_content _ _ _ _ Hp)) as Hd.
  destruct (packet_head _ _ _ _ Hp) as (pb & cs' & E & Hlv & Hpb & Htl). unfold low_level_output.
  rewrite (bind_mem _ _ _ _ _ _ (rd_ok _ _ _ Hlv Hpb)), Htl by done.
  pose proof (lens_nonneg _ Ht) as Hr.
  erewrite bind_mem; [|eapply (pbuf_copy_partial_ok (lwld s) p cs ds stack_bytes); [done|unfold is_u16; lia|unfold is_u16; lia|lia]|done].
  cbv beta iota. rewrite drop_0, take_ge by lia.
  erewrite bind_mem; [|apply read_from_ok; [lia|rewrite length_app, length_drop; lia]|done].
  change (Z.to_nat 0) with 0%nat. rewrite drop_0, take_app_length' by lia. unfold sent. simpl. by rewrite !app_nil_r.
Qed.

(** [ethernet_output] on a packet with room for the header. *)
Lemma ethernet_output_ok s id n p pb cs d ds o bs src dst ty :
  packet (lwld s) (Some p) ((p, pb) :: cs) (d :: ds) → NoDup (Own p :: regions cs) →
  payload pb = Some (Own p, o) → type pb = PBUF_RAM ∨ type pb = PBUF_POOL →
  data (lwld s) !! Own p = Some bs → o + len pb ≤ Z.of_nat (length bs) → SIZEOF_ETH_HDR ≤ o →
  lens ((p, pb) :: cs) ≤ 1500 → length src = 6%nat → length dst = 6%nat →
  netifs s !! id = Some n → netif_ok n →
  ∃ w', ethernet_output stack_bytes id p src dst ty s =
      Ret (ERR_OK, sent w' [eth_frame dst src ty (concat (d :: ds))] s) ∧
    changes [p] (lwld s) w' ∧ pbs w' !! p = Some (moved SIZEOF_ETH_HDR (Own p) o pb) ∧
    packet w' (Some p) ((p, moved SIZEOF_ETH_HDR (Own p) o pb) :: cs)
      ((dst ++ src ++ le_bytes 2 (lwip_htons ty) ++ d) :: ds).
Proof.
  intros Hp Hnd Hpay Hty Hbs Hob Ho Hl Hsrc Hdst Hn [Hhl _]. change SIZEOF_ETH_HDR with 14 in Ho. unfold ethernet_output, pbuf_header.
  destruct (header_reveal _ p pb cs d ds o bs SIZEOF_ETH_HDR false Hp Hpay Hty Hbs Hob)
    as (w1 & Hrun1 & Ho1 & Hp1); [done|done|change SIZEOF_ETH_HDR with 14; lia|].
  rewrite (bind_mem _ _ _ _ _ _ Hrun1) by done. cbv beta iota.
  set (pb1 := moved SIZEOF_ETH_HDR (Own p) o pb) in *.
  set (h := take _ (drop _ bs)) in Hp1. assert (length h = 14%nat) as Hh.
  { unfold h. rewrite length_take, length_drop. change (Z.to_nat SIZEOF_ETH_HDR) with 14%nat. change SIZEOF_ETH_HDR with 14.
    pose proof (packet_cons _ _ _ _ _ _ _ Hp) as (_ & _ & _ & _ & _ & _ & _ & H0 & _). lia. }
  pose proof (packet_cons _ _ _ _ _ _ _ Hp1) as (_ & Hlv & Hpb1 & _ & _ & Hdl & _ & _ & _ & H0).
  rewrite length_app, Hh in Hdl.
  rewrite (bind_mem _ _ _ _ _ _ (rd_ok _ _ _ Hlv Hpb1)) by done. cbv beta iota zeta.
  assert (NoDup (regions ((p, pb1) :: cs))) as Hnd1.
  { simpl. unfold region_list. simpl. rewrite (proj2 (Z.eqb_neq _ _)) by (simpl in Hdl; lia). done. }
  assert (changes [p] (lwld s) w1) as C1.
  { apply changes_only; [done|]. intros l. destruct (decide (l = p)) as [->|Hne].
    - pose proof (packet_cons _ _ _ _ _ _ _ Hp) as (_ & _ & E & _). by rewrite E, Hpb1.
    - by rewrite (on_pbs _ _ _ Ho1) by (by intros ?%list_elem_of_singleton). }
  destruct (packet_store _ _ _ _ _ _ _ 12 (le_bytes 2 (lwip_htons ty)) Hp1 Hnd1)
    as (w2 & Hrun2 & Hf2 & Hp2); [lia|rewrite length_le_bytes; lia|]. rewrite (bind_mem _ _ _ _ _ _ Hrun2) by done.
  destruct (packet_store _ _ _ _ _ _ _ 0 dst Hp2 Hnd1) as (w3 & Hrun3 & Hf3 & Hp3); [lia|lia|].
  rewrite (bind_mem _ _ _ _ _ _ Hrun3) by done.
  destruct (packet_store _ _ _ _ _ _ _ 6 src Hp3 Hnd1) as (w4 & Hrun4 & Hf4 & Hp4); [lia|lia|].
  rewrite (bind_mem _ _ _ _ _ _ Hrun4) by done. erewrite bind_netif by exact Hn. rewrite bind_assert by (by rewrite Hhl).
  change (Z.to_nat 12) with 12%nat in Hp4. change (Z.to_nat 0) with 0%nat in Hp4. change (Z.to_nat 6) with 6%nat in Hp4.
  rewrite eth_hdr_splices in Hp4 by (done || apply length_le_bytes). rewrite <- !(assoc_L app) in Hp4.
  exists w4. split; [|split_and!].
  - erewrite low_level_output_ok; [|exact Hp4|].
    + rewrite !sent_sent. unfold eth_frame. cbn [concat]. by rewrite <- !(assoc_L app).
    + simpl. change SIZEOF_ETH_HDR with 14. simpl in Hl. lia.
  - repeat (eapply changes_same; [|eapply changes_frame; [|eassumption]; reflexivity]). exact C1.
  - by rewrite (fr_pbs _ _ _ Hf4), (fr_pbs _ _ _ Hf3), (fr_pbs _ _ _ Hf2).
  - done.
Qed.
End Output.

(** ** Pbufs from the heap *)

Section Ram.
Context {A U : Type} `{HA : Alloc A} {elt_size : memp_t → Z} `{HL : !AllocLaws A elt_size}.
Implicit Types (w : world A) (s : link A U) (p : loc) (L : gmap loc Z) (X N : gset loc).

Lemma grown_changes w0 L0 w L X N w' ls : grown w0 L0 w L X N → changes ls w w' → (∀ l, l ∈ ls → l ∈ X) →
  grown w0 L0 w' L X N.
Proof.
  intros Hg Hch Hls. pose proof Hg as [Hi Hlv Hf Hp Hs Hn Hm Hpb Hd Hbl]. pose proof Hch as [C1 C2 C3 C4 C5 C6].
  constructor; try done.
  - by eapply inv_changes.
  - by rewrite C1.
  - intros l Hl. rewrite C3; [auto|]. intros Hin. specialize (Hls l Hin). set_solver.
  - intros r Hr. rewrite C5; [auto|]. intros l Hl ->. specialize (Hls l Hl). simpl in Hr.
    apply bool_decide_eq_true in Hr. set_solver.
Qed.

Lemma ram_packet w X p off n bs : is_ram w X p off n bs → p ∈ live w → is_u16 n →
  packet w (Some p) [(p, ram_pbuf p off n)] [take (Z.to_nat n) (drop (Z.to_nat off) bs)].
Proof.
  intros [Hin Hpb Hd Hr] Hl Hn. constructor.
  - by simpl.
  - simpl. rewrite Z.add_0_r. by split_and!.
  - apply list.Forall2_cons. split; [|constructor]. cbn [snd ram_pbuf payload len].
    by rewrite (load_own w p off 0 n bs), Z.add_0_r by (done || lia).
Qed.

Context (stack_bytes : bytes) (stack_length : length stack_bytes = 1514%nat).

Lemma ram_output w0 L0 s L X N p off n bs id nif src dst ty : grown w0 L0 (lwld s) L X N →
  is_ram (lwld s) X p off n bs → SIZEOF_ETH_HDR ≤ off → n ≤ 1500 → length src = 6%nat → length dst = 6%nat →
  netifs s !! id = Some nif → netif_ok nif →
  ∃ w' pb, ethernet_output stack_bytes id p src dst ty s =
      Ret (ERR_OK, sent w' [eth_frame dst src ty (take (Z.to_nat n) (drop (Z.to_nat off) bs))] s) ∧
    grown w0 L0 w' L X N ∧ changes [p] (lwld s) w' ∧ pbs w' !! p = Some pb ∧ next pb = None ∧ ref pb = 1.
Proof.
  intros Hg Hr Ho Hn Hs Hd Hnif Hok. pose proof (ram_live _ _ _ _ _ _ _ _ _ _ Hg Hr) as Hl.
  pose proof Hr as [Hin Hpb Hbs Hrg].
  destruct (ethernet_output_ok stack_bytes stack_length s id nif p (ram_pbuf p off n) [] _ [] off bs src dst ty
    (ram_packet _ _ _ _ _ _ Hr Hl ltac:(unfold is_u16; lia))) as (w' & Hrun & Hch & Hp & _); try done.
  - apply list.NoDup_singleton.
  - by left.
  - simpl. lia.
  - simpl. lia.
  - exists w', (moved SIZEOF_ETH_HDR (Own p) off (ram_pbuf p off n)). rewrite Hrun. cbn [concat]. rewrite app_nil_r. split_and!; try done.
    eapply grown_changes; [done|exact Hch|]. by intros l ->%list_elem_of_singleton.
Qed.

Lemma ram_output_free f w0 L0 s L X N p off n bs id nif src dst ty {C} (k : M (link A U) C) : grown w0 L0 (lwld s) L X N →
  is_ram (lwld s) X p off n bs → SIZEOF_ETH_HDR ≤ off → n ≤ 1500 → length src = 6%nat → length dst = 6%nat →
  netifs s !! id = Some nif → netif_ok nif →
  ∃ w' L', (_ ← ethernet_output stack_bytes id p src dst ty; _ ← on_mem (pbuf_free f (Some p)); k) s =
      k (sent w' [eth_frame dst src ty (take (Z.to_nat n) (drop (Z.to_nat off) bs))] s) ∧
    grown w0 L0 w' L' (X ∖ {[p]}) N ∧ (∀ l, l ≠ p → pbs w' !! l = pbs (lwld s) !! l) ∧
    (∀ r, r ≠ Own p → data w' !! r = data (lwld s) !! r).
Proof.
  intros Hg Hr Ho Hn Hs Hd Hnif Hok.
  destruct (ram_output w0 L0 s L X N p off n bs id nif src dst ty) as (w1 & pb & Hrun & Hg1 & Hch & Hp & Hnx & Href); try done.
  rewrite (bind_Ret _ _ _ _ _ Hrun).
  destruct (grown_pbuf_free f _ _ _ _ _ _ p pb Hg1 (ir_in _ _ _ _ _ _ Hr) Hp Hnx Href) as (w2 & L2 & Hrun2 & Hg2 & Ed & Ep).
  rewrite (bind_mem _ _ _ _ _ _ Hrun2) by done. rewrite sent_sent, app_nil_r. exists w2, L2. split_and!; try done.
  - intros l Hl. rewrite Ep by done. apply (ch_pbs _ _ _ Hch). by intros ?%list_elem_of_singleton.
  - intros r Hr'. rewrite Ed. apply (ch_data _ _ _ Hch). by intros l ->%list_elem_of_singleton.
Qed.
End Ram.
