(* ===== verification/Etharp.v ===== *)
(** * Address resolution: [lwip/src/core/ipv4/etharp.c]

    The table maps IPv4 addresses to Ethernet addresses.  An entry is pending until
    an answer arrives, and then stable for [ARP_MAXAGE] seconds; one packet waits on
    a pending entry.  In the configuration of the program there are no static
    entries, entries are not tied to an interface, and [LWIP_DEBUG] is defined, so
    that a released entry is cleared. *)

From S2P Require Import Prelude CLib Def Mem Alloc Pbuf Ip4Addr Link.
Import Def.Def Pbuf Ip4Addr.Ip4Addr Link.

Module Etharp.

Definition ARP_TABLE_SIZE : nat := 10.
Definition ARP_MAXAGE : Z := 300.
Definition ARP_AGE_REREQUEST_USED_UNICAST : Z := ARP_MAXAGE - 30.
Definition ARP_AGE_REREQUEST_USED_BROADCAST : Z := ARP_MAXAGE - 15.
Definition ARP_MAXPENDING : Z := 5.
Definition ETHARP_FLAG_TRY_HARD : Z := 1.
Definition ETHARP_FLAG_FIND_ONLY : Z := 2.
Definition SIZEOF_ETHARP_HDR : Z := 28.
Definition HWTYPE_ETHERNET : Z := 1.
Definition ARP_REQUEST : Z := 1.
Definition ARP_REPLY : Z := 2.

(** [ip4_addr_ismulticast], [ip4_addr_islinklocal] of [ip4_addr.h] *)
Definition ip4_addr_ismulticast (a : Z) : bool :=
  Z.land a (PP_HTONL 0xf0000000) =? PP_HTONL 0xe0000000.
Definition ip4_addr_islinklocal (a : Z) : bool :=
  Z.land a (PP_HTONL 0xffff0000) =? PP_HTONL 0xa9fe0000.
(** [ip4_addr2] to [ip4_addr4]: bytes of the address in memory. *)
Definition ip4_addr_byte (k a : Z) : Z := Z.land (Z.shiftr a (8 * (k - 1))) 0xff.

(** [state >= ETHARP_STATE_STABLE] *)
Definition stable (st : etharp_state) : bool :=
  match st with ETHARP_STATE_EMPTY | ETHARP_STATE_PENDING => false | _ => true end.

Definition set_state st e := mk_entry (q e) (ipaddr e) (enetif e) (ethaddr e) (ctime e) st.
Definition set_q x e := mk_entry x (ipaddr e) (enetif e) (ethaddr e) (ctime e) (state e).
Definition set_ctime t e := mk_entry (q e) (ipaddr e) (enetif e) (ethaddr e) t (state e).
Definition set_ipaddr a e := mk_entry (q e) a (enetif e) (ethaddr e) (ctime e) (state e).
Definition set_enetif n e := mk_entry (q e) (ipaddr e) n (ethaddr e) (ctime e) (state e).
Definition set_ethaddr a e := mk_entry (q e) (ipaddr e) (enetif e) a (ctime e) (state e).

(** Static memory starts out zeroed, and [etharp_free_entry] zeroes it again. *)
Definition zero_entry : etharp_entry := mk_entry None 0 None ethzero 0 ETHARP_STATE_EMPTY.
Definition arp_init : list etharp_entry := replicate ARP_TABLE_SIZE zero_entry.

(** The candidates [etharp_find_entry] remembers; [ARP_TABLE_SIZE] is none. *)
Record candidates := mk_candidates {
  old_pending : nat; old_stable : nat; empty : nat; old_queue : nat;
  age_queue : Z; age_pending : Z; age_stable : Z;
}.

Section Ops.
Context {A U : Type} `{Alloc A}.
Context (uninit : world A → loc → Z → bytes) (custom_free_function : loc → M (world A) ()) (stack_bytes : bytes).
Abbreviation S := (link A U).
#[local] Abbreviation ethernet_output := (ethernet_output stack_bytes).

Definition rd_entry (i : nat) : M S etharp_entry := λ s,
  match arp_table s !! i with Some e => Ret (e, s) | None => Err OutOfBounds end.
Definition upd_entry (i : nat) (f : etharp_entry → etharp_entry) : M S () :=
  e ← rd_entry i; modify (set_arp_table <[i := f e]>).

(** [etharp_free_entry(i)] *)
Definition etharp_free_entry (i : nat) : M S () :=
  e ← rd_entry i;
  _ ← match q e with
      | Some p => _ ← on_mem (pbuf_free custom_free_function (Some p)); upd_entry i (set_q None)
      | None => mret ()
      end;
  _ ← upd_entry i (set_state ETHARP_STATE_EMPTY);
  _ ← upd_entry i (set_ctime 0);
  _ ← upd_entry i (set_enetif None);
  _ ← upd_entry i (set_ipaddr 0);
  upd_entry i (set_ethaddr ethzero).

(** ** Looking up *)

(** The sweep: a matching entry, or the candidates. *)
Fixpoint find_loop (addr : option Z) (es : list etharp_entry) (i : nat) (c : candidates) : nat + candidates :=
  match es with
  | [] => inr c
  | e :: es' =>
      let next := find_loop addr es' (Datatypes.S i) in
      if (empty c =? ARP_TABLE_SIZE)%nat && bool_decide (state e = ETHARP_STATE_EMPTY)
      then next (mk_candidates (old_pending c) (old_stable c) i (old_queue c) (age_queue c) (age_pending c) (age_stable c))
      else if bool_decide (state e ≠ ETHARP_STATE_EMPTY) then
        if bool_decide (addr = Some (ipaddr e)) then inl i
        else if bool_decide (state e = ETHARP_STATE_PENDING) then
          match q e with
          | Some _ =>
              if age_queue c <=? ctime e
              then next (mk_candidates (old_pending c) (old_stable c) (empty c) i (ctime e) (age_pending c) (age_stable c))
              else next c
          | None =>
              if age_pending c <=? ctime e
              then next (mk_candidates i (old_stable c) (empty c) (old_queue c) (age_queue c) (ctime e) (age_stable c))
              else next c
          end
        else if age_stable c <=? ctime e
        then next (mk_candidates (old_pending c) i (empty c) (old_queue c) (age_queue c) (age_pending c) (ctime e))
        else next c
      else next c
  end.

Definition no_candidates : candidates :=
  mk_candidates ARP_TABLE_SIZE ARP_TABLE_SIZE ARP_TABLE_SIZE ARP_TABLE_SIZE 0 0 0.

(** [etharp_find_entry(ipaddr, flags, netif)]: the index, or [None] for [ERR_MEM]. *)
Definition etharp_find_entry (addr : option Z) (flags : Z) : M S (option nat) :=
  s ← get;
  match find_loop addr (arp_table s) 0 no_candidates with
  | inl i => mret (Some i)
  | inr c =>
      if negb (Z.land flags ETHARP_FLAG_FIND_ONLY =? 0) ||
         (empty c =? ARP_TABLE_SIZE)%nat && (Z.land flags ETHARP_FLAG_TRY_HARD =? 0)
      then mret None
      else
        r ← (if (empty c <? ARP_TABLE_SIZE)%nat then mret (Some (empty c))
             else
               r ← (if (old_stable c <? ARP_TABLE_SIZE)%nat then
                      e ← rd_entry (old_stable c);
                      _ ← assert_ (bool_decide (q e = None));
                      mret (Some (old_stable c))
                    else if (old_pending c <? ARP_TABLE_SIZE)%nat then mret (Some (old_pending c))
                    else if (old_queue c <? ARP_TABLE_SIZE)%nat then mret (Some (old_queue c))
                    else mret None);
               match r with
               | None => mret None
               | Some i =>
                   _ ← assert_ (i <? ARP_TABLE_SIZE)%nat;
                   _ ← etharp_free_entry i;
                   mret (Some i)
               end);
        match r with
        | None => mret None
        | Some i =>
            _ ← assert_ (i <? ARP_TABLE_SIZE)%nat;
            e ← rd_entry i;
            _ ← assert_ (bool_decide (state e = ETHARP_STATE_EMPTY));
            _ ← match addr with
                | Some a => upd_entry i (set_ipaddr a)
                | None => mret ()
                end;
            _ ← upd_entry i (set_ctime 0);
            mret (Some i)
        end
  end.

(** ** Sending *)

(** [etharp_raw(netif, ...)] *)
Definition etharp_raw (id : Z) (ethsrc_addr ethdst_addr hwsrc_addr : eth_addr) (ipsrc_addr : Z)
    (hwdst_addr : eth_addr) (ipdst_addr opcode : Z) : M S err_t :=
  r ← on_mem (pbuf_alloc uninit custom_free_function PBUF_LINK SIZEOF_ETHARP_HDR PBUF_RAM);
  match r with
  | None => mret ERR_MEM
  | Some p =>
      pb ← on_mem (rd p);
      _ ← assert_ (SIZEOF_ETHARP_HDR <=? len pb);
      let hdr := payload pb in
      _ ← on_mem (store hdr 6 (le_bytes 2 (lwip_htons opcode)));
      n ← rd_netif id;
      _ ← assert_ (hwaddr_len n =? ETH_HWADDR_LEN);
      _ ← on_mem (store hdr 8 hwsrc_addr);
      _ ← on_mem (store hdr 18 hwdst_addr);
      _ ← on_mem (store hdr 14 (le_bytes 4 ipsrc_addr));
      _ ← on_mem (store hdr 24 (le_bytes 4 ipdst_addr));
      _ ← on_mem (store hdr 0 (le_bytes 2 (PP_HTONS HWTYPE_ETHERNET)));
      _ ← on_mem (store hdr 2 (le_bytes 2 (PP_HTONS ETHTYPE_IP)));
      _ ← on_mem (store hdr 4 [ETH_HWADDR_LEN]);
      _ ← on_mem (store hdr 5 [4]);
      _ ← ethernet_output id p ethsrc_addr ethdst_addr ETHTYPE_ARP;
      _ ← on_mem (pbuf_free custom_free_function (Some p));
      mret ERR_OK
  end.

(** [etharp_request_dst(netif, ipaddr, hw_dst_addr)] and [etharp_request(netif, ipaddr)] *)
Definition etharp_request_dst (id a : Z) (hw_dst_addr : eth_addr) : M S err_t :=
  n ← rd_netif id;
  etharp_raw id (hwaddr n) hw_dst_addr (hwaddr n) (ip_addr n) ethzero a ARP_REQUEST.
Definition etharp_request (id a : Z) : M S err_t := etharp_request_dst id a ethbroadcast.

(** One round of the loop of [etharp_tmr]. *)
Definition tmr_entry (i : nat) : M S () :=
  e ← rd_entry i;
  if bool_decide (state e ≠ ETHARP_STATE_EMPTY) then
    _ ← upd_entry i (λ e, set_ctime (u16 (ctime e + 1)) e);
    e ← rd_entry i;
    if (ARP_MAXAGE <=? ctime e) ||
       bool_decide (state e = ETHARP_STATE_PENDING) && (ARP_MAXPENDING <=? ctime e)
    then etharp_free_entry i
    else match state e with
         | ETHARP_STATE_STABLE_REREQUESTING_1 => upd_entry i (set_state ETHARP_STATE_STABLE_REREQUESTING_2)
         | ETHARP_STATE_STABLE_REREQUESTING_2 => upd_entry i (set_state ETHARP_STATE_STABLE)
         | ETHARP_STATE_PENDING =>
             id ← of_option NullDeref (enetif e);
             _ ← etharp_request id (ipaddr e);
             mret ()
         | _ => mret ()
         end
  else mret ().

Fixpoint tmr_loop (js : list nat) : M S () :=
  match js with [] => mret () | i :: js' => _ ← tmr_entry i; tmr_loop js' end.

(** [etharp_tmr()] *)
Definition etharp_tmr : M S () := tmr_loop (seq 0 ARP_TABLE_SIZE).

(** ** Updating *)

(** [etharp_update_arp_entry(netif, ipaddr, ethaddr, flags)] *)
Definition etharp_update_arp_entry (id a : Z) (mac : eth_addr) (flags : Z) : M S err_t :=
  n ← rd_netif id;
  _ ← assert_ (hwaddr_len n =? ETH_HWADDR_LEN);
  if (a =? IPADDR_ANY) || negb (ip4_addr_isbroadcast_u32 a n =? 0) || ip4_addr_ismulticast a then mret ERR_ARG
  else
    r ← etharp_find_entry (Some a) flags;
    match r with
    | None => mret ERR_MEM
    | Some i =>
        _ ← upd_entry i (set_state ETHARP_STATE_STABLE);
        _ ← upd_entry i (set_enetif (Some id));
        _ ← upd_entry i (set_ethaddr mac);
        _ ← upd_entry i (set_ctime 0);
        e ← rd_entry i;
        match q e with
        | Some p =>
            _ ← upd_entry i (set_q None);
            _ ← ethernet_output id p (hwaddr n) mac ETHTYPE_IP;
            _ ← on_mem (pbuf_free custom_free_function (Some p));
            mret ERR_OK
        | None => mret ERR_OK
        end
    end.

(** [etharp_cleanup_netif(netif)] *)
Fixpoint cleanup_loop (id : Z) (js : list nat) : M S () :=
  match js with
  | [] => mret ()
  | i :: js' =>
      e ← rd_entry i;
      _ ← (if bool_decide (state e ≠ ETHARP_STATE_EMPTY) && bool_decide (enetif e = Some id)
           then etharp_free_entry i else mret ());
      cleanup_loop id js'
  end.
Definition etharp_cleanup_netif (id : Z) : M S () := cleanup_loop id (seq 0 ARP_TABLE_SIZE).

(** [etharp_find_addr(netif, ipaddr, &eth_ret, &ip_ret)]: the index and what the two
    pointers point to; [None] for -1. *)
Definition etharp_find_addr (a : Z) : M S (option (nat * eth_addr * Z)) :=
  r ← etharp_find_entry (Some a) ETHARP_FLAG_FIND_ONLY;
  match r with
  | None => mret None
  | Some i =>
      e ← rd_entry i;
      mret (if stable (state e) then Some (i, ethaddr e, ipaddr e) else None)
  end.

(** [etharp_get_entry(i, &ipaddr, &netif, &eth_ret)] *)
Definition etharp_get_entry (i : nat) : M S (option (Z * option Z * eth_addr)) :=
  if (i <? ARP_TABLE_SIZE)%nat then
    e ← rd_entry i;
    mret (if stable (state e) then Some (ipaddr e, enetif e, ethaddr e) else None)
  else mret None.

(** ** Packets *)

(** [etharp_output_to_arp_index(netif, q, arp_idx)] *)
Definition etharp_output_to_arp_index (id : Z) (p : loc) (i : nat) : M S err_t :=
  e ← rd_entry i;
  _ ← assert_ (stable (state e));
  _ ← (if bool_decide (state e = ETHARP_STATE_STABLE) then
         if ARP_AGE_REREQUEST_USED_BROADCAST <=? ctime e then
           r ← etharp_request id (ipaddr e);
           if decide (r = ERR_OK) then upd_entry i (set_state ETHARP_STATE_STABLE_REREQUESTING_1) else mret ()
         else if ARP_AGE_REREQUEST_USED_UNICAST <=? ctime e then
           r ← etharp_request_dst id (ipaddr e) (ethaddr e);
           if decide (r = ERR_OK) then upd_entry i (set_state ETHARP_STATE_STABLE_REREQUESTING_1) else mret ()
         else mret ()
       else mret ());
  n ← rd_netif id;
  e ← rd_entry i;
  ethernet_output id p (hwaddr n) (ethaddr e) ETHTYPE_IP.

(** The search for a pbuf that is not in ROM; [None] when there is none. *)
Fixpoint copy_needed (k : nat) (p : option loc) : M (world A) (option pbuf) :=
  match p with
  | None => mret None
  | Some l =>
      pb ← rd l;
      _ ← assert_ (negb (len pb =? tot_len pb) || bool_decide (next pb = None));
      if bool_decide (type pb ≠ PBUF_ROM) then mret (Some pb)
      else match k with O => fail Diverges | Datatypes.S k' => copy_needed k' (next pb) end
  end.

(** The packet to keep: a copy, or the packet itself with one more reference. *)
Definition take_over (p : loc) : M (world A) (option loc) :=
  w ← get;
  r ← copy_needed (fuel w) (Some p);
  match r with
  | Some pb =>
      r ← pbuf_alloc uninit custom_free_function PBUF_LINK (tot_len pb) PBUF_RAM;
      match r with
      | None => mret None
      | Some l =>
          e ← pbuf_copy (Some l) (Some p);
          if decide (e = ERR_OK) then mret (Some l)
          else _ ← pbuf_free custom_free_function (Some l); mret None
      end
  | None => _ ← pbuf_ref (Some p); mret (Some p)
  end.

(** [etharp_query(netif, ipaddr, q)] *)
Definition etharp_query (id a : Z) (pkt : option loc) : M S err_t :=
  n ← rd_netif id;
  if negb (ip4_addr_isbroadcast_u32 a n =? 0) || ip4_addr_ismulticast a || (a =? IPADDR_ANY) then mret ERR_ARG
  else
    r ← etharp_find_entry (Some a) ETHARP_FLAG_TRY_HARD;
    match r with
    | None => mret ERR_MEM
    | Some i =>
        e ← rd_entry i;
        let is_new_entry := bool_decide (state e = ETHARP_STATE_EMPTY) in
        _ ← (if is_new_entry
             then _ ← upd_entry i (set_state ETHARP_STATE_PENDING); upd_entry i (set_enetif (Some id))
             else mret ());
        result ← (if is_new_entry || bool_decide (pkt = None) then etharp_request id a else mret ERR_MEM);
        match pkt with
        | None => mret result
        | Some p =>
            e ← rd_entry i;
            if stable (state e) then
              _ ← modify (set_hint i);
              ethernet_output id p (hwaddr n) (ethaddr e) ETHTYPE_IP
            else if bool_decide (state e = ETHARP_STATE_PENDING) then
              r ← on_mem (take_over p);
              match r with
              | Some l =>
                  e ← rd_entry i;
                  _ ← match q e with
                      | Some old => _ ← on_mem (pbuf_free custom_free_function (Some old)); mret ()
                      | None => mret ()
                      end;
                  _ ← upd_entry i (set_q (Some l));
                  mret ERR_OK
              | None => mret ERR_MEM
              end
            else mret result
        end
    end.

(** The loop of [etharp_output]: the first stable entry for the address. *)
Fixpoint find_stable (a : Z) (es : list etharp_entry) (i : nat) : option nat :=
  match es with
  | [] => None
  | e :: es' =>
      if stable (state e) && (a =? ipaddr e) then Some i else find_stable a es' (Datatypes.S i)
  end.

(** [etharp_output(netif, q, ipaddr)] *)
Definition etharp_output (id : Z) (p : loc) (a : Z) : M S err_t :=
  n ← rd_netif id;
  if negb (ip4_addr_isbroadcast_u32 a n =? 0) then ethernet_output id p (hwaddr n) ethbroadcast ETHTYPE_IP
  else if ip4_addr_ismulticast a then
    ethernet_output id p (hwaddr n)
      [LL_IP4_MULTICAST_ADDR_0; LL_IP4_MULTICAST_ADDR_1; LL_IP4_MULTICAST_ADDR_2;
       Z.land (ip4_addr_byte 2 a) 0x7f; ip4_addr_byte 3 a; ip4_addr_byte 4 a] ETHTYPE_IP
  else
    let gateway := negb (ip4_addr_netcmp a (ip_addr n) (netmask n)) && negb (ip4_addr_islinklocal a) in
    if gateway && (gw n =? IPADDR_ANY) then mret ERR_RTE
    else
      let dst_addr := if gateway then gw n else a in
      s ← get;
      e ← rd_entry (etharp_cached_entry s);
      if stable (state e) && (dst_addr =? ipaddr e)
      then etharp_output_to_arp_index id p (etharp_cached_entry s)
      else
        match find_stable dst_addr (arp_table s) 0 with
        | Some i => _ ← modify (set_hint i); etharp_output_to_arp_index id p i
        | None => etharp_query id dst_addr (Some p)
        end.

(** [etharp_input(p, netif)] *)
Definition etharp_input (p : loc) (id : Z) : M S () :=
  let drop_packet := (_ ← on_mem (pbuf_free custom_free_function (Some p)); mret ()) in
  pb ← on_mem (rd p);
  let hdr := payload pb in
  hwtype ← on_mem (load hdr 0 2);
  hwlen ← on_mem (load hdr 4 1);
  protolen ← on_mem (load hdr 5 1);
  proto ← on_mem (load hdr 2 2);
  if negb (le_word hwtype =? PP_HTONS HWTYPE_ETHERNET) || negb (le_word hwlen =? ETH_HWADDR_LEN) ||
     negb (le_word protolen =? 4) || negb (le_word proto =? PP_HTONS ETHTYPE_IP)
  then drop_packet
  else
    sip ← on_mem (load hdr 14 4);
    dip ← on_mem (load hdr 24 4);
    n ← rd_netif id;
    let for_us := if ip_addr n =? IPADDR_ANY then false else le_word dip =? ip_addr n in
    shwaddr ← on_mem (load hdr 8 6);
    _ ← etharp_update_arp_entry id (le_word sip) shwaddr
          (if for_us then ETHARP_FLAG_TRY_HARD else ETHARP_FLAG_FIND_ONLY);
    opcode ← on_mem (load hdr 6 2);
    _ ← (if (le_word opcode =? PP_HTONS ARP_REQUEST) && for_us then
           _ ← on_mem (store hdr 6 (le_bytes 2 (lwip_htons ARP_REPLY)));
           sip ← on_mem (load hdr 14 4);
           _ ← on_mem (store hdr 24 sip);
           _ ← on_mem (store hdr 14 (le_bytes 4 (ip_addr n)));
           _ ← assert_ (hwaddr_len n =? ETH_HWADDR_LEN);
           sha ← on_mem (load hdr 8 6);
           _ ← on_mem (store hdr 18 sha);
           _ ← on_mem (store hdr 8 (hwaddr n));
           src ← on_mem (load hdr 8 6);
           dst ← on_mem (load hdr 18 6);
           _ ← ethernet_output id p src dst ETHTYPE_ARP;
           mret ()
         else mret ());
    drop_packet.

(** ** Frames in *)

(** The IP layer. *)
Context (ip4_input : loc → Z → M S ()).

(** The link-layer flags of the pbuf. *)
Definition ll_flags (dest : eth_addr) : Z :=
  if negb (Z.land (nth 0 dest 0) 1 =? 0) then
    if nth 0 dest 0 =? LL_IP4_MULTICAST_ADDR_0 then
      if (nth 1 dest 0 =? LL_IP4_MULTICAST_ADDR_1) && (nth 2 dest 0 =? LL_IP4_MULTICAST_ADDR_2)
      then PBUF_FLAG_LLMCAST else 0
    else if bool_decide (dest = ethbroadcast) then PBUF_FLAG_LLBCAST else 0
  else 0.

(** [ethernet_input(p, netif)] *)
Definition ethernet_input (p : loc) (id : Z) : M S err_t :=
  let free_and_return := (_ ← on_mem (pbuf_free custom_free_function (Some p)); mret ERR_OK) in
  pb ← on_mem (rd p);
  if len pb <=? SIZEOF_ETH_HDR then free_and_return
  else
    ty ← on_mem (load (payload pb) 12 2);
    dest ← on_mem (load (payload pb) 0 6);
    _ ← (if ll_flags dest =? 0 then mret ()
         else on_mem (upd p (λ pb, set_flags (Z.lor (Pbuf.flags pb) (ll_flags dest)) pb)));
    n ← rd_netif id;
    let skip_header (m : M S ()) :=
      if Z.land (flags n) NETIF_FLAG_ETHARP =? 0 then free_and_return
      else
        failed ← (if len pb <? SIZEOF_ETH_HDR then mret true
                  else on_mem (pbuf_header (Some p) (- SIZEOF_ETH_HDR)));
        if (failed : bool) then free_and_return else _ ← m; mret ERR_OK in
    if le_word ty =? PP_HTONS ETHTYPE_IP then skip_header (ip4_input p id)
    else if le_word ty =? PP_HTONS ETHTYPE_ARP then skip_header (etharp_input p id)
    else free_and_return.

(** [low_level_input(netif)] of the tap interface with the bytes [read] returns; a
    failed [read] ends the program. *)
Definition low_level_input (frame : option bytes) : M S (option loc) :=
  match frame with
  | None => fail Exits
  | Some bs =>
      let len := u16 (Z.of_nat (length bs)) in
      r ← on_mem (pbuf_alloc uninit custom_free_function PBUF_RAW len PBUF_POOL);
      match r with
      | Some p => _ ← on_mem (pbuf_take (Some p) (Some bs) len); mret (Some p)
      | None => mret None
      end
  end.

(** [tapif_input(netif)] *)
Definition tapif_input (id : Z) (frame : option bytes) : M S () :=
  r ← low_level_input frame;
  match r with
  | None => mret ()
  | Some p =>
      e ← ethernet_input p id;
      if decide (e = ERR_OK) then mret ()
      else _ ← on_mem (pbuf_free custom_free_function (Some p)); mret ()
  end.
End Ops.
End Etharp.
