(* ===== verification/EtharpTable.v ===== *)
(** * The ARP table

    What [etharp_find_entry] finds or recycles, the invariant of the table, and the
    memory of the packets that wait on its entries. *)

From S2P Require Import Prelude CLib Def Mem Memp Alloc Pbuf PbufChain PbufWrite PbufOwn PbufOps PbufSpec PbufRam Ip4Addr Link LinkSpec Etharp.
Import Def.Def Pbuf Ip4Addr.Ip4Addr Link Etharp.

(** ** Entries *)

Definition nonempty (e : etharp_entry) : bool := bool_decide (state e ≠ ETHARP_STATE_EMPTY).
Definition is_stable (e : etharp_entry) : bool := stable (state e).
Definition is_pending (e : etharp_entry) : bool := bool_decide (state e = ETHARP_STATE_PENDING).
Definition with_queue (e : etharp_entry) : bool := is_pending e && bool_decide (q e ≠ None).
Definition without_queue (e : etharp_entry) : bool := is_pending e && bool_decide (q e = None).

(** Entry [k] is the oldest of those with property [Q], of age [a]; or there is none. *)
Definition oldest (Q : etharp_entry → bool) (t : list etharp_entry) (k : nat) (a : Z) : Prop :=
  (k = ARP_TABLE_SIZE ∧ a = 0 ∧ ∀ e, e ∈ t → Q e = false) ∨
  (∃ e, t !! k = Some e ∧ Q e = true ∧ a = ctime e ∧ ∀ e', e' ∈ t → Q e' = true → ctime e' ≤ ctime e).

Lemma oldest_skip Q t k a e : oldest Q t k a → Q e = false → oldest Q (t ++ [e]) k a.
Proof.
  intros [(-> & -> & Hn)|(e0 & Hk & Hq & -> & Hmax)] He.
  - left. split_and!; [done|done|]. intros e' [?| ->%list_elem_of_singleton]%elem_of_app; auto.
  - right. exists e0. split_and!; [by apply lookup_app_l_Some|done|done|].
    intros e' [?| ->%list_elem_of_singleton]%elem_of_app; [auto|congruence].
Qed.

Lemma oldest_new Q t k a e : oldest Q t k a → Q e = true → a ≤ ctime e → oldest Q (t ++ [e]) (length t) (ctime e).
Proof.
  intros Ho He Ha. right. exists e. split_and!; [by rewrite lookup_app_r, Nat.sub_diag by lia|done|done|].
  intros e' [Hin| ->%list_elem_of_singleton]%elem_of_app Hq'; [|lia].
  destruct Ho as [(_ & _ & Hn)|(e0 & _ & _ & -> & Hmax)]; [rewrite Hn in Hq' by done; done|].
  specialize (Hmax e' Hin Hq'). lia.
Qed.

Lemma oldest_keep Q t k a e : oldest Q t k a → Q e = true → 0 ≤ ctime e → ctime e < a → oldest Q (t ++ [e]) k a.
Proof.
  intros [(-> & -> & Hn)|(e0 & Hk & Hq & -> & Hmax)] He H0 Hlt; [lia|].
  right. exists e0. split_and!; [by apply lookup_app_l_Some|done|done|].
  intros e' [?| ->%list_elem_of_singleton]%elem_of_app ?; [auto|lia].
Qed.

(** ** The sweep of [etharp_find_entry] *)

Record summary (addr : option Z) (t : list etharp_entry) (c : candidates) : Prop := mk_summary {
  su_match e : e ∈ t → nonempty e = true → addr ≠ Some (ipaddr e);
  su_empty : (empty c = ARP_TABLE_SIZE ∧ ∀ e, e ∈ t → nonempty e = true) ∨
    (empty c < ARP_TABLE_SIZE)%nat ∧ ∃ e, t !! empty c = Some e ∧ nonempty e = false;
  su_stable : oldest is_stable t (old_stable c) (age_stable c);
  su_pending : oldest without_queue t (old_pending c) (age_pending c);
  su_queue : oldest with_queue t (old_queue c) (age_queue c);
}.

Lemma summary_nil addr : summary addr [] no_candidates.
Proof.
  constructor; try (left; split_and!; try done); by intros e ?%elem_of_nil.
Qed.

Ltac summary_step := match goal with
  | |- _ ≠ _ => idtac
  | H : oldest ?Q ?t ?k ?a |- oldest ?Q (?t ++ [?e]) ?k ?a => first [by apply oldest_skip | apply oldest_keep; [exact H|done|lia|lia]]
  | H : oldest ?Q ?t _ _ |- oldest ?Q (?t ++ [?e]) (length ?t) (ctime ?e) => eapply oldest_new; [exact H|done|lia]
  end.

(** A non-empty entry that does not match. *)
Lemma summary_nonempty addr t c c' e : summary addr t c → nonempty e = true → addr ≠ Some (ipaddr e) →
  empty c' = empty c → oldest is_stable (t ++ [e]) (old_stable c') (age_stable c') →
  oldest without_queue (t ++ [e]) (old_pending c') (age_pending c') →
  oldest with_queue (t ++ [e]) (old_queue c') (age_queue c') → summary addr (t ++ [e]) c'.
Proof.
  intros [Hm He _ _ _] Hn Ha Ee Hs Hp Hq. constructor; try done.
  - intros e' [?| ->%list_elem_of_singleton]%elem_of_app; auto.
  - rewrite Ee. destruct He as [[-> He]|(Hlt & e0 & He & Hn0)].
    + left. split; [done|]. intros e' [?| ->%list_elem_of_singleton]%elem_of_app; auto.
    + right. split; [done|]. exists e0. split; [by apply lookup_app_l_Some|done].
Qed.

Lemma empty_class e : nonempty e = false → is_stable e = false ∧ without_queue e = false ∧ with_queue e = false.
Proof. unfold nonempty, is_stable, without_queue, with_queue, is_pending. destruct (state e); try done. Qed.

Lemma summary_empty addr t c c' e : summary addr t c → nonempty e = false → (length t < ARP_TABLE_SIZE)%nat →
  empty c' = (if (empty c =? ARP_TABLE_SIZE)%nat then length t else empty c) →
  (old_stable c', age_stable c', old_pending c', age_pending c', old_queue c', age_queue c') =
  (old_stable c, age_stable c, old_pending c, age_pending c, old_queue c, age_queue c) → summary addr (t ++ [e]) c'.
Proof.
  intros [Hm He Hs Hp Hq] Hn Hlen Ee [= E1 E2 E3 E4 E5 E6]. destruct (empty_class e Hn) as (N1 & N2 & N3).
  constructor; rewrite ?E1, ?E2, ?E3, ?E4, ?E5, ?E6; try by apply oldest_skip.
  - intros e' [?| ->%list_elem_of_singleton]%elem_of_app; [auto|congruence].
  - right. rewrite Ee. destruct (Nat.eqb_spec (empty c) ARP_TABLE_SIZE) as [E|E].
    + split; [done|]. exists e. by rewrite lookup_app_r, Nat.sub_diag by lia.
    + destruct He as [[? _]|(Hlt & e0 & He & Hn0)]; [done|]. split; [done|]. exists e0.
      split; [by apply lookup_app_l_Some|done].
Qed.

Lemma find_loop_ok addr es : ∀ pre c, summary addr pre c → Forall (λ e, 0 ≤ ctime e) es →
  (length pre + length es ≤ ARP_TABLE_SIZE)%nat →
  match find_loop addr es (length pre) c with
  | inl i => ∃ e, (pre ++ es) !! i = Some e ∧ nonempty e = true ∧ addr = Some (ipaddr e)
  | inr c' => summary addr (pre ++ es) c'
  end.
Proof.
  induction es as [|e es IH]; intros pre c Hs Hct Hlen; [by rewrite app_nil_r|]. cbn [find_loop].
  apply list.Forall_cons in Hct as [H0 Hct]. cbn [length] in Hlen.
  assert (∀ c', summary addr (pre ++ [e]) c' →
    match find_loop addr es (S (length pre)) c' with
    | inl i => ∃ e0, (pre ++ e :: es) !! i = Some e0 ∧ nonempty e0 = true ∧ addr = Some (ipaddr e0)
    | inr c'' => summary addr (pre ++ e :: es) c''
    end) as Hnext.
  { intros c' Hs'. specialize (IH (pre ++ [e]) c' Hs' Hct). rewrite length_app, <- (assoc_L app) in IH. cbn [length app] in IH.
    rewrite Nat.add_1_r in IH. apply IH. lia. }
  clear IH. pose proof Hs as [_ _ S1 S2 S3].
  destruct (nonempty e) eqn:Hn.
  - assert (bool_decide (state e = ETHARP_STATE_EMPTY) = false) as E1
      by (unfold nonempty in Hn; apply bool_decide_eq_true in Hn; by apply bool_decide_eq_false).
    rewrite E1, andb_false_r. unfold nonempty in Hn. rewrite Hn. cbv iota.
    destruct (bool_decide (addr = Some (ipaddr e))) eqn:Ha; [apply bool_decide_eq_true in Ha|apply bool_decide_eq_false in Ha].
    { exists e. by rewrite list_lookup_middle. }
    assert (is_stable e = negb (is_pending e)) as Est.
    { unfold is_stable, is_pending. apply bool_decide_eq_true in Hn. destruct (state e); done. }
    fold (is_pending e). destruct (is_pending e) eqn:Hp.
    + destruct (q e) as [l|] eqn:Eq.
      * assert (with_queue e = true ∧ without_queue e = false) as [W1 W2] by (unfold with_queue, without_queue; by rewrite Hp, Eq).
        destruct (Z.leb_spec (age_queue c) (ctime e)); apply Hnext; eapply summary_nonempty; try done; simpl; summary_step.
      * assert (with_queue e = false ∧ without_queue e = true) as [W1 W2] by (unfold with_queue, without_queue; by rewrite Hp, Eq).
        destruct (Z.leb_spec (age_pending c) (ctime e)); apply Hnext; eapply summary_nonempty; try done; simpl; summary_step.
    + assert (with_queue e = false ∧ without_queue e = false) as [W1 W2] by (unfold with_queue, without_queue; by rewrite Hp).
      destruct (Z.leb_spec (age_stable c) (ctime e)); apply Hnext; eapply summary_nonempty; try done; simpl; summary_step.
  - assert (bool_decide (state e = ETHARP_STATE_EMPTY) = true) as E1.
    { unfold nonempty in Hn. apply bool_decide_eq_false in Hn. apply bool_decide_eq_true. by apply dec_stable. }
    rewrite E1, andb_true_r. unfold nonempty in Hn. rewrite Hn.
    destruct (Nat.eqb_spec (empty c) ARP_TABLE_SIZE) as [E|E]; apply Hnext; eapply summary_empty; try done; try lia;
      simpl; try (rewrite E; done); by rewrite (proj2 (Nat.eqb_neq _ _)).
Qed.

(** ** The invariant *)

Record entry_ok (nifs : gmap Z netif) (e : etharp_entry) : Prop := mk_entry_ok {
  eo_queue : q e ≠ None → state e = ETHARP_STATE_PENDING;
  eo_age : 0 ≤ ctime e < (if is_pending e then ARP_MAXPENDING else ARP_MAXAGE);
  eo_mac : length (ethaddr e) = 6%nat;
  eo_netif : nonempty e = true → ∃ id n, enetif e = Some id ∧ nifs !! id = Some n ∧ netif_ok n;
}.

Record table_ok (nifs : gmap Z netif) (t : list etharp_entry) : Prop := mk_table_ok {
  to_length : length t = ARP_TABLE_SIZE;
  to_entries : Forall (entry_ok nifs) t;
  to_distinct i j e e' : t !! i = Some e → t !! j = Some e' → nonempty e = true → nonempty e' = true →
    ipaddr e = ipaddr e' → i = j;
}.

Lemma table_entry nifs t i e : table_ok nifs t → t !! i = Some e → entry_ok nifs e.
Proof. intros Ht Hi. pose proof (to_entries _ _ Ht) as Hf. by eapply Forall_lookup_1. Qed.

Lemma table_insert nifs t i e' : table_ok nifs t → entry_ok nifs e' →
  (nonempty e' = true → ∀ j e, j ≠ i → t !! j = Some e → nonempty e = true → ipaddr e ≠ ipaddr e') →
  table_ok nifs (<[i := e']> t).
Proof.
  intros Ht He Hd. constructor.
  - rewrite length_insert. apply Ht.
  - by apply Forall_insert; [apply Ht|].
  - intros j k e1 e2 Hj Hk N1 N2 E. destruct (decide (j = i)) as [->|Hji], (decide (k = i)) as [->|Hki]; [done| | |].
    + rewrite list_lookup_insert_eq in Hj by (apply lookup_lt_Some in Hj; by rewrite length_insert in Hj).
      injection Hj as <-. rewrite list_lookup_insert_ne in Hk by done. by destruct (Hd N1 k e2 Hki Hk N2).
    + rewrite list_lookup_insert_eq in Hk by (apply lookup_lt_Some in Hk; by rewrite length_insert in Hk).
      injection Hk as <-. rewrite list_lookup_insert_ne in Hj by done. by destruct (Hd N2 j e1 Hji Hj N1).
    + rewrite list_lookup_insert_ne in Hj, Hk by done. by eapply Ht.
Qed.

(** The memory of the packets that wait. *)
Definition oset (o : option loc) : gset loc := match o with Some l => {[l]} | None => ∅ end.
Definition queued (t : list etharp_entry) : gset loc := list_to_set (omap q t).

Lemma elem_of_oset o l : l ∈ oset o ↔ o = Some l.
Proof. destruct o; set_solver. Qed.

Lemma elem_of_queued t l : l ∈ queued t ↔ ∃ i e, t !! i = Some e ∧ q e = Some l.
Proof.
  unfold queued. rewrite elem_of_list_to_set, list_elem_of_omap. split.
  - intros (e & [i Hi]%list_elem_of_lookup & E). eauto.
  - intros (i & e & Hi & E). exists e. split; [by eapply list_elem_of_lookup_2|done].
Qed.

Definition waiting {A} (w : world A) (X : gset loc) (l : loc) (body : bytes) : Prop :=
  ∃ n bs, is_ram w X l (header_offset PBUF_LINK) n bs ∧ n ≤ 1500 ∧
    body = take (Z.to_nat n) (drop (Z.to_nat (header_offset PBUF_LINK)) bs).

Section Mem.
Context {A : Type} `{HA : Alloc A} {elt_size : memp_t → Z} `{HL : !AllocLaws A elt_size}.
Implicit Types (w : world A) (L : gmap loc Z) (X N : gset loc) (t : list etharp_entry).

(** [w0] with the blocks [L0] is memory without the packets that wait. *)
Record arp_mem w0 L0 w L t : Prop := mk_arp_mem {
  am_grown : grown w0 L0 w L (queued t) ∅;
  am_wait i e l : t !! i = Some e → q e = Some l → ∃ body, waiting w (queued t) l body;
  am_once i j e e' l : t !! i = Some e → t !! j = Some e' → q e = Some l → q e' = Some l → i = j;
}.

Lemma queued_insert t i e e' : t !! i = Some e →
  (∀ j e2 l, t !! j = Some e2 → q e = Some l → q e2 = Some l → i = j) →
  queued (<[i := e']> t) = queued t ∖ oset (q e) ∪ oset (q e').
Proof.
  intros Hi Ho. apply set_eq. intros l. rewrite elem_of_union, elem_of_difference, !elem_of_oset, !elem_of_queued.
  pose proof (lookup_lt_Some _ _ _ Hi) as Hlt. split.
  - intros (j & e2 & Hj & E). destruct (decide (j = i)) as [->|Hne].
    + rewrite list_lookup_insert_eq in Hj by done. injection Hj as <-. by right.
    + rewrite list_lookup_insert_ne in Hj by done. left. split; [by eauto|]. intros El. by destruct Hne; symmetry; eapply Ho.
  - intros [[(j & e2 & Hj & E) Hn]|E].
    + exists j, e2. split; [|done]. rewrite list_lookup_insert_ne; [done|]. intros ->. congruence.
    + exists i, e'. by rewrite list_lookup_insert_eq.
Qed.

Lemma waiting_same w w' X X' l body : waiting w X l body → l ∈ X' → pbs w' !! l = pbs w !! l →
  data w' !! Own l = data w !! Own l → waiting w' X' l body.
Proof.
  intros (n & bs & [Hin Hpb Hd Hr] & Hn & ->) HX Ep Ed. exists n, bs. split_and!; [|done|done].
  constructor; [done|congruence|congruence|done].
Qed.

(** An entry changes, and memory with it. *)
Lemma arp_mem_insert w0 L0 w L t i e e' w' L' : arp_mem w0 L0 w L t → t !! i = Some e →
  grown w0 L0 w' L' (queued t ∖ oset (q e) ∪ oset (q e')) ∅ →
  (∀ l, l ∈ queued t → q e ≠ Some l → pbs w' !! l = pbs w !! l ∧ data w' !! Own l = data w !! Own l) →
  (∀ l, q e' = Some l → (q e = Some l ∨ l ∉ queued t) ∧
     ∃ body, waiting w' (queued t ∖ oset (q e) ∪ oset (q e')) l body) →
  arp_mem w0 L0 w' L' (<[i := e']> t).
Proof.
  intros [Hg Hw Ho] Hi Hg' Hs Hnew.
  assert (queued (<[i := e']> t) = queued t ∖ oset (q e) ∪ oset (q e')) as Eq.
  { apply queued_insert; [done|]. intros j e2 l Hj E1 E2. by eapply (Ho i j). }
  pose proof (lookup_lt_Some _ _ _ Hi) as Hlt.
  assert (∀ j e2 l, j ≠ i → t !! j = Some e2 → q e2 = Some l → q e ≠ Some l ∧ q e' ≠ Some l ∧ l ∈ queued t) as Hother.
  { intros j e2 l Hj Ht E. assert (q e ≠ Some l) as H1 by (intros El; by destruct Hj; eapply Ho).
    assert (l ∈ queued t) as H2 by (apply elem_of_queued; eauto). split_and!; try done.
    intros El. destruct (Hnew l El) as [[?|?] _]; done. }
  constructor; rewrite ?Eq; [done| |].
  - intros j e2 l Hj E. destruct (decide (j = i)) as [->|Hne].
    + rewrite list_lookup_insert_eq in Hj by done. injection Hj as <-. by apply Hnew.
    + rewrite list_lookup_insert_ne in Hj by done. destruct (Hother j e2 l Hne Hj E) as (N1 & N2 & Hin).
      destruct (Hw j e2 l Hj E) as [body Hb]. destruct (Hs l Hin N1) as [Ep Ed]. exists body.
      eapply waiting_same; [done| |done|done]. rewrite elem_of_union, elem_of_difference, !elem_of_oset. by left.
  - intros j k e1 e2 l Hj Hk E1 E2. destruct (decide (j = i)) as [->|Hji], (decide (k = i)) as [->|Hki]; [done| | |].
    + rewrite list_lookup_insert_eq in Hj by done. injection Hj as <-. rewrite list_lookup_insert_ne in Hk by done.
      destruct (Hother k e2 l Hki Hk E2) as (_ & N2 & _). done.
    + rewrite list_lookup_insert_eq in Hk by done. injection Hk as <-. rewrite list_lookup_insert_ne in Hj by done.
      destruct (Hother j e1 l Hji Hj E1) as (_ & N2 & _). done.
    + rewrite list_lookup_insert_ne in Hj, Hk by done. by eapply Ho.
Qed.

(** A change of an entry that leaves its packet. *)
Lemma arp_mem_fields w0 L0 w L t i e e' : arp_mem w0 L0 w L t → t !! i = Some e → q e' = q e →
  arp_mem w0 L0 w L (<[i := e']> t).
Proof.
  intros Hm Hi Eq. pose proof Hm as [Hg Hw Ho].
  assert (queued t ∖ oset (q e) ∪ oset (q e') = queued t) as E.
  { rewrite Eq. apply set_eq. intros l. rewrite elem_of_union, elem_of_difference, elem_of_oset.
    destruct (decide (q e = Some l)) as [El|]; [|naive_solver]. rewrite elem_of_queued. naive_solver. }
  eapply arp_mem_insert; [done|exact Hi|by rewrite E|done|]. rewrite E, Eq. intros l El. split; [by left|]. by eapply Hw.
Qed.

(** Memory that grows and shrinks again. *)
Lemma arp_mem_same w0 L0 w L t w' L' : arp_mem w0 L0 w L t → grown w0 L0 w' L' (queued t) ∅ →
  (∀ l, l ∈ queued t → pbs w' !! l = pbs w !! l ∧ data w' !! Own l = data w !! Own l) → arp_mem w0 L0 w' L' t.
Proof.
  intros [Hg Hw Ho] Hg' Hs. constructor; [done| |done]. intros i e l Hi E.
  assert (l ∈ queued t) as Hin by (apply elem_of_queued; eauto). destruct (Hw i e l Hi E) as [body Hb], (Hs l Hin).
  exists body. by eapply waiting_same.
Qed.

(** Who holds the pbuf [p] and what is behind it. *)
Definition owner w p : option (option loc * Z) := (λ pb, (next pb, ref pb)) <$> pbs w !! p.

(** The memory of the caller after its packet [p] got a header. *)
Record except (p : loc) w w' : Prop := mk_except {
  ex_live : live w' = live w;
  ex_pbs l : l ∈ live w → l ≠ p → pbs w' !! l = pbs w !! l;
  ex_data r : valid r w = true → r ≠ Own p → data w' !! r = data w !! r;
  ex_owner : owner w' p = owner w p;
}.

(** The part of [w] that belongs to the caller, whose memory was [w0]. *)
Definition rebase (w w0 : world A) : world A := mk_world (pbs w) (live w0) (data w) (allocs w0) (pbuf_free_ooseq_pending w0).

Lemma rebase_ok w0 L0 w L t w' p : arp_mem w0 L0 w L t → changes [p] w w' → p ∈ live w0 → owner w' p = owner w p →
  arp_mem (rebase w' w0) L0 w' L t ∧ except p w0 (rebase w' w0).
Proof.
  intros [Hg Hw Ho] Hch Hp Hown. pose proof Hg as [Hi Hlv Hf Hh Hs Hn Hm Hpb Hd Hbl]. pose proof Hch as [C1 C2 C3 C4 C5 C6].
  assert (∀ l, l ∈ queued t → l ≠ p) as Hne by (intros l Hl ->; set_solver). split.
  - constructor.
    + constructor; try done; [by eapply inv_changes|by rewrite C1].
    + intros i e l Hi' E. destruct (Hw i e l Hi' E) as [body Hb]. exists body.
      assert (l ∈ queued t) as Hin by (apply elem_of_queued; eauto). specialize (Hne l Hin).
      eapply waiting_same; [done|done| |].
      * apply C3. by intros ?%list_elem_of_singleton.
      * apply C5. intros l' ->%list_elem_of_singleton. congruence.
    + done.
  - constructor; [done| | |unfold owner in *; simpl; rewrite Hown; by rewrite Hpb].
    + intros l Hl Hlp. simpl. rewrite C3; [by apply Hpb|]. by intros ?%list_elem_of_singleton.
    + intros r Hr Hrp. simpl. rewrite C5; [by apply Hd|]. by intros l ->%list_elem_of_singleton.
Qed.

Lemma arp_mem_base w0 L0 w L t w' p : arp_mem w0 L0 w L t → changes [p] w w' → p ∈ live w0 → owner w' p = owner w p →
  ∃ w0', arp_mem w0' L0 w' L t ∧ except p w0 w0'.
Proof. intros Hm Hch Hp Hown. exists (rebase w' w0). by apply (rebase_ok w0 L0 w). Qed.
End Mem.

(** ** Operations *)

(** The state with memory [w], the table [t] and the frames [f] sent in addition. *)
Definition moved_to {A U} (w : world A) (t : list etharp_entry) (f : list bytes) (s : link A U) : link A U :=
  mk_link w (netifs s) t (etharp_cached_entry s) (wire s ++ f) (upper s).

(** Which entry is recycled: an empty one; without one the oldest stable one; without
    those the oldest pending one on which no packet waits; without those the oldest. *)
Definition victim (t : list etharp_entry) (i : nat) : Prop :=
  (∃ e, t !! i = Some e ∧ nonempty e = false) ∨
  (∀ e, e ∈ t → nonempty e = true) ∧ (i < ARP_TABLE_SIZE)%nat ∧
    ((∃ a, oldest is_stable t i a) ∨ (∀ e, e ∈ t → is_stable e = false) ∧
     ((∃ a, oldest without_queue t i a) ∨ (∀ e, e ∈ t → without_queue e = false) ∧ ∃ a, oldest with_queue t i a)).

(** A recycled entry for the address [a]. *)
Record recycled (a : Z) (e : etharp_entry) : Prop := mk_recycled {
  re_q : q e = None;
  re_ipaddr : ipaddr e = a;
  re_ctime : ctime e = 0;
  re_state : state e = ETHARP_STATE_EMPTY;
  re_mac : length (ethaddr e) = 6%nat;
}.

Definition unused (a : Z) (t : list etharp_entry) : Prop := ∀ e, e ∈ t → nonempty e = true → ipaddr e ≠ a.

Section Find.
Context {A U : Type} `{HA : Alloc A} {elt_size : memp_t → Z} `{HL : !AllocLaws A elt_size}.
Context (custom_free_function : loc → M (world A) ()).
Implicit Types (w : world A) (s : link A U) (L : gmap loc Z) (t : list etharp_entry).

Record arp_ok w0 L0 s L : Prop := mk_arp_ok {
  ao_table : table_ok (netifs s) (arp_table s);
  ao_mem : arp_mem w0 L0 (lwld s) L (arp_table s);
  ao_hint : (etharp_cached_entry s < ARP_TABLE_SIZE)%nat;
}.

Lemma moved_moved w1 w2 t1 t2 f1 f2 s : moved_to w2 t2 f2 (moved_to w1 t1 f1 s) = moved_to w2 t2 (f1 ++ f2) s.
Proof. unfold moved_to. simpl. by rewrite (assoc_L app). Qed.
Lemma moved_id s : moved_to (lwld s) (arp_table s) [] s = s.
Proof. unfold moved_to. rewrite app_nil_r. by destruct s. Qed.
Lemma sent_moved w f s : sent w f s = moved_to w (arp_table s) f s.
Proof. done. Qed.

Lemma bind_entry {C} s i e (k : etharp_entry → M (link A U) C) : arp_table s !! i = Some e → (rd_entry i ≫= k) s = k e s.
Proof. intros Hi. apply bind_Ret. unfold rd_entry. by rewrite Hi. Qed.
Lemma bind_upd_entry {C} s i e f (k : () → M (link A U) C) : arp_table s !! i = Some e →
  (upd_entry i f ≫= k) s = k () (moved_to (lwld s) (<[i := f e]> (arp_table s)) [] s).
Proof.
  intros Hi. apply bind_Ret. unfold upd_entry. rewrite (bind_entry _ _ e) by done.
  unfold modify, set_arp_table, moved_to. by rewrite app_nil_r.
Qed.
Lemma upd_entry_ok s i e f : arp_table s !! i = Some e →
  upd_entry i f s = Ret ((), moved_to (lwld s) (<[i := f e]> (arp_table s)) [] s).
Proof.
  intros Hi. unfold upd_entry. rewrite (bind_entry _ _ e) by done.
  unfold modify, set_arp_table, moved_to. by rewrite app_nil_r.
Qed.

Lemma etharp_free_entry_ok w0 L0 s L i e : arp_mem w0 L0 (lwld s) L (arp_table s) → arp_table s !! i = Some e →
  ∃ w' L', etharp_free_entry custom_free_function i s = Ret ((), moved_to w' (<[i := zero_entry]> (arp_table s)) [] s) ∧
    arp_mem w0 L0 w' L' (<[i := zero_entry]> (arp_table s)).
Proof.
  intros Hm Hi. pose proof (lookup_lt_Some _ _ _ Hi) as Hlt.
  assert (∃ w' L' e', (match q e with
      | Some p => _ ← on_mem (pbuf_free custom_free_function (Some p)); upd_entry i (set_q None)
      | None => mret ()
      end) s = Ret ((), moved_to w' (<[i := e']> (arp_table s)) [] s) ∧ arp_mem w0 L0 w' L' (<[i := zero_entry]> (arp_table s)) ∧
      q e' = None) as (w' & L' & e' & Hrun & Hm' & Hq').
  { destruct (q e) as [l|] eqn:El.
    - destruct (am_wait _ _ _ _ _ Hm i e l Hi El) as (body & n & bs & Hr & _).
      destruct (grown_pbuf_free custom_free_function _ _ _ _ _ _ l _ (am_grown _ _ _ _ _ Hm) (ir_in _ _ _ _ _ _ Hr)
        (ir_pbs _ _ _ _ _ _ Hr) eq_refl eq_refl) as (w' & L' & Hrun & Hg & Ed & Ep).
      exists w', L', (set_q None e). split_and!; [|eapply arp_mem_insert; [done|exact Hi|..]|done].
      + rewrite (bind_mem _ _ _ _ _ _ Hrun) by done. erewrite upd_entry_ok by exact Hi.
        rewrite sent_moved. by rewrite moved_moved.
      + rewrite El. simpl oset. by rewrite union_empty_r_L.
      + rewrite El. intros l' _ Hne. by rewrite Ed, Ep by congruence.
      + done.
    - exists (lwld s), L, e. split_and!; [|by eapply arp_mem_fields|done].
      by rewrite list_insert_id, moved_id by done. }
  exists w', L'. split; [|done]. unfold etharp_free_entry. rewrite (bind_entry _ _ e) by done.
  rewrite (bind_Ret _ _ _ _ _ Hrun).
  do 4 (erewrite bind_upd_entry by (by apply list_lookup_insert_eq; rewrite ?length_insert); cbn [arp_table moved_to lwld];
    rewrite list_insert_insert_eq, moved_moved).
  erewrite upd_entry_ok by (by apply list_lookup_insert_eq; rewrite ?length_insert). cbn [arp_table moved_to lwld].
  rewrite list_insert_insert_eq, moved_moved. destruct e'. simpl in Hq'. subst. done.
Qed.

(** The result of [etharp_find_entry(&a, flags, netif)]. *)
Definition find_post w0 L0 s (a flags : Z) (r : option nat) s' : Prop :=
  match r with
  | None => s' = s ∧ unused a (arp_table s) ∧
      (Z.land flags ETHARP_FLAG_FIND_ONLY ≠ 0 ∨
       Z.land flags ETHARP_FLAG_TRY_HARD = 0 ∧ ∀ e, e ∈ arp_table s → nonempty e = true)
  | Some i =>
      (s' = s ∧ ∃ e, arp_table s !! i = Some e ∧ nonempty e = true ∧ ipaddr e = a) ∨
      (unused a (arp_table s) ∧ victim (arp_table s) i ∧ Z.land flags ETHARP_FLAG_FIND_ONLY = 0 ∧
       ∃ w' L' e', s' = moved_to w' (<[i := e']> (arp_table s)) [] s ∧ recycled a e' ∧
         (i < length (arp_table s))%nat ∧ arp_mem w0 L0 w' L' (<[i := e']> (arp_table s)))
  end.

(** The choice among the candidates when no entry is empty. *)
Lemma choose_ok s a c : table_ok (netifs s) (arp_table s) → summary (Some a) (arp_table s) c →
  (∀ e, e ∈ arp_table s → nonempty e = true) →
  ∃ i, (if (old_stable c <? ARP_TABLE_SIZE)%nat then
          e ← rd_entry (old_stable c);
          _ ← assert_ (bool_decide (q e = None));
          mret (Some (old_stable c))
        else if (old_pending c <? ARP_TABLE_SIZE)%nat then mret (Some (old_pending c))
        else if (old_queue c <? ARP_TABLE_SIZE)%nat then mret (Some (old_queue c))
        else mret None) s = Ret (Some i, s) ∧ victim (arp_table s) i ∧ (i < ARP_TABLE_SIZE)%nat.
Proof.
  intros Ht [_ _ S1 S2 S3] Hne.
  assert (∀ Q k a', oldest Q (arp_table s) k a' → (k < ARP_TABLE_SIZE)%nat ∨ k = ARP_TABLE_SIZE ∧ ∀ e, e ∈ arp_table s → Q e = false)
    as Hlt.
  { intros Q k a' [(-> & _ & Hn)|(e & Hk & _)]; [by right|left]. apply lookup_lt_Some in Hk. by rewrite (to_length _ _ Ht) in Hk. }
  destruct (Hlt _ _ _ S1) as [L1|[E1 N1]].
  { exists (old_stable c). rewrite (proj2 (Nat.ltb_lt _ _) L1). split_and!; [|right; by eauto 10|done].
    destruct S1 as [(E & _)|(e & Hk & Hs & _)]; [lia|]. rewrite (bind_entry _ _ e) by done. rewrite bind_assert; [done|].
    apply bool_decide_eq_true. destruct (q e) eqn:Eq; [|done]. pose proof (eo_queue _ _ (table_entry _ _ _ _ Ht Hk)) as Hp.
    unfold is_stable in Hs. rewrite Hp in Hs; [done|]. by rewrite Eq. }
  rewrite (proj2 (Nat.ltb_ge _ _)) by lia. destruct (Hlt _ _ _ S2) as [L2|[E2 N2]].
  { exists (old_pending c). rewrite (proj2 (Nat.ltb_lt _ _) L2). split_and!; [done|right; by eauto 10|done]. }
  rewrite (proj2 (Nat.ltb_ge (old_pending c) _)) by lia. destruct (Hlt _ _ _ S3) as [L3|[E3 N3]].
  { exists (old_queue c). rewrite (proj2 (Nat.ltb_lt _ _) L3). split_and!; [done|right; by eauto 15|done]. }
  exfalso. destruct (lookup_lt_is_Some_2 (arp_table s) 0) as [e He]; [rewrite (to_length _ _ Ht); unfold ARP_TABLE_SIZE; lia|].
  apply list_elem_of_lookup_2 in He. specialize (N1 e He). specialize (N2 e He). specialize (N3 e He). specialize (Hne e He).
  unfold is_stable, without_queue, with_queue, is_pending, nonempty in *. destruct (state e), (q e); done.
Qed.

Lemma recycle_entry w0 L0 s w L t i e a : arp_mem w0 L0 w L t → t !! i = Some e → nonempty e = false → q e = None →
  length (ethaddr e) = 6%nat → length t = ARP_TABLE_SIZE →
  ∃ e', (_ ← assert_ (i <? ARP_TABLE_SIZE)%nat;
     e ← rd_entry i;
     _ ← assert_ (bool_decide (state e = ETHARP_STATE_EMPTY));
     _ ← upd_entry i (set_ipaddr a);
     _ ← upd_entry i (set_ctime 0);
     mret (Some i)) (moved_to w t [] s) = Ret (Some i, moved_to w (<[i := e']> t) [] s) ∧ recycled a e' ∧
    arp_mem w0 L0 w L (<[i := e']> t).
Proof.
  intros Hm Hi Hn Hq Hmac Hlen. pose proof (lookup_lt_Some _ _ _ Hi) as Hlt.
  exists (set_ctime 0 (set_ipaddr a e)).
  assert (state e = ETHARP_STATE_EMPTY) as He by (unfold nonempty in Hn; apply bool_decide_eq_false in Hn; by apply dec_stable).
  split_and!; [|by constructor|by eapply arp_mem_fields].
  rewrite bind_assert by (apply Nat.ltb_lt; lia). rewrite (bind_entry _ _ e) by done. rewrite bind_assert by (by apply bool_decide_eq_true).
  erewrite bind_upd_entry by exact Hi. erewrite bind_upd_entry by (by apply list_lookup_insert_eq).
  cbn [arp_table moved_to lwld]. rewrite list_insert_insert_eq. by rewrite !moved_moved.
Qed.

Lemma etharp_find_entry_ok w0 L0 s L a flags : arp_ok w0 L0 s L →
  ∃ r s', etharp_find_entry custom_free_function (Some a) flags s = Ret (r, s') ∧ find_post w0 L0 s a flags r s'.
Proof.
  intros [Ht Hm Hh]. unfold etharp_find_entry. erewrite bind_Ret by reflexivity. pose proof (to_length _ _ Ht) as Hlen.
  pose proof (find_loop_ok (Some a) (arp_table s) [] no_candidates (summary_nil _)) as Hf. simpl in Hf.
  destruct (find_loop _ _ _ _) as [i|c].
  { destruct Hf as (e & Hi & Hn & [= Ea]).
    { pose proof (to_entries _ _ Ht) as Hf. eapply Forall_impl; [|exact Hf]. intros e He. apply He. }
    { by rewrite Hlen. }
    exists (Some i), s. split; [done|]. left. split; [done|]. by exists e. }
  assert (summary (Some a) (arp_table s) c) as Hs.
  { apply Hf; [|by rewrite Hlen]. pose proof (to_entries _ _ Ht) as Hf'. eapply Forall_impl; [|exact Hf']. intros e He. apply He. }
  clear Hf. assert (unused a (arp_table s)) as Hun.
  { intros e He Hn E. apply (su_match _ _ _ Hs e He Hn). by rewrite E. }
  destruct (Z.eqb_spec (Z.land flags ETHARP_FLAG_FIND_ONLY) 0) as [Efo|Efo]; cbn [negb orb].
  2:{ exists None, s. split; [done|]. split_and!; try done. by left. }
  destruct (su_empty _ _ _ Hs) as [[Ee Hne]|(Hlt & e & He & Hn)].
  - rewrite Ee, Nat.eqb_refl, Nat.ltb_irrefl. cbn [andb].
    destruct (Z.eqb_spec (Z.land flags ETHARP_FLAG_TRY_HARD) 0) as [Eth|Eth].
    { exists None, s. split; [done|]. split_and!; try done. by right. }
    destruct (choose_ok s a c Ht Hs Hne) as (i & Hrun & Hv & Hi).
    destruct (lookup_lt_is_Some_2 (arp_table s) i) as [e He]; [by rewrite Hlen|].
    destruct (etharp_free_entry_ok w0 L0 s L i e Hm He) as (w1 & L1 & Hrun1 & Hm1).
    assert ((<[i := zero_entry]> (arp_table s)) !! i = Some zero_entry) as Hz by (by apply list_lookup_insert_eq; rewrite Hlen).
    destruct (recycle_entry w0 L0 s w1 L1 _ i zero_entry a Hm1 Hz) as (e' & Hrun2 & Hre & Hm2); try done; [by rewrite length_insert|].
    rewrite list_insert_insert_eq in Hrun2, Hm2.
    exists (Some i), (moved_to w1 (<[i := e']> (arp_table s)) [] s). split.
    + rewrite (bind_Ret _ _ s (Some i) (moved_to w1 (<[i := zero_entry]> (arp_table s)) [] s)); [exact Hrun2|].
      rewrite (bind_Ret _ _ _ _ _ Hrun). rewrite bind_assert by (by apply Nat.ltb_lt). by rewrite (bind_Ret _ _ _ _ _ Hrun1).
    + right. split_and!; try done. exists w1, L1, e'. split_and!; try done. by rewrite Hlen.
  - rewrite (proj2 (Nat.eqb_neq _ _)), (proj2 (Nat.ltb_lt _ _) Hlt) by lia. cbn [andb].
    pose proof (table_entry _ _ _ _ Ht He) as [Eq _ Emac _].
    assert (q e = None) as Hq.
    { destruct (q e); [|done]. unfold nonempty in Hn. by rewrite Eq in Hn. }
    destruct (recycle_entry w0 L0 s (lwld s) L (arp_table s) (empty c) e a Hm He Hn Hq Emac Hlen) as (e' & Hrun2 & Hre & Hm2).
    exists (Some (empty c)), (moved_to (lwld s) (<[empty c := e']> (arp_table s)) [] s). split.
    + rewrite moved_id in Hrun2. exact Hrun2.
    + right. split_and!; try done; [by left; exists e|]. exists (lwld s), L, e'. split_and!; try done. by rewrite Hlen.
Qed.
End Find.
