(* ===== verification/EtharpSpec.v ===== *)
(** * Address resolution is correct

    Requests ask for the address, answers fill the table and release the packets that
    wait, the table never holds an address twice, and entries expire. *)

From S2P Require Import Prelude CLib Def Mem Memp Alloc Pbuf PbufChain PbufWrite PbufOwn PbufOps PbufSpec PbufRam Ip4Addr Link LinkSpec Etharp EtharpTable.
Import Def.Def Pbuf Ip4Addr.Ip4Addr Link Etharp.

(** ** Packets *)

(** An ARP packet for Ethernet and IPv4 (RFC 826). *)
Definition arp_packet (opcode : Z) (sha : eth_addr) (sip : Z) (tha : eth_addr) (tip : Z) : bytes :=
  le_bytes 2 (PP_HTONS HWTYPE_ETHERNET) ++ le_bytes 2 (PP_HTONS ETHTYPE_IP) ++ [ETH_HWADDR_LEN; 4] ++
  le_bytes 2 (lwip_htons opcode) ++ sha ++ le_bytes 4 sip ++ tha ++ le_bytes 4 tip.

Lemma arp_packet_length opcode sha sip tha tip : length sha = 6%nat → length tha = 6%nat →
  length (arp_packet opcode sha sip tha tip) = 28%nat.
Proof. intros Hs Ht. unfold arp_packet. by rewrite !length_app, Hs, Ht. Qed.

(** The request for the address [a]. *)
Definition arp_request_frame (n : netif) (dst : eth_addr) (a : Z) : bytes :=
  eth_frame dst (hwaddr n) ETHTYPE_ARP (arp_packet ARP_REQUEST (hwaddr n) (ip_addr n) ethzero a).

Lemma arp_splices m (pre h tl op sha tha sip tip : bytes) (ht pr : bytes) a b : length pre = m → length h = 28%nat →
  length op = 2%nat → length sha = 6%nat → length tha = 6%nat → length sip = 4%nat → length tip = 4%nat →
  length ht = 2%nat → length pr = 2%nat →
  splice (m + 5) [b] (splice (m + 4) [a] (splice (m + 2) pr (splice (m + 0) ht (splice (m + 24) tip (splice (m + 14) sip
    (splice (m + 18) tha (splice (m + 8) sha (splice (m + 6) op (pre ++ h ++ tl))))))))) =
  pre ++ (ht ++ pr ++ [a; b] ++ op ++ sha ++ sip ++ tha ++ tip) ++ tl.
Proof.
  intros <- Hh H1 H2 H3 H4 H5 H6 H7.
  do 29 (destruct h as [|? h]; try done). do 3 (destruct op as [|? op]; try done).
  do 7 (destruct sha as [|? sha]; try done). do 7 (destruct tha as [|? tha]; try done).
  do 5 (destruct sip as [|? sip]; try done). do 5 (destruct tip as [|? tip]; try done).
  do 3 (destruct ht as [|? ht]; try done). do 3 (destruct pr as [|? pr]; try done).
  by rewrite !splice_app_l.
Qed.

Section Raw.
Context {A U : Type} `{HA : Alloc A} {elt_size : memp_t → Z} `{HL : !AllocLaws A elt_size}.
Implicit Types (w : world A) (s : link A U) (L : gmap loc Z) (X N : gset loc) (t : list etharp_entry).

(** A store in a pbuf whose bytes are [bs]. *)
Lemma bind_store {C} s w l bs k src (K : () → M (link A U) C) : l ∈ live w → (44 ≤ length bs)%nat → 0 ≤ k →
  k + Z.of_nat (length src) ≤ 28 →
  (on_mem (store (Some (Own l, 16)) k src) ≫= K) (sent (set_data <[Own l := bs]> w) [] s) =
  K () (sent (set_data <[Own l := splice (Z.to_nat (16 + k)) src bs]> w) [] s).
Proof.
  intros Hl Hbs H0 Hs. erewrite bind_mem; [|apply (store_own (set_data <[Own l := bs]> w) l 16 k bs src); [done|apply lookup_insert_eq|lia|lia]|done].
  by rewrite set_data_twice, sent_sent.
Qed.

Context (uninit : world A → loc → Z → bytes) (custom_free_function : loc → M (world A) ()).
Context (stack_bytes : bytes) (stack_length : length stack_bytes = 1514%nat).
Hypothesis uninit_length : ∀ w l n, 0 ≤ n → Z.of_nat (length (uninit w l n)) = n.
Hypothesis pool_size : elt_size MEMP_PBUF_POOL = SIZEOF_STRUCT_PBUF + PBUF_POOL_BUFSIZE_ALIGNED.
Hypothesis ref_size : elt_size MEMP_PBUF = SIZEOF_STRUCT_PBUF.

(** The heap has no room for a pbuf of [n] bytes in [w]; the attempt leaves [w']. *)
Definition no_room (n : Z) w w' : Prop :=
  pbuf_alloc uninit custom_free_function PBUF_LINK n PBUF_RAM w = Ret (None, w').

Lemma etharp_raw_ok w0 L0 s L X N id n src dst sha sip tha tip opcode : grown w0 L0 (lwld s) L X N →
  netifs s !! id = Some n → netif_ok n →
  length src = 6%nat → length dst = 6%nat → length sha = 6%nat → length tha = 6%nat →
  ∃ e w' L' f, etharp_raw uninit custom_free_function stack_bytes id src dst sha sip tha tip opcode s =
      Ret (e, sent w' f s) ∧ grown w0 L0 w' L' X N ∧
    (e = ERR_OK ∧ f = [eth_frame dst src ETHTYPE_ARP (arp_packet opcode sha sip tha tip)] ∨
     e = ERR_MEM ∧ f = [] ∧ no_room SIZEOF_ETHARP_HDR (lwld s) w') ∧
    (∀ l, l ∈ live (lwld s) → pbs w' !! l = pbs (lwld s) !! l) ∧
    (∀ r, valid r (lwld s) = true → data w' !! r = data (lwld s) !! r).
Proof.
  intros Hg Hn Hok Hsrc Hdst Hsha Htha. unfold etharp_raw.
  destruct (alloc_ram_ok uninit custom_free_function uninit_length pool_size ref_size w0 L0 (lwld s) L X N PBUF_LINK SIZEOF_ETHARP_HDR Hg)
    as ([l|] & w1 & Hrun1 & Hr & Ep1 & Ed1); [done| |]; rewrite (bind_mem _ _ _ _ _ _ Hrun1) by done.
  2:{ exists ERR_MEM, w1, L, []. split_and!; try done. by right. }
  destruct Hr as (L1 & bs & Hg1 & HlX & Hr). pose proof (ram_live _ _ _ _ _ _ _ _ _ _ Hg1 Hr) as Hl.
  pose proof Hr as [Hin Hpb Hbs Hrg]. change (header_offset PBUF_LINK) with 16 in *. change SIZEOF_ETHARP_HDR with 28 in *.
  rewrite (bind_mem _ _ _ _ _ _ (rd_ok _ _ _ Hl Hpb)) by done. rewrite bind_assert by done. cbn [payload ram_pbuf].
  rewrite !sent_sent, app_nil_r. assert (w1 = set_data <[Own l := bs]> w1) as Ew.
  { unfold set_data. rewrite insert_id by done. by destruct w1. }
  rewrite Ew. destruct Hok as [Hhl Hhw].
  rewrite bind_store by (rewrite ?length_le_bytes; done || lia). erewrite bind_netif by exact Hn. rewrite bind_assert by (by rewrite Hhl).
  do 8 (rewrite bind_store; [|done|repeat (apply splice_length_ge; [rewrite ?length_le_bytes; simpl; lia|]); lia|lia|rewrite ?length_le_bytes; simpl; lia]).
  set (bs' := splice _ [4] _).
  assert (bs' = take 16 bs ++ arp_packet opcode sha sip tha tip ++ drop 44 bs) as Ebs.
  { unfold bs', arp_packet. rewrite <- (take_drop 16 bs) at 1. rewrite <- (take_drop 28 (drop 16 bs)) at 1. rewrite drop_drop.
    apply (arp_splices 16); rewrite ?length_le_bytes, ?length_take, ?length_drop; try done; lia. }
  assert (length bs' = length bs) as Elen.
  { rewrite Ebs, !length_app, arp_packet_length, length_take, length_drop by done. lia. }
  pose proof (grown_data _ _ _ _ _ _ l bs bs' Hg1 Hin Hbs Elen) as Hg2.
  assert (is_ram (set_data <[Own l := bs']> w1) (X ∪ {[l]}) l 16 28 bs') as Hr2.
  { constructor; [done|done|apply lookup_insert_eq|rewrite Elen; lia]. }
  destruct (ram_output_free (U := U) stack_bytes stack_length custom_free_function w0 L0 (sent (set_data <[Own l := bs']> w1) [] s) L1 (X ∪ {[l]}) N l 16 28
    bs' id n src dst ETHTYPE_ARP (mret ERR_OK) Hg2 Hr2) as (w3 & L3 & Hrun3 & Hg3 & Ep3 & Ed3); try done.
  exists ERR_OK, w3, L3, [eth_frame dst src ETHTYPE_ARP (arp_packet opcode sha sip tha tip)].
  assert (l ∉ live (lwld s)) as Hnl.
  { intros Hl0. rewrite (gr_live _ _ _ _ _ _ Hg) in Hl0. pose proof (gr_fresh _ _ _ _ _ _ Hg1). set_solver. }
  split_and!.
  - rewrite Hrun3, sent_sent, app_nil_l. rewrite Ebs.
    change (Z.to_nat 16) with 16%nat. change (Z.to_nat 28) with 28%nat.
    rewrite drop_app_length' by (rewrite length_take; lia). by rewrite take_app_length' by (by rewrite arp_packet_length).
  - replace X with ((X ∪ {[l]}) ∖ {[l]}) by set_solver. done.
  - by left.
  - intros l' Hl'. rewrite Ep3 by (by intros ->). simpl. by apply Ep1.
  - intros r Hr'. rewrite Ed3. 2:{ intros ->. simpl in Hr'. by apply bool_decide_eq_true in Hr'. }
    simpl. rewrite lookup_insert_ne; [by apply Ed1|]. intros <-. simpl in Hr'. by apply bool_decide_eq_true in Hr'.
Qed.

Lemma etharp_request_dst_ok w0 L0 s L t id n a dst : arp_mem w0 L0 (lwld s) L t →
  netifs s !! id = Some n → netif_ok n → length dst = 6%nat →
  ∃ e w' L' f, etharp_request_dst uninit custom_free_function stack_bytes id a dst s = Ret (e, sent w' f s) ∧
    arp_mem w0 L0 w' L' t ∧
    (e = ERR_OK ∧ f = [arp_request_frame n dst a] ∨ e = ERR_MEM ∧ f = [] ∧ no_room SIZEOF_ETHARP_HDR (lwld s) w') ∧
    (∀ l, l ∈ live (lwld s) → pbs w' !! l = pbs (lwld s) !! l) ∧
    (∀ r, valid r (lwld s) = true → data w' !! r = data (lwld s) !! r).
Proof.
  intros Hm Hn Hok Hd. pose proof (am_grown _ _ _ _ _ Hm) as Hg. pose proof Hok as [_ Hhw]. unfold etharp_request_dst.
  rewrite (bind_netif _ _ _ _ Hn).
  destruct (etharp_raw_ok w0 L0 s L (queued t) ∅ id n (hwaddr n) dst (hwaddr n) (ip_addr n) ethzero a ARP_REQUEST Hg Hn Hok)
    as (e & w' & L' & f & Hrun & Hg' & He & Ep & Ed); try done.
  exists e, w', L', f. split_and!; try done. eapply arp_mem_same; [done|done|]. intros l Hl.
  assert (l ∈ live (lwld s)) as Hlv by (rewrite (gr_live _ _ _ _ _ _ Hg); set_solver).
  split; [by apply Ep|]. apply Ed. simpl. by apply bool_decide_eq_true.
Qed.

(** ** Updating the table *)

(** The entry for [a] after an answer. *)
Definition resolved (id a : Z) (mac : eth_addr) : etharp_entry :=
  mk_entry None a (Some id) mac 0 ETHARP_STATE_STABLE.

Lemma resolved_ok nifs id a mac n : length mac = 6%nat → nifs !! id = Some n → netif_ok n → entry_ok nifs (resolved id a mac).
Proof. intros Hm Hn Hok. constructor; [done|done|done|]. intros _. by exists id, n. Qed.

(** The frames an answer releases: the packet that waits on [e]. *)
Definition released w (X : gset loc) (n : netif) (mac : eth_addr) (e : etharp_entry) (f : list bytes) : Prop :=
  match q e with
  | None => f = []
  | Some l => ∃ body, waiting w X l body ∧ f = [eth_frame mac (hwaddr n) ETHTYPE_IP body]
  end.

Lemma update_entry_ok w0 L0 s L i e id n a mac : arp_mem w0 L0 (lwld s) L (arp_table s) → arp_table s !! i = Some e →
  ipaddr e = a → netifs s !! id = Some n → netif_ok n → length mac = 6%nat →
  ∃ w' L' f, (_ ← upd_entry i (set_state ETHARP_STATE_STABLE);
     _ ← upd_entry i (set_enetif (Some id));
     _ ← upd_entry i (set_ethaddr mac);
     _ ← upd_entry i (set_ctime 0);
     e ← rd_entry i;
     match q e with
     | Some p =>
         _ ← upd_entry i (set_q None);
         _ ← ethernet_output stack_bytes id p (hwaddr n) mac ETHTYPE_IP;
         _ ← on_mem (pbuf_free custom_free_function (Some p));
         mret ERR_OK
     | None => mret ERR_OK
     end) s = Ret (ERR_OK, moved_to w' (<[i := resolved id a mac]> (arp_table s)) f s) ∧
    arp_mem w0 L0 w' L' (<[i := resolved id a mac]> (arp_table s)) ∧ released (lwld s) (queued (arp_table s)) n mac e f.
Proof.
  intros Hm Hi Ea Hn Hok Hmac. pose proof (lookup_lt_Some _ _ _ Hi) as Hlt. pose proof Hok as [_ Hhw].
  erewrite bind_upd_entry by exact Hi.
  do 3 (erewrite bind_upd_entry by (by apply list_lookup_insert_eq; rewrite ?length_insert); cbn [arp_table moved_to lwld];
    rewrite list_insert_insert_eq, moved_moved).
  erewrite bind_entry by (by apply list_lookup_insert_eq). cbn [q set_state set_enetif set_ethaddr set_ctime].
  unfold released. destruct (q e) as [l|] eqn:El.
  - destruct (am_wait _ _ _ _ _ Hm i e l Hi El) as (body & Hw). pose proof Hw as (len & bs & Hr & Hlen & Eb).
    erewrite bind_upd_entry by (by apply list_lookup_insert_eq; rewrite ?length_insert). cbn [arp_table moved_to lwld].
    rewrite list_insert_insert_eq, moved_moved.
    set (e' := set_q None _). assert (e' = resolved id a mac) as -> by (unfold e'; destruct e; simpl in *; by subst).
    set (s1 := moved_to _ _ _ _).
    destruct (ram_output_free stack_bytes stack_length custom_free_function w0 L0 s1 L (queued (arp_table s)) ∅ l 16 len bs id n
      (hwaddr n) mac ETHTYPE_IP (mret ERR_OK)) as (w' & L' & Hrun & Hg & Ep & Ed); try done; [apply Hm|].
    exists w', L', [eth_frame mac (hwaddr n) ETHTYPE_IP body]. split_and!.
    + rewrite Hrun. unfold s1. rewrite Eb. change (header_offset PBUF_LINK) with 16. rewrite sent_moved. by rewrite moved_moved.
    + eapply arp_mem_insert; [done|exact Hi| | |].
      * rewrite El. simpl oset. by rewrite union_empty_r_L.
      * rewrite El. intros l' _ Hne. rewrite Ep, Ed; [done|..]; congruence.
      * done.
    + by exists body.
  - exists (lwld s), L, []. assert (set_ctime 0 (set_ethaddr mac (set_enetif (Some id) (set_state ETHARP_STATE_STABLE e))) = resolved id a mac) as ->
      by (destruct e; simpl in *; by subst).
    split_and!; [done| |done]. by eapply arp_mem_fields.
Qed.

Definition unicast (n : netif) (a : Z) : bool :=
  negb ((a =? IPADDR_ANY) || negb (ip4_addr_isbroadcast_u32 a n =? 0) || ip4_addr_ismulticast a).

Definition update_post w0 L0 s id n a mac flags (e : err_t) s' : Prop :=
  let t := arp_table s in
  if unicast n a then
    (e = ERR_MEM ∧ s' = s ∧ unused a t ∧ (Z.land flags ETHARP_FLAG_FIND_ONLY ≠ 0 ∨
       Z.land flags ETHARP_FLAG_TRY_HARD = 0 ∧ ∀ e, e ∈ t → nonempty e = true)) ∨
    (e = ERR_OK ∧ ∃ i w' L' f, s' = moved_to w' (<[i := resolved id a mac]> t) f s ∧ arp_ok w0 L0 s' L' ∧
       ((∃ e, t !! i = Some e ∧ nonempty e = true ∧ ipaddr e = a ∧ released (lwld s) (queued t) n mac e f) ∨
        (unused a t ∧ victim t i ∧ Z.land flags ETHARP_FLAG_FIND_ONLY = 0 ∧ f = [])))
  else e = ERR_ARG ∧ s' = s.

Lemma etharp_update_ok w0 L0 s L id n a mac flags : arp_ok w0 L0 s L → netifs s !! id = Some n → netif_ok n →
  length mac = 6%nat →
  ∃ e s', etharp_update_arp_entry custom_free_function stack_bytes id a mac flags s = Ret (e, s') ∧
    update_post w0 L0 s id n a mac flags e s'.
Proof.
  intros Hao Hn Hok Hmac. pose proof Hao as [Ht Hm Hh]. unfold etharp_update_arp_entry, update_post.
  rewrite (bind_netif _ _ _ _ Hn), bind_assert by (by rewrite (proj1 Hok)). unfold unicast. destruct (_ || _).
  { exists ERR_ARG, s. done. }
  cbn [negb]. destruct (etharp_find_entry_ok custom_free_function w0 L0 s L a flags Hao) as ([i|] & s1 & Hrun & Hpost);
    rewrite (bind_Ret _ _ _ _ _ Hrun).
  2:{ destruct Hpost as (-> & Hun & Hfl). exists ERR_MEM, s. split; [done|]. by left. }
  destruct Hpost as [(-> & e & Hi & Hne & Ea)|(Hun & Hv & Hfl & w1 & L1 & e & -> & Hre & Hlt & Hm1)].
  - destruct (update_entry_ok w0 L0 s L i e id n a mac Hm Hi Ea Hn Hok Hmac) as (w' & L' & f & Hrun' & Hm' & Hrel).
    eexists ERR_OK, _. split; [exact Hrun'|]. right. split; [done|]. exists i, w', L', f. split; [done|]. split.
    + constructor; [|done|done]. apply table_insert; [done|by eapply resolved_ok|]. intros _ j e2 Hj Hj2 Hn2 E. simpl in E.
      apply Hj. eapply (to_distinct _ _ Ht); try done. congruence.
    + left. exists e. by split_and!.
  - destruct (update_entry_ok w0 L0 (moved_to w1 (<[i:=e]> (arp_table s)) [] s) L1 i e id n a mac Hm1) as (w' & L' & f & Hrun' & Hm' & Hrel);
      try done; [by apply list_lookup_insert_eq|apply Hre|].
    cbn [arp_table moved_to lwld] in *. rewrite list_insert_insert_eq in *.
    eexists ERR_OK, _. split; [exact Hrun'|]. right. split; [done|]. exists i, w', L', f. rewrite moved_moved. split; [done|]. split.
    + constructor; [|done|done]. apply table_insert; [done|by eapply resolved_ok|]. intros _ j e2 _ Hj2 Hn2 E.
      eapply Hun; [by eapply list_elem_of_lookup_2|done|done].
    + right. split_and!; try done. unfold released in Hrel. by rewrite (re_q _ _ Hre) in Hrel.
Qed.

(** ** The timer *)

(** One second of an entry. *)
Definition tick (e : etharp_entry) : etharp_entry :=
  if nonempty e then
    let e1 := set_ctime (ctime e + 1) e in
    if (ARP_MAXAGE <=? ctime e1) || is_pending e1 && (ARP_MAXPENDING <=? ctime e1) then zero_entry
    else match state e1 with
         | ETHARP_STATE_STABLE_REREQUESTING_1 => set_state ETHARP_STATE_STABLE_REREQUESTING_2 e1
         | ETHARP_STATE_STABLE_REREQUESTING_2 => set_state ETHARP_STATE_STABLE e1
         | _ => e1
         end
  else e.

(** A request for each entry that is still pending, where memory allows. *)
Definition asks (nifs : gmap Z netif) (e : etharp_entry) (f : list bytes) : Prop :=
  f = [] ∨ is_pending (tick e) = true ∧ ∃ id n, enetif e = Some id ∧ nifs !! id = Some n ∧
    f = [arp_request_frame n ethbroadcast (ipaddr e)].

Lemma zero_entry_ok nifs : entry_ok nifs zero_entry.
Proof. by constructor. Qed.

Lemma tick_same nifs e : entry_ok nifs e → nonempty (tick e) = true → ipaddr (tick e) = ipaddr e ∧ nonempty e = true.
Proof.
  intros He. unfold tick. destruct (nonempty e) eqn:Hn; [|by intros; congruence]. destruct (_ || _); [done|].
  by destruct (state _).
Qed.

Lemma set_ctime_ok nifs e : entry_ok nifs e → ctime e + 1 < (if is_pending e then ARP_MAXPENDING else ARP_MAXAGE) →
  entry_ok nifs (set_ctime (ctime e + 1) e).
Proof. intros [H1 H2 H3 H4] Hlt. constructor; try done. change (is_pending (set_ctime _ e)) with (is_pending e). simpl. lia. Qed.

Lemma tmr_entry_ok w0 L0 s L i e : arp_ok w0 L0 s L → arp_table s !! i = Some e →
  ∃ w' L' f, tmr_entry uninit custom_free_function stack_bytes i s = Ret ((), moved_to w' (<[i := tick e]> (arp_table s)) f s) ∧
    arp_ok w0 L0 (moved_to w' (<[i := tick e]> (arp_table s)) f s) L' ∧ asks (netifs s) e f.
Proof.
  intros [Ht Hm Hh] Hi. pose proof (table_entry _ _ _ _ Ht Hi) as He. pose proof (lookup_lt_Some _ _ _ Hi) as Hlt.
  assert (∀ w' L' f, entry_ok (netifs s) (tick e) → arp_mem w0 L0 w' L' (<[i := tick e]> (arp_table s)) →
    arp_ok w0 L0 (moved_to w' (<[i := tick e]> (arp_table s)) f s) L') as Hao.
  { intros w' L' f Hte Hm'. constructor; [|done|done]. apply table_insert; [done|done|]. intros Hne j e2 Hj Hj2 Hn2 E.
    destruct (tick_same _ _ He Hne) as [E1 E2]. apply Hj. eapply (to_distinct _ _ Ht); try done. congruence. }
  unfold tmr_entry. rewrite (bind_entry _ _ e) by done. fold (nonempty e). unfold tick in *. destruct (nonempty e) eqn:Hn.
  2:{ exists (lwld s), L, []. rewrite list_insert_id, moved_id in * by done. split_and!; [done|by constructor|by left]. }
  erewrite bind_upd_entry by exact Hi. erewrite bind_entry by (by apply list_lookup_insert_eq).
  assert (u16 (ctime e + 1) = ctime e + 1) as Eu.
  { apply u16_id. unfold is_u16. destruct (eo_age _ _ He) as [H0 H1]. change ARP_MAXPENDING with 5 in H1. change ARP_MAXAGE with 300 in H1.
    destruct (is_pending e); lia. }
  rewrite Eu. set (e1 := set_ctime (ctime e + 1) e) in *. cbv zeta. fold (is_pending e1).
  pose proof (arp_mem_fields _ _ _ _ _ i e e1 Hm Hi eq_refl) as Hm1.
  destruct ((ARP_MAXAGE <=? ctime e1) || is_pending e1 && (ARP_MAXPENDING <=? ctime e1)) eqn:Eold.
  { destruct (etharp_free_entry_ok custom_free_function w0 L0 (moved_to (lwld s) (<[i:=e1]> (arp_table s)) [] s) L i e1 Hm1)
      as (w' & L' & Hrun & Hm'); [by apply list_lookup_insert_eq|]. cbn [arp_table moved_to lwld] in Hrun, Hm'.
    rewrite list_insert_insert_eq in Hrun, Hm'. rewrite moved_moved in Hrun.
    exists w', L', []. split_and!; [done|apply Hao; [apply zero_entry_ok|done]|by left]. }
  assert (entry_ok (netifs s) e1) as He1.
  { apply set_ctime_ok; [done|]. change (is_pending e1) with (is_pending e) in Eold. simpl in Eold. destruct (is_pending e); lia. }
  assert (∀ st, st ≠ ETHARP_STATE_PENDING → is_pending e1 = false → st ≠ ETHARP_STATE_EMPTY →
    entry_ok (netifs s) (set_state st e1)) as Hst.
  { intros st Hst Hp Hse. destruct He1 as [H1 H2 H3 H4]. constructor; try done.
    - intros Hq. specialize (H1 Hq). unfold is_pending in Hp. apply bool_decide_eq_false in Hp. done.
    - rewrite Hp in H2. unfold is_pending. simpl. by rewrite bool_decide_eq_false_2.
    - intros _. by apply H4. }
  destruct (state e1) eqn:Est; try (exists (lwld s), L, []; split_and!; [done|by apply Hao|by left]).
  - pose proof (eo_netif _ _ He1) as Hnif. destruct Hnif as (id & n & Ei & Hnn & Hok); [done|].
    rewrite Ei. erewrite bind_Ret by reflexivity.
    destruct (etharp_request_dst_ok w0 L0 (moved_to (lwld s) (<[i:=e1]> (arp_table s)) [] s) L (<[i:=e1]> (arp_table s)) id n (ipaddr e1) ethbroadcast Hm1)
      as (r & w' & L' & f & Hrun & Hm' & Hr & _); try done. unfold etharp_request. rewrite (bind_Ret _ _ _ _ _ Hrun).
    exists w', L', f. rewrite sent_moved, moved_moved. split_and!; [done|by apply Hao|].
    destruct Hr as [[_ ->]|(_ & -> & _)]; [right|by left]. unfold tick. rewrite Hn. fold e1. rewrite Eold, Est. split; [|by exists id, n].
    unfold is_pending. by rewrite Est.
  - assert (is_pending e1 = false) as Hp by (unfold is_pending; by rewrite Est).
    erewrite upd_entry_ok by (by apply list_lookup_insert_eq). cbn [arp_table moved_to lwld]. rewrite list_insert_insert_eq, moved_moved.
    exists (lwld s), L, []. split_and!; [done| |by left]. apply Hao; [by apply Hst|by eapply arp_mem_fields].
  - assert (is_pending e1 = false) as Hp by (unfold is_pending; by rewrite Est).
    erewrite upd_entry_ok by (by apply list_lookup_insert_eq). cbn [arp_table moved_to lwld]. rewrite list_insert_insert_eq, moved_moved.
    exists (lwld s), L, []. split_and!; [done| |by left]. apply Hao; [by apply Hst|by eapply arp_mem_fields].
Qed.

Lemma tmr_loop_ok w0 L0 es : ∀ pre s L, arp_ok w0 L0 s L → arp_table s = pre ++ es →
  ∃ w' L' fs, tmr_loop uninit custom_free_function stack_bytes (seq (length pre) (length es)) s =
      Ret ((), moved_to w' (pre ++ (tick <$> es)) (concat fs) s) ∧
    arp_ok w0 L0 (moved_to w' (pre ++ (tick <$> es)) (concat fs) s) L' ∧ Forall2 (asks (netifs s)) es fs.
Proof.
  induction es as [|e es IH]; intros pre s L Hao Et; cbn [length seq tmr_loop].
  { exists (lwld s), L, []. cbn [fmap list_fmap concat]. rewrite <- Et, moved_id. by split_and!. }
  destruct (tmr_entry_ok w0 L0 s L (length pre) e Hao) as (w1 & L1 & f & Hrun & Hao1 & Hf); [by rewrite Et, list_lookup_middle|].
  rewrite (bind_Ret _ _ _ _ _ Hrun).
  assert (<[length pre := tick e]> (arp_table s) = (pre ++ [tick e]) ++ es) as Ei.
  { rewrite Et. replace (length pre) with (length pre + 0)%nat by lia. rewrite insert_app_r. simpl. by rewrite <- (assoc_L app). }
  rewrite Ei in *. destruct (IH (pre ++ [tick e]) _ L1 Hao1 eq_refl) as (w2 & L2 & fs & Hrun2 & Hao2 & Hfs).
  rewrite length_app in Hrun2. cbn [length] in Hrun2. rewrite Nat.add_1_r in Hrun2.
  assert ((pre ++ [tick e]) ++ (tick <$> es) = pre ++ (tick <$> e :: es)) as E2 by (by rewrite <- (assoc_L app)).
  exists w2, L2, (f :: fs). rewrite moved_moved, E2 in Hao2, Hrun2.
  split_and!; [exact Hrun2|exact Hao2|by constructor].
Qed.

Lemma etharp_tmr_ok w0 L0 s L : arp_ok w0 L0 s L →
  ∃ w' L' fs, etharp_tmr uninit custom_free_function stack_bytes s =
      Ret ((), moved_to w' (tick <$> arp_table s) (concat fs) s) ∧
    arp_ok w0 L0 (moved_to w' (tick <$> arp_table s) (concat fs) s) L' ∧ Forall2 (asks (netifs s)) (arp_table s) fs.
Proof.
  intros Hao. destruct (tmr_loop_ok w0 L0 (arp_table s) [] s L Hao eq_refl) as (w' & L' & fs & Hrun & H).
  exists w', L', fs. split; [|done]. unfold etharp_tmr. rewrite <- (to_length _ _ (ao_table _ _ _ _ Hao)). exact Hrun.
Qed.

(** ** Queries *)

(** A packet of the caller whose first pbuf is not in ROM: an IP packet with its
    header. *)
Record packet_to_send w (p : loc) (cs : list (loc * pbuf)) (ds : list bytes) : Prop := mk_packet_to_send {
  ps_packet : packet w (Some p) cs ds;
  ps_positive : positive cs;
  ps_head : ∃ pb cs', cs = (p, pb) :: cs' ∧ type pb ≠ PBUF_ROM;
  ps_mtu : lens cs ≤ 1500;
}.

Lemma content_fun w cs ds ds' : content w cs ds → content w cs ds' → ds = ds'.
Proof.
  unfold content. intros Hc. revert ds'. induction Hc as [|c d cs ds Hd Hc IH]; intros ds' Hc'.
  - by apply Forall2_nil_inv_l in Hc' as ->.
  - apply Forall2_cons_inv_l in Hc' as (d' & ds2 & Hd' & Hc' & ->). f_equal; [congruence|auto].
Qed.

(** The copy of the packet that waits for the answer. *)
Lemma take_over_ok w0 L0 w L X p cs ds : grown w0 L0 w L X ∅ → packet_to_send w p cs ds →
  ∃ r w', take_over uninit custom_free_function p w = Ret (r, w') ∧
    match r with
    | None => grown w0 L0 w' L X ∅ ∧ no_room (Z.of_nat (length (concat ds))) w w'
    | Some l => ∃ L', grown w0 L0 w' L' (X ∪ {[l]}) ∅ ∧ l ∉ X ∧ waiting w' (X ∪ {[l]}) l (concat ds)
    end ∧ (∀ l, l ∈ live w → pbs w' !! l = pbs w !! l) ∧ (∀ r, valid r w = true → data w' !! r = data w !! r).
Proof.
  intros Hg [Hp Hpos (pb & cs' & Ecs & Hty) Hmtu]. subst cs. unfold take_over. erewrite bind_Ret by reflexivity.
  pose proof (pk_tot _ _ _ _ Hp) as Ht. pose proof (pk_chain _ _ _ _ Hp) as (_ & Hl & Hpb & _).
  assert (copy_needed (fuel w) (Some p) w = Ret (Some pb, w)) as Hcn.
  { assert (∃ k, fuel w = Datatypes.S k) as [k ->] by (unfold fuel; eauto). cbn [copy_needed].
    rewrite (bind_rd w p pb) by done. rewrite bind_assert; [by rewrite bool_decide_eq_true_2|].
    apply tot_ok_cons in Ht as (Etl & H0 & Hs0 & _ & Htc). destruct cs' as [|[l2 pb2] cs2].
    - pose proof (pk_chain _ _ _ _ Hp) as (_ & _ & _ & Hnx). simpl in Hnx. by rewrite Hnx, orb_true_r.
    - assert (0 < lens ((l2, pb2) :: cs2)).
      { unfold positive in Hpos. apply list.Forall_cons in Hpos as [_ Hpos]. apply list.Forall_cons in Hpos as [Hp2 _].
        apply tot_ok_cons in Htc as (_ & _ & Hs2 & _). simpl in *. lia. }
      rewrite (proj2 (Z.eqb_neq _ _)) by lia. done. }
  rewrite (bind_Ret _ _ _ _ _ Hcn). pose proof Ht as (Etl & _ & Hrng & _). rewrite Etl. pose proof (lens_nonneg _ Ht) as Hln.
  destruct (alloc_ram_ok uninit custom_free_function uninit_length pool_size ref_size w0 L0 w L X ∅ PBUF_LINK (lens ((p, pb) :: cs')) Hg)
    as ([l|] & w1 & Hrun1 & Hr & Ep1 & Ed1); [lia| |]; rewrite (bind_Ret _ _ _ _ _ Hrun1).
  2:{ exists None, w1. split_and!; try done. unfold no_room.
      by rewrite (content_lens _ _ _ Ht (pk_content _ _ _ _ Hp)). }
  destruct Hr as (L1 & bs & Hg1 & HlX & Hr). pose proof (ram_live _ _ _ _ _ _ _ _ _ _ Hg1 Hr) as Hl1.
  assert (l ∉ live w) as Hnl.
  { intros Hl0. rewrite (gr_live _ _ _ _ _ _ Hg) in Hl0. pose proof (gr_fresh _ _ _ _ _ _ Hg1). set_solver. }
  assert (keeps w w1) as Hk1.
  { split; [|done]. intros l' Hl'. split; [|by apply Ep1]. rewrite (gr_live _ _ _ _ _ _ Hg) in Hl'.
    rewrite (gr_live _ _ _ _ _ _ Hg1). set_solver. }
  pose proof (packet_keeps _ _ _ _ _ Hk1 Hp) as Hp1. set (n := lens ((p, pb) :: cs')) in *.
  assert (0 < n) as Hn.
  { unfold positive in Hpos. apply list.Forall_cons in Hpos as [Hp2 _]. destruct (tot_ok_cons _ _ _ Ht) as (_ & _ & Hs0 & _).
    unfold n. simpl in *. lia. }
  destruct (pbuf_copy_ok w1 l [(l, ram_pbuf l (header_offset PBUF_LINK) n)] _ p ((p, pb) :: cs') ds
    (ram_packet _ _ _ _ _ _ Hr Hl1 Hrng) Hp1) as (w2 & dt & Hrun2 & Hf & Hp2 & Edt); try done.
  { by apply list.Forall_singleton. }
  { simpl. unfold region_list. simpl. rewrite (proj2 (Z.eqb_neq _ _)) by lia. apply list.NoDup_singleton. }
  { intros r Hrg Hin. simpl in Hin. unfold region_list in Hin. simpl in Hin. rewrite (proj2 (Z.eqb_neq _ _)) in Hin by lia.
    apply list_elem_of_singleton in Hin as ->. pose proof (regions_valid _ _ _ _ (pk_content _ _ _ _ Hp) Hrg) as Hv. simpl in Hv.
    by apply bool_decide_eq_true in Hv. }
  { unfold n. simpl. lia. }
  rewrite (bind_Ret _ _ _ _ _ Hrun2), decide_True by done. exists (Some l), w2. split; [done|].
  pose proof Hr as [Hin Hpbl Hbs Hrg]. pose proof (fr_size _ _ _ Hf (Own l)) as Hsz. rewrite Hbs in Hsz.
  destruct (data w2 !! Own l) as [bs2|] eqn:Ebs2; [|done]. injection Hsz as Hsz.
  assert (is_ram w2 (X ∪ {[l]}) l (header_offset PBUF_LINK) n bs2) as Hr2.
  { constructor; [done|by rewrite (fr_pbs _ _ _ Hf)|done|by rewrite Hsz]. }
  assert (grown w0 L0 w2 L1 (X ∪ {[l]}) ∅) as Hg2.
  { eapply (grown_changes _ _ _ _ _ _ _ [l]); [done| |by intros l' ->%list_elem_of_singleton].
    eapply (changes_frame _ _ _ (ram_pbuf l (header_offset PBUF_LINK) n)); [reflexivity|]. simpl in Hf. by rewrite app_nil_r in Hf. }
  split; [|split].
  - exists L1. split_and!; [done|done|]. exists n, bs2. split_and!; [done|done|].
    pose proof (ram_packet _ _ _ _ _ _ Hr2 ltac:(by eapply ram_live) Hrng) as Hp2'.
    pose proof (content_fun _ _ _ _ (pk_content _ _ _ _ Hp2) (pk_content _ _ _ _ Hp2')) as ->.
    cbn [concat] in Edt. rewrite !app_nil_r in Edt. rewrite Edt. symmetry.
    pose proof (content_lens _ _ _ Ht (pk_content _ _ _ _ Hp)) as Hcl. fold n in Hcl.
    rewrite (drop_ge _ (length (concat ds))), app_nil_r; [done|]. rewrite length_take, length_drop. lia.
  - intros l' Hl'. rewrite (fr_pbs _ _ _ Hf). by apply Ep1.
  - intros r Hr'. rewrite (fr_data _ _ _ Hf); [by apply Ed1|]. simpl. unfold region_list. simpl.
    rewrite (proj2 (Z.eqb_neq _ _)) by lia. intros ->%list_elem_of_singleton. simpl in Hr'. by apply bool_decide_eq_true in Hr'.
Qed.

(** The packet waits on the entry [i], or memory is short. *)
Lemma queue_packet_ok w0 L0 s L i e p cs ds : arp_ok w0 L0 s L → arp_table s !! i = Some e → is_pending e = true →
  packet_to_send w0 p cs ds →
  ∃ r w' L' e', (r ← on_mem (take_over uninit custom_free_function p);
     match r with
     | Some l =>
         e ← rd_entry i;
         _ ← match q e with
             | Some old => _ ← on_mem (pbuf_free custom_free_function (Some old)); mret ()
             | None => mret ()
             end;
         _ ← upd_entry i (set_q (Some l));
         mret ERR_OK
     | None => mret ERR_MEM
     end) s = Ret (r, moved_to w' (<[i := e']> (arp_table s)) [] s) ∧
    arp_ok w0 L0 (moved_to w' (<[i := e']> (arp_table s)) [] s) L' ∧
    (r = ERR_OK ∧ (∃ l, e' = set_q (Some l) e ∧ waiting w' (queued (<[i := e']> (arp_table s))) l (concat ds)) ∨
     r = ERR_MEM ∧ e' = e ∧ no_room (Z.of_nat (length (concat ds))) (lwld s) w').
Proof.
  intros [Ht Hm Hh] Hi Hpe [Hp0 Hpos Hhd Hmtu]. pose proof (lookup_lt_Some _ _ _ Hi) as Hlt.
  pose proof (am_grown _ _ _ _ _ Hm) as Hg. pose proof (packet_grown _ _ _ _ _ _ _ _ _ Hg Hp0) as Hp.
  destruct (take_over_ok w0 L0 (lwld s) L (queued (arp_table s)) p cs ds Hg) as ([l|] & w1 & Hrun & Hr & Ep & Ed); [by constructor| |];
    rewrite (bind_mem _ _ _ _ _ _ Hrun) by done.
  2:{ destruct Hr as [Hr Hno]. exists ERR_MEM, w1, L, e. rewrite list_insert_id by done. split_and!; [done| |by right]. constructor; [done| |done].
      eapply arp_mem_same; [done|done|]. intros l Hl.
      assert (l ∈ live (lwld s)) as Hlv by (rewrite (gr_live _ _ _ _ _ _ Hg); set_solver).
      split; [by apply Ep|]. apply Ed. simpl. by apply bool_decide_eq_true. }
  destruct Hr as (L1 & Hg1 & HlX & Hw). erewrite bind_entry by exact Hi.
  pose proof (table_entry _ _ _ _ Ht Hi) as He.
  assert (∀ l', l' ∈ queued (arp_table s) → pbs w1 !! l' = pbs (lwld s) !! l' ∧ data w1 !! Own l' = data (lwld s) !! Own l') as Hsame.
  { intros l' Hl'. assert (l' ∈ live (lwld s)) as Hlv by (rewrite (gr_live _ _ _ _ _ _ Hg); set_solver).
    split; [by apply Ep|]. apply Ed. simpl. by apply bool_decide_eq_true. }
  assert (∃ w2 L2, (match q e with
      | Some old => _ ← on_mem (pbuf_free custom_free_function (Some old)); mret ()
      | None => mret ()
      end) (sent w1 [] s) = Ret ((), sent w2 [] s) ∧ grown w0 L0 w2 L2 (queued (arp_table s) ∖ oset (q e) ∪ {[l]}) ∅ ∧
      (∀ l', q e ≠ Some l' → pbs w2 !! l' = pbs w1 !! l') ∧ data w2 = data w1) as (w2 & L2 & Hrun2 & Hg2 & Ep2 & Ed2).
  { destruct (q e) as [old|] eqn:Eo.
    - destruct (am_wait _ _ _ _ _ Hm i e old Hi Eo) as (body & n & bs & Hr & _).
      assert (old ∈ queued (arp_table s)) as Hold by (by apply elem_of_queued; exists i, e).
      destruct (grown_pbuf_free custom_free_function _ _ _ _ _ _ old (ram_pbuf old (header_offset PBUF_LINK) n) Hg1)
        as (w2 & L2 & Hrun2 & Hg2 & Ed2 & Ep2); [set_solver|rewrite (proj1 (Hsame _ Hold)); apply Hr|done|done|].
      exists w2, L2. rewrite (bind_mem _ _ _ _ _ _ Hrun2) by done. rewrite sent_sent. split_and!; [done| | |done].
      + replace (queued (arp_table s) ∖ oset (Some old) ∪ {[l]}) with ((queued (arp_table s) ∪ {[l]}) ∖ {[old]}); [done|].
        simpl. set_solver.
      + intros l' Hne. apply Ep2. congruence.
    - exists w1, L1. split_and!; try done. simpl. by replace (queued (arp_table s) ∖ ∅) with (queued (arp_table s)) by set_solver. }
  rewrite (bind_Ret _ _ _ _ _ Hrun2). erewrite bind_upd_entry by exact Hi. cbn [arp_table sent lwld]. rewrite sent_moved, moved_moved.
  exists ERR_OK, w2, L2, (set_q (Some l) e).
  assert (waiting w2 (queued (arp_table s) ∖ oset (q e) ∪ {[l]}) l (concat ds)) as Hw2.
  { eapply waiting_same; [exact Hw|set_solver| |by rewrite Ed2]. apply Ep2. intros El. apply HlX, elem_of_queued. by exists i, e. }
  split_and!; [done| |].
  - constructor; [| |done].
    + apply table_insert; [done| |].
      * destruct He as [H1 H2 H3 H4]. constructor; try done. intros _. simpl. by apply bool_decide_eq_true in Hpe.
      * intros Hne j e2 Hj Hj2 Hn2 E. apply Hj. by eapply (to_distinct _ _ Ht).
    + cbn [arp_table moved_to lwld]. eapply arp_mem_insert; [done|exact Hi|done| |].
      * intros l' Hl' Hne. rewrite Ep2, Ed2 by done. by apply Hsame.
      * intros l' [= <-]. split; [by right|]. by exists (concat ds).
  - left. split; [done|]. exists l. split; [done|]. rewrite (queued_insert _ _ e); [done|done|].
    intros j e2 l' Hj E1 E2. by eapply (am_once _ _ _ _ _ Hm i j).
Qed.

(** A new entry [i] for [a]: it is taken from the table, marked as pending, and the
    address is asked for with one request, unless the heap has no room for the frame.
    [f] is what goes out and [w'] the memory after it. *)
Definition asked s id n a (i : nat) (f : list bytes) w' : Prop :=
  ∃ s0 e0 r, etharp_find_entry custom_free_function (Some a) ETHARP_FLAG_TRY_HARD s = Ret (Some i, s0) ∧
    arp_table s0 !! i = Some e0 ∧
    let s1 := moved_to (lwld s0) (<[i := set_enetif (Some id) (set_state ETHARP_STATE_PENDING e0)]> (arp_table s0)) [] s0 in
    etharp_request uninit custom_free_function stack_bytes id a s1 = Ret (r, sent w' f s1) ∧
    (f = [arp_request_frame n ethbroadcast a] ∨ f = [] ∧ no_room SIZEOF_ETHARP_HDR (lwld s0) w').

(** A query for an address without a stable entry.  One that is pending already is
    not asked for again; another one gets a new entry and is asked for.  The packet
    then waits on the entry, unless the heap has no room for a copy of it in the
    memory [w1] at that point. *)
Definition query_post w0 L0 s id n a (body : bytes) (r : err_t) s' : Prop :=
  ∃ i w1 w' L' e' f, s' = moved_to w' (<[i := e']> (arp_table s)) f s ∧ (i < length (arp_table s))%nat ∧ arp_ok w0 L0 s' L' ∧
    is_pending e' = true ∧ ipaddr e' = a ∧
    ((∃ e, arp_table s !! i = Some e ∧ is_pending e = true ∧ ipaddr e = a ∧ ctime e' = ctime e ∧ f = [] ∧ w1 = lwld s) ∨
     (unused a (arp_table s) ∧ victim (arp_table s) i ∧ enetif e' = Some id ∧ ctime e' = 0 ∧ asked s id n a i f w1)) ∧
    (r = ERR_OK ∧ (∃ l, q e' = Some l ∧ waiting w' (queued (arp_table s')) l body) ∨
     r = ERR_MEM ∧ no_room (Z.of_nat (length body)) w1 w').

Lemma pending_entry_ok nifs e id n a : recycled a e → nifs !! id = Some n → netif_ok n →
  entry_ok nifs (set_enetif (Some id) (set_state ETHARP_STATE_PENDING e)).
Proof.
  intros [H1 H2 H3 H4 H5] Hn Hok. constructor; try done.
  - simpl. rewrite H3. done.
  - intros _. by exists id, n.
Qed.

Lemma etharp_query_ok w0 L0 s L id n a p cs ds : arp_ok w0 L0 s L → netifs s !! id = Some n → netif_ok n →
  unicast n a = true → (∀ e, e ∈ arp_table s → ipaddr e = a → is_stable e = false) → packet_to_send w0 p cs ds →
  ∃ r s', etharp_query uninit custom_free_function stack_bytes id a (Some p) s = Ret (r, s') ∧
    query_post w0 L0 s id n a (concat ds) r s'.
Proof.
  intros Hao Hn Hok Hu Hns Hps. pose proof Hao as [Ht Hm Hh]. unfold etharp_query. rewrite (bind_netif _ _ _ _ Hn).
  assert (negb (ip4_addr_isbroadcast_u32 a n =? 0) || ip4_addr_ismulticast a || (a =? IPADDR_ANY) = false) as ->.
  { unfold unicast in Hu. apply negb_true_iff in Hu. rewrite !orb_false_iff in *. tauto. }
  destruct (etharp_find_entry_ok custom_free_function w0 L0 s L a ETHARP_FLAG_TRY_HARD Hao) as ([i|] & s1 & Hrun & Hpost);
    rewrite (bind_Ret _ _ _ _ _ Hrun).
  2:{ by destruct Hpost as (_ & _ & [?|[? _]]). }
  destruct Hpost as [(-> & e & Hi & Hne & Ea)|(Hun & Hv & _ & w1 & L1 & e & -> & Hre & Hlt & Hm1)].
  - pose proof (Hns e ltac:(by eapply list_elem_of_lookup_2) Ea) as Hst.
    assert (is_pending e = true) as Hpe by (unfold nonempty, is_stable, is_pending in *; by destruct (state e)).
    pose proof Hpe as Hpe'. apply bool_decide_eq_true in Hpe'.
    rewrite (bind_entry _ _ e) by done. rewrite Hpe'. cbn [bool_decide orb].
    erewrite bind_Ret by reflexivity. cbn. erewrite bind_Ret by reflexivity. rewrite (bind_entry _ _ e) by done.
    rewrite Hpe'. cbn [stable]. rewrite bool_decide_eq_true_2 by done.
    destruct (queue_packet_ok w0 L0 s L i e p cs ds Hao Hi Hpe Hps) as (r & w' & L' & e' & Hrun' & Hao' & Hr).
    exists r, (moved_to w' (<[i := e']> (arp_table s)) [] s). split; [exact Hrun'|].
    exists i, (lwld s), w', L', e', []. assert (ipaddr e' = a ∧ is_pending e' = true ∧ ctime e' = ctime e) as (E1 & E2 & E3).
    { destruct Hr as [(_ & l & -> & _)|(_ & -> & _)]; done. }
    split_and!; try done; [by eapply lookup_lt_Some|left; by exists e|].
    destruct Hr as [(-> & l & -> & Hw)|(-> & _ & Hno)]; [left|by right]. split; [done|]. by exists l.
  - set (e1 := set_enetif (Some id) (set_state ETHARP_STATE_PENDING e)).
    erewrite bind_entry by (by apply list_lookup_insert_eq). rewrite (re_state _ _ Hre). rewrite bool_decide_eq_true_2 by done. cbn [orb].
    assert (arp_ok w0 L0 (moved_to w1 (<[i := e1]> (arp_table s)) [] s) L1) as Hao1.
    { constructor; [| |done].
      - cbn [arp_table moved_to netifs]. apply table_insert; [done|by eapply pending_entry_ok|]. intros _ j e2 _ Hj2 Hn2 E.
        eapply Hun; [by eapply list_elem_of_lookup_2|done|]. simpl in E. by rewrite (re_ipaddr _ _ Hre) in E.
      - cbn [arp_table moved_to lwld]. rewrite <- (list_insert_insert_eq _ i e1 e).
        eapply arp_mem_fields; [done|by apply list_lookup_insert_eq|done]. }
    assert ((<[i := e1]> (arp_table s)) !! i = Some e1) as Hi1 by (by apply list_lookup_insert_eq).
    rewrite (bind_Ret _ _ _ () (moved_to w1 (<[i := e1]> (arp_table s)) [] s)).
    2:{ erewrite bind_upd_entry by (by apply list_lookup_insert_eq). cbn [arp_table moved_to lwld]. rewrite list_insert_insert_eq, moved_moved.
        erewrite upd_entry_ok by (by apply list_lookup_insert_eq). cbn [arp_table moved_to lwld]. by rewrite list_insert_insert_eq, moved_moved. }
    destruct (etharp_request_dst_ok w0 L0 (moved_to w1 (<[i := e1]> (arp_table s)) [] s) L1 (<[i := e1]> (arp_table s)) id n a ethbroadcast
      (ao_mem _ _ _ _ Hao1) Hn Hok eq_refl) as (r1 & w2 & L2 & f & Hrun2 & Hm2 & Hr1 & _).
    assert (asked s id n a i f w2) as Hask.
    { exists (moved_to w1 (<[i := e]> (arp_table s)) [] s), e, r1. split; [done|].
      split; [by apply list_lookup_insert_eq|]. cbv zeta. fold e1. cbn [arp_table lwld moved_to].
      rewrite list_insert_insert_eq, moved_moved. split; [exact Hrun2|].
      destruct Hr1 as [[_ ->]|(_ & -> & Hno)]; [by left|by right]. }
    unfold etharp_request at 1. rewrite (bind_Ret _ _ _ _ _ Hrun2). rewrite sent_moved, moved_moved. cbn [arp_table moved_to app].
    erewrite bind_entry by exact Hi1. cbn [stable state e1 set_enetif set_state]. rewrite bool_decide_eq_true_2 by done.
    assert (arp_ok w0 L0 (moved_to w2 (<[i := e1]> (arp_table s)) f s) L2) as Hao2 by (constructor; [apply Hao1|done|done]).
    destruct (queue_packet_ok w0 L0 _ L2 i e1 p cs ds Hao2 Hi1 eq_refl Hps) as (r & w' & L' & e' & Hrun' & Hao' & Hr).
    cbn [arp_table moved_to] in Hrun', Hao', Hr. rewrite list_insert_insert_eq, moved_moved, app_nil_r in Hrun', Hao'.
    rewrite list_insert_insert_eq in Hr. exists r, (moved_to w' (<[i := e']> (arp_table s)) f s). split; [exact Hrun'|].
    exists i, w2, w', L', e', f. assert (ipaddr e' = a ∧ is_pending e' = true ∧ ctime e' = 0 ∧ enetif e' = Some id) as (E1 & E2 & E3 & E4).
    { destruct Hre as [R1 R2 R3 R4 R5]. destruct Hr as [(_ & l & -> & _)|(_ & -> & _)]; done. }
    split_and!; try done.
    + right. by split_and!.
    + destruct Hr as [(-> & l & -> & Hw)|(-> & _ & Hno)]; [left|by right]. split; [done|]. by exists l.
Qed.

(** ** Output *)

(** A packet of the IP layer, with room for the Ethernet header in front of it. *)
Record ip_packet w (p : loc) (cs : list (loc * pbuf)) (ds : list bytes) : Prop := mk_ip_packet {
  ip_send : packet_to_send w p cs ds;
  ip_head : ∃ pb cs' d ds' o bs, cs = (p, pb) :: cs' ∧ ds = d :: ds' ∧ NoDup (Own p :: regions cs') ∧
    payload pb = Some (Own p, o) ∧ (type pb = PBUF_RAM ∨ type pb = PBUF_POOL) ∧ data w !! Own p = Some bs ∧
    o + len pb ≤ Z.of_nat (length bs) ∧ SIZEOF_ETH_HDR ≤ o;
}.

Lemma ip_packet_output w0 L0 s L t id n p cs ds dst : arp_mem w0 L0 (lwld s) L t → netifs s !! id = Some n → netif_ok n →
  length dst = 6%nat → ip_packet w0 p cs ds →
  ∃ w' w0', ethernet_output stack_bytes id p (hwaddr n) dst ETHTYPE_IP s =
      Ret (ERR_OK, sent w' [eth_frame dst (hwaddr n) ETHTYPE_IP (concat ds)] s) ∧
    arp_mem w0' L0 w' L t ∧ except p w0 w0'.
Proof.
  intros Hm Hn Hok Hd [[Hp0 Hpos Hhd Hmtu] (pb & cs' & d & ds' & o & bs & Ecs & Eds & Hnd & Hpay & Hty & Hbs & Hob & Ho)].
  pose proof (am_grown _ _ _ _ _ Hm) as Hg. subst cs ds.
  pose proof (packet_cons _ _ _ _ _ _ _ Hp0) as (_ & Hl & _).
  pose proof (packet_grown _ _ _ _ _ _ _ _ _ Hg Hp0) as Hp.
  assert (data (lwld s) !! Own p = Some bs) as Hbs'.
  { rewrite (gr_data _ _ _ _ _ _ Hg); [done|]. simpl. by apply bool_decide_eq_true. }
  destruct (ethernet_output_ok stack_bytes stack_length s id n p pb cs' d ds' o bs (hwaddr n) dst ETHTYPE_IP Hp Hnd Hpay Hty Hbs')
    as (w' & Hrun & Hch & Hpb' & _); try done; [apply Hok|].
  pose proof (packet_cons _ _ _ _ _ _ _ Hp) as (_ & _ & Hpb & _).
  destruct (arp_mem_base _ _ _ _ _ _ _ Hm Hch Hl) as (w0' & Hm' & Hex); [unfold owner; by rewrite Hpb', Hpb|]. by exists w', w0'.
Qed.

(** An entry that is about to expire is asked for again when it is used: by its
    Ethernet address at first and by broadcast later, unless the heap has no room for
    the frame. *)
Definition refreshed s n e e' (f : list bytes) : Prop :=
  if bool_decide (state e = ETHARP_STATE_STABLE) && (ARP_AGE_REREQUEST_USED_UNICAST <=? ctime e) then
    e' = set_state ETHARP_STATE_STABLE_REREQUESTING_1 e ∧
      f = [arp_request_frame n (if ARP_AGE_REREQUEST_USED_BROADCAST <=? ctime e then ethbroadcast else ethaddr e) (ipaddr e)] ∨
    e' = e ∧ f = [] ∧ ∃ w', no_room SIZEOF_ETHARP_HDR (lwld s) w'
  else e' = e ∧ f = [].

Lemma refresh_one w0 L0 s L id n i e dst : arp_mem w0 L0 (lwld s) L (arp_table s) → arp_table s !! i = Some e →
  netifs s !! id = Some n → netif_ok n → length dst = 6%nat →
  ∃ w1 L1 f e', (r ← etharp_request_dst uninit custom_free_function stack_bytes id (ipaddr e) dst;
      if decide (r = ERR_OK) then upd_entry i (set_state ETHARP_STATE_STABLE_REREQUESTING_1) else mret ()) s =
      Ret ((), moved_to w1 (<[i := e']> (arp_table s)) f s) ∧ arp_mem w0 L0 w1 L1 (<[i := e']> (arp_table s)) ∧
    (e' = set_state ETHARP_STATE_STABLE_REREQUESTING_1 e ∧ f = [arp_request_frame n dst (ipaddr e)] ∨
     e' = e ∧ f = [] ∧ ∃ w', no_room SIZEOF_ETHARP_HDR (lwld s) w').
Proof.
  intros Hm Hi Hn Hok Hd.
  destruct (etharp_request_dst_ok w0 L0 s L (arp_table s) id n (ipaddr e) dst Hm Hn Hok Hd) as (r & w1 & L1 & f & Hrun & Hm1 & Hr & _).
  rewrite (bind_Ret _ _ _ _ _ Hrun). destruct Hr as [[-> ->]|(-> & -> & Hno)].
  - rewrite decide_True by done. erewrite upd_entry_ok by exact Hi. rewrite sent_moved, moved_moved.
    eexists w1, L1, _, _. split_and!; [reflexivity|by eapply arp_mem_fields|by left].
  - rewrite decide_False by done. exists w1, L1, [], e. rewrite list_insert_id by done. split_and!; [done|done|right]. eauto.
Qed.

Lemma refresh_ok w0 L0 s L id n i e : arp_mem w0 L0 (lwld s) L (arp_table s) → arp_table s !! i = Some e →
  length (ethaddr e) = 6%nat → netifs s !! id = Some n → netif_ok n →
  ∃ w1 L1 f e', (if bool_decide (state e = ETHARP_STATE_STABLE) then
         if ARP_AGE_REREQUEST_USED_BROADCAST <=? ctime e then
           r ← etharp_request uninit custom_free_function stack_bytes id (ipaddr e);
           if decide (r = ERR_OK) then upd_entry i (set_state ETHARP_STATE_STABLE_REREQUESTING_1) else mret ()
         else if ARP_AGE_REREQUEST_USED_UNICAST <=? ctime e then
           r ← etharp_request_dst uninit custom_free_function stack_bytes id (ipaddr e) (ethaddr e);
           if decide (r = ERR_OK) then upd_entry i (set_state ETHARP_STATE_STABLE_REREQUESTING_1) else mret ()
         else mret ()
       else mret ()) s = Ret ((), moved_to w1 (<[i := e']> (arp_table s)) f s) ∧ arp_mem w0 L0 w1 L1 (<[i := e']> (arp_table s)) ∧
    refreshed s n e e' f.
Proof.
  intros Hm Hi Hmac Hn Hok.
  assert (∃ w1 L1 f e', (mret () : M (link A U) ()) s = Ret ((), moved_to w1 (<[i := e']> (arp_table s)) f s) ∧
    arp_mem w0 L0 w1 L1 (<[i := e']> (arp_table s)) ∧ f = [] ∧ e' = e) as (w1 & L1 & f & e' & Hrun & Hm1 & -> & ->).
  { exists (lwld s), L, [], e. by rewrite list_insert_id, moved_id by done. }
  unfold refreshed. change ARP_AGE_REREQUEST_USED_UNICAST with 270. change ARP_AGE_REREQUEST_USED_BROADCAST with 285.
  case_bool_decide as Est; [|by exists w1, L1, [], e].
  destruct (Z.leb_spec 285 (ctime e)) as [Hb|Hb].
  - rewrite (proj2 (Z.leb_le 270 _)) by lia.
    destruct (refresh_one w0 L0 s L id n i e ethbroadcast Hm Hi Hn Hok eq_refl) as (w2 & L2 & f & e' & Hrun2 & Hm2 & Hf).
    by exists w2, L2, f, e'.
  - destruct (Z.leb_spec 270 (ctime e)) as [Hu|Hu]; [|by exists w1, L1, [], e].
    destruct (refresh_one w0 L0 s L id n i e (ethaddr e) Hm Hi Hn Hok Hmac) as (w2 & L2 & f & e' & Hrun2 & Hm2 & Hf).
    by exists w2, L2, f, e'.
Qed.

(** [etharp_output_to_arp_index]: the frame, after a request when the entry is old. *)
Lemma output_to_index_ok w0 L0 s L id n p cs ds i e : arp_ok w0 L0 s L → arp_table s !! i = Some e → is_stable e = true →
  netifs s !! id = Some n → netif_ok n → ip_packet w0 p cs ds →
  ∃ w' w0' L' f e', etharp_output_to_arp_index uninit custom_free_function stack_bytes id p i s =
      Ret (ERR_OK, moved_to w' (<[i := e']> (arp_table s)) (f ++ [eth_frame (ethaddr e) (hwaddr n) ETHTYPE_IP (concat ds)]) s) ∧
    arp_ok w0' L0 (moved_to w' (<[i := e']> (arp_table s)) (f ++ [eth_frame (ethaddr e) (hwaddr n) ETHTYPE_IP (concat ds)]) s) L' ∧
    except p w0 w0' ∧ refreshed s n e e' f.
Proof.
  intros [Ht Hm Hh] Hi Hst Hn Hok Hip. pose proof (table_entry _ _ _ _ Ht Hi) as He. pose proof (lookup_lt_Some _ _ _ Hi) as Hlt.
  unfold etharp_output_to_arp_index. rewrite (bind_entry _ _ e) by done. rewrite bind_assert by done.
  destruct (refresh_ok w0 L0 s L id n i e Hm Hi (eo_mac _ _ He) Hn Hok) as (w1 & L1 & f & e' & Hrun1 & Hm1 & Hf).
  rewrite (bind_Ret _ _ _ _ _ Hrun1). erewrite bind_netif by exact Hn. erewrite bind_entry by (by apply list_lookup_insert_eq).
  assert (e' = e ∨ state e = ETHARP_STATE_STABLE ∧ e' = set_state ETHARP_STATE_STABLE_REREQUESTING_1 e) as Hf'.
  { unfold refreshed in Hf. destruct (_ && _) eqn:E; [|left; apply Hf]. apply andb_true_iff in E as [E%bool_decide_eq_true _].
    destruct Hf as [[-> _]|[-> _]]; [by right|by left]. }
  assert (ethaddr e' = ethaddr e) as -> by (by destruct Hf' as [->|[_ ->]]).
  destruct (ip_packet_output w0 L0 (moved_to w1 (<[i := e']> (arp_table s)) f s) L1 (<[i := e']> (arp_table s)) id n p cs ds (ethaddr e) Hm1)
    as (w2 & w0' & Hrun2 & Hm2 & Hex); try done; [apply He|].
  exists w2, w0', L1, f, e'. rewrite Hrun2, sent_moved, moved_moved. split_and!; try done.
  constructor; [|done|done]. cbn [netifs arp_table moved_to]. destruct Hf' as [->|[Es ->]].
  - by rewrite list_insert_id.
  - destruct He as [H1 H2 H3 H4]. apply table_insert; [done| |].
    + constructor; try done; [|by unfold is_pending in H2; rewrite Es in H2|].
      * intros Hq. specialize (H1 Hq). congruence.
      * intros _. apply H4. unfold nonempty. by rewrite Es.
    + intros _ j e2 Hj Hj2 Hn2 E. apply Hj. eapply (to_distinct _ _ Ht); try done. unfold nonempty. by rewrite Es.
Qed.

Lemma find_stable_ok a es : ∀ k,
  match find_stable a es k with
  | Some i => ∃ j e, i = (k + j)%nat ∧ es !! j = Some e ∧ is_stable e = true ∧ ipaddr e = a
  | None => ∀ e, e ∈ es → ipaddr e = a → is_stable e = false
  end.
Proof.
  induction es as [|e es IH]; intros k; simpl; [by intros e ?%elem_of_nil|].
  destruct (stable (state e) && (a =? ipaddr e)) eqn:E.
  - apply andb_true_iff in E as [E1 E2%Z.eqb_eq]. exists 0%nat, e. split_and!; [lia|done|done|done].
  - specialize (IH (Datatypes.S k)). destruct (find_stable a es (Datatypes.S k)) as [i|].
    + destruct IH as (j & e' & -> & H). exists (Datatypes.S j), e'. split; [lia|done].
    + intros e' [->|Hin]%elem_of_cons Ea; [|by apply IH]. unfold is_stable. rewrite Ea, Z.eqb_refl, andb_true_r in E. done.
Qed.

(** Where a packet for [a] goes on the link: the host itself, or the gateway. *)
Definition next_hop (n : netif) (a : Z) : option Z :=
  if negb (ip4_addr_netcmp a (ip_addr n) (netmask n)) && negb (ip4_addr_islinklocal a) then
    if gw n =? IPADDR_ANY then None else Some (gw n)
  else Some a.

(** The packet leaves to the address in the table, or it waits. *)
Definition output_post w0 L0 s id n h p (body : bytes) (r : err_t) s' : Prop :=
  (r = ERR_OK ∧ ∃ i hint e e' f w' w0' L', arp_table s !! i = Some e ∧ is_stable e = true ∧ ipaddr e = h ∧
     s' = set_hint hint (moved_to w' (<[i := e']> (arp_table s)) (f ++ [eth_frame (ethaddr e) (hwaddr n) ETHTYPE_IP body]) s) ∧
     arp_ok w0' L0 s' L' ∧ except p w0 w0' ∧ refreshed s n e e' f) ∨
  ((∀ e, e ∈ arp_table s → ipaddr e = h → is_stable e = false) ∧ query_post w0 L0 s id n h body r s').

Lemma output_index_post w0 L0 s L id n h p cs ds i e hint : arp_ok w0 L0 s L → arp_table s !! i = Some e → is_stable e = true →
  ipaddr e = h → netifs s !! id = Some n → netif_ok n → ip_packet w0 p cs ds → (hint < ARP_TABLE_SIZE)%nat →
  ∃ r s', etharp_output_to_arp_index uninit custom_free_function stack_bytes id p i (set_hint hint s) = Ret (r, s') ∧
    output_post w0 L0 s id n h p (concat ds) r s'.
Proof.
  intros [Ht Hm Hh] Hi Hst Eh Hn Hok Hip Hhint.
  assert (arp_ok w0 L0 (set_hint hint s) L) as Hao by (by constructor).
  destruct (output_to_index_ok w0 L0 _ L id n p cs ds i e Hao Hi Hst Hn Hok Hip) as (w' & w0' & L' & f & e' & Hrun & Hao' & Hex & Hf).
  eexists ERR_OK, _. split; [exact Hrun|]. left. split; [done|]. exists i, hint, e, e', f, w', w0', L'. by split_and!.
Qed.

Lemma etharp_output_ok w0 L0 s L id n a p cs ds : arp_ok w0 L0 s L → netifs s !! id = Some n → netif_ok n →
  unicast n a = true → (∀ h, next_hop n a = Some h → unicast n h = true) → ip_packet w0 p cs ds →
  ∃ r s', etharp_output uninit custom_free_function stack_bytes id p a s = Ret (r, s') ∧
    match next_hop n a with
    | None => r = ERR_RTE ∧ s' = s
    | Some h => output_post w0 L0 s id n h p (concat ds) r s'
    end.
Proof.
  intros Hao Hn Hok Hu Huh Hip. pose proof Hao as [Ht Hm Hh]. unfold etharp_output. rewrite (bind_netif _ _ _ _ Hn).
  unfold unicast in Hu. rewrite negb_true_iff, !orb_false_iff in Hu. destruct Hu as [[_ ->] ->]. cbv zeta.
  unfold next_hop in *. set (gateway := negb _ && negb _) in *. destruct (gateway && (gw n =? IPADDR_ANY)) eqn:Eg.
  { apply andb_true_iff in Eg as [-> ->]. by exists ERR_RTE, s. }
  assert (∃ h, (if gateway then if gw n =? IPADDR_ANY then None else Some (gw n) else Some a) = Some h ∧
    (if gateway then gw n else a) = h) as (h & Eh & ->).
  { destruct gateway; [|by exists a]. cbn [andb] in Eg. rewrite Eg. by exists (gw n). }
  rewrite Eh in *. specialize (Huh h eq_refl). erewrite bind_Ret by reflexivity.
  destruct (lookup_lt_is_Some_2 (arp_table s) (etharp_cached_entry s)) as [ec Hec]; [by rewrite (to_length _ _ Ht)|].
  rewrite (bind_entry _ _ ec) by done. destruct (stable (state ec) && (h =? ipaddr ec)) eqn:Ec.
  { apply andb_true_iff in Ec as [Ec1 Ec2%Z.eqb_eq].
    destruct (output_index_post w0 L0 s L id n h p cs ds _ ec (etharp_cached_entry s) Hao Hec Ec1 (eq_sym Ec2) Hn Hok Hip Hh)
      as (r & s' & Hrun & Hpost). exists r, s'. split; [|done]. rewrite <- Hrun. f_equal. by destruct s. }
  pose proof (find_stable_ok h (arp_table s) 0) as Hfs. destruct (find_stable h (arp_table s) 0) as [i|].
  - destruct Hfs as (j & e & -> & Hj & Hst & Ea). rewrite Nat.add_0_l. erewrite bind_Ret by reflexivity.
    assert (j < ARP_TABLE_SIZE)%nat as Hjl by (rewrite <- (to_length _ _ Ht); by eapply lookup_lt_Some).
    destruct (output_index_post w0 L0 s L id n h p cs ds j e j Hao Hj Hst Ea Hn Hok Hip Hjl) as (r & s' & Hrun & Hpost). by exists r, s'.
  - destruct (etharp_query_ok w0 L0 s L id n h p cs ds Hao Hn Hok Huh Hfs (ip_send _ _ _ _ Hip)) as (r & s' & Hrun & Hpost).
    exists r, s'. split; [done|]. by right.
Qed.
End Raw.
