(* ===== verification/EtharpInput.v ===== *)
(** * Packets that arrive

    [etharp_input] learns the sender's address and answers requests for the address of
    the interface; a packet that is not for Ethernet and IPv4 changes nothing. *)

From S2P Require Import Prelude CLib Def Mem Memp Alloc Pbuf PbufChain PbufWrite PbufOwn PbufOps PbufSpec PbufRam Ip4Addr Link LinkSpec Etharp EtharpTable EtharpSpec.
Import Def.Def Pbuf Ip4Addr.Ip4Addr Link Etharp.

Section Input.
Context {A U : Type} `{HA : Alloc A} {elt_size : memp_t → Z} `{HL : !AllocLaws A elt_size}.
Context (custom_free_function : loc → M (world A) ()).
Implicit Types (w : world A) (s : link A U) (L : gmap loc Z) (t : list etharp_entry).

(** The memory of the caller after the packet [p] was released. *)
Record gone (p : loc) w w' : Prop := mk_gone {
  go_live : live w' = live w ∖ {[p]};
  go_pbs l : l ∈ live w → l ≠ p → pbs w' !! l = pbs w !! l;
  go_data r : valid r w = true → r ≠ Own p → data w' !! r = data w !! r;
}.

Lemma arp_mem_free w0 L0 w L t p pb : arp_mem w0 L0 w L t → p ∈ live w0 → p.1 ≠ CUSTOM → pbs w !! p = Some pb →
  next pb = None → ref pb = 1 →
  ∃ w' w0' L', pbuf_free custom_free_function (Some p) w = Ret (1, w') ∧ arp_mem w0' (delete p L0) w' L' t ∧ gone p w0 w0'.
Proof.
  intros [Hg Hw Ho] Hp Hcu Hpb Hnx Href. pose proof Hg as [Hi Hlv Hf Hh Hs Hn Hm Hpbs Hd Hbl].
  assert (p ∈ live w) as Hpl by (rewrite Hlv; set_solver). assert (p ∉ queued t) as Hpq by set_solver.
  destruct (pbuf_free_ok custom_free_function w L p [(p, pb)]) as (w' & Hrun & Hi' & Hlv' & Hd' & _ & Hp').
  { done. } { simpl. by rewrite Hnx. }
  { apply list.Forall_singleton. simpl. split; [done|lia]. }
  { simpl. rewrite Href. done. }
  simpl in *. rewrite Href in *. simpl in *.
  set (w0' := mk_world (pbs w') (live w0 ∖ {[p]}) (data w') (allocs w0) (pbuf_free_ooseq_pending w0)).
  exists w', w0', (delete p L). split; [done|]. split.
  - constructor; [|intros i e l Hie E|done].
    + constructor; try done.
      * rewrite Hlv', Hlv. simpl. set_solver.
      * simpl. set_solver.
      * intros l Hl. rewrite lookup_delete. case_decide; [done|auto].
      * intros l Hlx HlN. rewrite !lookup_delete. case_decide; [done|by apply Hbl].
    + destruct (Hw i e l Hie E) as [body Hb]. exists body. assert (l ∈ queued t) as Hin by (apply elem_of_queued; eauto).
      eapply waiting_same; [done|done| |by rewrite Hd']. apply Hp'. intros ->%list_elem_of_singleton. done.
  - constructor; [done| |].
    + intros l Hl Hne. simpl. rewrite Hp'; [by apply Hpbs|]. by intros ?%list_elem_of_singleton.
    + intros r Hr Hne. simpl. rewrite Hd'. by apply Hd.
Qed.

Context (stack_bytes : bytes) (stack_length : length stack_bytes = 1514%nat).

(** An ARP packet in one pbuf, from the caller's memory, behind its Ethernet header. *)
Record arp_pbuf w (p : loc) (pb : pbuf) (o : Z) (d : bytes) : Prop := mk_arp_pbuf {
  ab_packet : packet w (Some p) [(p, pb)] [d];
  ab_payload : payload pb = Some (Own p, o);
  ab_type : type pb = PBUF_RAM ∨ type pb = PBUF_POOL;
  ab_block : ∃ bs, data w !! Own p = Some bs ∧ o + len pb ≤ Z.of_nat (length bs);
  ab_room : SIZEOF_ETH_HDR ≤ o;
  ab_len : SIZEOF_ETHARP_HDR ≤ len pb ≤ 1500;
  ab_owner : p.1 ≠ CUSTOM ∧ ref pb = 1;
}.

Lemma update_post_ok w0 L0 s L id n a mac flags e s1 : arp_ok w0 L0 s L → update_post w0 L0 s id n a mac flags e s1 →
  ∃ L', arp_ok w0 L0 s1 L' ∧ netifs s1 = netifs s.
Proof.
  intros Hao. unfold update_post. destruct (unicast n a).
  - intros [(_ & -> & _)|(_ & i & w' & L' & f & -> & Hao' & _)]; [by exists L|by exists L'].
  - intros [_ ->]. by exists L.
Qed.

(** The fields of an ARP packet. *)
Lemma arp_fields opcode sha sip tha tip pad d : d = arp_packet opcode sha sip tha tip ++ pad → length sha = 6%nat → length tha = 6%nat →
  take 2 (drop 0 d) = le_bytes 2 (PP_HTONS HWTYPE_ETHERNET) ∧ take 2 (drop 2 d) = le_bytes 2 (PP_HTONS ETHTYPE_IP) ∧
  take 1 (drop 4 d) = [ETH_HWADDR_LEN] ∧ take 1 (drop 5 d) = [4] ∧ take 2 (drop 6 d) = le_bytes 2 (lwip_htons opcode) ∧
  take 6 (drop 8 d) = sha ∧ take 4 (drop 14 d) = le_bytes 4 sip ∧ take 6 (drop 18 d) = tha ∧ take 4 (drop 24 d) = le_bytes 4 tip.
Proof.
  intros -> Hs Ht. do 7 (destruct sha as [|? sha]; try done). do 7 (destruct tha as [|? tha]; try done).
Qed.

(** The answer is made in place. *)
Lemma reply_splices opcode sha sip tha tip pad hw ip : length sha = 6%nat → length tha = 6%nat → length hw = 6%nat →
  splice 8 hw (splice 18 sha (splice 14 (le_bytes 4 ip) (splice 24 (le_bytes 4 sip) (splice 6 (le_bytes 2 (lwip_htons ARP_REPLY))
    (arp_packet opcode sha sip tha tip ++ pad))))) = arp_packet ARP_REPLY hw ip sha sip ++ pad.
Proof.
  intros Hs Ht Hh. do 7 (destruct sha as [|? sha]; try done). do 7 (destruct tha as [|? tha]; try done).
  do 7 (destruct hw as [|? hw]; try done).
Qed.

(** Loads from and stores to a packet in one pbuf. *)
Lemma bind_pkt_load {C} s p pb d k n (K : bytes → M (link A U) C) : packet (lwld s) (Some p) [(p, pb)] [d] → 0 ≤ k → 0 ≤ n →
  k + n ≤ len pb → (on_mem (load (payload pb) k n) ≫= K) s = K (take (Z.to_nat n) (drop (Z.to_nat k) d)) s.
Proof.
  intros Hp H0 Hn Hle. pose proof (packet_cons _ _ _ _ _ _ _ Hp) as (_ & _ & _ & _ & Hld & _).
  rewrite (bind_mem _ _ _ _ _ _ (load_sub _ _ _ _ _ _ Hld H0 Hn Hle)) by done. unfold sent. rewrite app_nil_r. by destruct s.
Qed.

Lemma pkt_store s p pb o d k src : packet (lwld s) (Some p) [(p, pb)] [d] →
  payload pb = Some (Own p, o) → 0 ≤ k → k + Z.of_nat (length src) ≤ len pb →
  ∃ w', on_mem (store (payload pb) k src) s = Ret ((), sent w' [] s) ∧
    packet w' (Some p) [(p, pb)] [splice (Z.to_nat k) src d] ∧ changes [p] (lwld s) w'.
Proof.
  intros Hp Hpay H0 Hle.
  destruct (packet_store _ _ _ _ _ _ _ k src Hp) as (w' & Hrun & Hf & Hp'); [|done|done|].
  { simpl. unfold region_list. rewrite Hpay. destruct (len pb =? 0); [apply base.NoDup_nil_2|apply list.NoDup_singleton]. }
  exists w'. split_and!; [|done|by eapply changes_frame]. unfold on_mem, sent. by rewrite Hrun, app_nil_r.
Qed.

Definition arp_reply_frame (n : netif) (sha : eth_addr) (sip : Z) (pad : bytes) : bytes :=
  eth_frame sha (hwaddr n) ETHTYPE_ARP (arp_packet ARP_REPLY (hwaddr n) (ip_addr n) sha sip ++ pad).

Lemma arp_pbuf_changes w w' p pb o d d' : arp_pbuf w p pb o d → changes [p] w w' → packet w' (Some p) [(p, pb)] [d'] →
  arp_pbuf w' p pb o d'.
Proof.
  intros [Hp Hpay Hty (bs & Hbs & Hle) Hro Hlen Hown] Hch Hp'. constructor; try done.
  pose proof (ch_size _ _ _ Hch (Own p)) as Hsz. rewrite Hbs in Hsz. destruct (data w' !! Own p) as [bs'|]; [|done].
  injection Hsz as Hsz. exists bs'. split; [done|lia].
Qed.

Lemma reply_ok s id n p pb o opcode sha sip tha tip pad : netifs s !! id = Some n → netif_ok n →
  arp_pbuf (lwld s) p pb o (arp_packet opcode sha sip tha tip ++ pad) → length sha = 6%nat → length tha = 6%nat →
  ∃ w' pb', (_ ← on_mem (store (payload pb) 6 (le_bytes 2 (lwip_htons ARP_REPLY)));
      sip ← on_mem (load (payload pb) 14 4);
      _ ← on_mem (store (payload pb) 24 sip);
      _ ← on_mem (store (payload pb) 14 (le_bytes 4 (ip_addr n)));
      _ ← assert_ (hwaddr_len n =? ETH_HWADDR_LEN);
      sha ← on_mem (load (payload pb) 8 6);
      _ ← on_mem (store (payload pb) 18 sha);
      _ ← on_mem (store (payload pb) 8 (hwaddr n));
      src ← on_mem (load (payload pb) 8 6);
      dst ← on_mem (load (payload pb) 18 6);
      _ ← ethernet_output stack_bytes id p src dst ETHTYPE_ARP;
      mret ()) s = Ret ((), sent w' [arp_reply_frame n sha sip pad] s) ∧ changes [p] (lwld s) w' ∧
    pbs w' !! p = Some pb' ∧ next pb' = None ∧ ref pb' = 1.
Proof.
  intros Hn [Hhl Hhw] Hab Hs Ht. pose proof Hab as [Hp Hpay Hty Hblk Hroom Hlen Hown]. change SIZEOF_ETHARP_HDR with 28 in Hlen.
  remember (arp_packet opcode sha sip tha tip ++ pad) as d eqn:Ed.
  destruct (pkt_store s p pb o d 6 (le_bytes 2 (lwip_htons ARP_REPLY))) as (w1 & R1 & Hp1 & C1); [done|done|lia|simpl; lia|].
  rewrite (bind_Ret _ _ _ _ _ R1). erewrite bind_pkt_load by (exact Hp1 || lia). set (x1 := take _ (drop _ _)).
  assert (Z.of_nat (length x1) ≤ 4) as Hx1 by (unfold x1; rewrite length_take; change (Z.to_nat 4) with 4%nat; lia).
  destruct (pkt_store (sent w1 [] s) p pb o _ 24 x1 Hp1 Hpay) as (w2 & R2 & Hp2 & C2); [lia|lia|]. rewrite (bind_Ret _ _ _ _ _ R2).
  destruct (pkt_store (sent w2 [] (sent w1 [] s)) p pb o _ 14 (le_bytes 4 (ip_addr n)) Hp2 Hpay) as (w3 & R3 & Hp3 & C3); [lia|simpl; lia|].
  rewrite (bind_Ret _ _ _ _ _ R3). rewrite bind_assert by (by rewrite Hhl). erewrite bind_pkt_load by (exact Hp3 || lia).
  set (x2 := take _ (drop _ _)).
  assert (Z.of_nat (length x2) ≤ 6) as Hx2 by (unfold x2; rewrite length_take; change (Z.to_nat 6) with 6%nat; lia).
  destruct (pkt_store (sent w3 [] (sent w2 [] (sent w1 [] s))) p pb o _ 18 x2 Hp3 Hpay) as (w4 & R4 & Hp4 & C4); [lia|lia|].
  rewrite (bind_Ret _ _ _ _ _ R4).
  destruct (pkt_store (sent w4 [] (sent w3 [] (sent w2 [] (sent w1 [] s)))) p pb o _ 8 (hwaddr n) Hp4 Hpay) as (w5 & R5 & Hp5 & C5); [lia|lia|].
  rewrite (bind_Ret _ _ _ _ _ R5). do 2 (erewrite bind_pkt_load by (exact Hp5 || lia)). rewrite !sent_sent. cbn [app].
  set (d5 := splice (Z.to_nat 8) _ _) in *. rename Hp5 into Hd5.
  assert (d5 = arp_packet ARP_REPLY (hwaddr n) (ip_addr n) sha sip ++ pad) as E5.
  { subst d5 x2 x1 d. destruct n as [? ? ? ? ? ? hw]. cbn [hwaddr ip_addr] in *. clear - Hs Ht Hhw.
    do 7 (destruct sha as [|? sha]; try done). do 7 (destruct tha as [|? tha]; try done).
    do 7 (destruct hw as [|? hw]; try done). }
  destruct Hblk as (bs & Hbs & Hle).
  assert (changes [p] (lwld s) w5) as C.
  { exact (changes_same _ _ _ _ (changes_same _ _ _ _ (changes_same _ _ _ _ (changes_same _ _ _ _ C1 C2) C3) C4) C5). }
  pose proof (arp_pbuf_changes _ _ _ _ _ _ _ Hab C Hd5) as [_ _ _ (bs' & Hbs' & Hle') _ _ _].
  destruct (arp_fields _ _ _ _ _ _ d5 E5 Hhw Hs) as (_ & _ & _ & _ & _ & F6 & _ & F7 & _).
  change (Z.to_nat 6) with 6%nat. change (Z.to_nat 8) with 8%nat. change (Z.to_nat 18) with 18%nat. rewrite F6, F7.
  destruct (ethernet_output_ok stack_bytes stack_length (sent w5 [] s) id n p pb [] d5 [] o bs' (hwaddr n) sha ETHTYPE_ARP Hd5)
    as (w6 & Hrun & C6 & Hpb6 & _); try done; [apply list.NoDup_singleton|simpl; lia|].
  rewrite (bind_Ret _ _ _ _ _ Hrun), sent_sent. exists w6, (moved SIZEOF_ETH_HDR (Own p) o pb). split_and!; try done.
  - cbn [concat app]. by rewrite app_nil_r, E5.
  - by eapply changes_same.
  - simpl. pose proof (pk_chain _ _ _ _ Hp) as (_ & _ & _ & Hnx). done.
  - apply Hown.
Qed.

Lemma arp_pbuf_grown w0 L0 w L X N p pb o d : grown w0 L0 w L X N → arp_pbuf w0 p pb o d → arp_pbuf w p pb o d.
Proof.
  intros Hg [Hp Hpay Hty (bs & Hbs & Hle) Hro Hlen Hown]. constructor; try done; [by eapply packet_grown|].
  exists bs. split; [|done]. rewrite (gr_data _ _ _ _ _ _ Hg); [done|]. simpl. apply bool_decide_eq_true.
  by destruct (pk_chain _ _ _ _ Hp) as (_ & ? & _).
Qed.

Lemma gone_except p w w1 w2 : except p w w1 → gone p w1 w2 → gone p w w2.
Proof.
  intros [E1 E2 E3] [G1 G2 G3]. constructor.
  - by rewrite G1, E1.
  - intros l Hl Hne. rewrite G2, E2; try done. by rewrite E1.
  - intros r Hr Hne. rewrite G3, E3; try done. destruct r as [l|]; [|done]. simpl in *. by rewrite E1.
Qed.

Lemma htons_is_request opcode : is_u16 opcode → (lwip_htons opcode =? PP_HTONS ARP_REQUEST) = (opcode =? ARP_REQUEST).
Proof.
  intros Ho. change (PP_HTONS ARP_REQUEST) with (lwip_htons ARP_REQUEST).
  destruct (Z.eqb_spec opcode ARP_REQUEST) as [->|Hne]; [apply Z.eqb_refl|]. apply Z.eqb_neq. intros E. apply Hne.
  by rewrite <- (htons_involutive opcode), E by done.
Qed.

(** What [etharp_input] does with a packet for Ethernet and IPv4. *)
Definition input_post w0 L0 s id n p opcode sha sip tip pad s' : Prop :=
  let for_us := negb (ip_addr n =? IPADDR_ANY) && (tip =? ip_addr n) in
  ∃ e s1 w' w0' L', update_post w0 L0 s id n sip sha (if for_us then ETHARP_FLAG_TRY_HARD else ETHARP_FLAG_FIND_ONLY) e s1 ∧
    s' = sent w' (if (opcode =? ARP_REQUEST) && for_us then [arp_reply_frame n sha sip pad] else []) s1 ∧
    arp_ok w0' (delete p L0) s' L' ∧ gone p w0 w0'.

Lemma etharp_input_ok w0 L0 s L id n p pb o opcode sha sip tha tip pad : arp_ok w0 L0 s L →
  netifs s !! id = Some n → netif_ok n → arp_pbuf w0 p pb o (arp_packet opcode sha sip tha tip ++ pad) →
  length sha = 6%nat → length tha = 6%nat → is_u16 opcode → is_u32 sip → is_u32 tip →
  ∃ s', etharp_input custom_free_function stack_bytes p id s = Ret ((), s') ∧
    input_post w0 L0 s id n p opcode sha sip tip pad s'.
Proof.
  intros Hao Hn Hok Hab Hs Ht Hop Hsip Htip. remember (arp_packet opcode sha sip tha tip ++ pad) as d eqn:Ed.
  destruct (arp_fields _ _ _ _ _ _ d Ed Hs Ht) as (F0 & F2 & F4 & F5 & F6 & F8 & F14 & F18 & F24).
  pose proof (arp_pbuf_grown _ _ _ _ _ _ _ _ _ _ (am_grown _ _ _ _ _ (ao_mem _ _ _ _ Hao)) Hab) as Hab1.
  pose proof (ab_packet _ _ _ _ _ Hab1) as Hp1. pose proof (ab_len _ _ _ _ _ Hab) as Hlen. change SIZEOF_ETHARP_HDR with 28 in Hlen.
  pose proof (pk_chain _ _ _ _ Hp1) as (_ & Hl1 & Hpb1 & _). unfold etharp_input.
  rewrite (bind_mem _ _ _ _ _ _ (rd_ok _ _ _ Hl1 Hpb1)) by done. replace (sent (lwld s) [] s) with s by (unfold sent; rewrite app_nil_r; by destruct s).
  do 4 (erewrite bind_pkt_load by (exact Hp1 || lia)).
  change (Z.to_nat 0) with 0%nat. change (Z.to_nat 1) with 1%nat. change (Z.to_nat 2) with 2%nat. change (Z.to_nat 4) with 4%nat. change (Z.to_nat 5) with 5%nat.
  rewrite F0, F2, F4, F5. match goal with |- context [if ?b then _ else _] => change b with false end. cbv iota.
  do 2 (erewrite bind_pkt_load by (exact Hp1 || lia)). rewrite (bind_netif _ _ _ _ Hn). erewrite bind_pkt_load by (exact Hp1 || lia).
  change (Z.to_nat 14) with 14%nat. change (Z.to_nat 24) with 24%nat. change (Z.to_nat 4) with 4%nat. change (Z.to_nat 8) with 8%nat.
  change (Z.to_nat 6) with 6%nat. rewrite F14, F24, F8, !le_word_bytes by done. cbv zeta.
  assert ((if ip_addr n =? IPADDR_ANY then false else tip =? ip_addr n) = negb (ip_addr n =? IPADDR_ANY) && (tip =? ip_addr n)) as ->
    by (by destruct (ip_addr n =? IPADDR_ANY)).
  set (for_us := negb _ && _).
  destruct (etharp_update_ok custom_free_function stack_bytes stack_length w0 L0 s L id n sip sha (if for_us then ETHARP_FLAG_TRY_HARD else ETHARP_FLAG_FIND_ONLY) Hao Hn Hok Hs)
    as (e & s1 & Hrun & Hpost). rewrite (bind_Ret _ _ _ _ _ Hrun).
  destruct (update_post_ok _ _ _ _ _ _ _ _ _ _ _ Hao Hpost) as (L1 & Hao1 & En1). rewrite <- En1 in Hn.
  pose proof (arp_pbuf_grown _ _ _ _ _ _ _ _ _ _ (am_grown _ _ _ _ _ (ao_mem _ _ _ _ Hao1)) Hab) as Hab2.
  pose proof (ab_packet _ _ _ _ _ Hab2) as Hp2. erewrite bind_pkt_load by (exact Hp2 || lia).
  change (Z.to_nat 2) with 2%nat. change (Z.to_nat 6) with 6%nat. rewrite F6, le_word_bytes, htons_is_request by (done || apply htons_range).
  pose proof (pk_chain _ _ _ _ (ab_packet _ _ _ _ _ Hab)) as (_ & Hl0 & _).
  assert (∃ w2 pb2 f, (if (opcode =? ARP_REQUEST) && for_us then
           _ ← on_mem (store (payload pb) 6 (le_bytes 2 (lwip_htons ARP_REPLY)));
           sip ← on_mem (load (payload pb) 14 4);
           _ ← on_mem (store (payload pb) 24 sip);
           _ ← on_mem (store (payload pb) 14 (le_bytes 4 (ip_addr n)));
           _ ← assert_ (hwaddr_len n =? ETH_HWADDR_LEN);
           sha ← on_mem (load (payload pb) 8 6);
           _ ← on_mem (store (payload pb) 18 sha);
           _ ← on_mem (store (payload pb) 8 (hwaddr n));
           src ← on_mem (load (payload pb) 8 6);
           dst ← on_mem (load (payload pb) 18 6);
           _ ← ethernet_output stack_bytes id p src dst ETHTYPE_ARP;
           mret ()
         else mret ()) s1 = Ret ((), sent w2 f s1) ∧ changes [p] (lwld s1) w2 ∧ pbs w2 !! p = Some pb2 ∧ next pb2 = None ∧ ref pb2 = 1 ∧
         f = if (opcode =? ARP_REQUEST) && for_us then [arp_reply_frame n sha sip pad] else []) as (w2 & pb2 & f & Hrun2 & C2 & Hpb2 & Hnx2 & Hr2 & Ef).
  { destruct ((opcode =? ARP_REQUEST) && for_us).
    - subst d. destruct (reply_ok s1 id n p pb o opcode sha sip tha tip pad Hn Hok Hab2 Hs Ht) as (w2 & pb2 & Hr & C2 & H2 & H3 & H4).
      by exists w2, pb2, [arp_reply_frame n sha sip pad].
    - exists (lwld s1), pb, []. pose proof (pk_chain _ _ _ _ Hp2) as (_ & _ & ? & ?). split_and!; try done; [|apply Hab].
      unfold sent. rewrite app_nil_r. by destruct s1. }
  rewrite (bind_Ret _ _ _ _ _ Hrun2).
  assert (owner w2 p = owner (lwld s1) p) as Hown.
  { destruct (pk_chain _ _ _ _ Hp2) as (_ & _ & Hpb & Hnx). unfold owner. rewrite Hpb, Hpb2. simpl. by rewrite Hnx2, Hr2, Hnx, (proj2 (ab_owner _ _ _ _ _ Hab)). }
  destruct (arp_mem_base _ _ _ _ _ _ _ (ao_mem _ _ _ _ Hao1) C2 Hl0 Hown) as (w01 & Hm2 & Hex).
  destruct (arp_mem_free w01 L0 w2 L1 (arp_table s1) p pb2 Hm2) as (w3 & w02 & L3 & Hrun3 & Hm3 & Hgo); try done.
  { by rewrite (ex_live _ _ _ Hex). }
  { apply (ab_owner _ _ _ _ _ Hab). }
  rewrite (bind_mem _ _ _ _ _ _ Hrun3) by done. rewrite sent_sent, app_nil_r.
  eexists. split; [reflexivity|]. exists e, s1, w3, w02, L3. split_and!; [done|by rewrite Ef| |by eapply gone_except].
  constructor; [apply Hao1|done|apply Hao1].
Qed.

(** Another packet changes nothing. *)
Definition arp_header_ok (d : bytes) : bool :=
  (le_word (take 2 d) =? PP_HTONS HWTYPE_ETHERNET) && (le_word (take 1 (drop 4 d)) =? ETH_HWADDR_LEN) &&
  (le_word (take 1 (drop 5 d)) =? 4) && (le_word (take 2 (drop 2 d)) =? PP_HTONS ETHTYPE_IP).

Lemma etharp_input_drop w0 L0 s L id p pb o d : arp_ok w0 L0 s L → arp_pbuf w0 p pb o d → arp_header_ok d = false →
  ∃ w' w0' L', etharp_input custom_free_function stack_bytes p id s = Ret ((), sent w' [] s) ∧
    arp_ok w0' (delete p L0) (sent w' [] s) L' ∧ gone p w0 w0'.
Proof.
  intros Hao Hab Hbad.
  pose proof (arp_pbuf_grown _ _ _ _ _ _ _ _ _ _ (am_grown _ _ _ _ _ (ao_mem _ _ _ _ Hao)) Hab) as Hab1.
  pose proof (ab_packet _ _ _ _ _ Hab1) as Hp1. pose proof (ab_len _ _ _ _ _ Hab) as Hlen. change SIZEOF_ETHARP_HDR with 28 in Hlen.
  pose proof (pk_chain _ _ _ _ Hp1) as (_ & Hl1 & Hpb1 & Hnx). unfold etharp_input.
  rewrite (bind_mem _ _ _ _ _ _ (rd_ok _ _ _ Hl1 Hpb1)) by done. replace (sent (lwld s) [] s) with s by (unfold sent; rewrite app_nil_r; by destruct s).
  do 4 (erewrite bind_pkt_load by (exact Hp1 || lia)).
  change (Z.to_nat 0) with 0%nat. change (Z.to_nat 1) with 1%nat. change (Z.to_nat 2) with 2%nat. change (Z.to_nat 4) with 4%nat. change (Z.to_nat 5) with 5%nat.
  rewrite drop_0. unfold arp_header_ok in Hbad. rewrite <- !negb_andb, Hbad. cbn [negb].
  pose proof (pk_chain _ _ _ _ (ab_packet _ _ _ _ _ Hab)) as (_ & Hl0 & _).
  destruct (arp_mem_free w0 L0 (lwld s) L (arp_table s) p pb (ao_mem _ _ _ _ Hao) Hl0) as (w' & w0' & L' & Hrun & Hm & Hgo);
    try done; [apply (ab_owner _ _ _ _ _ Hab)..|].
  rewrite (bind_mem _ _ _ _ _ _ Hrun) by done. exists w', w0', L'. split_and!; try done. constructor; [apply Hao|done|apply Hao].
Qed.
End Input.
