(* ===== verification/ArpSpec.v ===== *)
(** * What address resolution promises

    The contracts of the ARP table and of the frames it sends, on the allocators of
    the build. *)

From S2P Require Import Prelude CLib Def Mem Memp Alloc Pbuf PbufChain PbufWrite PbufOwn PbufOps PbufSpec PbufRam Ip4Addr Link LinkSpec Etharp EtharpTable EtharpSpec EtharpInput.
Import Def.Def Pbuf Ip4Addr.Ip4Addr Link Etharp.

(** ** Ageing *)

(** How many runs of the timer an entry lives, from when it was made or confirmed. *)
Definition lifetime (e : etharp_entry) : Z := if is_pending e then ARP_MAXPENDING else ARP_MAXAGE.

(** The entry [e'] is [e], [k] runs of the timer later. *)
Record older (k : nat) (e e' : etharp_entry) : Prop := mk_older {
  ol_nonempty : nonempty e' = true;
  ol_ipaddr : ipaddr e' = ipaddr e;
  ol_ethaddr : ethaddr e' = ethaddr e;
  ol_netif : enetif e' = enetif e;
  ol_q : q e' = q e;
  ol_ctime : ctime e' = ctime e + Z.of_nat k;
  ol_pending : is_pending e' = is_pending e;
}.

Lemma tick_older e : nonempty e = true →
  if ctime e + 1 <? lifetime e then older 1 e (tick e) else nonempty (tick e) = false.
Proof.
  intros Hn. unfold tick, lifetime. rewrite Hn. change (is_pending (set_ctime _ e)) with (is_pending e).
  change (ctime (set_ctime _ e)) with (ctime e + 1). change ARP_MAXAGE with 300. change ARP_MAXPENDING with 5.
  destruct (is_pending e) eqn:Hp; cbn [andb].
  - destruct (Z.ltb_spec (ctime e + 1) 5).
    + replace (_ || _) with false by lia. pose proof Hp as Es. apply bool_decide_eq_true in Es. change (state (set_ctime _ e)) with (state e).
      rewrite Es. by constructor.
    + by replace (_ || _) with true by lia.
  - rewrite orb_false_r. destruct (Z.ltb_spec (ctime e + 1) 300).
    + replace (_ <=? _) with false by lia. change (state (set_ctime _ e)) with (state e).
      unfold is_pending, nonempty in *. destruct (state e) eqn:Es; constructor; unfold nonempty, is_pending; cbn; rewrite ?Es; done.
    + by replace (_ <=? _) with true by lia.
Qed.

Lemma iter_tick k e : nonempty e = true → ctime e < lifetime e →
  if ctime e + Z.of_nat k <? lifetime e then older k e (Nat.iter k tick e) else nonempty (Nat.iter k tick e) = false.
Proof.
  intros Hn Hlt. induction k as [|k IH]; cbn [Nat.iter nat_rect].
  { rewrite Z.add_0_r, (proj2 (Z.ltb_lt _ _)) by done. constructor; try done. lia. }
  fold (Nat.iter k tick e). set (e1 := Nat.iter k tick e) in *. destruct (Z.ltb_spec (ctime e + Z.of_nat k) (lifetime e)).
  - destruct IH as [H1 H2 H3 H4 H5 H6 H7]. pose proof (tick_older e1 H1) as Ht.
    assert (lifetime e1 = lifetime e) as El by (unfold lifetime; by rewrite H7).
    rewrite H6, El in Ht. replace (ctime e + Z.of_nat (S k)) with (ctime e + Z.of_nat k + 1) by lia.
    destruct (_ <? _); [|done]. destruct Ht as [T1 T2 T3 T4 T5 T6 T7]. constructor; try congruence. rewrite T6, H6. lia.
  - rewrite (proj2 (Z.ltb_ge _ _)) by lia. unfold tick. by rewrite IH.
Qed.

Lemma iter_tick_empty k e : nonempty e = false → nonempty (Nat.iter k tick e) = false.
Proof. intros Hn. induction k as [|k IH]; [done|]. simpl. unfold tick at 1. by rewrite IH. Qed.

Section Claims.
Context {A U : Type} `{HA : Alloc A} {elt_size : memp_t → Z} `{HL : !AllocLaws A elt_size}.
Context (uninit : world A → loc → Z → bytes) (custom_free_function : loc → M (world A) ()).
Context (stack_bytes : bytes) (stack_length : length stack_bytes = 1514%nat).
Hypothesis uninit_length : ∀ w l n, 0 ≤ n → Z.of_nat (length (uninit w l n)) = n.
Hypothesis pool_size : elt_size MEMP_PBUF_POOL = SIZEOF_STRUCT_PBUF + PBUF_POOL_BUFSIZE_ALIGNED.
Hypothesis ref_size : elt_size MEMP_PBUF = SIZEOF_STRUCT_PBUF.
Implicit Types (w : world A) (s : link A U) (L : gmap loc Z).

Fixpoint tmr_times (k : nat) : M (link A U) () :=
  match k with
  | O => mret ()
  | Datatypes.S k' => _ ← etharp_tmr uninit custom_free_function stack_bytes; tmr_times k'
  end.

Lemma tmr_times_ok w0 L0 k : ∀ s L, arp_ok w0 L0 s L →
  ∃ s' L', tmr_times k s = Ret ((), s') ∧ arp_ok w0 L0 s' L' ∧ arp_table s' = Nat.iter k tick <$> arp_table s.
Proof.
  induction k as [|k IH]; intros s L Hao; simpl.
  { exists s, L. split_and!; [done|done|]. by rewrite list_fmap_id. }
  destruct (etharp_tmr_ok uninit custom_free_function stack_bytes stack_length uninit_length pool_size ref_size w0 L0 s L Hao)
    as (w' & L' & fs & Hrun & Hao' & _). rewrite (bind_Ret _ _ _ _ _ Hrun).
  destruct (IH _ _ Hao') as (s2 & L2 & Hrun2 & Hao2 & Et). exists s2, L2. split_and!; [done|done|]. rewrite Et. simpl.
  rewrite <- list_fmap_compose. apply list_fmap_ext. intros _ e _. simpl. by rewrite <- Nat.iter_swap.
Qed.

(** C15: entries expire, and not before their time.  However often the timer runs,
    once a second, it returns and keeps the table well formed.  An entry that waits
    for an answer is kept for five runs, every other one for three hundred, counted
    from when it was made or confirmed; until then it keeps its addresses, its
    interface and the packet that waits on it, and its age grows by one a run; from
    then on it is gone.  The five runs are five seconds, where the comment on
    [ARP_MAXPENDING] says ten. *)
Theorem arp_entries_expire w0 L0 s L k : arp_ok w0 L0 s L →
  ∃ s' L', tmr_times k s = Ret ((), s') ∧ arp_ok w0 L0 s' L' ∧
    ∀ i e, arp_table s !! i = Some e → ∃ e', arp_table s' !! i = Some e' ∧
      if nonempty e && (ctime e + Z.of_nat k <? if is_pending e then 5 else 300) then older k e e'
      else nonempty e' = false.
Proof.
  intros Hao. destruct (tmr_times_ok w0 L0 k s L Hao) as (s' & L' & Hrun & Hao' & Et). exists s', L'. split_and!; [done|done|].
  intros i e Hi. exists (Nat.iter k tick e). split; [by rewrite Et, list_lookup_fmap, Hi|].
  destruct (nonempty e) eqn:Hn; cbn [andb]; [|by apply iter_tick_empty].
  change 5 with ARP_MAXPENDING. change 300 with ARP_MAXAGE. fold (lifetime e).
  apply iter_tick; [done|]. apply (eo_age _ _ (table_entry _ _ _ _ (ao_table _ _ _ _ Hao) Hi)).
Qed.

(** [etharp_find_entry] returns the entry for the address when there is one.
    Otherwise, when it may create one, it takes an empty entry; without one it
    recycles the oldest stable entry, without those the oldest pending entry on which
    no packet waits, without those the oldest one, whose packet it releases.  Asked to
    try hard it always succeeds. *)
Theorem etharp_find_entry_recycles w0 L0 s L a flags : arp_ok w0 L0 s L →
  ∃ r s', etharp_find_entry custom_free_function (Some a) flags s = Ret (r, s') ∧ find_post w0 L0 s a flags r s' ∧
    (flags = ETHARP_FLAG_TRY_HARD → is_Some r).
Proof.
  intros Hao. destruct (etharp_find_entry_ok custom_free_function w0 L0 s L a flags Hao) as (r & s' & Hrun & Hpost).
  exists r, s'. split_and!; [done|done|]. intros ->. destruct r; [done|]. by destruct Hpost as (_ & _ & [?|[? _]]).
Qed.

(** C12: an IP packet for a host goes to the Ethernet address the table has for the
    next hop, the host itself on the local network and the gateway otherwise; without
    a gateway it is refused.  For an address that is not in the table an entry is
    taken and one request is sent, unless the heap has no room for the request; for
    one that waits for its answer already no request is sent, though the comment of
    [etharp_query] says one is.  In both cases a copy of the packet waits on the
    entry, and the call fails only when the heap has no room for the copy.  A frame
    holds exactly the bytes of the packet behind its header, and an entry in use is
    asked for again before it expires, by its Ethernet address from 270 seconds on
    and by broadcast from 285 (the comment on these thresholds says one minute before). *)
Theorem etharp_output_resolves w0 L0 s L id n a p cs ds : arp_ok w0 L0 s L → netifs s !! id = Some n → netif_ok n →
  unicast n a = true → (∀ h, next_hop n a = Some h → unicast n h = true) → ip_packet w0 p cs ds →
  ∃ r s', etharp_output uninit custom_free_function stack_bytes id p a s = Ret (r, s') ∧
    match next_hop n a with
    | None => r = ERR_RTE ∧ s' = s
    | Some h => output_post uninit custom_free_function stack_bytes w0 L0 s id n h p (concat ds) r s'
    end.
Proof. by apply etharp_output_ok. Qed.

Lemma waiting_fun w X l b1 b2 : waiting w X l b1 → waiting w X l b2 → b1 = b2.
Proof.
  intros (n1 & bs1 & [_ H1 D1 _] & _ & ->) (n2 & bs2 & [_ H2 D2 _] & _ & ->). rewrite H1 in H2. rewrite D1 in D2.
  unfold ram_pbuf in H2. by simplify_eq.
Qed.

(** C13: a packet that waits leaves when the answer comes: after a query that took
    the packet over, learning the address sends one frame, with the bytes the caller's
    packet had, to the Ethernet address of the answer. *)
Theorem arp_answer_delivers w0 L0 s L id n a p cs ds s1 mac flags : arp_ok w0 L0 s L → netifs s !! id = Some n → netif_ok n →
  unicast n a = true → (∀ e, e ∈ arp_table s → ipaddr e = a → is_stable e = false) → packet_to_send w0 p cs ds →
  etharp_query uninit custom_free_function stack_bytes id a (Some p) s = Ret (ERR_OK, s1) → length mac = 6%nat →
  ∃ s2 L2, etharp_update_arp_entry custom_free_function stack_bytes id a mac flags s1 = Ret (ERR_OK, s2) ∧ arp_ok w0 L0 s2 L2 ∧
    wire s2 = wire s1 ++ [eth_frame mac (hwaddr n) ETHTYPE_IP (concat ds)] ∧
    ∃ i, arp_table s2 = <[i := resolved id a mac]> (arp_table s1).
Proof.
  intros Hao Hn Hok Hu Hns Hps Hq Hmac.
  destruct (etharp_query_ok uninit custom_free_function stack_bytes stack_length uninit_length pool_size ref_size w0 L0 s L id n a p cs ds Hao Hn Hok Hu Hns Hps)
    as (r & s1' & Hrun & (i & w1 & w' & L1 & e' & f & -> & Hlt & Hao1 & Hpe & Ea & _ & Hr)).
  rewrite Hrun in Hq. injection Hq as -> <-. destruct Hr as [(_ & l & El & Hw)|[? _]]; [|done].
  set (s1 := moved_to _ _ _ _) in *. assert (arp_table s1 !! i = Some e') as Hi by (by apply list_lookup_insert_eq).
  assert (nonempty e' = true) as Hne by (unfold is_pending, nonempty in *; by destruct (state e')).
  destruct (etharp_update_ok custom_free_function stack_bytes stack_length w0 L0 s1 L1 id n a mac flags Hao1 Hn Hok Hmac) as (e & s2 & Hrun2 & Hpost).
  unfold update_post in Hpost. rewrite Hu in Hpost.
  destruct Hpost as [(_ & _ & Hun & _)|(-> & j & w2 & L2 & f2 & -> & Hao2 & [(e2 & Hj & Hn2 & Ea2 & Hrel)|(Hun & _)])].
  - by destruct (Hun e' ltac:(by eapply list_elem_of_lookup_2) Hne).
  - assert (j = i) as -> by (eapply (to_distinct _ _ (ao_table _ _ _ _ Hao1)); try done; congruence).
    rewrite Hi in Hj. injection Hj as <-. unfold released in Hrel. rewrite El in Hrel. destruct Hrel as (body & Hb & ->).
    pose proof (waiting_fun _ _ _ _ _ Hb Hw) as ->. eexists _, L2. split; [exact Hrun2|]. split_and!; [done|done|]. by exists i.
  - by destruct (Hun e' ltac:(by eapply list_elem_of_lookup_2) Hne).
Qed.

(** C14: [etharp_input] learns the sender of every ARP packet for Ethernet and IPv4:
    an entry that exists is updated, and one is created when the packet is for the
    interface's address.  A request for that address is answered with one frame to
    the sender, which carries the interface's addresses.  The packet is released and
    the rest of memory is as it was. *)
Theorem etharp_input_answers w0 L0 s L id n p pb o opcode sha sip tha tip pad : arp_ok w0 L0 s L →
  netifs s !! id = Some n → netif_ok n → arp_pbuf w0 p pb o (arp_packet opcode sha sip tha tip ++ pad) →
  length sha = 6%nat → length tha = 6%nat → is_u16 opcode → is_u32 sip → is_u32 tip →
  ∃ s', etharp_input custom_free_function stack_bytes p id s = Ret ((), s') ∧
    input_post w0 L0 s id n p opcode sha sip tip pad s'.
Proof. by apply etharp_input_ok. Qed.
End Claims.

(** ** Witnesses *)

#[local] Instance arp_laws : AllocLaws allocators (λ t, Memp.size (example_pools t)) :=
  lwip_laws example_pools example_pools_ok.

Definition arp_nif : netif := mk_netif 0x0f 0x0200a8c0 0x00ffffff 0x0100a8c0 1500 6 [0x02; 0x12; 0x34; 0x56; 0x78; 0xab].
Definition arp_buf : bytes := replicate 1514 0.
Definition arp_mac : eth_addr := [9; 2; 3; 4; 5; 6].
Definition arp_link (w : world allocators) (t : list etharp_entry) : link allocators () := mk_link w {[1 := arp_nif]} t 0 [] ().

Lemma arp_nif_ok : netif_ok arp_nif.
Proof. done. Qed.

Lemma arp_table_ok es : Forall (entry_ok {[1 := arp_nif]}) es → NoDup (ipaddr <$> es) → (length es ≤ ARP_TABLE_SIZE)%nat →
  table_ok {[1 := arp_nif]} (es ++ replicate (ARP_TABLE_SIZE - length es) zero_entry).
Proof.
  intros Hes Hnd Hlen. constructor.
  - rewrite length_app, length_replicate. lia.
  - apply list.Forall_app. split; [done|]. apply Forall_replicate, zero_entry_ok.
  - assert (∀ i e, (es ++ replicate (ARP_TABLE_SIZE - length es) zero_entry) !! i = Some e → nonempty e = true → es !! i = Some e) as Hin.
    { intros i e Hi Hn. apply lookup_app_Some in Hi as [?|[_ Hi]]; [done|]. by apply lookup_replicate in Hi as [-> _]. }
    intros i j e e' Hi Hj Hn Hn' E. pose proof (Hin _ _ Hi Hn) as Hi1. pose proof (Hin _ _ Hj Hn') as Hj1.
    assert ((ipaddr <$> es) !! i = Some (ipaddr e)) as Hi' by (by rewrite list_lookup_fmap, Hi1).
    assert ((ipaddr <$> es) !! j = Some (ipaddr e)) as Hj' by (rewrite list_lookup_fmap, Hj1, E; done).
    exact (NoDup_lookup _ _ _ _ Hnd Hi' Hj').
Qed.

Lemma arp_link_ok w L es : inv w L → Forall (entry_ok {[1 := arp_nif]}) es → NoDup (ipaddr <$> es) → (length es ≤ ARP_TABLE_SIZE)%nat →
  Forall (λ e, q e = None) es →
  arp_ok w L (arp_link w (es ++ replicate (ARP_TABLE_SIZE - length es) zero_entry)) L.
Proof.
  intros Hi Hes Hnd Hlen Hq. constructor; [by apply arp_table_ok| |simpl; unfold ARP_TABLE_SIZE; lia].
  cbn [arp_table lwld arp_link]. set (t := es ++ _).
  assert (∀ i e, t !! i = Some e → q e = None) as Hno.
  { intros i e He. apply (Forall_lookup_1 (λ e, q e = None) t i); [|done]. apply list.Forall_app. split; [done|]. by apply Forall_replicate. }
  assert (queued t = ∅) as Eq.
  { apply set_eq. intros l. rewrite elem_of_queued, elem_of_empty. split; [|done]. intros (i & e & Hie & E).
    by rewrite (Hno i e Hie) in E. }
  constructor.
  - rewrite Eq. by apply grown_refl.
  - intros i e l Hie E. by rewrite (Hno i e Hie) in E.
  - intros i j e e' l Hie _ E. by rewrite (Hno i e Hie) in E.
Qed.

Definition arp_waiting : list etharp_entry :=
  [mk_entry None 0x0300a8c0 (Some 1) ethzero 2 ETHARP_STATE_PENDING; mk_entry None 0x0400a8c0 (Some 1) arp_mac 7 ETHARP_STATE_STABLE].

Lemma arp_waiting_ok w L : inv w L → arp_ok w L (arp_link w (arp_waiting ++ replicate 8 zero_entry)) L.
Proof.
  intros Hi. apply (arp_link_ok w L arp_waiting Hi).
  - repeat constructor; try done; intros; exists 1, arp_nif; done.
  - apply (bool_decide_unpack _). by vm_compute.
  - vm_compute. lia.
  - by repeat constructor.
Qed.

Lemma arp_entries_expire_witness : ∃ s' e0 e1,
  tmr_times zeros no_custom arp_buf 5 (arp_link w0 (arp_waiting ++ replicate 8 zero_entry)) = Ret ((), s') ∧
  arp_table s' !! 0%nat = Some e0 ∧ nonempty e0 = false ∧
  arp_table s' !! 1%nat = Some e1 ∧ nonempty e1 = true ∧ ethaddr e1 = arp_mac ∧ ctime e1 = 12.
Proof.
  destruct (arp_entries_expire zeros no_custom arp_buf eq_refl zeros_length eq_refl eq_refl w0 ∅ _ ∅ 5 (arp_waiting_ok _ _ w0_inv))
    as (s' & L' & Hrun & _ & He). destruct (He 0%nat _ eq_refl) as (e0 & He0 & H0). destruct (He 1%nat _ eq_refl) as (e1 & He1 & H1).
  cbn in H0, H1. destruct H1 as [K1 K2 K3 K4 K5 K6 K7].
  exists s', e0, e1. split_and!; [exact Hrun|exact He0|exact H0|exact He1|exact K1|exact K3|exact K6].
Defined.

(** A table that is full. *)
Definition arp_full : list etharp_entry :=
  (λ k, mk_entry None (Z.of_nat k + 1) (Some 1) arp_mac (100 + Z.of_nat k) ETHARP_STATE_STABLE) <$> seq 0 10.

Lemma arp_full_ok w L : inv w L → arp_ok w L (arp_link w (arp_full ++ [])) L.
Proof.
  intros Hi. apply (arp_link_ok w L arp_full Hi).
  - repeat constructor; try done; intros; exists 1, arp_nif; done.
  - apply (bool_decide_unpack _). by vm_compute.
  - vm_compute. lia.
  - by repeat constructor.
Qed.

Definition arp_res {B} (r : res (B * link allocators ())) : option B := match r with Ret (x, _) => Some x | Err _ => None end.
Definition arp_state {B} (r : res (B * link allocators ())) : link allocators () :=
  match r with Ret (_, s) => s | Err _ => arp_link w0 arp_init end.

Lemma etharp_find_entry_recycles_witness : ∃ s',
  etharp_find_entry no_custom (Some 77) ETHARP_FLAG_TRY_HARD (arp_link w0 (arp_full ++ [])) = Ret (Some 9%nat, s') ∧
  victim arp_full 9.
Proof.
  destruct (etharp_find_entry_recycles no_custom w0 ∅ _ ∅ 77 ETHARP_FLAG_TRY_HARD (arp_full_ok _ _ w0_inv)) as (r & s' & Hrun & Hpost & _).
  assert (Some r = Some (Some 9%nat)) as [= ->].
  { transitivity (arp_res (etharp_find_entry no_custom (Some 77) ETHARP_FLAG_TRY_HARD (arp_link w0 (arp_full ++ [])))).
    - by rewrite Hrun.
    - vm_compute. reflexivity. }
  exists s'. split; [exact Hrun|]. destruct Hpost as [(_ & e & Hi & _ & Ea)|(_ & Hv & _)].
  - vm_compute in Hi. injection Hi as <-. discriminate Ea.
  - rewrite app_nil_r in Hv. exact Hv.
Defined.

(** A packet of 40 bytes whose first byte is at offset 14 or more of its block. *)
Definition arp_loc (layer : pbuf_layer) (n : Z) : loc :=
  match pbuf_alloc zeros no_custom layer n PBUF_RAM w0 with Ret (Some p, _) => p | _ => (HEAP, -1) end.
Definition arp_world (layer : pbuf_layer) (n : Z) : world allocators := run (pbuf_alloc zeros no_custom layer n PBUF_RAM w0).

Lemma arp_world_ok layer n : (arp_loc layer n).2 ≠ -1 → 0 ≤ n ≤ 60000 → ∃ L bs, grown w0 ∅ (arp_world layer n) L {[arp_loc layer n]} ∅ ∧
  is_ram (arp_world layer n) {[arp_loc layer n]} (arp_loc layer n) (header_offset layer) n bs.
Proof.
  unfold arp_loc, arp_world. intros Hp Hn.
  destruct (alloc_ram_ok zeros no_custom zeros_length eq_refl eq_refl w0 ∅ w0 ∅ ∅ ∅ layer n (grown_refl _ _ w0_inv) Hn) as ([p|] & w' & Hrun & Hpost & _);
    rewrite Hrun in *; [|done].
  destruct Hpost as (L & bs & Hg & _ & Hr). exists L, bs. rewrite union_empty_l_L in Hg, Hr. split; [exact Hg|exact Hr].
Qed.

Lemma arp_sendable w L X p off n bs : inv w L → p ∈ live w → is_ram w X p off n bs → 14 ≤ off → 0 < n ≤ 1500 →
  ip_packet w p [(p, ram_pbuf p off n)] [take (Z.to_nat n) (drop (Z.to_nat off) bs)].
Proof.
  intros Hi Hl Hr Ho Hn. pose proof (ram_packet w X p off n bs Hr Hl ltac:(unfold is_u16; lia)) as Hp.
  destruct Hr as [_ Hpb Hd Hrg]. constructor; [constructor|].
  - exact Hp.
  - constructor; [simpl; lia|constructor].
  - by eexists _, _.
  - simpl. lia.
  - eexists _, [], _, [], off, bs. split_and!; try done; [apply list.NoDup_singleton|by left|simpl; lia].
Qed.

Definition arp_p : loc := arp_loc PBUF_IP 40.
Definition arp_start : link allocators () := arp_link (arp_world PBUF_IP 40) (arp_waiting ++ replicate 8 zero_entry).

Lemma arp_start_ok : ∃ L bs, arp_ok (arp_world PBUF_IP 40) L arp_start L ∧
  ip_packet (arp_world PBUF_IP 40) arp_p [(arp_p, ram_pbuf arp_p (header_offset PBUF_IP) 40)] [take 40 (drop (Z.to_nat (header_offset PBUF_IP)) bs)].
Proof.
  destruct (arp_world_ok PBUF_IP 40) as (L & bs & Hg & Hr); [by vm_compute|lia|]. exists L, bs.
  split; [apply arp_waiting_ok; exact (gr_inv _ _ _ _ _ _ Hg)|].
  apply (arp_sendable _ L {[arp_p]}); [exact (gr_inv _ _ _ _ _ _ Hg)|exact (ram_live _ _ _ _ _ _ _ _ _ _ Hg Hr)|exact Hr|by vm_compute|lia].
Qed.

Lemma arp_waiting_entry i e : (arp_waiting ++ replicate 8 zero_entry) !! i = Some e → is_stable e = true →
  i = 1%nat ∧ e = mk_entry None 0x0400a8c0 (Some 1) arp_mac 7 ETHARP_STATE_STABLE.
Proof.
  do 2 (destruct i as [|i]; [intros [= <-]; try done|]). cbn. by intros [-> _]%(lookup_replicate_1 8).
Qed.

Lemma etharp_output_resolves_witness : ∃ s' w0' L' L0' body,
  etharp_output zeros no_custom arp_buf 1 arp_p 0x0400a8c0 arp_start = Ret (ERR_OK, s') ∧ arp_ok w0' L0' s' L' ∧
  wire s' = [eth_frame arp_mac (hwaddr arp_nif) ETHTYPE_IP body] ∧ length body = 40%nat.
Proof.
  destruct arp_start_ok as (L & bs & Hao & Hip).
  destruct (etharp_output_resolves zeros no_custom arp_buf eq_refl zeros_length eq_refl eq_refl _ L arp_start L 1 arp_nif 0x0400a8c0
    arp_p _ _ Hao eq_refl arp_nif_ok eq_refl ltac:(intros h [= <-]; reflexivity) Hip) as (r & s' & Hrun & Hpost).
  change (next_hop arp_nif 0x0400a8c0) with (Some 0x0400a8c0) in Hpost. cbv iota in Hpost.
  destruct Hpost as [(-> & i & hint & e & e' & f & w' & w0' & L' & Hi & Hst & Ea & -> & Hao' & _ & Hf)|(Hno & _)].
  - destruct (arp_waiting_entry i e Hi Hst) as [-> ->].
    destruct Hf as [_ ->].
    eexists _, w0', L', L, _. split; [exact Hrun|]. split; [exact Hao'|]. split; [reflexivity|].
    cbn [concat]. rewrite app_nil_r. destruct Hip as [[Hp _ _ _] _].
    pose proof (packet_cons _ _ _ _ _ _ _ Hp) as (_ & _ & _ & _ & _ & Hlen & _). apply Nat2Z.inj. exact Hlen.
  - discriminate (Hno _ ltac:(right; left) eq_refl).
Defined.

Definition arp_asked : link allocators () := arp_state (etharp_query zeros no_custom arp_buf 1 0x0300a8c0 (Some arp_p) arp_start).

Lemma arp_answer_delivers_witness : ∃ s2 w0 L0 L2 body,
  etharp_update_arp_entry no_custom arp_buf 1 0x0300a8c0 arp_mac 0 arp_asked = Ret (ERR_OK, s2) ∧ arp_ok w0 L0 s2 L2 ∧
  wire s2 = wire arp_asked ++ [eth_frame arp_mac (hwaddr arp_nif) ETHTYPE_IP body].
Proof.
  destruct arp_start_ok as (L & bs & Hao & Hip).
  assert (etharp_query zeros no_custom arp_buf 1 0x0300a8c0 (Some arp_p) arp_start = Ret (ERR_OK, arp_asked)) as Hq.
  { unfold arp_asked. destruct (etharp_query _ _ _ _ _ _ _) as [[e s]|] eqn:E; simpl.
    - assert (Some e = Some ERR_OK) as [= ->]; [|reflexivity].
      transitivity (arp_res (etharp_query zeros no_custom arp_buf 1 0x0300a8c0 (Some arp_p) arp_start)); [by rewrite E|vm_compute; reflexivity].
    - assert (arp_res (etharp_query zeros no_custom arp_buf 1 0x0300a8c0 (Some arp_p) arp_start) = None) as E' by (by rewrite E).
      vm_compute in E'. discriminate E'. }
  assert (∀ e, e ∈ arp_table arp_start → ipaddr e = 0x0300a8c0 → is_stable e = false) as Hns.
  { intros e He Ea. apply (list_elem_of_lookup_1 (arp_table arp_start)) in He as [i Hi].
    destruct (is_stable e) eqn:Hst; [|reflexivity]. destruct (arp_waiting_entry i e Hi Hst) as [_ ->]. discriminate Ea. }
  destruct (arp_answer_delivers zeros no_custom arp_buf eq_refl zeros_length eq_refl eq_refl _ L arp_start L 1 arp_nif 0x0300a8c0
    arp_p _ _ arp_asked arp_mac 0 Hao eq_refl arp_nif_ok eq_refl Hns (ip_send _ _ _ _ Hip) Hq eq_refl) as (s2 & L2 & Hrun & Hao2 & Hw & _).
  exists s2, (arp_world PBUF_IP 40), L, L2. eexists. split; [exact Hrun|]. split; [exact Hao2|exact Hw].
Defined.

(** A request for the address of the interface. *)
Definition arp_req : bytes := arp_packet ARP_REQUEST arp_mac 0x0500a8c0 ethzero 0x0200a8c0.
Definition arp_rx_loc : loc := arp_loc PBUF_LINK 28.
Definition arp_rx : world allocators :=
  set_data <[Own arp_rx_loc := replicate (Z.to_nat (header_offset PBUF_LINK)) 0 ++ arp_req]> (arp_world PBUF_LINK 28).

Lemma arp_rx_ok : ∃ L, arp_ok arp_rx L (arp_link arp_rx (arp_waiting ++ replicate 8 zero_entry)) L ∧
  arp_pbuf arp_rx arp_rx_loc (ram_pbuf arp_rx_loc (header_offset PBUF_LINK) 28) (header_offset PBUF_LINK) (arp_req ++ []).
Proof.
  destruct (arp_world_ok PBUF_LINK 28) as (L & bs & Hg & Hr); [by vm_compute|lia|]. exists L.
  assert (data (arp_world PBUF_LINK 28) !! Own arp_rx_loc = Some (replicate 44 0)) as Hd by (vm_compute; reflexivity).
  pose proof (ram_live _ _ _ _ _ _ _ _ _ _ Hg Hr) as Hlv. destruct Hr as [Hin Hpb _ Hrg].
  pose proof (grown_data _ _ _ _ _ _ _ _ (replicate (Z.to_nat (header_offset PBUF_LINK)) 0 ++ arp_req) Hg Hin Hd eq_refl) as Hg2. fold arp_rx in Hg2.
  assert (is_ram arp_rx {[arp_rx_loc]} arp_rx_loc (header_offset PBUF_LINK) 28 (replicate (Z.to_nat (header_offset PBUF_LINK)) 0 ++ arp_req)) as Hr2.
  { constructor; [exact Hin|exact Hpb|unfold arp_rx; apply lookup_insert_eq|vm_compute; repeat split; discriminate]. }
  split; [apply arp_waiting_ok; exact (gr_inv _ _ _ _ _ _ Hg2)|]. constructor.
  - change (arp_req ++ []) with (take (Z.to_nat 28) (drop (Z.to_nat (header_offset PBUF_LINK)) (replicate (Z.to_nat (header_offset PBUF_LINK)) 0 ++ arp_req))).
    apply (ram_packet _ _ _ _ _ _ Hr2 Hlv). split; reflexivity || discriminate.
  - reflexivity.
  - by left.
  - eexists. split; [exact (ir_data _ _ _ _ _ _ Hr2)|apply (ir_range _ _ _ _ _ _ Hr2)].
  - by vm_compute.
  - vm_compute. repeat split; discriminate.
  - split; [vm_compute; discriminate|reflexivity].
Qed.

Lemma etharp_input_answers_witness : ∃ s' L0 L1 w1,
  etharp_input no_custom arp_buf arp_rx_loc 1 (arp_link arp_rx (arp_waiting ++ replicate 8 zero_entry)) = Ret ((), s') ∧
  arp_ok w1 L0 s' L1 ∧ list.last (wire s') = Some (arp_reply_frame arp_nif arp_mac 0x0500a8c0 []).
Proof.
  destruct arp_rx_ok as (L & Hao & Hab).
  destruct (etharp_input_answers no_custom arp_buf eq_refl arp_rx L _ L 1 arp_nif arp_rx_loc _ _ ARP_REQUEST arp_mac 0x0500a8c0 ethzero 0x0200a8c0 []
    Hao eq_refl arp_nif_ok Hab eq_refl eq_refl ltac:(by vm_compute) ltac:(by vm_compute) ltac:(by vm_compute)) as (s' & Hrun & Hpost).
  destruct Hpost as (e & s1 & w' & w0' & L' & _ & Es & Hao' & _).
  exists s', (delete arp_rx_loc L), L', w0'. split; [exact Hrun|]. split; [exact Hao'|]. rewrite Es. apply list.last_snoc.
Defined.
