(* ===== verification/Ip4.v ===== *)
(** * IPv4: sending, errors and fragments out

    [core/ipv4/ip4.c] (routing and output), the fragmentation half of
    [core/ipv4/ip4_frag.c] and the messages [core/ipv4/icmp.c] sends about other
    packets.  The state of the layer is the part [upper] of the link's state; headers
    are bytes of the packets, read and written at the offsets of [struct ip_hdr].

    A fragment that goes out refers to the packet it is cut from: the struct
    [pbuf_custom_ref] in front of the reference holds a pointer in its bytes.  How a
    pointer is stored is a parameter, with the law that it reads back. *)

From S2P Require Import Prelude CLib Def Mem Memp Alloc Pbuf Chksum Ip4Addr Link Etharp.
Import Def.Def Pbuf Ip4Addr.Ip4Addr Link Etharp.

Module Ip4.

Definition IP_HLEN : Z := 20.
Definition IP_MF : Z := 0x2000.
Definition IP_OFFMASK : Z := 0x1fff.
Definition IP_PROTO_ICMP : Z := 1.
Definition IP_PROTO_TCP : Z := 6.
Definition ICMP_ER : Z := 0.
Definition ICMP_DUR : Z := 3.
Definition ICMP_ECHO : Z := 8.
Definition ICMP_TE : Z := 11.
Definition ICMP_DUR_PROTO : Z := 2.
Definition ICMP_TE_FRAG : Z := 1.
Definition ICMP_TTL : Z := 255.
Definition SIZEOF_ICMP_ECHO_HDR : Z := 8.
Definition ICMP_DEST_UNREACH_DATASIZE : Z := 8.
Definition NETIF_FLAG_UP : Z := 0x01.
Definition NETIF_FLAG_LINK_UP : Z := 0x04.

Definition netif_is_up (n : netif) : bool := negb (Z.land (flags n) NETIF_FLAG_UP =? 0).
Definition netif_is_link_up (n : netif) : bool := negb (Z.land (flags n) NETIF_FLAG_LINK_UP =? 0).
Definition ip4_addr_isloopback (a : Z) : bool := Z.land a 0xff =? 127.

(** ** State *)

(** [struct ip_reassdata] in the element [rnode] of its pool. *)
Record ip_reassdata := mk_reass {
  rnode : Z;
  rp : option loc;
  iphdr : bytes;         (* 20 bytes *)
  datagram_len : Z;      (* u16_t *)
  rflags : Z;            (* u8_t *)
  timer : Z;             (* u8_t *)
}.

(** [struct ip_globals] *)
Record ip_globals := mk_globals {
  current_netif : option Z;
  current_input_netif : option Z;
  current_ip4_header : option ptr;
  current_ip_header_tot_len : Z;
  current_iphdr_src : Z;
  current_iphdr_dest : Z;
}.

Record ip_state (V : Type) := mk_ip {
  ip_id : Z;             (* u16_t *)
  ip_data : ip_globals;
  reassdatagrams : list ip_reassdata;
  ip_reass_pbufcount : Z;   (* u16_t *)
  netif_list : list Z;
  netif_default : option Z;
  above : V;
}.
Arguments mk_ip {V} _ _ _ _ _ _ _.
Arguments ip_id {V} _.
Arguments ip_data {V} _.
Arguments reassdatagrams {V} _.
Arguments ip_reass_pbufcount {V} _.
Arguments netif_list {V} _.
Arguments netif_default {V} _.
Arguments above {V} _.

Section Ops.
Context {A V : Type} `{Alloc A}.
Context (uninit : world A → loc → Z → bytes).
Context (custom_free_function : loc → M (world A) ()).
Context (stack_bytes : bytes).
Context (addr : ptr → Z).                 (* the address of a payload *)
Context (ptr_bytes : option loc → bytes). (* a pointer as it is stored *)

Abbreviation S := (link A (ip_state V)).

Definition set_upper {U U'} (x : U') (s : link A U) : link A U' :=
  mk_link (lwld s) (netifs s) (arp_table s) (etharp_cached_entry s) (wire s) x.
Definition upd_ip (f : ip_state V → ip_state V) : M S () := modify (λ s, set_upper (f (upper s)) s).
Definition rd_ip : M S (ip_state V) := s ← get; mret (upper s).

Definition set_ip_id x (i : ip_state V) : ip_state V :=
  mk_ip x (ip_data i) (reassdatagrams i) (ip_reass_pbufcount i) (netif_list i) (netif_default i) (above i).
Definition set_ip_data x (i : ip_state V) : ip_state V :=
  mk_ip (ip_id i) x (reassdatagrams i) (ip_reass_pbufcount i) (netif_list i) (netif_default i) (above i).
Definition set_reassdatagrams x (i : ip_state V) : ip_state V :=
  mk_ip (ip_id i) (ip_data i) x (ip_reass_pbufcount i) (netif_list i) (netif_default i) (above i).
Definition set_pbufcount x (i : ip_state V) : ip_state V :=
  mk_ip (ip_id i) (ip_data i) (reassdatagrams i) x (netif_list i) (netif_default i) (above i).

(** A field of [n] bytes of a header, as the number the machine reads. *)
Definition field (h : option ptr) (off n : Z) : M S Z := bs ← on_mem (load h off n); mret (le_word bs).
Definition set_field (h : option ptr) (off : Z) (n : nat) (x : Z) : M S () := on_mem (store h off (le_bytes n x)).

Definition IPH_V (h : option ptr) : M S Z := x ← field h 0 1; mret (Z.shiftr x 4).
Definition IPH_HL (h : option ptr) : M S Z := x ← field h 0 1; mret (Z.land x 0x0f).

(** [inet_chksum(dataptr, len)] *)
Definition inet_chksum_at (h : option ptr) (n : Z) : M S Z :=
  bs ← on_mem (load h 0 n);
  mret (Chksum.Chksum.inet_chksum (match h with Some q => Z.odd (addr q) | None => false end) bs).

(** ** Routing *)

Fixpoint route_loop (dest : Z) (ids : list Z) : M S (option Z) :=
  match ids with
  | [] => mret None
  | id :: ids' =>
      n ← rd_netif id;
      if netif_is_up n && netif_is_link_up n && negb (ip_addr n =? IPADDR_ANY) then
        if ip4_addr_netcmp dest (ip_addr n) (netmask n) then mret (Some id)
        else if (Z.land (flags n) NETIF_FLAG_BROADCAST =? 0) && (dest =? gw n) then mret (Some id)
        else route_loop dest ids'
      else route_loop dest ids'
  end.

(** [ip4_route(dest)] *)
Definition ip4_route (dest : Z) : M S (option Z) :=
  i ← rd_ip;
  r ← route_loop dest (netif_list i);
  match r with
  | Some id => mret (Some id)
  | None =>
      match netif_default i with
      | None => mret None
      | Some id =>
          n ← rd_netif id;
          if negb (netif_is_up n) || negb (netif_is_link_up n) || (ip_addr n =? IPADDR_ANY)
          then mret None else mret (Some id)
      end
  end.

(** ** Fragmentation *)

(** [ip_frag_alloc_pbuf_custom_ref]: the struct has 16 bytes behind its pbuf, the free
    function and, at offset 8, [original]. *)
Definition ip_frag_alloc_pbuf_custom_ref : M (world A) (option loc) := memp_malloc uninit MEMP_FRAG_PBUF 16.
Definition ip_frag_free_pbuf_custom_ref (p : loc) : M (world A) () := memp_free MEMP_FRAG_PBUF p.

(** The loop that mirrors the pbufs of the packet behind [rambuf]: the pbuf and the
    offset reached and the length of the last reference; [None] without memory. *)
Fixpoint frag_mirror (k : nat) (rambuf p : loc) (poff left_to_copy newpbuflen : Z) :
    M (world A) (option (loc * Z * Z)) :=
  if left_to_copy =? 0 then mret (Some (p, poff, newpbuflen)) else
  match k with
  | O => fail Diverges
  | Datatypes.S k' =>
      pb ← rd p;
      let plen := u16 (len pb - poff) in
      let newpbuflen := Z.min left_to_copy plen in
      if newpbuflen =? 0 then p' ← deref (next pb); frag_mirror k' rambuf p' 0 left_to_copy newpbuflen
      else
        pcr ← ip_frag_alloc_pbuf_custom_ref;
        match pcr with
        | None => _ ← pbuf_free custom_free_function (Some rambuf); mret None
        | Some pcr =>
            mem ← move poff (payload pb);
            newpbuf ← pbuf_alloced_custom PBUF_RAW newpbuflen PBUF_REF pcr mem newpbuflen;
            match newpbuf with
            | None =>
                _ ← ip_frag_free_pbuf_custom_ref pcr;
                _ ← pbuf_free custom_free_function (Some rambuf);
                mret None
            | Some q =>
                _ ← pbuf_ref (Some p);
                _ ← store (Some (Own pcr, 0)) 8 (ptr_bytes (Some p));
                _ ← pbuf_cat (Some rambuf) (Some q);
                let left_to_copy := u16 (left_to_copy - newpbuflen) in
                if left_to_copy =? 0 then mret (Some (p, poff, newpbuflen))
                else p' ← deref (next pb); frag_mirror k' rambuf p' 0 left_to_copy newpbuflen
            end
        end
  end.

(** The loop of [ip4_frag]. *)
Fixpoint frag_loop (k : nat) (id dest nfb : Z) (original_iphdr : option ptr) (p : loc) (left ofo poff : Z) : M S err_t :=
  if left =? 0 then mret ERR_OK else
  match k with
  | O => fail Diverges
  | Datatypes.S k' =>
      n ← rd_netif id;
      let fragsize := Z.min left (nfb * 8) in
      rambuf ← on_mem (pbuf_alloc uninit custom_free_function PBUF_LINK IP_HLEN PBUF_RAM);
      match rambuf with
      | None => mret ERR_MEM
      | Some rambuf =>
          pb ← on_mem (rd p);
          _ ← assert_ (len pb >=? IP_HLEN);
          rb ← on_mem (rd rambuf);
          hdr ← on_mem (load original_iphdr 0 IP_HLEN);
          _ ← on_mem (store (payload rb) 0 hdr);
          s ← get;
          r ← on_mem (frag_mirror (fuel (lwld s) + Z.to_nat fragsize) rambuf p poff fragsize 0);
          match r with
          | None => mret ERR_MEM
          | Some (p', poff', newpbuflen) =>
              let last := left <=? mtu n - IP_HLEN in
              let tmp := Z.land IP_OFFMASK ofo in
              let tmp := if last then tmp else Z.lor tmp IP_MF in
              _ ← set_field (payload rb) 6 2 (lwip_htons tmp);
              _ ← set_field (payload rb) 2 2 (lwip_htons (u16 (fragsize + IP_HLEN)));
              _ ← set_field (payload rb) 10 2 0;
              c ← inet_chksum_at (payload rb) IP_HLEN;
              _ ← set_field (payload rb) 10 2 c;
              _ ← etharp_output uninit custom_free_function stack_bytes id rambuf dest;
              _ ← on_mem (pbuf_free custom_free_function (Some rambuf));
              frag_loop k' id dest nfb original_iphdr p' (u16 (left - fragsize)) (u16 (ofo + nfb)) (u16 (poff' + newpbuflen))
          end
      end
  end.

(** [ip4_frag(p, netif, dest)] *)
Definition ip4_frag (p : loc) (id dest : Z) : M S err_t :=
  n ← rd_netif id;
  let nfb := u16 (Z.quot (mtu n - IP_HLEN) 8) in
  pb ← on_mem (rd p);
  hl ← IPH_HL (payload pb);
  _ ← assert_ (hl * 4 =? IP_HLEN);
  off ← field (payload pb) 6 2;
  let tmp := lwip_htons off in
  _ ← assert_ (Z.land tmp IP_MF =? 0);
  let left := u16 (tot_len pb - IP_HLEN) in
  frag_loop (Datatypes.S (Z.to_nat left)) id dest nfb (payload pb) p left (Z.land tmp IP_OFFMASK) IP_HLEN.

(** ** Output *)

(** The checksum [ip4_output_if_src] sums up as it writes the header. *)
Definition inline_chksum (ttl tos proto dest src len_be id_be v_hl : Z) : Z :=
  let chk_sum := u32 (PP_HTONS (Z.lor proto (Z.shiftl ttl 8))) in
  let chk_sum := u32 (chk_sum + Z.land dest 0xffff) in
  let chk_sum := u32 (chk_sum + Z.shiftr dest 16) in
  let chk_sum := u32 (chk_sum + PP_HTONS (Z.lor tos (Z.shiftl v_hl 8))) in
  let chk_sum := u32 (chk_sum + len_be) in
  let chk_sum := u32 (chk_sum + id_be) in
  let chk_sum := u32 (chk_sum + Z.land src 0xffff) in
  let chk_sum := u32 (chk_sum + Z.shiftr src 16) in
  let chk_sum := u32 (Z.shiftr chk_sum 16 + Z.land chk_sum 0xffff) in
  let chk_sum := u32 (Z.shiftr chk_sum 16 + chk_sum) in
  u16 (Z.lnot chk_sum).

(** The header is written in front of the packet; [true] when there is no room. *)
Definition ip4_write_header (p : loc) (src : option Z) (dest ttl tos proto : Z) : M S bool :=
  failed ← on_mem (pbuf_header (Some p) IP_HLEN);
  if (failed : bool) then mret true
  else
    pb ← on_mem (rd p);
    let h := payload pb in
    _ ← assert_ (len pb >=? IP_HLEN);
    _ ← set_field h 8 1 (u8 ttl);
    _ ← set_field h 9 1 (u8 proto);
    _ ← set_field h 16 4 dest;
    let v_hl := u8 (Z.lor (Z.shiftl 4 4) (Z.quot IP_HLEN 4)) in
    _ ← set_field h 0 1 v_hl;
    _ ← set_field h 1 1 tos;
    _ ← set_field h 2 2 (lwip_htons (tot_len pb));
    _ ← set_field h 6 2 0;
    i ← rd_ip;
    _ ← set_field h 4 2 (lwip_htons (ip_id i));
    _ ← upd_ip (set_ip_id (u16 (ip_id i + 1)));
    let src := match src with Some a => a | None => IPADDR_ANY end in
    _ ← set_field h 12 4 src;
    _ ← set_field h 10 2 (inline_chksum ttl tos proto dest src (lwip_htons (tot_len pb)) (lwip_htons (ip_id i)) v_hl);
    mret false.

(** [ip4_output_if_src(p, src, dest, ttl, tos, proto, netif)]; [dest] is [None] for
    [LWIP_IP_HDRINCL]. *)
Definition ip4_output_if_src (p : loc) (src dest : option Z) (ttl tos proto id : Z) : M S err_t :=
  pb ← on_mem (rd p);
  _ ← assert_ (ref pb =? 1);
  r ← match dest with
      | Some d => failed ← ip4_write_header p src d ttl tos proto; mret (if (failed : bool) then None else Some d)
      | None => d ← field (payload pb) 16 4; mret (Some d)
      end;
  match r with
  | None => mret (ERR_OTHER (-2))
  | Some d =>
      pb ← on_mem (rd p);
      n ← rd_netif id;
      if negb (mtu n =? 0) && (tot_len pb >? mtu n) then ip4_frag p id d
      else etharp_output uninit custom_free_function stack_bytes id p d
  end.

(** [ip4_output_if(p, src, dest, ttl, tos, proto, netif)] *)
Definition ip4_output_if (p : loc) (src dest : option Z) (ttl tos proto id : Z) : M S err_t :=
  n ← rd_netif id;
  let isany := match src with Some a => a =? IPADDR_ANY | None => true end in
  ip4_output_if_src p (match dest with
                       | Some _ => if isany then Some (ip_addr n) else src
                       | None => src
                       end) dest ttl tos proto id.

(** [ip4_output(p, src, dest, ttl, tos, proto)] *)
Definition ip4_output (p : loc) (src : option Z) (dest ttl tos proto : Z) : M S err_t :=
  pb ← on_mem (rd p);
  _ ← assert_ (ref pb =? 1);
  r ← ip4_route dest;
  match r with
  | None => mret ERR_RTE
  | Some id => ip4_output_if p src (Some dest) ttl tos proto id
  end.

(** ** ICMP errors *)

(** [icmp_send_response(p, type, code)] *)
Definition icmp_send_response (p : loc) (ty code : Z) : M S () :=
  q ← on_mem (pbuf_alloc uninit custom_free_function PBUF_IP
                (SIZEOF_ICMP_ECHO_HDR + IP_HLEN + ICMP_DEST_UNREACH_DATASIZE) PBUF_RAM);
  match q with
  | None => mret ()
  | Some q =>
      qb ← on_mem (rd q);
      _ ← assert_ (len qb >=? SIZEOF_ICMP_ECHO_HDR + IP_HLEN + ICMP_DEST_UNREACH_DATASIZE);
      pb ← on_mem (rd p);
      let icmphdr := payload qb in
      _ ← set_field icmphdr 0 1 ty;
      _ ← set_field icmphdr 1 1 code;
      _ ← set_field icmphdr 4 2 0;
      _ ← set_field icmphdr 6 2 0;
      bs ← on_mem (load (payload pb) 0 (IP_HLEN + ICMP_DEST_UNREACH_DATASIZE));
      _ ← on_mem (store icmphdr SIZEOF_ICMP_ECHO_HDR bs);
      iphdr_src ← field (payload pb) 12 4;
      r ← ip4_route iphdr_src;
      _ ← match r with
          | None => mret ()
          | Some id =>
              _ ← set_field icmphdr 2 2 0;
              c ← inet_chksum_at icmphdr (len qb);
              _ ← set_field icmphdr 2 2 c;
              _ ← ip4_output_if q None (Some iphdr_src) ICMP_TTL 0 IP_PROTO_ICMP id;
              mret ()
          end;
      _ ← on_mem (pbuf_free custom_free_function (Some q));
      mret ()
  end.

Definition icmp_dest_unreach (p : loc) (t : Z) : M S () := icmp_send_response p ICMP_DUR t.
Definition icmp_time_exceeded (p : loc) (t : Z) : M S () := icmp_send_response p ICMP_TE t.
End Ops.

(** [ipfrag_free_pbuf_custom(p)]; the packet a fragment refers to may be a fragment of
    another packet, down to depth [k]. *)
Section Free.
Context {A : Type} `{Alloc A}.
Context (ptr_of : bytes → option loc).   (* a stored pointer read back *)

Fixpoint ipfrag_free_pbuf_custom (k : nat) (p : loc) : M (world A) () :=
  match k with
  | O => fail Diverges
  | S k' =>
      original ← load (Some (Own p, 0)) 8 8;
      _ ← match ptr_of original with
          | Some q => _ ← pbuf_free (ipfrag_free_pbuf_custom k') (Some q); mret ()
          | None => mret ()
          end;
      ip_frag_free_pbuf_custom_ref p
  end.
End Free.
End Ip4.
