(* ===== verification/Ip4Reass.v ===== *)
(** * IPv4: fragments in

    The reassembly half of [core/ipv4/ip4_frag.c].  The fragments of a datagram form a
    list whose links are in the packets: [struct ip_reass_helper] takes the place of
    the IP header, a pointer to the next fragment followed by the offsets of the first
    byte and behind the last one.  [reassdatagrams] is a list of records; a pointer
    into it is an index. *)

From S2P Require Import Prelude CLib Def Mem Memp Alloc Pbuf Chksum Ip4Addr Link Etharp Ip4.
Import Def.Def Pbuf Ip4Addr.Ip4Addr Link Etharp Ip4.

Module Reass.

Definition IP_REASS_MAXAGE : Z := 3.
Definition IP_REASS_MAX_PBUFS : Z := 10.
Definition IP_REASS_FLAG_LASTFRAG : Z := 0x01.
Definition SIZEOF_IP_REASS_HELPER : Z := 12.

Definition set_rp x (r : ip_reassdata) := mk_reass (rnode r) x (iphdr r) (datagram_len r) (rflags r) (timer r).
Definition set_iphdr x (r : ip_reassdata) := mk_reass (rnode r) (rp r) x (datagram_len r) (rflags r) (timer r).
Definition set_last n (r : ip_reassdata) :=
  mk_reass (rnode r) (rp r) (iphdr r) n (Z.lor (rflags r) IP_REASS_FLAG_LASTFRAG) (timer r).
Definition set_datagram_len n (r : ip_reassdata) := mk_reass (rnode r) (rp r) (iphdr r) n (rflags r) (timer r).
Definition set_timer t (r : ip_reassdata) := mk_reass (rnode r) (rp r) (iphdr r) (datagram_len r) (rflags r) t.

(** [IP_ADDRESSES_AND_ID_MATCH(a, b)] on the bytes of two headers. *)
Definition hdr_src (h : bytes) : bytes := take 4 (drop 12 h).
Definition hdr_dest (h : bytes) : bytes := take 4 (drop 16 h).
Definition hdr_id (h : bytes) : bytes := take 2 (drop 4 h).
Definition IP_ADDRESSES_AND_ID_MATCH (a b : bytes) : bool :=
  bool_decide (hdr_src a = hdr_src b) && bool_decide (hdr_dest a = hdr_dest b) && bool_decide (hdr_id a = hdr_id b).

(** The offset field of a header, in units of 8 bytes. *)
Definition hdr_offset (h : bytes) : Z := Z.land (lwip_htons (le_word (take 2 (drop 6 h)))) IP_OFFMASK.

(** The sweep of [ip_reass_remove_oldest_datagram]: the oldest other datagram, the one
    in front of it and how many others there are. *)
Fixpoint oldest_loop (fraghdr : bytes) (l : list ip_reassdata) (i : nat) (prev : option nat)
    (oldest : option (nat * Z)) (oldest_prev : option nat) (other : Z) : option (nat * Z) * option nat * Z :=
  match l with
  | [] => (oldest, oldest_prev, other)
  | r :: l' =>
      let '(oldest, oldest_prev, other) :=
        if negb (IP_ADDRESSES_AND_ID_MATCH (iphdr r) fraghdr) then
          match oldest with
          | None => (Some (i, timer r), prev, other + 1)
          | Some (_, t) => if timer r <=? t then (Some (i, timer r), prev, other + 1) else (oldest, oldest_prev, other + 1)
          end
        else (oldest, oldest_prev, other) in
      oldest_loop fraghdr l' (i + 1) (match l' with [] => prev | _ => Some i end) oldest oldest_prev other
  end.

Section Ops.
Context {A V : Type} `{Alloc A}.
Context (uninit : world A → loc → Z → bytes).
Context (custom_free_function : loc → M (world A) ()).
Context (stack_bytes : bytes).
Context (addr : ptr → Z).
Context (ptr_bytes : option loc → bytes) (ptr_of : bytes → option loc).

Abbreviation S := (link A (ip_state V)).
Abbreviation icmp_time_exceeded := (icmp_time_exceeded uninit custom_free_function stack_bytes addr ptr_bytes).

Definition rd_reass (i : nat) : M S ip_reassdata :=
  ip ← rd_ip; of_option DanglingPtr (reassdatagrams ip !! i).
Definition upd_reass (i : nat) (f : ip_reassdata → ip_reassdata) : M S () :=
  upd_ip (λ ip, set_reassdatagrams (alter f i (reassdatagrams ip)) ip).

(** The fields of a helper. *)
Definition helper_next (h : option ptr) : M S (option loc) := bs ← on_mem (load h 0 8); mret (ptr_of bs).
Definition helper_start (h : option ptr) : M S Z := field h 8 2.
Definition helper_end (h : option ptr) : M S Z := field h 10 2.
Definition set_helper_next (h : option ptr) (q : option loc) : M S () := on_mem (store h 0 (ptr_bytes q)).

(** [p->payload] *)
Definition payload_of (p : loc) : M S (option ptr) := pb ← on_mem (rd p); mret (payload pb).

(** [ip_reass_dequeue_datagram(ipr, prev)] *)
Definition ip_reass_dequeue_datagram (i : nat) (prev : option nat) : M S () :=
  r ← rd_reass i;
  _ ← match i with
      | O => upd_ip (λ ip, set_reassdatagrams (drop 1 (reassdatagrams ip)) ip)
      | _ =>
          _ ← assert_ (bool_decide (is_Some prev));
          j ← of_option NullDeref prev;
          upd_ip (λ ip, set_reassdatagrams (take (j + 1) (reassdatagrams ip) ++ drop (i + 1) (reassdatagrams ip)) ip)
      end;
  on_mem (on_alloc (pool_free MEMP_REASSDATA (rnode r))).

(** The fragments of a datagram are freed one by one. *)
Fixpoint free_frags (k : nat) (p : option loc) (pbufs_freed : Z) : M S Z :=
  match p with
  | None => mret pbufs_freed
  | Some pcur =>
      match k with
      | O => fail Diverges
      | Datatypes.S k' =>
          h ← payload_of pcur;
          next ← helper_next h;
          clen ← on_mem (pbuf_clen (Some pcur));
          _ ← assert_ (pbufs_freed + clen <=? 0xffff);
          _ ← on_mem (pbuf_free custom_free_function (Some pcur));
          free_frags k' next (u16 (pbufs_freed + clen))
      end
  end.

(** [ip_reass_free_complete_datagram(ipr, prev)] *)
Definition ip_reass_free_complete_datagram (i : nat) (prev : option nat) : M S Z :=
  _ ← assert_ (bool_decide (prev ≠ Some i));
  _ ← assert_ (match prev with Some j => bool_decide (j + 1 = i)%nat | None => true end);
  r ← rd_reass i;
  p ← of_option NullDeref (rp r);
  h ← payload_of p;
  start ← helper_start h;
  pbufs_freed ← (if start =? 0 then
      next ← helper_next h;
      _ ← upd_reass i (set_rp next);
      _ ← on_mem (store h 0 (iphdr r));
      _ ← icmp_time_exceeded p ICMP_TE_FRAG;
      clen ← on_mem (pbuf_clen (Some p));
      _ ← assert_ (0 + clen <=? 0xffff);
      _ ← on_mem (pbuf_free custom_free_function (Some p));
      mret clen
    else mret 0);
  r ← rd_reass i;
  s ← get;
  pbufs_freed ← free_frags (fuel (lwld s)) (rp r) pbufs_freed;
  _ ← ip_reass_dequeue_datagram i prev;
  ip ← rd_ip;
  _ ← assert_ (ip_reass_pbufcount ip >=? pbufs_freed);
  _ ← upd_ip (set_pbufcount (u16 (ip_reass_pbufcount ip - pbufs_freed)));
  mret pbufs_freed.

(** [ip_reass_remove_oldest_datagram(fraghdr, pbufs_needed)] *)
Fixpoint remove_oldest_loop (k : nat) (fraghdr : bytes) (pbufs_needed pbufs_freed : Z) : M S Z :=
  match k with
  | O => fail Diverges
  | Datatypes.S k' =>
      ip ← rd_ip;
      let '(oldest, oldest_prev, other_datagrams) := oldest_loop fraghdr (reassdatagrams ip) 0 None None None 0 in
      pbufs_freed ← match oldest with
        | Some (i, _) => n ← ip_reass_free_complete_datagram i oldest_prev; mret (pbufs_freed + n)
        | None => mret pbufs_freed
        end;
      if (pbufs_freed <? pbufs_needed) && (other_datagrams >? 1)
      then remove_oldest_loop k' fraghdr pbufs_needed pbufs_freed
      else mret pbufs_freed
  end.
Definition ip_reass_remove_oldest_datagram (fraghdr : bytes) (pbufs_needed : Z) : M S Z :=
  ip ← rd_ip;
  remove_oldest_loop (Datatypes.S (length (reassdatagrams ip))) fraghdr pbufs_needed 0.

(** [ip_reass_enqueue_new_datagram(fraghdr, clen)]: the new datagram is the first. *)
Definition ip_reass_enqueue_new_datagram (fraghdr : bytes) (clen : Z) : M S (option nat) :=
  ipr ← on_mem (on_alloc (pool_malloc MEMP_REASSDATA));
  ipr ← match ipr with
        | Some x => mret (Some x)
        | None =>
            n ← ip_reass_remove_oldest_datagram fraghdr clen;
            if n >=? clen then on_mem (on_alloc (pool_malloc MEMP_REASSDATA)) else mret None
        end;
  match ipr with
  | None => mret None
  | Some x =>
      _ ← upd_ip (λ ip, set_reassdatagrams (mk_reass x None fraghdr 0 0 IP_REASS_MAXAGE :: reassdatagrams ip) ip);
      mret (Some O)
  end.

(** The search for the place of the fragment with the helper [h]: the fragments around
    it and whether those in front have no holes; [None] when the fragment is not kept. *)
Fixpoint place_loop (k : nat) (i : nat) (new_p : loc) (h : option ptr) (start end_ : Z)
    (q prev : option loc) (valid : bool) : M S (option (option loc * option loc * bool)) :=
  match q with
  | None => mret (Some (None, prev, valid))
  | Some l =>
      match k with
      | O => fail Diverges
      | Datatypes.S k' =>
          t ← payload_of l;
          tstart ← helper_start t;
          tend ← helper_end t;
          if start <? tstart then
            _ ← set_helper_next h q;
            match prev with
            | Some pl =>
                ph ← payload_of pl;
                pend ← helper_end ph;
                if (start <? pend) || (end_ >? tstart) then mret None
                else _ ← set_helper_next ph (Some new_p); mret (Some (q, prev, valid))
            | None => _ ← upd_reass i (set_rp (Some new_p)); mret (Some (q, prev, valid))
            end
          else if start =? tstart then mret None
          else if start <? tend then mret None
          else
            valid ← match prev with
              | Some pl => ph ← payload_of pl; pend ← helper_end ph; mret (if pend =? tstart then valid else false)
              | None => mret valid
              end;
            next ← helper_next t;
            place_loop k' i new_p h start end_ next q valid
      end
  end.

(** The check that no fragment is missing behind the new one: the last helper. *)
Fixpoint holes_loop (k : nat) (prev : option ptr) (q : option loc) : M S (option (option ptr)) :=
  match q with
  | None => mret (Some prev)
  | Some l =>
      match k with
      | O => fail Diverges
      | Datatypes.S k' =>
          h ← payload_of l;
          pend ← helper_end prev;
          start ← helper_start h;
          if negb (pend =? start) then mret None
          else next ← helper_next h; holes_loop k' h next
      end
  end.

(** The datagram is complete when it starts at 0 and has no holes. *)
Definition validate (i : nat) (h : option ptr) (valid : bool) : M S bool :=
  r ← rd_reass i;
  if Z.land (rflags r) IP_REASS_FLAG_LASTFRAG =? 0 then mret false
  else if negb valid then mret false
  else
    match rp r with
    | None => mret false
    | Some p =>
        first ← payload_of p;
        start ← helper_start first;
        if negb (start =? 0) then mret false
        else
          next ← helper_next h;
          s ← get;
          last ← holes_loop (fuel (lwld s)) h next;
          match last with
          | None => mret false
          | Some last =>
              _ ← assert_ (bool_decide (first ≠ last));
              next ← helper_next last;
              _ ← assert_ (bool_decide (next = None));
              end_ ← helper_end last;
              _ ← assert_ (end_ =? datagram_len r);
              mret true
          end
    end.

(** [ip_reass_chain_frag_into_datagram_and_validate(ipr, new_p)] *)
Definition ip_reass_chain_frag_into_datagram_and_validate (i : nat) (new_p : loc) : M S bool :=
  h ← payload_of new_p;
  l ← field h 2 2;
  hl ← IPH_HL h;
  off ← field h 6 2;
  let len := u16 (lwip_htons l - hl * 4) in
  let offset := u16 (Z.land (lwip_htons off) IP_OFFMASK * 8) in
  _ ← assert_ (SIZEOF_IP_REASS_HELPER <=? IP_HLEN);
  _ ← set_helper_next h None;
  _ ← set_field h 8 2 offset;
  _ ← set_field h 10 2 (u16 (offset + len));
  r ← rd_reass i;
  s ← get;
  place ← place_loop (fuel (lwld s)) i new_p h offset (u16 (offset + len)) (rp r) None true;
  match place with
  | None =>
      clen ← on_mem (pbuf_clen (Some new_p));
      _ ← upd_ip (λ ip, set_pbufcount (u16 (ip_reass_pbufcount ip - clen)) ip);
      _ ← on_mem (pbuf_free custom_free_function (Some new_p));
      mret false
  | Some (Some _, _, valid) => validate i h valid
  | Some (None, Some pl, valid) =>
      ph ← payload_of pl;
      pend ← helper_end ph;
      _ ← assert_ (pend <=? offset);
      _ ← set_helper_next ph (Some new_p);
      validate i h (if pend =? offset then valid else false)
  | Some (None, None, valid) =>
      r ← rd_reass i;
      _ ← assert_ (bool_decide (rp r = None));
      _ ← upd_reass i (set_rp (Some new_p));
      validate i h valid
  end.

(** The fragments behind the first lose their headers and are chained to it. *)
Fixpoint chain_loop (k : nat) (p : loc) (r : option loc) : M S () :=
  match r with
  | None => mret ()
  | Some l =>
      match k with
      | O => fail Diverges
      | Datatypes.S k' =>
          iprh ← payload_of l;
          _ ← on_mem (pbuf_header (Some l) (- IP_HLEN));
          _ ← on_mem (pbuf_cat (Some p) (Some l));
          next ← helper_next iprh;
          chain_loop k' p next
      end
  end.

(** The complete datagram [i] leaves the list as one packet. *)
Definition reass_complete (i : nat) : M S loc :=
  r ← rd_reass i;
  let dlen := u16 (datagram_len r + IP_HLEN) in
  _ ← upd_reass i (set_datagram_len dlen);
  p ← of_option NullDeref (rp r);
  fraghdr ← payload_of p;
  next ← helper_next fraghdr;
  _ ← on_mem (store fraghdr 0 (iphdr r));
  _ ← set_field fraghdr 2 2 (lwip_htons dlen);
  _ ← set_field fraghdr 6 2 0;
  _ ← set_field fraghdr 10 2 0;
  c ← inet_chksum_at addr fraghdr IP_HLEN;
  _ ← set_field fraghdr 10 2 c;
  s ← get;
  _ ← chain_loop (fuel (lwld s)) p next;
  _ ← ip_reass_dequeue_datagram i (match i with O => None | Datatypes.S j => Some j end);
  clen ← on_mem (pbuf_clen (Some p));
  _ ← upd_ip (λ ip, set_pbufcount (u16 (ip_reass_pbufcount ip - clen)) ip);
  mret p.

(** [ip4_reass(p)] *)
Definition ip4_reass (p : loc) : M S (option loc) :=
  let nullreturn := (_ ← on_mem (pbuf_free custom_free_function (Some p)); mret None) in
  h ← payload_of p;
  hl ← IPH_HL h;
  if negb (hl * 4 =? IP_HLEN) then nullreturn
  else
    fraghdr ← on_mem (load h 0 IP_HLEN);
    off ← field h 6 2;
    l ← field h 2 2;
    let offset := u16 (Z.land (lwip_htons off) IP_OFFMASK * 8) in
    let len := u16 (lwip_htons l - hl * 4) in
    clen ← on_mem (pbuf_clen (Some p));
    ip ← rd_ip;
    full ← (if ip_reass_pbufcount ip + clen >? IP_REASS_MAX_PBUFS then
              n ← ip_reass_remove_oldest_datagram fraghdr clen;
              ip ← rd_ip;
              mret ((n =? 0) || (ip_reass_pbufcount ip + clen >? IP_REASS_MAX_PBUFS))
            else mret false);
    if (full : bool) then nullreturn
    else
      ip ← rd_ip;
      ipr ← match list_find (λ r, IP_ADDRESSES_AND_ID_MATCH (iphdr r) fraghdr = true) (reassdatagrams ip) with
            | Some (i, r) =>
                _ ← (if (hdr_offset fraghdr =? 0) && negb (hdr_offset (iphdr r) =? 0)
                     then upd_reass i (set_iphdr fraghdr) else mret ());
                mret (Some i)
            | None => ip_reass_enqueue_new_datagram fraghdr clen
            end;
      match ipr with
      | None => nullreturn
      | Some i =>
          _ ← upd_ip (λ ip, set_pbufcount (u16 (ip_reass_pbufcount ip + clen)) ip);
          _ ← (if Z.land off (PP_HTONS IP_MF) =? 0 then upd_reass i (set_last (u16 (offset + len))) else mret ());
          complete ← ip_reass_chain_frag_into_datagram_and_validate i p;
          if (complete : bool) then p ← reass_complete i; mret (Some p) else mret None
      end.

(** [ip_reass_tmr()] *)
Fixpoint reass_tmr_loop (k : nat) (prev : option nat) (i : nat) : M S () :=
  ip ← rd_ip;
  match reassdatagrams ip !! i with
  | None => mret ()
  | Some r =>
      match k with
      | O => fail Diverges
      | Datatypes.S k' =>
          if timer r >? 0 then _ ← upd_reass i (set_timer (u8 (timer r - 1))); reass_tmr_loop k' (Some i) (i + 1)
          else _ ← ip_reass_free_complete_datagram i prev; reass_tmr_loop k' prev i
      end
  end.
Definition ip_reass_tmr : M S () :=
  ip ← rd_ip; reass_tmr_loop (length (reassdatagrams ip)) None 0.
End Ops.
End Reass.
