(* ===== verification/Ip4Input.v ===== *)
(** * IPv4: packets in

    [ip4_input] of [core/ipv4/ip4.c] and [icmp_input] of [core/ipv4/icmp.c]; TCP is a
    parameter.  [stack_input] is the path of a frame from the tap device to the
    protocols. *)

From S2P Require Import Prelude CLib Def Mem Memp Alloc Pbuf Chksum Ip4Addr Link Etharp Ip4 Ip4Reass.
Import Def.Def Pbuf Ip4Addr.Ip4Addr Link Etharp Ip4 Reass.

Module Ip4Input.
Section Ops.
Context {A V : Type} `{Alloc A}.
Context (uninit : world A → loc → Z → bytes).
Context (custom_free_function : loc → M (world A) ()).
Context (stack_bytes : bytes).
Context (addr : ptr → Z).
Context (ptr_bytes : option loc → bytes) (ptr_of : bytes → option loc).

Abbreviation S := (link A (ip_state V)).

Definition free_packet (p : loc) : M S () := _ ← on_mem (pbuf_free custom_free_function (Some p)); mret ().

(** The part of [icmp_input] that makes a copy [r] of the packet with room for the link
    header when the packet has none: the packet to answer with, [None] on failure. *)
Definition echo_room (p : loc) (iphdr_in : option ptr) (hlen : Z) : M S (option loc) :=
  let room := hlen + PBUF_LINK_HLEN + PBUF_LINK_ENCAPSULATION_HLEN in
  failed ← on_mem (pbuf_header (Some p) (s16 room));
  if (failed : bool) then
    pb ← on_mem (rd p);
    r ← on_mem (pbuf_alloc uninit custom_free_function PBUF_LINK (u16 (tot_len pb + hlen)) PBUF_RAM);
    match r with
    | None => mret None
    | Some r =>
        rb ← on_mem (rd r);
        if len rb <? hlen + SIZEOF_ICMP_ECHO_HDR then _ ← free_packet r; mret None
        else
          hdr ← on_mem (load iphdr_in 0 hlen);
          _ ← on_mem (store (payload rb) 0 hdr);
          failed ← on_mem (pbuf_header (Some r) (s16 (- hlen)));
          if (failed : bool) then _ ← assert_ false; _ ← free_packet r; mret None
          else
            e ← on_mem (pbuf_copy (Some r) (Some p));
            if decide (e = ERR_OK) then _ ← free_packet p; mret (Some r)
            else _ ← free_packet r; mret None
    end
  else
    failed ← on_mem (pbuf_header (Some p) (- s16 room));
    if (failed : bool) then _ ← assert_ false; mret None else mret (Some p).

(** The answer is written into the packet [p] and sent. *)
Definition echo_reply (p : loc) (src dst hlen inp : Z) : M S () :=
  pb ← on_mem (rd p);
  let iecho := payload pb in
  failed ← on_mem (pbuf_header (Some p) (s16 hlen));
  if (failed : bool) then mret ()
  else
    pb ← on_mem (rd p);
    let h := payload pb in
    _ ← set_field h 12 4 src;
    _ ← set_field h 16 4 dst;
    _ ← set_field iecho 0 1 ICMP_ER;
    c ← field iecho 2 2;
    _ ← (if c >? PP_HTONS (0xffff - Z.shiftl ICMP_ECHO 8)
         then set_field iecho 2 2 (u16 (c + (PP_HTONS (Z.shiftl ICMP_ECHO 8) + 1)))
         else set_field iecho 2 2 (u16 (c + PP_HTONS (Z.shiftl ICMP_ECHO 8))));
    _ ← set_field h 8 1 (u8 ICMP_TTL);
    _ ← set_field h 10 2 0;
    c ← inet_chksum_at addr h hlen;
    _ ← set_field h 10 2 c;
    _ ← ip4_output_if uninit custom_free_function stack_bytes addr ptr_bytes p (Some src) None ICMP_TTL 0 IP_PROTO_ICMP inp;
    mret ().

(** [icmp_input(p, inp)] *)
Definition icmp_input (p : loc) (inp : Z) : M S () :=
  ip ← rd_ip;
  let iphdr_in := current_ip4_header (ip_data ip) in
  hl ← IPH_HL iphdr_in;
  let hlen := hl * 4 in
  pb ← on_mem (rd p);
  if hlen <? IP_HLEN then free_packet p
  else if len pb <? 4 then free_packet p
  else
    type ← field (payload pb) 0 1;
    if type =? ICMP_ECHO then
      let src := current_iphdr_dest (ip_data ip) in
      if ip4_addr_ismulticast src then free_packet p
      else
        id ← of_option NullDeref (current_netif (ip_data ip));
        n ← rd_netif id;
        if negb (ip4_addr_isbroadcast_u32 src n =? 0) then free_packet p
        else if tot_len pb <? SIZEOF_ICMP_ECHO_HDR then free_packet p
        else
          c ← on_mem (Chksum.Chksum.inet_chksum_pbuf addr (Some p));
          if negb (c =? 0) then free_packet p
          else
            r ← echo_room p iphdr_in hlen;
            match r with
            | None => free_packet p
            | Some p => _ ← echo_reply p src (current_iphdr_src (ip_data ip)) hlen inp; free_packet p
            end
    else free_packet p.

Context (tcp_input : loc → Z → M S ()).

(** Is the packet for the interface? *)
Definition accepts (dest : Z) (n : netif) : bool :=
  netif_is_up n && negb (ip_addr n =? IPADDR_ANY) &&
  ((dest =? ip_addr n) || negb (ip4_addr_isbroadcast_u32 dest n =? 0)).

(** The walk along the other interfaces. *)
Fixpoint accept_loop (dest inp : Z) (ids : list Z) : M S (option Z) :=
  match ids with
  | [] => mret None
  | id :: ids' =>
      if id =? inp then accept_loop dest inp ids'
      else n ← rd_netif id; if accepts dest n then mret (Some id) else accept_loop dest inp ids'
  end.

(** The interface that accepts the packet. *)
Definition ip4_input_accept (dest inp : Z) : M S (option Z) :=
  n ← rd_netif inp;
  if ip4_addr_ismulticast dest then
    mret (if netif_is_up n && negb (ip_addr n =? IPADDR_ANY) then Some inp else None)
  else if accepts dest n then mret (Some inp)
  else if ip4_addr_isloopback dest then mret None
  else ip ← rd_ip; accept_loop dest inp (netif_list ip).

(** The packet goes to its protocol. *)
Definition ip4_deliver (p : loc) (iphdr_hlen inp id : Z) : M S () :=
  h ← payload_of p;
  hl ← IPH_HL h;
  _ ← upd_ip (λ ip, set_ip_data (mk_globals (Some id) (Some inp) h (hl * 4)
        (current_iphdr_src (ip_data ip)) (current_iphdr_dest (ip_data ip))) ip);
  _ ← on_mem (pbuf_header (Some p) (- s16 iphdr_hlen));
  proto ← field h 9 1;
  _ ← (if proto =? IP_PROTO_TCP then tcp_input p inp
       else if proto =? IP_PROTO_ICMP then icmp_input p inp
       else
         ip ← rd_ip;
         n ← rd_netif id;
         let dest := current_iphdr_dest (ip_data ip) in
         _ ← (if (ip4_addr_isbroadcast_u32 dest n =? 0) && negb (ip4_addr_ismulticast dest) then
                _ ← on_mem (pbuf_header_force (Some p) iphdr_hlen);
                _ ← on_mem (upd p (set_payload h));
                icmp_dest_unreach uninit custom_free_function stack_bytes addr ptr_bytes p ICMP_DUR_PROTO
              else mret ());
         free_packet p);
  upd_ip (set_ip_data (mk_globals None None None 0 IPADDR_ANY IPADDR_ANY)).

(** [ip4_input(p, inp)]: the checks on the header, ... *)
Definition ip4_input (p : loc) (inp : Z) : M S err_t :=
  let drop_packet := (_ ← free_packet p; mret ERR_OK) in
  h ← payload_of p;
  v ← IPH_V h;
  if negb (v =? 4) then drop_packet
  else
    hl ← IPH_HL h;
    let iphdr_hlen := hl * 4 in
    l ← field h 2 2;
    let iphdr_len := lwip_htons l in
    pb ← on_mem (rd p);
    _ ← (if iphdr_len <? tot_len pb then on_mem (pbuf_realloc custom_free_function (Some p) iphdr_len) else mret ());
    pb ← on_mem (rd p);
    if (iphdr_hlen >? len pb) || (iphdr_len >? tot_len pb) || (iphdr_hlen <? IP_HLEN) then drop_packet
    else
      c ← inet_chksum_at addr h iphdr_hlen;
      if negb (c =? 0) then drop_packet
      else
        (* ... the addresses, ... *)
        dest ← field h 16 4;
        src ← field h 12 4;
        _ ← upd_ip (λ ip, set_ip_data (mk_globals (current_netif (ip_data ip)) (current_input_netif (ip_data ip))
              (current_ip4_header (ip_data ip)) (current_ip_header_tot_len (ip_data ip)) src dest) ip);
        netif ← ip4_input_accept dest inp;
        n ← rd_netif inp;
        if negb (ip4_addr_isbroadcast_u32 src n =? 0) || ip4_addr_ismulticast src then drop_packet
        else
          match netif with
          | None => drop_packet
          | Some id =>
              (* ... and fragments. *)
              off ← field h 6 2;
              r ← (if negb (Z.land off (PP_HTONS (Z.lor IP_OFFMASK IP_MF)) =? 0)
                   then ip4_reass uninit custom_free_function stack_bytes addr ptr_bytes ptr_of p
                   else mret (Some p));
              match r with
              | None => mret ERR_OK
              | Some p => _ ← ip4_deliver p iphdr_hlen inp id; mret ERR_OK
              end
          end.

(** A frame from the tap device. *)
Definition stack_input (inp : Z) (frame : option bytes) : M S () :=
  tapif_input uninit custom_free_function stack_bytes (λ p id, _ ← ip4_input p id; mret ()) inp frame.
End Ops.
End Ip4Input.
