(* ===== verification/Ip4Spec.v ===== *)
(** * IPv4 output

    Headers are written in place: the lemmas turn stores into a block of a pbuf into
    the bytes the block has afterwards.  [ip4_output_if_src] puts a header with a
    correct checksum in front of the packet and hands it to ARP. *)

From S2P Require Import Prelude CLib Def Mem Memp Alloc Pbuf PbufChain PbufWrite PbufOwn PbufOps PbufSpec PbufRam Chksum Ip4Addr Link LinkSpec Etharp EtharpTable EtharpSpec Ip4.
Import Def.Def Pbuf Ip4Addr.Ip4Addr Link Etharp Ip4.

(** ** The header *)

Definition ip_header (tos tlen id off ttl proto chk src dest : Z) : bytes :=
  le_bytes 1 0x45 ++ le_bytes 1 tos ++ le_bytes 2 (lwip_htons tlen) ++ le_bytes 2 (lwip_htons id) ++ le_bytes 2 (lwip_htons off) ++
  le_bytes 1 ttl ++ le_bytes 1 proto ++ le_bytes 2 chk ++ le_bytes 4 src ++ le_bytes 4 dest.

Lemma ip_header_length tos tlen id off ttl proto chk src dest : length (ip_header tos tlen id off ttl proto chk src dest) = 20%nat.
Proof. reflexivity. Qed.

Lemma ip_splices (pre h tl a b c d e f g i j k : bytes) m : length pre = m → length h = 20%nat →
  length a = 1%nat → length b = 1%nat → length c = 4%nat → length d = 1%nat → length e = 1%nat → length f = 2%nat →
  length g = 2%nat → length i = 2%nat → length j = 4%nat → length k = 2%nat →
  splice (m + 10) k (splice (m + 12) j (splice (m + 4) i (splice (m + 6) g (splice (m + 2) f (splice (m + 1) e
    (splice (m + 0) d (splice (m + 16) c (splice (m + 9) b (splice (m + 8) a (pre ++ h ++ tl)))))))))) =
  pre ++ (d ++ e ++ f ++ i ++ g ++ a ++ b ++ k ++ j ++ c) ++ tl.
Proof.
  intros <- Hh H1 H2 H3 H4 H5 H6 H7 H8 H9 H10.
  do 21 (destruct h as [|? h]; try done). do 2 (destruct a as [|? a]; try done). do 2 (destruct b as [|? b]; try done).
  do 5 (destruct c as [|? c]; try done). do 2 (destruct d as [|? d]; try done). do 2 (destruct e as [|? e]; try done).
  do 3 (destruct f as [|? f]; try done). do 3 (destruct g as [|? g]; try done). do 3 (destruct i as [|? i]; try done).
  do 5 (destruct j as [|? j]; try done). do 3 (destruct k as [|? k]; try done).
  by rewrite !splice_app_l.
Qed.

(** ** The checksum *)

Lemma pp_htons_eq n : is_u16 n → PP_HTONS n = 256 * (n mod 256) + n / 256.
Proof.
  intros Hn. unfold PP_HTONS. rewrite land_ff. change 0xff00 with (Z.shiftl (Z.ones 8) 8).
  rewrite land_field by lia. rewrite lor_shiftl_add by clia. clia.
Qed.

Lemma lor_byte_eq lo hi : is_u8 lo → is_u8 hi → Z.lor lo (Z.shiftl hi 8) = lo + 256 * hi.
Proof. intros Hlo Hhi. rewrite Z.lor_comm, lor_shiftl_add by clia. lia. Qed.

(** The sum of the words of the header without the checksum. *)
Definition hdr_sum (tos len_be id_be ttl proto src dest : Z) : Z :=
  0x45 + 256 * tos + len_be + id_be + (ttl + 256 * proto) + src mod 65536 + src / 65536 + dest mod 65536 + dest / 65536.

Lemma inline_chksum_eq ttl tos proto dest src len_be id_be : is_u8 ttl → is_u8 tos → is_u8 proto → is_u32 dest → is_u32 src →
  is_u16 len_be → is_u16 id_be →
  let c := inline_chksum ttl tos proto dest src len_be id_be 0x45 in
  is_u16 c ∧ (hdr_sum tos len_be id_be ttl proto src dest + c) mod 65535 = 0.
Proof.
  intros Htl Hto Hpr Hd Hs Hl Hi. cbv zeta. unfold inline_chksum. cbv zeta.
  rewrite !lor_byte_eq by done. rewrite !pp_htons_eq, !land_ffff, !Z.shiftr_div_pow2 by (lia || clia).
  set (S := hdr_sum tos len_be id_be ttl proto src dest). change (2 ^ 16) with 65536.
  assert (0 ≤ S < 1048576) as HS by (unfold S, hdr_sum; clia).
  match goal with |- context [u32 (?x / 65536 + ?x mod 65536)] => replace x with S by (unfold S, hdr_sum; clia) end.
  clearbody S. split; [apply u16_range|]. set (f := S / 65536 + S mod 65536). assert (0 ≤ f < 65600) as Hf by (unfold f; clia).
  assert (f mod 65535 = S mod 65535) as Ef by (unfold f; clia). rewrite !(u32_id f) by clia. clearbody f.
  unfold Z.lnot. set (g := f / 65536 + f). assert (0 ≤ g < 65700) by (unfold g; clia). rewrite (u32_id g) by clia.
  assert (u16 (Z.pred (- g)) = 65535 - g mod 65536) as -> by clia.
  assert ((g mod 65536) mod 65535 = f mod 65535) as Eg by (unfold g; clia). clearbody g. clear - Ef Eg. Z.div_mod_to_equations. lia.
Qed.

(** The header verifies. *)
Lemma ip_header_verifies odd tos tlen id ttl proto src dest c : is_u8 ttl → is_u8 tos → is_u8 proto → is_u32 dest → is_u32 src →
  c = inline_chksum ttl tos proto dest src (lwip_htons tlen) (lwip_htons id) 0x45 →
  Chksum.inet_chksum odd (ip_header tos tlen id 0 ttl proto c src dest) = 0.
Proof.
  intros Htl Hto Hpr Hd Hs Hc.
  pose proof (inline_chksum_eq ttl tos proto dest src (lwip_htons tlen) (lwip_htons id) Htl Hto Hpr Hd Hs (htons_range _) (htons_range _)) as [Hu Hm].
  rewrite <- Hc in Hu, Hm. unfold Chksum.inet_chksum.
  rewrite chksum_2_ok; [|repeat apply Forall_app_2; apply le_bytes_wf|rewrite ip_header_length; lia].
  assert (rfc1071 (ip_header tos tlen id 0 ttl proto c src dest) = 65535) as ->; [|done].
  pose proof (htons_range tlen) as Hl. pose proof (htons_range id) as Hi.
  set (lb := lwip_htons tlen) in *. set (ib := lwip_htons id) in *.
  assert (word_sum (ip_header tos tlen id 0 ttl proto c src dest) = hdr_sum tos lb ib ttl proto src dest + c) as E.
  { unfold ip_header. fold lb ib. clearbody lb ib. change (lwip_htons 0) with 0. cbn [le_bytes app word_sum]. unfold hdr_sum. clia. }
  unfold rfc1071. rewrite E. assert (0 < hdr_sum tos lb ib ttl proto src dest) as Hp by (unfold hdr_sum; clia).
  symmetry. apply same_sum_unique; [done|unfold is_u16 in Hu; lia|]. unfold same_sum. rewrite Hm. split; [done|unfold is_u16 in Hu; lia].
Qed.

(** ** Writing into a block *)

Section Mem.
Context {A U : Type} `{HA : Alloc A}.
Implicit Types (w : world A) (s : link A U) (l p : loc).

(** The state with the bytes [bs] in the block of [l]. *)
Definition with_data l (bs : bytes) s : link A U :=
  mk_link (set_data <[Own l := bs]> (lwld s)) (netifs s) (arp_table s) (etharp_cached_entry s) (wire s) (upper s).
Definition with_mem w s : link A U := mk_link w (netifs s) (arp_table s) (etharp_cached_entry s) (wire s) (upper s).

Lemma with_mem_sent w s : sent w [] s = with_mem w s.
Proof. unfold sent. by rewrite app_nil_r. Qed.
Lemma with_mem_id s : with_mem (lwld s) s = s.
Proof. by destruct s. Qed.
Lemma with_data_twice l b1 b2 s : with_data l b1 (with_data l b2 s) = with_data l b1 s.
Proof. unfold with_data. cbn [lwld netifs arp_table etharp_cached_entry wire upper]. by rewrite set_data_twice. Qed.
Lemma with_data_same l bs s : data (lwld s) !! Own l = Some bs → with_data l bs s = s.
Proof.
  intros E. destruct s as [[]]. unfold with_data, set_data. simpl in *. by rewrite insert_id.
Qed.
Lemma data_with l bs s : data (lwld (with_data l bs s)) !! Own l = Some bs.
Proof. apply lookup_insert_eq. Qed.

(** A store into a block, and a load from it. *)
Lemma bind_store_at {C} s l o bs k src (K : () → M (link A U) C) : l ∈ live (lwld s) → data (lwld s) !! Own l = Some bs →
  0 ≤ o + k → o + k + Z.of_nat (length src) ≤ Z.of_nat (length bs) →
  (on_mem (store (Some (Own l, o)) k src) ≫= K) s = K () (with_data l (splice (Z.to_nat (o + k)) src bs) s).
Proof.
  intros Hl Hbs H0 Hs. apply bind_Ret. unfold on_mem. rewrite (store_own (lwld s) l o k bs src) by done. done.
Qed.

Lemma bind_load_at {C} s l o bs k n (K : bytes → M (link A U) C) : l ∈ live (lwld s) → data (lwld s) !! Own l = Some bs →
  0 ≤ o + k → 0 ≤ n → o + k + n ≤ Z.of_nat (length bs) →
  (on_mem (load (Some (Own l, o)) k n) ≫= K) s = K (take (Z.to_nat n) (drop (Z.to_nat (o + k)) bs)) s.
Proof.
  intros Hl Hbs H0 Hn Hs. apply bind_Ret. unfold on_mem. rewrite (load_own (lwld s) l o k n bs) by done. by destruct s.
Qed.

Lemma bind_rd_at {C} s l pb (K : pbuf → M (link A U) C) : l ∈ live (lwld s) → pbs (lwld s) !! l = Some pb →
  (on_mem (rd l) ≫= K) s = K pb s.
Proof.
  intros Hl Hpb. apply bind_Ret. unfold on_mem. rewrite (rd_ok _ _ _ Hl Hpb). by destruct s.
Qed.

(** The packet after its first block was written. *)
Lemma frame_with w p bs bs' : data w !! Own p = Some bs → length bs' = length bs → frame [Own p] w (set_data <[Own p := bs']> w).
Proof.
  intros Hbs Hlen. constructor; try done; intros r; simpl.
  - intros Hr. rewrite lookup_insert_ne; [done|]. intros <-. apply Hr. by left.
  - rewrite lookup_insert. case_decide as E; [subst r|done]. rewrite Hbs. simpl. by rewrite Hlen.
Qed.

Lemma changes_with w p bs bs' : data w !! Own p = Some bs → length bs' = length bs → changes [p] w (set_data <[Own p := bs']> w).
Proof.
  intros Hbs Hlen. constructor; try done; intros r; simpl.
  - intros Hr. rewrite lookup_insert_ne; [done|]. intros <-. by apply (Hr p); [left|].
  - rewrite lookup_insert. case_decide as E; [subst r|done]. rewrite Hbs. simpl. by rewrite Hlen.
Qed.

Lemma packet_with w p pb cs d ds o bs bs' : packet w (Some p) ((p, pb) :: cs) (d :: ds) → payload pb = Some (Own p, o) →
  Own p ∉ regions cs → data w !! Own p = Some bs → length bs' = length bs → 0 ≤ o → o + len pb ≤ Z.of_nat (length bs) →
  packet (set_data <[Own p := bs']> w) (Some p) ((p, pb) :: cs) (take (Z.to_nat (len pb)) (drop (Z.to_nat o) bs') :: ds).
Proof.
  intros Hp Hpay Hnd Hbs Hlen H0 Hle. pose proof (packet_cons _ _ _ _ _ _ _ Hp) as (_ & Hl & Hpb & Hrest & _ & _ & _ & H1 & _).
  pose proof (frame_with w p bs bs' Hbs Hlen) as Hf. destruct Hp as [Hc Ht Hd]. constructor; [by eapply chain_frame|done|].
  apply list.Forall2_cons. split.
  - cbn [snd]. rewrite Hpay. rewrite (load_own _ p o 0 (len pb) bs'), Z.add_0_r; [done|done|apply lookup_insert_eq|lia|lia|lia].
  - eapply content_frame; [exact Hf| |exact (pk_content _ _ _ _ Hrest)]. by intros r Hr ->%list_elem_of_singleton.
Qed.
End Mem.

(** A header field is read and written as a number. *)
Section Fields.
Context {A V : Type} `{HA : Alloc A}.
Implicit Types (s : link A (ip_state V)) (l p : loc).

Lemma bind_set_field {C} s l o bs k n x (K : () → M (link A (ip_state V)) C) : l ∈ live (lwld s) → data (lwld s) !! Own l = Some bs →
  0 ≤ o + k → o + k + Z.of_nat n ≤ Z.of_nat (length bs) →
  (set_field (Some (Own l, o)) k n x ≫= K) s = K () (with_data l (splice (Z.to_nat (o + k)) (le_bytes n x) bs) s).
Proof. intros Hl Hbs H0 Hn. unfold set_field. apply bind_store_at; [done..|by rewrite length_le_bytes]. Qed.

Lemma bind_field {C} s l o bs k n (K : Z → M (link A (ip_state V)) C) : l ∈ live (lwld s) → data (lwld s) !! Own l = Some bs →
  0 ≤ o + k → 0 ≤ n → o + k + n ≤ Z.of_nat (length bs) →
  (field (Some (Own l, o)) k n ≫= K) s = K (le_word (take (Z.to_nat n) (drop (Z.to_nat (o + k)) bs))) s.
Proof.
  intros Hl Hbs H0 Hn Hle. apply bind_Ret. unfold field. rewrite (bind_load_at s l o bs k n) by done. done.
Qed.
End Fields.

(** ** Memory of the caller *)

Section Rebase.
Context {A : Type} `{HA : Alloc A} {elt_size : memp_t → Z} `{HL : !AllocLaws A elt_size}.
Implicit Types (w : world A) (p l : loc) (L : gmap loc Z).

Lemma packet_rebase w0 w q cs ds : packet w q cs ds → (∀ l, l ∈ cs.*1 → l ∈ live w0) → (∀ r, r ∈ regions cs → valid r w0 = true) →
  packet (rebase w w0) q cs ds.
Proof.
  intros [Hc Ht Hd] Hl Hr. constructor; [|done|].
  - eapply chain_same; [|exact Hc]. intros l Hin. split; [done|]. by apply Hl.
  - clear Hc Ht. unfold content in *. induction Hd as [|[l pb] d cs ds Hld Hd IH]; constructor.
    + eapply load_same; [|exact Hld]. intros Hn r o E. split; [|done]. cbn [snd] in *.
      change (valid r (rebase w w0)) with (valid r w0). apply Hr. cbn [regions]. apply elem_of_app. left. unfold region_list. cbn [snd].
      rewrite E. rewrite (proj2 (Z.eqb_neq _ _)) by done. by left.
    + apply IH; intros x Hx; [apply Hl; by right|apply Hr]. cbn [regions]. apply elem_of_app. by right.
Qed.
(** The bytes of the first pbuf. *)
Lemma packet_bytes w p pb cs d ds o bs : packet w (Some p) ((p, pb) :: cs) (d :: ds) → payload pb = Some (Own p, o) →
  data w !! Own p = Some bs → 0 ≤ o → o + len pb ≤ Z.of_nat (length bs) → d = take (Z.to_nat (len pb)) (drop (Z.to_nat o) bs).
Proof.
  intros Hp Hpay Hbs Ho Hle. pose proof (packet_cons _ _ _ _ _ _ _ Hp) as (_ & Hl & _ & _ & Hld & _ & _ & H0 & _).
  rewrite Hpay, (load_own w p o 0 (len pb) bs), Z.add_0_r in Hld by (done || lia). by injection Hld.
Qed.
End Rebase.

(** The length of a block does not change when it is written. *)
Ltac slen := rewrite ?length_le_bytes; repeat (rewrite splice_length by slen); rewrite ?length_le_bytes; lia.

(** ** Output *)

(** A block seen as what is in front of a header, the header and the rest. *)
Lemma split_block m n (bs : bytes) : (m + n ≤ length bs)%nat →
  ∃ pre h tl, bs = pre ++ h ++ tl ∧ length pre = m ∧ length h = n ∧ tl = drop (m + n) bs.
Proof.
  intros Hle. exists (take m bs), (take n (drop m bs)), (drop (m + n) bs). split_and!; [|rewrite length_take; lia|rewrite length_take, length_drop; lia|done].
  by rewrite <- drop_drop, !take_drop.
Qed.

Section Output.
Context {A V : Type} `{HA : Alloc A} {elt_size : memp_t → Z} `{HL : !AllocLaws A elt_size}.
Context (uninit : world A → loc → Z → bytes) (custom_free_function : loc → M (world A) ()).
Context (stack_bytes : bytes) (addr : ptr → Z) (ptr_bytes : option loc → bytes).
Abbreviation S := (link A (ip_state V)).
Implicit Types (w : world A) (s : S) (L : gmap loc Z).

Definition with_ip (w : world A) (i : ip_state V) s : S := mk_link w (netifs s) (arp_table s) (etharp_cached_entry s) (wire s) i.

(** The first pbuf of a packet, with [room] bytes in front of its payload. *)
Record head_room w (p : loc) (pb : pbuf) (cs : list (loc * pbuf)) (o : Z) (bs : bytes) (room : Z) : Prop := mk_head_room {
  hr_payload : payload pb = Some (Own p, o);
  hr_type : type pb = PBUF_RAM ∨ type pb = PBUF_POOL;
  hr_regions : NoDup (Own p :: regions cs);
  hr_block : data w !! Own p = Some bs;
  hr_fits : o + len pb ≤ Z.of_nat (length bs);
  hr_room : room ≤ o;
  hr_ref : ref pb = 1;
}.

Definition sent_header tos tlen id ttl proto src dest : bytes :=
  ip_header tos tlen id 0 ttl proto (inline_chksum ttl tos proto dest src (lwip_htons tlen) (lwip_htons id) 0x45) src dest.

Lemma bind_rd_ip {C} s (K : ip_state V → M S C) : (rd_ip ≫= K) s = K (upper s) s.
Proof. done. Qed.
Lemma bind_upd_ip {C} s f (K : () → M S C) : (upd_ip f ≫= K) s = K () (with_ip (lwld s) (f (upper s)) s).
Proof. done. Qed.

Lemma with_ip_data p b s i : with_ip (lwld (with_data p b s)) i (with_data p b s) = with_data p b (with_ip (lwld s) i s).
Proof. done. Qed.

Lemma reveal_changes w w1 p pb n r o : only [p] w w1 → pbs w !! p = Some pb → pbs w1 !! p = Some (moved n r o pb) → changes [p] w w1.
Proof.
  intros Ho Hpb Hpb1. apply changes_only; [done|]. intros l. destruct (decide (l = p)) as [->|Hne]; [by rewrite Hpb, Hpb1|].
  by rewrite (on_pbs _ _ _ Ho) by (by intros ?%list_elem_of_singleton).
Qed.

Lemma write_header_ok s p pb cs d ds o bs ttl tos proto src dest :
  packet (lwld s) (Some p) ((p, pb) :: cs) (d :: ds) → head_room (lwld s) p pb cs o bs 20 →
  is_u8 ttl → is_u8 tos → is_u8 proto → lens ((p, pb) :: cs) + 20 < 2 ^ 16 →
  ∃ w1 bs', ip4_write_header p (Some src) dest ttl tos proto s =
      Ret (false, with_ip w1 (set_ip_id (u16 (ip_id (upper s) + 1)) (upper s)) s) ∧
    changes [p] (lwld s) w1 ∧
    packet w1 (Some p) ((p, moved 20 (Own p) o pb) :: cs)
      ((sent_header tos (lens ((p, pb) :: cs) + 20) (ip_id (upper s)) ttl proto src dest ++ d) :: ds) ∧
    head_room w1 p (moved 20 (Own p) o pb) cs (o - 20) bs' (o - 20).
Proof.
  intros Hp [Hpay Hty Hnd Hbs Hfit Hroom Href] Httl Htos Hpro Hmax. unfold ip4_write_header.
  pose proof (packet_cons _ _ _ _ _ _ _ Hp) as (_ & Hl & Hpb & _ & _ & Hdl & Htl & H0 & H16 & Hcs). cbn [lens snd] in *.
  destruct (header_reveal _ p pb cs d ds o bs 20 false Hp Hpay Hty Hbs Hfit) as (w1 & Hrun1 & Ho1 & Hp1); [lia|done|cbn [lens snd]; lia|].
  set (pb1 := moved 20 (Own p) o pb) in *.
  pose proof (packet_cons _ _ _ _ _ _ _ Hp1) as (_ & Hl1 & Hpb1 & _ & _ & _ & Htl1 & _).
  assert (data w1 !! Own p = Some bs) as Hbs1 by (by rewrite (on_data _ _ _ Ho1)).
  rewrite (bind_mem _ _ _ _ _ _ Hrun1) by done. rewrite with_mem_sent. cbv beta iota.
  erewrite bind_rd_at by done. rewrite bind_assert by (simpl; apply Z.geb_le; unfold IP_HLEN; lia).
  cbv zeta. change (payload pb1) with (Some (Own p, o - 20)).
  rewrite (bind_set_field _ p (o - 20) bs) by (done || lia).
  do 6 (erewrite bind_set_field by (exact Hl1 || apply data_with || lia || slen); rewrite with_data_twice).
  rewrite bind_rd_ip. erewrite bind_set_field by (exact Hl1 || apply data_with || lia || slen). rewrite with_data_twice, bind_upd_ip, with_ip_data.
  change (upper (with_data _ _ _)) with (upper s). cbn [lwld with_mem].
  do 2 (erewrite bind_set_field by (exact Hl1 || apply data_with || lia || slen); rewrite ?with_data_twice).
  rewrite !u8_id, !Z2Nat.inj_add by (done || lia). set (m := Z.to_nat (o - 20)).
  destruct (split_block m 20 bs) as (pre & h & tl & Ebs & Hpre & Hh & Etl); [lia|]. set (bs' := splice (m + Z.to_nat 10) _ _).
  assert (bs' = pre ++ sent_header tos (len pb + lens cs + 20) (ip_id (upper s)) ttl proto src dest ++ tl) as Ebs'.
  { unfold bs'. rewrite Ebs. unfold sent_header, ip_header. replace (tot_len pb1) with (len pb + lens cs + 20) by (simpl; lia).
    apply (ip_splices pre h tl); done || apply length_le_bytes. }
  assert (length bs' = length bs) as Elen by (rewrite Ebs', Ebs, !length_app, Hh; simpl; lia).
  exists (set_data <[Own p := bs']> w1), bs'. split_and!; [done| | |].
  - eapply changes_same; [by eapply reveal_changes|]. by eapply changes_with.
  - assert (Own p ∉ regions cs) as Hnp by (by apply list.NoDup_cons in Hnd as [? _]).
    pose proof (packet_with w1 p pb1 cs _ ds (o - 20) bs bs' Hp1 eq_refl Hnp Hbs1 Elen) as Hp2. simpl in Hp2.
    specialize (Hp2 ltac:(lia) ltac:(lia)). replace (_ ++ d) with (take (Z.to_nat (len pb + 20)) (drop (Z.to_nat (o - 20)) bs')); [done|].
    rewrite Ebs'. fold m. rewrite drop_app_length' by done. replace (Z.to_nat (len pb + 20)) with (20 + Z.to_nat (len pb))%nat by lia.
    rewrite (take_app_add' _ _ 20) by done. f_equal. rewrite Etl, (packet_bytes _ _ _ _ _ _ _ _ Hp Hpay Hbs) by lia. do 2 f_equal. lia.
  - constructor; [done|done|done|apply lookup_insert_eq|rewrite Elen; simpl; lia|done|done].
Qed.

(** [ip4_output_if_src]: the packet with its header goes to ARP. *)
Lemma output_header_ok s p pb cs d ds o bs n id ttl tos proto src dest :
  packet (lwld s) (Some p) ((p, pb) :: cs) (d :: ds) → head_room (lwld s) p pb cs o bs 20 → netifs s !! id = Some n →
  is_u8 ttl → is_u8 tos → is_u8 proto → lens ((p, pb) :: cs) + 20 < 2 ^ 16 → mtu n = 0 ∨ lens ((p, pb) :: cs) + 20 ≤ mtu n →
  ∃ w1 bs', ip4_output_if_src uninit custom_free_function stack_bytes addr ptr_bytes p (Some src) (Some dest) ttl tos proto id s =
      etharp_output uninit custom_free_function stack_bytes id p dest (with_ip w1 (set_ip_id (u16 (ip_id (upper s) + 1)) (upper s)) s) ∧
    changes [p] (lwld s) w1 ∧
    packet w1 (Some p) ((p, moved 20 (Own p) o pb) :: cs)
      ((sent_header tos (lens ((p, pb) :: cs) + 20) (ip_id (upper s)) ttl proto src dest ++ d) :: ds) ∧
    head_room w1 p (moved 20 (Own p) o pb) cs (o - 20) bs' (o - 20).
Proof.
  intros Hp Hhr Hn Httl Htos Hpro Hmax Hmtu.
  destruct (write_header_ok s p pb cs d ds o bs ttl tos proto src dest Hp Hhr Httl Htos Hpro Hmax) as (w1 & bs' & Hrun & Hch & Hp1 & Hhr1).
  exists w1, bs'. split_and!; try done. unfold ip4_output_if_src.
  pose proof (packet_cons _ _ _ _ _ _ _ Hp) as (_ & Hl & Hpb & _ & _ & _ & Htl & _).
  pose proof (packet_cons _ _ _ _ _ _ _ Hp1) as (_ & Hl1 & Hpb1 & _).
  erewrite bind_rd_at by done. rewrite bind_assert by (by rewrite (hr_ref _ _ _ _ _ _ _ Hhr)).
  erewrite bind_Ret; [|by rewrite (bind_Ret _ _ _ _ _ Hrun)]. cbv iota. erewrite bind_rd_at by done.
  erewrite bind_netif by exact Hn. replace (_ && _) with false; [done|]. symmetry. apply andb_false_iff.
  cbn [lens snd] in *. simpl tot_len. destruct Hmtu as [->|Hm]; [by left|right]. rewrite Z.gtb_ltb. apply Z.ltb_ge. lia.
Qed.

(** The packet [p] with the header in front of it, sent as [etharp_output] sends it
    from the state with the header written and [ip_id] moved on. *)
Definition ip_post w0 L0 s id n p dest (body : bytes) (r : err_t) (s' : S) : Prop :=
  ∃ w w1 L1, except p w0 w1 ∧ changes [p] (lwld s) w ∧
    let s1 := with_ip w (set_ip_id (u16 (ip_id (upper s) + 1)) (upper s)) s in
    arp_ok w1 L0 s1 L1 ∧
    match next_hop n dest with
    | None => r = ERR_RTE ∧ s' = s1
    | Some h => output_post uninit custom_free_function stack_bytes w1 L0 s1 id n h p body r s'
    end.

(** The packet is ready for ARP once its first pbuf changed. *)
Lemma ip_packet_rebase w0 L0 w L t w1 p pb pb1 cs d ds d1 o1 bs1 : arp_mem w0 L0 w L t → changes [p] w w1 →
  packet w0 (Some p) ((p, pb) :: cs) (d :: ds) → packet w1 (Some p) ((p, pb1) :: cs) (d1 :: ds) →
  head_room w1 p pb1 cs o1 bs1 14 → 0 < len pb1 → positive cs → lens ((p, pb1) :: cs) ≤ 1500 →
  ip_packet (rebase w1 w0) p ((p, pb1) :: cs) (d1 :: ds).
Proof.
  intros Hm Hch Hp0 Hp1 [Hpay Hty Hnd Hbs Hfit Hroom Href] Hlen Hpos Hmax.
  pose proof (packet_cons _ _ _ _ _ _ _ Hp0) as (_ & Hl0 & _ & Hrest & _).
  assert (packet (rebase w1 w0) (Some p) ((p, pb1) :: cs) (d1 :: ds)) as Hp.
  { apply packet_rebase; [done| |].
    - intros l Hin. eapply (chain_live w0 _ ((p, pb) :: cs)); [exact (pk_chain _ _ _ _ Hp0)|]. exact Hin.
    - intros r Hr. cbn [regions] in Hr. apply elem_of_app in Hr as [Hr|Hr].
      + unfold region_list in Hr. cbn [snd] in Hr. rewrite Hpay in Hr. destruct (len pb1 =? 0); [by apply elem_of_nil in Hr|].
        apply list_elem_of_singleton in Hr as ->. simpl. by apply bool_decide_eq_true.
      + eapply regions_valid; [exact (pk_content _ _ _ _ Hrest)|done]. }
  constructor; [constructor|].
  - done.
  - by apply list.Forall_cons.
  - eexists _, _. split; [done|]. by destruct Hty as [-> | ->].
  - done.
  - eexists pb1, cs, d1, ds, o1, bs1. split_and!; done.
Qed.

Hypothesis stack_length : length stack_bytes = 1514%nat.
Hypothesis uninit_length : ∀ w l n, 0 ≤ n → Z.of_nat (length (uninit w l n)) = n.
Hypothesis pool_size : elt_size MEMP_PBUF_POOL = SIZEOF_STRUCT_PBUF + PBUF_POOL_BUFSIZE_ALIGNED.
Hypothesis ref_size : elt_size MEMP_PBUF = SIZEOF_STRUCT_PBUF.

Lemma ip4_output_if_src_ok w0 L0 s L id n p pb cs d ds o bs ttl tos proto src dest : arp_ok w0 L0 s L →
  netifs s !! id = Some n → netif_ok n → unicast n dest = true → (∀ h, next_hop n dest = Some h → unicast n h = true) →
  packet w0 (Some p) ((p, pb) :: cs) (d :: ds) → head_room w0 p pb cs o bs 34 → positive cs →
  is_u8 ttl → is_u8 tos → is_u8 proto → lens ((p, pb) :: cs) + 20 ≤ 1500 → mtu n = 0 ∨ lens ((p, pb) :: cs) + 20 ≤ mtu n →
  ∃ r s', ip4_output_if_src uninit custom_free_function stack_bytes addr ptr_bytes p (Some src) (Some dest) ttl tos proto id s = Ret (r, s') ∧
    ip_post w0 L0 s id n p dest
      (sent_header tos (lens ((p, pb) :: cs) + 20) (ip_id (upper s)) ttl proto src dest ++ concat (d :: ds)) r s'.
Proof.
  intros Hao Hn Hok Hu Huh Hp0 Hhr Hpos Httl Htos Hpro Hmax Hmtu. pose proof Hao as [Ht Hm Hh].
  pose proof (packet_cons _ _ _ _ _ _ _ Hp0) as (_ & Hl0 & _ & _ & _ & _ & _ & Hlen0 & _).
  pose proof (am_grown _ _ _ _ _ Hm) as Hg. pose proof (packet_grown _ _ _ _ _ _ _ _ _ Hg Hp0) as Hp.
  assert (head_room (lwld s) p pb cs o bs 20) as Hhr'.
  { destruct Hhr as [H1 H2 H3 H4 H5 H6 H7]. constructor; try done; [|lia]. rewrite (gr_data _ _ _ _ _ _ Hg); [done|].
    simpl. by apply bool_decide_eq_true. }
  destruct (output_header_ok s p pb cs d ds o bs n id ttl tos proto src dest Hp Hhr' Hn Httl Htos Hpro) as (w1 & bs' & Hrun & Hch & Hp1 & Hhr1); [lia|done|].
  destruct (rebase_ok _ _ _ _ _ _ _ Hm Hch Hl0) as [Hm1 Hex].
  { unfold owner. pose proof (packet_cons _ _ _ _ _ _ _ Hp) as (_ & _ & -> & _). by pose proof (packet_cons _ _ _ _ _ _ _ Hp1) as (_ & _ & -> & _). }
  set (i := set_ip_id _ _) in *.
  assert (arp_ok (rebase w1 w0) L0 (with_ip w1 i s) L) as Hao1 by done.
  assert (head_room w1 p (moved 20 (Own p) o pb) cs (o - 20) bs' 14) as Hhr2.
  { pose proof (hr_room _ _ _ _ _ _ _ Hhr). destruct Hhr1 as [H1 H2 H3 H4 H5 H6 H7]. constructor; try done. lia. }
  pose proof (ip_packet_rebase _ _ _ _ _ _ _ _ _ _ _ _ _ _ _ Hm Hch Hp0 Hp1 Hhr2) as Hip. cbn [lens snd moved len] in Hip, Hmax.
  specialize (Hip ltac:(lia) Hpos ltac:(lia)).
  destruct (etharp_output_ok uninit custom_free_function stack_bytes stack_length uninit_length pool_size ref_size (rebase w1 w0) L0 (with_ip w1 i s) L id n dest p
    _ _ Hao1 Hn Hok Hu Huh Hip) as (r & s' & Hrun2 & Hpost).
  exists r, s'. rewrite Hrun. split; [exact Hrun2|]. exists w1, (rebase w1 w0), L. split; [done|]. split; [done|]. cbv zeta. split; [done|].
  cbn [concat] in Hpost. by rewrite <- (assoc_L app) in Hpost.
Qed.
End Output.

(** ** Routing *)

Section Route.
Context {A V : Type} `{HA : Alloc A}.
Abbreviation S := (link A (ip_state V)).
Implicit Types (s : S) (n : netif).

Definition usable n : bool := netif_is_up n && netif_is_link_up n && negb (ip_addr n =? IPADDR_ANY).
(** The interface is on the network of the destination, or the destination is its peer. *)
Definition on_route (dest : Z) n : bool :=
  usable n && (ip4_addr_netcmp dest (ip_addr n) (netmask n) || (Z.land (flags n) NETIF_FLAG_BROADCAST =? 0) && (dest =? gw n)).

(** The interfaces [ids] exist and are not on the route. *)
Definition off_route s (dest : Z) (ids : list Z) : Prop := Forall (λ id, ∃ n, netifs s !! id = Some n ∧ on_route dest n = false) ids.

Lemma route_loop_ok s dest ids : Forall (λ id, is_Some (netifs s !! id)) ids →
  ∃ r, route_loop dest ids s = Ret (r, s) ∧
    match r with
    | Some id => ∃ l1 l2 n, ids = l1 ++ id :: l2 ∧ off_route s dest l1 ∧ netifs s !! id = Some n ∧ on_route dest n = true
    | None => off_route s dest ids
    end.
Proof.
  induction 1 as [|id ids [n Hn] Hids IH]; [exists None; split; [done|constructor]|]. cbn [route_loop].
  rewrite (bind_netif _ _ _ _ Hn). fold (usable n).
  assert (on_route dest n = false → ∃ r, route_loop dest ids s = Ret (r, s) ∧
    match r with
    | Some id' => ∃ l1 l2 n', id :: ids = l1 ++ id' :: l2 ∧ off_route s dest l1 ∧ netifs s !! id' = Some n' ∧ on_route dest n' = true
    | None => off_route s dest (id :: ids)
    end) as Hskip.
  { intros Hoff. destruct IH as (r & Hrun & Hr). exists r. split; [done|]. destruct r as [id'|].
    - destruct Hr as (l1 & l2 & n' & -> & Hl1 & Hn' & Hon). exists (id :: l1), l2, n'. split_and!; try done. constructor; [by exists n|done].
    - constructor; [by exists n|done]. }
  assert (on_route dest n = true → ∃ r, mret (M := M S) (Some id) s = Ret (r, s) ∧
    match r with
    | Some id' => ∃ l1 l2 n', id :: ids = l1 ++ id' :: l2 ∧ off_route s dest l1 ∧ netifs s !! id' = Some n' ∧ on_route dest n' = true
    | None => off_route s dest (id :: ids)
    end) as Htake.
  { intros Hon. exists (Some id). split; [done|]. exists [], ids, n. split_and!; try done. constructor. }
  unfold on_route in Hskip, Htake. destruct (usable n); [|by apply Hskip].
  destruct (ip4_addr_netcmp _ _ _); [by apply Htake|]. destruct (_ && _); [by apply Htake|by apply Hskip].
Qed.

(** [ip4_route]: the first interface on the route; without one the default interface
    if it is usable. *)
Definition route_post s (dest : Z) (r : option Z) : Prop :=
  match r with
  | Some id => ∃ n, netifs s !! id = Some n ∧ usable n = true ∧
      ((∃ l1 l2, netif_list (upper s) = l1 ++ id :: l2 ∧ off_route s dest l1 ∧ on_route dest n = true) ∨
       off_route s dest (netif_list (upper s)) ∧ netif_default (upper s) = Some id)
  | None => off_route s dest (netif_list (upper s)) ∧ ∀ id n, netif_default (upper s) = Some id → netifs s !! id = Some n → usable n = false
  end.

Lemma ip4_route_ok s dest : Forall (λ id, is_Some (netifs s !! id)) (netif_list (upper s)) →
  (∀ id, netif_default (upper s) = Some id → is_Some (netifs s !! id)) →
  ∃ r, ip4_route dest s = Ret (r, s) ∧ route_post s dest r.
Proof.
  intros Hids Hdef. unfold ip4_route. rewrite bind_rd_ip. destruct (route_loop_ok s dest _ Hids) as (r & Hrun & Hr).
  rewrite (bind_Ret _ _ _ _ _ Hrun). destruct r as [id|].
  - exists (Some id). split; [done|]. destruct Hr as (l1 & l2 & n & E & Hl1 & Hn & Hon). exists n. split_and!; [done| |left; by exists l1, l2].
    unfold on_route in Hon. by apply andb_true_iff in Hon as [? _].
  - destruct (netif_default (upper s)) as [id|] eqn:Ed; [|by exists None; split; [done|]; split; [done|]; rewrite Ed].
    destruct (Hdef id eq_refl) as [n Hn]. rewrite (bind_netif _ _ _ _ Hn).
    assert (negb (netif_is_up n) || negb (netif_is_link_up n) || (ip_addr n =? IPADDR_ANY) = negb (usable n)) as ->
      by (unfold usable; by destruct (netif_is_up n), (netif_is_link_up n), (ip_addr n =? IPADDR_ANY)).
    destruct (usable n) eqn:Hus.
    + exists (Some id). split; [done|]. exists n. split_and!; [done|done|by right].
    + exists None. split; [done|]. split; [done|]. intros id' n' E En. congruence.
Qed.
End Route.
