(* ===== verification/Ip4InputSpec.v ===== *)
(** * IPv4 input

    [ip4_input] passes a packet on exactly when its header is well formed, its checksum
    is right, its source is a host and an interface accepts its destination; the packet
    is cut to the length of the header field.  All other packets are released. *)

From S2P Require Import Prelude CLib Def Mem Memp Alloc Pbuf PbufChain PbufWrite PbufOwn PbufOps PbufSpec PbufRam Chksum Ip4Addr Link LinkSpec Etharp EtharpTable EtharpSpec EtharpInput Ip4 Ip4Reass Ip4Input Ip4Spec.
Import Def.Def Pbuf Ip4Addr.Ip4Addr Link Etharp Ip4 Reass Ip4Input.

(** ** Headers *)

Definition hdr_word (n k : nat) (h : bytes) : Z := le_word (take n (drop k h)).
Definition hdr_hlen (h : bytes) : Z := Z.land (hdr_word 1 0 h) 0x0f * 4.
Definition hdr_len (h : bytes) : Z := lwip_htons (hdr_word 2 2 h).
Definition is_fragment (h : bytes) : bool := negb (Z.land (hdr_word 2 6 h) (PP_HTONS (Z.lor IP_OFFMASK IP_MF)) =? 0).

(** The header at the start of [h] is that of a packet of which [n] bytes arrived. *)
Definition hdr_ok (odd : bool) (h : bytes) (n : Z) : bool :=
  (Z.shiftr (hdr_word 1 0 h) 4 =? 4) && (IP_HLEN <=? hdr_hlen h) && (hdr_hlen h <=? hdr_len h) && (hdr_len h <=? n) &&
  (Chksum.inet_chksum odd (take (Z.to_nat (hdr_hlen h)) h) =? 0).

Section Accept.
Context {A V : Type} `{HA : Alloc A}.
Abbreviation S := (link A (ip_state V)).
Implicit Types (s : S) (n : netif).

(** The first other interface that accepts the destination. *)
Definition takes s (dest inp id : Z) : bool :=
  negb (id =? inp) && match netifs s !! id with Some n => accepts dest n | None => false end.
Definition others s (dest inp : Z) : option Z :=
  snd <$> list_find (λ id, takes s dest inp id = true) (netif_list (upper s)).

Definition accepted s n (dest inp : Z) : option Z :=
  if ip4_addr_ismulticast dest then if netif_is_up n && negb (ip_addr n =? IPADDR_ANY) then Some inp else None
  else if accepts dest n then Some inp
  else if ip4_addr_isloopback dest then None
  else others s dest inp.

Lemma accept_ok s dest inp n : netifs s !! inp = Some n → Forall (λ id, is_Some (netifs s !! id)) (netif_list (upper s)) →
  ip4_input_accept dest inp s = Ret (accepted s n dest inp, s).
Proof.
  intros Hn Hids. unfold ip4_input_accept, accepted. rewrite (bind_netif _ _ _ _ Hn).
  destruct (ip4_addr_ismulticast dest); [done|]. destruct (accepts dest n); [done|]. destruct (ip4_addr_isloopback dest); [done|].
  rewrite bind_rd_ip. unfold others. induction Hids as [|id ids [n' Hn'] Hids IH]; [done|]. cbn [accept_loop list_find].
  assert (takes s dest inp id = negb (id =? inp) && accepts dest n') as Et by (unfold takes; by rewrite Hn').
  destruct (Z.eqb_spec id inp) as [->|Hne].
  - rewrite decide_False by (by rewrite Et). rewrite IH. by destruct (list_find _ ids) as [[]|].
  - rewrite (bind_netif _ _ _ _ Hn'). destruct (accepts dest n') eqn:E.
    + by rewrite decide_True.
    + rewrite decide_False by (by rewrite Et). rewrite IH. by destruct (list_find _ ids) as [[]|].
Qed.

(** The source is not the address of a host. *)
Definition bad_source n (src : Z) : bool := negb (ip4_addr_isbroadcast_u32 src n =? 0) || ip4_addr_ismulticast src.

(** The interface that takes the packet, if any. *)
Definition verdict s n (inp : Z) (odd : bool) (h : bytes) (m : Z) : option Z :=
  if hdr_ok odd h m && negb (bad_source n (hdr_word 4 12 h)) then accepted s n (hdr_word 4 16 h) inp else None.
End Accept.

Section Input.
Context {A V : Type} `{HA : Alloc A} {elt_size : memp_t → Z} `{HL : !AllocLaws A elt_size}.
Context (uninit : world A → loc → Z → bytes) (custom_free_function : loc → M (world A) ()).
Context (stack_bytes : bytes) (addr : ptr → Z) (ptr_bytes : option loc → bytes) (ptr_of : bytes → option loc).
Context (tcp_input : loc → Z → M (link A (ip_state V)) ()).
Abbreviation S := (link A (ip_state V)).
Abbreviation ip4_input := (ip4_input uninit custom_free_function stack_bytes addr ptr_bytes ptr_of tcp_input).
Implicit Types (w : world A) (s : S) (p : loc).

(** A packet in one pbuf of the pool, as the driver receives it. *)
Record rx_pbuf w p (pb : pbuf) (o : Z) (bs : bytes) : Prop := mk_rx {
  rx_live : p ∈ live w;
  rx_pbs : pbs w !! p = Some pb;
  rx_payload : payload pb = Some (Own p, o);
  rx_type : type pb = PBUF_POOL;
  rx_next : next pb = None;
  rx_tot : tot_len pb = len pb;
  rx_len : 0 ≤ len pb < 2 ^ 16;
  rx_data : data w !! Own p = Some bs;
  rx_fits : o + len pb ≤ Z.of_nat (length bs) ∧ o + IP_HLEN ≤ Z.of_nat (length bs);
  rx_room : 0 ≤ o;
  rx_owner : p.1 ≠ CUSTOM ∧ ref pb = 1;
}.

Definition cut (n : Z) (pb : pbuf) : pbuf := set_tot_len n (set_len n pb).

Lemma realloc_one w p pb n : p ∈ live w → pbs w !! p = Some pb → type pb = PBUF_POOL → next pb = None → tot_len pb = len pb →
  0 ≤ n < len pb → pbuf_realloc custom_free_function (Some p) n w = Ret ((), upd_pbs p (cut n pb) w).
Proof.
  intros Hl Hpb Hty Hnx Htl Hn. unfold pbuf_realloc. rewrite bind_assert by done. rewrite bind_deref, (bind_rd w p pb) by done.
  rewrite Z.geb_leb, (proj2 (Z.leb_gt _ _)) by lia. cbv zeta. rewrite bind_get. unfold fuel. cbn [realloc_loop].
  erewrite bind_Ret; [|rewrite (bind_rd w p pb) by done; rewrite Z.gtb_ltb, (proj2 (Z.ltb_ge _ _)) by lia; reflexivity].
  cbv beta iota. unfold realloc_last. rewrite (bind_rd w p pb) by done. erewrite bind_Ret by (unfold realloc_trim; by rewrite Hty).
  rewrite (bind_upd w p pb) by done. erewrite bind_upd by (done || apply lookup_insert_eq). rewrite upd_upd.
  erewrite bind_rd by (done || apply lookup_insert_eq). simpl. rewrite Hnx. erewrite bind_Ret by reflexivity.
  erewrite upd_ok by (done || apply lookup_insert_eq). rewrite upd_upd. unfold cut. by destruct pb; simpl in *; subst.
Qed.

(** Reading the header. *)
Lemma bind_hdr {C} s p pb o bs k n (K : Z → M S C) : rx_pbuf (lwld s) p pb o bs → 0 ≤ k → 0 ≤ n → k + n ≤ 20 →
  (field (Some (Own p, o)) k n ≫= K) s = K (hdr_word (Z.to_nat n) (Z.to_nat k) (drop (Z.to_nat o) bs)) s.
Proof.
  intros Hrx Hk Hn Hkn. destruct (rx_fits _ _ _ _ _ Hrx) as [_ Hf]. pose proof (rx_room _ _ _ _ _ Hrx). unfold IP_HLEN in Hf.
  rewrite (bind_field s p o bs k n); [|apply Hrx|apply Hrx|lia..]. unfold hdr_word. by rewrite drop_drop, Z2Nat.inj_add by lia.
Qed.

Lemma bind_IPH_V {C} s p pb o bs (K : Z → M S C) : rx_pbuf (lwld s) p pb o bs →
  (IPH_V (Some (Own p, o)) ≫= K) s = K (Z.shiftr (hdr_word 1 0 (drop (Z.to_nat o) bs)) 4) s.
Proof. intros Hrx. apply bind_Ret. unfold IPH_V. by rewrite (bind_hdr _ _ _ _ _ _ _ _ Hrx) by lia. Qed.

Lemma bind_IPH_HL {C} s p pb o bs (K : Z → M S C) : rx_pbuf (lwld s) p pb o bs →
  (IPH_HL (Some (Own p, o)) ≫= K) s = K (Z.land (hdr_word 1 0 (drop (Z.to_nat o) bs)) 0x0f) s.
Proof. intros Hrx. apply bind_Ret. unfold IPH_HL. by rewrite (bind_hdr _ _ _ _ _ _ _ _ Hrx) by lia. Qed.

Lemma bind_payload_of {C} s p pb (K : option ptr → M S C) : p ∈ live (lwld s) → pbs (lwld s) !! p = Some pb →
  (payload_of p ≫= K) s = K (payload pb) s.
Proof. intros Hl Hpb. apply bind_Ret. unfold payload_of. by erewrite bind_rd_at. Qed.

Lemma bind_chksum_at {C} s p pb o bs n (K : Z → M S C) : rx_pbuf (lwld s) p pb o bs → 0 ≤ n → o + n ≤ Z.of_nat (length bs) →
  (inet_chksum_at addr (Some (Own p, o)) n ≫= K) s =
  K (Chksum.inet_chksum (Z.odd (addr (Own p, o))) (take (Z.to_nat n) (drop (Z.to_nat o) bs))) s.
Proof.
  intros Hrx Hn Hle. apply bind_Ret. unfold inet_chksum_at. pose proof (rx_room _ _ _ _ _ Hrx).
  by rewrite (bind_load_at s p o bs 0 n), Z.add_0_r by (apply Hrx || lia).
Qed.

(** The packet is cut to [n] bytes if it is longer. *)
Definition cut_to (n : Z) (pb : pbuf) : pbuf := if n <? len pb then cut n pb else pb.

Lemma rx_changes w p pb n o bs : rx_pbuf w p pb o bs → 0 ≤ n → rx_pbuf (upd_pbs p (cut_to n pb) w) p (cut_to n pb) o bs ∧
  changes [p] w (upd_pbs p (cut_to n pb) w) ∧ len (cut_to n pb) = Z.min n (len pb).
Proof.
  intros [R1 R2 R3 R4 R5 R6 R7 R8 R9 R10 R11] Hn. unfold cut_to. destruct (Z.ltb_spec n (len pb)) as [H|H].
  - split_and!; [|apply (changes_only [p] w _ (only_upd w p _))|simpl; lia].
    + constructor; simpl; try done; [apply lookup_insert_eq|lia|lia].
    + intros l. simpl. rewrite lookup_insert. case_decide as E; [subst l|done]. by rewrite R2.
  - split_and!; [|apply (changes_only [p] w _ (only_upd w p _))|lia].
    + constructor; simpl; try done. apply lookup_insert_eq.
    + intros l. simpl. rewrite lookup_insert. case_decide as E; [subst l|done]. by rewrite R2.
Qed.

Definition with_addrs (src dest : Z) (i : ip_state V) : ip_state V :=
  set_ip_data (mk_globals (current_netif (ip_data i)) (current_input_netif (ip_data i))
    (current_ip4_header (ip_data i)) (current_ip_header_tot_len (ip_data i)) src dest) i.

(** The IP state after the header was looked at: the two address globals are set as
    soon as the header verifies, also for a packet that is released then. *)
Definition seen_ip (odd : bool) (h : bytes) (n : Z) (i : ip_state V) : ip_state V :=
  if hdr_ok odd h n then with_addrs (hdr_word 4 12 h) (hdr_word 4 16 h) i else i.

(** What [ip4_input] does with the packet. *)
Definition input_rest p (inp : Z) (h : bytes) (v : option Z) : M S err_t :=
  match v with
  | None => _ ← free_packet custom_free_function p; mret ERR_OK
  | Some id =>
      r ← (if is_fragment h then ip4_reass uninit custom_free_function stack_bytes addr ptr_bytes ptr_of p else mret (Some p));
      match r with
      | None => mret ERR_OK
      | Some p => _ ← ip4_deliver uninit custom_free_function stack_bytes addr ptr_bytes tcp_input p (hdr_hlen h) inp id; mret ERR_OK
      end
  end.

Lemma ip4_input_run s p pb o bs inp n : rx_pbuf (lwld s) p pb o bs → netifs s !! inp = Some n →
  Forall (λ id, is_Some (netifs s !! id)) (netif_list (upper s)) →
  let h := drop (Z.to_nat o) bs in
  let v := verdict s n inp (Z.odd (addr (Own p, o))) h (len pb) in
  ∃ m i, ip4_input p inp s = input_rest p inp h v (with_ip (upd_pbs p (cut_to m pb) (lwld s)) i s) ∧ 0 ≤ m ∧
    i = seen_ip (Z.odd (addr (Own p, o))) h (len pb) (upper s) ∧
    (is_Some v → m = hdr_len h ∧ i = with_addrs (hdr_word 4 12 h) (hdr_word 4 16 h) (upper s)).
Proof.
  intros Hrx Hn Hids h v. unfold Ip4Input.ip4_input. destruct (Hrx) as [R1 R2 R3 R4 R5 R6 R7 R8 R9 R10 R11].
  assert (with_mem (upd_pbs p pb (lwld s)) s = s) as Ew.
  { destruct s as [[]]. unfold with_mem, set_pbs. simpl in *. by rewrite insert_id. }
  assert (with_ip (upd_pbs p (cut_to (len pb) pb) (lwld s)) (upper s) s = s) as Eid by (unfold cut_to; rewrite Z.ltb_irrefl; exact Ew).
  rewrite (bind_payload_of _ _ _ _ R1 R2), R3, (bind_IPH_V _ _ _ _ _ _ Hrx). fold h.
  destruct (Z.eqb_spec (Z.shiftr (hdr_word 1 0 h) 4) 4) as [Ev|Ev].
  2:{ exists (len pb), (upper s). rewrite Eid. assert (hdr_ok (Z.odd (addr (Own p, o))) h (len pb) = false) as Hbad.
      { unfold hdr_ok. by rewrite (proj2 (Z.eqb_neq _ _) Ev). }
      assert (v = None) as -> by (unfold v, verdict; by rewrite Hbad). unfold seen_ip. rewrite Hbad. split_and!; [done|lia|done|by intros []]. }
  cbn [negb]. rewrite (bind_IPH_HL _ _ _ _ _ _ Hrx), (bind_hdr _ _ _ _ _ _ _ _ Hrx) by lia. fold h.
  change (Z.to_nat 2) with 2%nat. fold (hdr_hlen h) (hdr_len h). cbv zeta.
  rewrite (bind_rd_at _ _ _ _ R1 R2), R6.
  assert (0 ≤ hdr_len h) as Hm by apply htons_range.
  set (w1 := upd_pbs p (cut_to (hdr_len h) pb) (lwld s)).
  destruct (rx_changes _ _ _ _ _ _ Hrx Hm) as (Hrx1 & _ & Elen). set (pb1 := cut_to (hdr_len h) pb) in *.
  erewrite bind_Ret; [|instantiate (1 := with_mem w1 s); instantiate (1 := ())].
  2:{ unfold w1, pb1, cut_to. destruct (Z.ltb_spec (hdr_len h) (len pb)).
      - unfold on_mem. rewrite (realloc_one (lwld s) p pb) by (done || lia). done.
      - by rewrite Ew. }
  erewrite bind_rd_at; [|apply Hrx1|apply Hrx1]. rewrite (rx_tot _ _ _ _ _ Hrx1), Elen.
  assert ((hdr_hlen h >? Z.min (hdr_len h) (len pb)) || (hdr_len h >? Z.min (hdr_len h) (len pb)) || (hdr_hlen h <? IP_HLEN) =
    negb ((IP_HLEN <=? hdr_hlen h) && (hdr_hlen h <=? hdr_len h) && (hdr_len h <=? len pb))) as ->.
  { rewrite !Z.gtb_ltb. repeat match goal with |- context [?a <? ?b] => destruct (Z.ltb_spec a b) end;
      repeat match goal with |- context [?a <=? ?b] => destruct (Z.leb_spec a b) end; simpl; try done; lia. }
  destruct ((IP_HLEN <=? hdr_hlen h) && _ && _) eqn:Ec; cbn [negb].
  2:{ exists (hdr_len h), (upper s). assert (hdr_ok (Z.odd (addr (Own p, o))) h (len pb) = false) as Hbad.
      { unfold hdr_ok. rewrite Ev. cbn [Z.eqb Pos.eqb andb]. by rewrite Ec. }
      assert (v = None) as -> by (unfold v, verdict; by rewrite Hbad). unfold seen_ip. rewrite Hbad. split_and!; [done|lia|done|by intros []]. }
  apply andb_true_iff in Ec as [Ec E3]. apply andb_true_iff in Ec as [E1 E2]. apply Z.leb_le in E1, E2, E3.
  rewrite (bind_chksum_at (with_mem w1 s) _ _ _ _ _ _ Hrx1) by (unfold IP_HLEN in *; lia). fold h.
  destruct (Chksum.inet_chksum _ _ =? 0) eqn:E4; cbn [negb].
  2:{ exists (hdr_len h), (upper s). assert (hdr_ok (Z.odd (addr (Own p, o))) h (len pb) = false) as Hbad.
      { unfold hdr_ok. by rewrite E4, !andb_false_r. }
      assert (v = None) as -> by (unfold v, verdict; by rewrite Hbad). unfold seen_ip. rewrite Hbad. split_and!; [done|lia|done|by intros []]. }
  assert (hdr_ok (Z.odd (addr (Own p, o))) h (len pb) = true) as Hok.
  { unfold hdr_ok. rewrite Ev, E4, !(proj2 (Z.leb_le _ _)) by done. done. }
  rewrite !(bind_hdr (with_mem w1 s) _ _ _ _ _ _ _ Hrx1) by lia. fold h. change (Z.to_nat 4) with 4%nat. change (Z.to_nat 16) with 16%nat.
  change (Z.to_nat 12) with 12%nat. rewrite bind_upd_ip. change (with_ip _ _ (with_mem w1 s)) with (with_ip w1 (with_addrs (hdr_word 4 12 h) (hdr_word 4 16 h) (upper s)) s).
  set (i := with_addrs _ _ _) in *. set (s1 := with_ip w1 i s).
  rewrite (bind_Ret _ _ _ _ _ (accept_ok s1 (hdr_word 4 16 h) inp n Hn Hids)), (bind_netif s1 inp n _ Hn).
  fold (bad_source n (hdr_word 4 12 h)).
  assert (v = if bad_source n (hdr_word 4 12 h) then None else accepted s1 n (hdr_word 4 16 h) inp) as Ev'.
  { unfold v, verdict. rewrite Hok. by destruct (bad_source _ _). }
  exists (hdr_len h), i. rewrite Ev'. split_and!; [|lia|unfold seen_ip; by rewrite Hok|done].
  destruct (bad_source _ _); [done|]. destruct (accepted s1 n _ inp) as [id|]; [|done].
  unfold input_rest. rewrite (bind_hdr s1 _ _ _ _ _ _ _ Hrx1) by lia. done.
Qed.

(** ** The caller's memory *)

Lemma rx_packet w p pb o bs : rx_pbuf w p pb o bs →
  packet w (Some p) [(p, pb)] [take (Z.to_nat (len pb)) (drop (Z.to_nat o) bs)].
Proof.
  intros [R1 R2 R3 R4 R5 R6 R7 R8 R9 R10 R11]. constructor.
  - by simpl.
  - simpl. rewrite Z.add_0_r. by split_and!.
  - apply list.Forall2_cons. split; [|constructor]. cbn [snd]. rewrite R3.
    by rewrite (load_own w p o 0 (len pb) bs), Z.add_0_r by (done || lia).
Qed.

Lemma rx_grown w0 L0 w L X N p pb o bs : grown w0 L0 w L X N → rx_pbuf w0 p pb o bs → rx_pbuf w p pb o bs.
Proof.
  intros Hg [R1 R2 R3 R4 R5 R6 R7 R8 R9 R10 R11]. constructor; try done.
  - rewrite (gr_live _ _ _ _ _ _ Hg). apply elem_of_union. by right.
  - by rewrite (gr_pbs _ _ _ _ _ _ Hg).
  - rewrite (gr_data _ _ _ _ _ _ Hg); [done|]. simpl. by apply bool_decide_eq_true.
Qed.

(** A packet of the caller is released. *)
Lemma free_packet_ok w0 L0 s L p pb : arp_ok w0 L0 s L → p ∈ live w0 → p.1 ≠ CUSTOM → pbs (lwld s) !! p = Some pb → next pb = None → ref pb = 1 →
  ∃ w w0' L', free_packet custom_free_function p s = Ret ((), with_mem w s) ∧ arp_ok w0' (delete p L0) (with_mem w s) L' ∧ gone p w0 w0'.
Proof.
  intros [Ht Hm Hh] Hp Hcu Hpb Hnx Href.
  destruct (arp_mem_free custom_free_function w0 L0 _ L _ p pb Hm Hp Hcu Hpb Hnx Href) as (w & w0' & L' & Hrun & Hm' & Hg).
  exists w, w0', L'. split_and!; [|done|done]. unfold free_packet. rewrite (bind_mem _ _ _ _ _ _ Hrun) by done. by rewrite with_mem_sent.
Qed.

Lemma ip4_input_drop w0 L0 s L p pb o bs inp n : arp_ok w0 L0 s L → rx_pbuf w0 p pb o bs → netifs s !! inp = Some n →
  Forall (λ id, is_Some (netifs s !! id)) (netif_list (upper s)) →
  verdict s n inp (Z.odd (addr (Own p, o))) (drop (Z.to_nat o) bs) (len pb) = None →
  let i := seen_ip (Z.odd (addr (Own p, o))) (drop (Z.to_nat o) bs) (len pb) (upper s) in
  ∃ w w0' L', ip4_input p inp s = Ret (ERR_OK, with_ip w i s) ∧ arp_ok w0' (delete p L0) (with_ip w i s) L' ∧ gone p w0 w0'.
Proof.
  intros Hao Hrx0 Hn Hids Hv i0. pose proof Hao as [Ht Hm Hh]. pose proof (rx_grown _ _ _ _ _ _ _ _ _ _ (am_grown _ _ _ _ _ Hm) Hrx0) as Hrx.
  destruct (ip4_input_run s p pb o bs inp n Hrx Hn Hids) as (m & i & Hrun & H0 & Ei & _). rewrite Hv in Hrun. simpl in Hrun. fold i0 in Ei. subst i0.
  destruct (rx_changes _ _ _ m _ _ Hrx H0) as (Hrx1 & Hch & _). set (w1 := upd_pbs _ _ _) in *.
  assert (owner w1 p = owner (lwld s) p) as Hown.
  { unfold owner. rewrite (rx_pbs _ _ _ _ _ Hrx), (rx_pbs _ _ _ _ _ Hrx1). unfold cut_to. by destruct (m <? len pb). }
  destruct (rebase_ok _ _ _ _ _ _ _ Hm Hch (rx_live _ _ _ _ _ Hrx0) Hown) as [Hm1 Hex].
  assert (arp_ok (rebase w1 w0) L0 (with_ip w1 i s) L) as Hao1 by done. destruct Hrx1 as [R1 R2 R3 R4 R5 R6 R7 R8 R9 R10 [R11 R12]].
  destruct (free_packet_ok _ _ _ _ p _ Hao1 (rx_live _ _ _ _ _ Hrx0) R11 R2 R5 R12) as (w & w0' & L' & Hfree & Hao2 & Hg).
  exists w, w0', L'. rewrite <- Ei, Hrun, (bind_Ret _ _ _ _ _ Hfree). split_and!; [done|done|]. by eapply gone_except.
Qed.

(** ** Delivery *)

(** The header in front of the packet is hidden, and the globals describe it. *)
Definition current (src dest id inp hlen : Z) (h : ptr) : ip_globals := mk_globals (Some id) (Some inp) (Some h) hlen src dest.

Lemma deliver_run s p pb o bs inp id : rx_pbuf (lwld s) p pb o bs → let h := drop (Z.to_nat o) bs in
  0 < hdr_hlen h ≤ len pb → 0 ≤ hdr_word 1 0 h < 256 →
  ∃ w1, ip4_deliver uninit custom_free_function stack_bytes addr ptr_bytes tcp_input p (hdr_hlen h) inp id s =
    (let i := set_ip_data (current (current_iphdr_src (ip_data (upper s))) (current_iphdr_dest (ip_data (upper s))) id inp (hdr_hlen h) (Own p, o)) (upper s) in
     (_ ← (if hdr_word 1 9 h =? IP_PROTO_TCP then tcp_input p inp
           else if hdr_word 1 9 h =? IP_PROTO_ICMP then icmp_input uninit custom_free_function stack_bytes addr ptr_bytes p inp
           else
             ip ← rd_ip;
             n ← rd_netif id;
             _ ← (if (ip4_addr_isbroadcast_u32 (current_iphdr_dest (ip_data ip)) n =? 0) && negb (ip4_addr_ismulticast (current_iphdr_dest (ip_data ip))) then
                    _ ← on_mem (pbuf_header_force (Some p) (hdr_hlen h));
                    _ ← on_mem (upd p (set_payload (Some (Own p, o))));
                    icmp_dest_unreach uninit custom_free_function stack_bytes addr ptr_bytes p ICMP_DUR_PROTO
                  else mret ());
             free_packet custom_free_function p);
      upd_ip (set_ip_data (mk_globals None None None 0 IPADDR_ANY IPADDR_ANY))) (with_ip w1 i s)) ∧
    changes [p] (lwld s) w1 ∧ data w1 = data (lwld s) ∧ pbs w1 !! p = Some (moved (- hdr_hlen h) (Own p) o pb) ∧
    packet w1 (Some p) [(p, moved (- hdr_hlen h) (Own p) o pb)] [drop (Z.to_nat (hdr_hlen h)) (take (Z.to_nat (len pb)) h)].
Proof.
  intros Hrx h Hh Hb. pose proof (rx_packet _ _ _ _ _ Hrx) as Hp. destruct (Hrx) as [R1 R2 R3 R4 R5 R6 R7 R8 R9 R10 R11].
  assert (hdr_hlen h ≤ 60) as Hmax.
  { unfold hdr_hlen. change 0x0f with (Z.ones 4). rewrite Z.land_ones by lia. pose proof (Z.mod_pos_bound (hdr_word 1 0 h) (2 ^ 4)). lia. }
  unfold ip4_deliver. rewrite (bind_payload_of _ _ _ _ R1 R2), R3, (bind_IPH_HL _ _ _ _ _ _ Hrx). fold h.
  rewrite bind_upd_ip. fold (hdr_hlen h). replace (s16 (hdr_hlen h)) with (hdr_hlen h) by clia.
  destruct (header_hide (lwld s) p pb [] _ [] (Own p) o (hdr_hlen h) false Hp R3) as (w1 & Hrun & Ho & Hpb1 & Hp1); [|done|lia|].
  { unfold own_payload. rewrite R4. by exists o. }
  rewrite (bind_mem _ _ _ _ _ _ Hrun) by done. rewrite with_mem_sent. exists w1. cbv zeta. split_and!; [|by eapply reveal_changes|exact (on_data _ _ _ Ho)|done|done].
  erewrite (bind_field _ p o bs 9 1); [|simpl; by rewrite (on_live _ _ _ Ho)|simpl; by rewrite (on_data _ _ _ Ho)|lia|lia|unfold IP_HLEN in *; lia].
  replace (le_word (take (Z.to_nat 1) (drop (Z.to_nat (o + 9)) bs))) with (hdr_word 1 9 h); [done|].
  unfold hdr_word, h. by rewrite drop_drop, Z2Nat.inj_add by lia.
Qed.
End Input.
