(* ===== verification/IcmpSpec.v ===== *)
(** * Pings

    [icmp_input] answers an echo request: the answer is a copy of the request with the
    addresses exchanged, the type of a reply, and both checksums right. *)

From S2P Require Import Prelude CLib Def Mem Memp Alloc Pbuf PbufChain PbufWrite PbufOwn PbufOps PbufSpec PbufRam Chksum Ip4Addr Link LinkSpec Etharp EtharpTable EtharpSpec EtharpInput Ip4 Ip4Reass Ip4Input Ip4Spec Ip4InputSpec.
Import Def.Def Pbuf Ip4Addr.Ip4Addr Link Etharp Ip4 Reass Ip4Input.

Section Adopt.
Context {A : Type} `{HA : Alloc A} {elt_size : memp_t → Z} `{HL : !AllocLaws A elt_size}.
Implicit Types (w : world A) (p r l : loc) (L : gmap loc Z).

(** The caller keeps a pbuf that was allocated. *)
Definition adopt w w0 r : world A := mk_world (pbs w) ({[r]} ∪ live w0) (data w) (allocs w0) (pbuf_free_ooseq_pending w0).

Lemma adopt_ok w0 L0 w L t w' L' r off n bs : arp_mem w0 L0 w L t → grown w0 L0 w' L' (queued t ∪ {[r]}) ∅ → r ∉ queued t →
  is_ram w' (queued t ∪ {[r]}) r off n bs → (∀ l, l ∈ live w → pbs w' !! l = pbs w !! l) → (∀ x, valid x w = true → data w' !! x = data w !! x) →
  ∃ k, arp_mem (adopt w' w0 r) (<[r := k]> L0) w' L' t ∧ L0 !! r = None.
Proof.
  intros [Hg Hw Ho] Hg' Hr Hram Hp Hd. pose proof Hg as [Hi Hlv _ _ _ _ _ _ _ _].
  pose proof Hg' as [Hi' Hlv' Hf' Hh' _ Hn' _ Hpb' Hd' Hbl'].
  assert (r ∈ live w') as Hrl by (rewrite Hlv'; set_solver).
  assert (r.1 = HEAP) as Hrh by (apply Hh'; set_solver).
  destruct (inv_live _ _ Hi' r Hrl) as (pb & k & _ & Hk & _); [congruence|]. exists k.
  assert (L0 !! r = None) as Hr0 by (apply Hn'; set_solver). split; [|done]. constructor.
  - constructor; simpl.
    + done.
    + rewrite Hlv'. set_solver.
    + set_solver.
    + intros l Hl. apply Hh'. set_solver.
    + set_solver.
    + intros l Hl. rewrite lookup_insert_ne by set_solver. apply Hn'. set_solver.
    + set_solver.
    + done.
    + done.
    + intros l Hl HlN. destruct (decide (l = r)) as [->|Hne]; [by rewrite lookup_insert_eq|]. rewrite lookup_insert_ne by done. apply Hbl'; set_solver.
  - intros i e l Hie E. destruct (Hw i e l Hie E) as [body Hb]. exists body. assert (l ∈ queued t) as Hin by (apply elem_of_queued; eauto).
    assert (l ∈ live w) as Hl by (rewrite Hlv; set_solver). eapply waiting_same; [done|done|by apply Hp|]. apply Hd. by apply bool_decide_eq_true.
  - done.
Qed.

(** One pbuf copied to another of the same length. *)
Lemma copy_one w r p rb pb o bs body : r ∈ live w → pbs w !! r = Some rb → payload rb = Some (Own r, o) → next rb = None →
  data w !! Own r = Some bs → 0 ≤ o → o + len rb ≤ Z.of_nat (length bs) → len rb = len pb → tot_len rb = len rb → 0 < len pb < 2 ^ 16 →
  packet w (Some p) [(p, pb)] [body] →
  pbuf_copy (Some r) (Some p) w = Ret (ERR_OK, set_data <[Own r := splice (Z.to_nat o) body bs]> w).
Proof.
  intros Hr Hrb Hpay Hnx Hbs Ho Hle El Ht Hn Hp. pose proof (packet_cons _ _ _ _ _ _ _ Hp) as (_ & Hl & Hpb & _ & Hld & Hdl & Htl & _).
  pose proof (pk_chain _ _ _ _ Hp) as (_ & _ & _ & Hpn). simpl in Hpn, Htl.
  unfold pbuf_copy. rewrite bind_assert by done. rewrite bind_deref, (bind_rd w r rb), bind_deref, (bind_rd w p pb) by done.
  rewrite bind_assert by (apply Z.geb_le; lia). rewrite bind_get. unfold fuel. cbn [Nat.mul Nat.add copy_loop].
  assert (copy_round (Some r) (Some p) 0 0 w = Ret ((None, None, 0, 0), set_data <[Own r := splice (Z.to_nat o) body bs]> w)) as Hround.
  { unfold copy_round. rewrite bind_deref, (bind_rd w r rb), bind_deref, (bind_rd w p pb) by done. cbv zeta.
    rewrite !Z.sub_0_r, El, Z.geb_leb, Z.leb_refl, (u16_id (len pb)) by (unfold is_u16; lia). rewrite (bind_Ret _ _ _ _ _ Hld).
    rewrite Hpay. erewrite bind_Ret; [|apply (store_own w r o 0 bs body); [done|done|lia|lia]]. rewrite !Z.add_0_l, Z.add_0_r, (u16_id (len pb)) by (unfold is_u16; lia).
    rewrite !bind_assert by (apply Z.leb_refl). by rewrite Z.geb_leb, Z.leb_refl, Z.eqb_refl, Hpn, Hnx. }
  rewrite (bind_Ret _ _ _ _ _ Hround). done.
Qed.
End Adopt.

Section Changes.
Context {A : Type} `{HA : Alloc A} {elt_size : memp_t → Z} `{HL : !AllocLaws A elt_size}.
Implicit Types (w : world A).

(** A packet elsewhere stays. *)
Lemma packet_changes ls w w' q cs ds : changes ls w w' → (∀ l, l ∈ cs.*1 → l ∉ ls) → (∀ l, l ∈ ls → Own l ∉ regions cs) →
  packet w q cs ds → packet w' q cs ds.
Proof.
  intros [C1 C2 C3 C4 C5 C6] Hl Hr [Hc Ht Hd]. constructor; [|done|].
  - eapply chain_same; [|exact Hc]. intros l Hin. split; [by apply C3, Hl|]. rewrite C1. by eapply chain_live.
  - clear Hc Ht Hl. unfold content in *. induction Hd as [|[l pb] d cs ds Hld Hd IH]; constructor.
    + eapply load_same; [|exact Hld]. intros Hn r o E. cbn [snd] in *. pose proof Hld as Hv. rewrite E in Hv.
      apply load_valid in Hv; [|done]. split.
      * destruct r; simpl in *; [by rewrite C1|done..].
      * apply C5. intros l' Hl' ->. apply (Hr l' Hl'). cbn [regions]. apply elem_of_app. left. unfold region_list. rewrite E.
        rewrite (proj2 (Z.eqb_neq _ _)) by done. by left.
    + apply IH. intros l' Hl' Hin. apply (Hr l' Hl'). cbn [regions]. apply elem_of_app. by right.
Qed.
End Changes.

Lemma splice_0 (src bs : bytes) : splice 0 src bs = src ++ drop (length src) bs.
Proof. done. Qed.

(** ** The packet to answer with *)

Section Room.
Context {A V : Type} `{HA : Alloc A} {elt_size : memp_t → Z} `{HL : !AllocLaws A elt_size}.
Context (hl : Z) (hl_range : 20 ≤ hl ≤ 60).
Implicit Types (w : world A) (L : gmap loc Z) (p r : loc).

(** The request behind a header of [hl] bytes, in a pbuf of the pool as the driver
    fills it. *)
Record request w p (pb : pbuf) (bs hdr body : bytes) : Prop := mk_request {
  rq_packet : packet w (Some p) [(p, pb)] [body];
  rq_payload : payload pb = Some (Own p, 14 + hl);
  rq_type : type pb = PBUF_POOL;
  rq_next : next pb = None;
  rq_data : data w !! Own p = Some bs;
  rq_hdr : take (Z.to_nat hl) (drop 14 bs) = hdr ∧ 14 + hl + len pb ≤ Z.of_nat (length bs);
  rq_owner : p.1 ≠ CUSTOM ∧ ref pb = 1;
}.

(** Its copy, with room in front of the header. *)
Record is_copy w r (hdr body : bytes) : Prop := mk_is_copy {
  ic_live : r ∈ live w;
  ic_pbs : pbs w !! r = Some (ram_pbuf r (16 + hl) (Z.of_nat (length body)));
  ic_data : ∃ pre tl, data w !! Own r = Some (pre ++ hdr ++ body ++ tl) ∧ length pre = 16%nat;
}.

Lemma room_fails w p pb bs hdr body : request w p pb bs hdr body → len pb ≤ 60000 → pbuf_header (Some p) (s16 (hl + 16)) w = Ret (true, w).
Proof.
  intros [Hp Hpay Hty _ Hbs Hh Hown] Hn. pose proof (packet_cons _ _ _ _ _ _ _ Hp) as (_ & Hl & Hpb & _ & _ & _ & Htl & H0 & _). simpl in Htl.
  unfold pbuf_header. replace (s16 (hl + 16)) with (hl + 16) by clia.
  rewrite (header_impl_ok w p pb (Own p) (14 + hl)); try done; [|unfold own_payload; rewrite Hty; exists (14 + hl); split; [done|lia]|lia..].
  rewrite Hty. by rewrite (proj2 (Z.leb_gt _ _)) by lia.
Qed.

(** The header and the body are copied into the new pbuf. *)
Lemma fill_copy w p pb bs hdr body r rbs : request w p pb bs hdr body → 0 < len pb ≤ 1480 →
  is_ram w {[r]} r 16 (len pb + hl) rbs → r ∈ live w → r ≠ p →
  ∃ w1 w2 w3, load (Some (Own p, 14)) 0 hl w = Ret (hdr, w) ∧ store (Some (Own r, 16)) 0 hdr w = Ret ((), w1) ∧
      pbuf_header (Some r) (s16 (- hl)) w1 = Ret (false, w2) ∧ pbuf_copy (Some r) (Some p) w2 = Ret (ERR_OK, w3) ∧
    changes [r] w w3 ∧ is_copy w3 r hdr body.
Proof.
  intros [Hp Hpay Hty _ Hbs [Hh Hfit] Hown] Hn [_ Hrb Hrd Hrr] Hrl Hne.
  pose proof (packet_cons _ _ _ _ _ _ _ Hp) as (_ & Hl & Hpb & _ & _ & Hbl & _).
  assert (Z.of_nat (length hdr) = hl) as Hhl by (rewrite <- Hh, length_take, length_drop; lia).
  set (rbs1 := splice 16 hdr rbs). set (w1 := set_data <[Own r := rbs1]> w).
  assert (length rbs1 = length rbs) as El1 by (apply splice_length; lia).
  set (rb := moved (- hl) (Own r) 16 (ram_pbuf r 16 (len pb + hl))). set (w2 := upd_pbs r rb w1).
  assert (rb = ram_pbuf r (16 + hl) (len pb)) as Erb by (unfold rb, moved, ram_pbuf; simpl; f_equal; [do 2 f_equal|..]; lia).
  assert (changes [r] w w2) as Hch.
  { eapply changes_same; [by eapply changes_with|]. apply changes_only; [apply only_upd|]. intros l. simpl. rewrite lookup_insert.
    case_decide as E; [subst l|done]. by rewrite Hrb. }
  assert (packet w2 (Some p) [(p, pb)] [body]) as Hp2.
  { eapply packet_changes; [exact Hch| | |exact Hp].
    - intros l ->%list_elem_of_singleton E%list_elem_of_singleton. by apply Hne.
    - intros l ->%list_elem_of_singleton. simpl. unfold region_list. simpl. rewrite Hpay.
      destruct (len pb =? 0); [by intros ?%elem_of_nil|]. intros [= E]%list_elem_of_singleton. done. }
  assert (data w2 !! Own r = Some rbs1) as Hd2 by apply lookup_insert_eq.
  assert (pbs w2 !! r = Some rb) as Hpb2 by apply lookup_insert_eq.
  set (rbs2 := splice (Z.to_nat (16 + hl)) body rbs1).
  assert (length rbs2 = length rbs1) as El2 by (apply splice_length; lia).
  exists w1, w2, (set_data <[Own r := rbs2]> w2). split_and!.
  - rewrite (load_own w p 14 0 hl bs) by (done || lia). change (Z.to_nat (14 + 0)) with 14%nat. by rewrite Hh.
  - by rewrite (store_own w r 16 0 rbs hdr) by (done || lia).
  - unfold pbuf_header. replace (s16 (- hl)) with (- hl) by clia.
    rewrite (header_impl_ok w1 r (ram_pbuf r 16 (len pb + hl)) (Own r) 16); try done; [|by exists 16|simpl; lia..]. simpl type. cbv iota.
    by rewrite (proj2 (Z.leb_le _ _)) by lia.
  - apply (copy_one w2 r p rb pb (16 + hl) rbs1 body); try exact Hpb2; rewrite ?Erb; simpl; try done; try lia.
  - eapply changes_same; [exact Hch|by eapply changes_with].
  - constructor; [done| |].
    + simpl. rewrite lookup_insert_eq, Erb. do 2 f_equal. lia.
    + simpl. rewrite lookup_insert_eq.
      destruct (split_block 16 (Z.to_nat hl) rbs) as (pre & h & tl & Ers & Hpre & Hhl2 & Etl); [lia|].
      assert (rbs2 = pre ++ hdr ++ body ++ drop (length body) tl) as ->; [|by exists pre, (drop (length body) tl)].
      assert (rbs1 = pre ++ hdr ++ tl) as E1.
      { unfold rbs1. rewrite Ers. replace 16%nat with (length pre + 0)%nat by lia. by rewrite splice_app_l, splice_0, drop_app_length' by lia. }
      unfold rbs2. rewrite E1. replace (Z.to_nat (16 + hl)) with (length pre + (length hdr + 0))%nat by lia. by rewrite !splice_app_l, splice_0.
Qed.

(** The caller's memory with [r] in the place of [p]. *)
Record traded p r w w' : Prop := mk_traded {
  td_live : live w' = {[r]} ∪ (live w ∖ {[p]});
  td_pbs l : l ∈ live w → l ≠ p → pbs w' !! l = pbs w !! l;
  td_data x : valid x w = true → x ≠ Own p → data w' !! x = data w !! x;
  td_fresh : r ∉ live w;
}.

Lemma request_grown w0 L0 w L X N p pb bs hdr body : grown w0 L0 w L X N → request w0 p pb bs hdr body → request w p pb bs hdr body.
Proof.
  intros Hg [Hp Hpay Hty Hnx Hbs Hh Hown]. pose proof (packet_cons _ _ _ _ _ _ _ Hp) as (_ & Hl & _). constructor; try done; [by eapply packet_grown|].
  rewrite (gr_data _ _ _ _ _ _ Hg); [done|]. by apply bool_decide_eq_true.
Qed.

Lemma adopted w w0 r p w1 : live w0 ⊆ live w → r ∉ live w0 → p ∈ live w0 → changes [r] w w1 →
  (∀ l, l ∈ live w0 → pbs w !! l = pbs w0 !! l) → (∀ x, valid x w0 = true → data w !! x = data w0 !! x) →
  ∀ w2, gone p (rebase w1 (adopt w w0 r)) w2 → traded p r w0 w2.
Proof.
  intros Hsub Hr Hp [C1 C2 C3 C4 C5 C6] Hpb Hd w2 [G1 G2 G3]. constructor; [| | |done].
  - rewrite G1. cbn [live rebase adopt]. apply set_eq. intros l. rewrite elem_of_difference, !elem_of_union, elem_of_difference, !elem_of_singleton.
    destruct (decide (l = r)) as [->|]; [|tauto]. split; [tauto|]. intros _. split; [by left|]. intros ->. done.
  - intros l Hl Hne. assert (l ≠ r) by (by intros ->). rewrite G2; [|cbn [live rebase adopt]; by apply elem_of_union_r|done]. simpl. rewrite C3; [by apply Hpb|].
    by intros ?%list_elem_of_singleton.
  - intros x Hx Hne. assert (x ≠ Own r) by (intros ->; by apply bool_decide_eq_true in Hx). rewrite G3; [| |done].
    + simpl. rewrite C5; [by apply Hd|]. by intros l ->%list_elem_of_singleton.
    + destruct x; [|done..]. apply bool_decide_eq_true in Hx. apply bool_decide_eq_true. cbn [live rebase adopt]. by apply elem_of_union_r.
Qed.

Context (uninit : world A → loc → Z → bytes) (custom_free_function : loc → M (world A) ()).
Hypothesis uninit_length : ∀ w l n, 0 ≤ n → Z.of_nat (length (uninit w l n)) = n.
Hypothesis pool_size : elt_size MEMP_PBUF_POOL = SIZEOF_STRUCT_PBUF + PBUF_POOL_BUFSIZE_ALIGNED.
Hypothesis ref_size : elt_size MEMP_PBUF = SIZEOF_STRUCT_PBUF.
Abbreviation S := (link A (ip_state V)).
Implicit Types s : S.

Lemma echo_room_ok w0 L0 s L p pb bs hdr body : arp_ok w0 L0 s L → request w0 p pb bs hdr body → 8 ≤ len pb ≤ 1480 →
  ∃ o w L1, echo_room uninit custom_free_function p (Some (Own p, 14)) hl s = Ret (o, with_mem w s) ∧
    match o with
    | None => arp_ok w0 L0 (with_mem w s) L1 ∧ pbuf_alloc uninit custom_free_function PBUF_LINK (len pb + hl) PBUF_RAM (lwld s) = Ret (None, w)
    | Some r => ∃ k w0', arp_ok w0' (delete p (<[r := k]> L0)) (with_mem w s) L1 ∧ traded p r w0 w0' ∧ is_copy w0' r hdr body ∧ r.1 = HEAP ∧ L0 !! r = None ∧
        ∃ wr, pbuf_alloc uninit custom_free_function PBUF_LINK (len pb + hl) PBUF_RAM (lwld s) = Ret (Some r, wr)
    end.
Proof.
  intros [Ht Hm Hh] Hrq0 Hn. pose proof (am_grown _ _ _ _ _ Hm) as Hg. pose proof (request_grown _ _ _ _ _ _ _ _ _ _ _ Hg Hrq0) as Hrq.
  destruct Hrq0 as [Hp0 Hpay Hty Hnx Hbs0 [Hhd Hfit] [Hcu Href]]. pose proof (packet_cons _ _ _ _ _ _ _ Hp0) as (_ & Hpl0 & Hpb0 & _ & _ & Hbl & Htl & _).
  pose proof (packet_cons _ _ _ _ _ _ _ (rq_packet _ _ _ _ _ _ Hrq)) as (_ & Hpl & Hpb & _). simpl in Htl.
  unfold echo_room. cbv zeta. change (PBUF_LINK_HLEN + PBUF_LINK_ENCAPSULATION_HLEN) with 16.
  replace (hl + PBUF_LINK_HLEN + PBUF_LINK_ENCAPSULATION_HLEN) with (hl + 16) by (unfold PBUF_LINK_HLEN, PBUF_LINK_ENCAPSULATION_HLEN; lia).
  erewrite bind_mem; [|exact (room_fails _ _ _ _ _ _ Hrq ltac:(lia))|done]. rewrite with_mem_sent, with_mem_id. cbv beta iota.
  rewrite (bind_rd_at _ _ _ _ Hpl Hpb). rewrite (u16_id (tot_len pb + hl)) by clia. rewrite Htl, Z.add_0_r.
  destruct (alloc_ram_ok uninit custom_free_function uninit_length pool_size ref_size w0 L0 (lwld s) L (queued (arp_table s)) ∅ PBUF_LINK (len pb + hl) Hg)
    as ([r|] & w1 & Hrun & Hpost & Hpbs & Hdat); [lia| |].
  - destruct Hpost as (L1 & rbs & Hg1 & Hrq1 & Hram).
    destruct (adopt_ok _ _ _ _ _ _ _ _ _ _ _ Hm Hg1 Hrq1 Hram Hpbs Hdat) as (k & Hma & Hr0).
    pose proof Hram as [_ Hrb Hrd Hrr].
    assert (r ∈ live w1) as Hrl by (rewrite (gr_live _ _ _ _ _ _ Hg1); set_solver).
    assert (r ∉ live w0) as Hrf by (pose proof (gr_fresh _ _ _ _ _ _ Hg1); set_solver).
    assert (r ≠ p) as Hne by (by intros ->).
    pose proof (request_grown _ _ _ _ _ _ p pb bs hdr body Hg1 (mk_request _ _ _ _ _ _ Hp0 Hpay Hty Hnx Hbs0 (conj Hhd Hfit) (conj Hcu Href))) as Hrqa.
    destruct (fill_copy w1 p pb bs hdr body r rbs Hrqa ltac:(lia) ltac:(by constructor; [set_solver|..]) Hrl Hne)
      as (wa & wb & wc & Ha & Hb & Hc & Hd & Hch & Hcopy).
    destruct (rebase_ok _ _ _ _ _ _ _ Hma Hch) as [Hm2 _]; [simpl; set_solver|by unfold owner; rewrite Hrb, (ic_pbs _ _ _ _ Hcopy)|].
    assert (pbs wc !! p = Some pb) as Hpc.
    { rewrite (ch_pbs _ _ _ Hch); [apply (packet_cons _ _ _ _ _ _ _ (rq_packet _ _ _ _ _ _ Hrqa))|]. intros E%list_elem_of_singleton. congruence. }
    destruct (arp_mem_free custom_free_function _ _ _ _ _ p pb Hm2) as (w3 & w3' & L3 & Hfree & Hm3 & Hgone); [simpl; set_solver|done|done|done|done|].
    assert (traded p r w0 w3') as Htr.
    { eapply (adopted w1 w0 r p wc); [rewrite (gr_live _ _ _ _ _ _ Hg1); set_solver|done|done|exact Hch|apply Hg1|apply Hg1|exact Hgone]. }
    exists (Some r), w3, L3. split.
    + erewrite bind_mem by (exact Hrun || done). rewrite with_mem_sent. cbv beta iota.
      erewrite bind_rd_at; [|exact Hrl|exact Hrb]. cbn [len ram_pbuf payload]. rewrite (proj2 (Z.ltb_ge _ _)) by (unfold SIZEOF_ICMP_ECHO_HDR; lia).
      erewrite bind_mem by (exact Ha || done). rewrite with_mem_sent.
      erewrite bind_mem by (exact Hb || done). rewrite with_mem_sent.
      erewrite bind_mem by (exact Hc || done). rewrite with_mem_sent. cbv iota.
      erewrite bind_mem by (exact Hd || done). rewrite with_mem_sent. rewrite decide_True by done.
      unfold free_packet. erewrite bind_Ret; [reflexivity|]. erewrite bind_mem by (exact Hfree || done). by rewrite with_mem_sent.
    + exists k, w3'. split_and!; [by constructor|done| |apply (gr_heap _ _ _ _ _ _ Hg1); set_solver|done|by exists w1].
      destruct Hcopy as [Q1 Q2 Q3]. destruct Hgone as [G1 G2 G3]. constructor.
      * rewrite G1. simpl. set_solver.
      * rewrite G2; [done|simpl; set_solver|done].
      * destruct Q3 as (pre & tl & Ed & Hpre). exists pre, tl. split; [|done]. rewrite G3; [done| |congruence].
        apply bool_decide_eq_true. simpl. set_solver.
  - exists None, w1, L. split.
    + erewrite bind_mem by (exact Hrun || done). by rewrite with_mem_sent.
    + split; [|done]. constructor; [done| |done]. eapply arp_mem_same; [exact Hm|exact Hpost|]. intros l Hl.
      assert (l ∈ live (lwld s)) as Hll by (rewrite (gr_live _ _ _ _ _ _ Hg); set_solver). split; [by apply Hpbs|].
      apply Hdat. by apply bool_decide_eq_true.
Qed.
End Room.

(** ** The answer *)

(** The header with its addresses exchanged, a fresh time to live and its checksum. *)
Definition reply_hdr0 (src dst : Z) (hdr : bytes) : bytes :=
  splice 10 (le_bytes 2 0) (splice 8 (le_bytes 1 255) (splice 16 (le_bytes 4 dst) (splice 12 (le_bytes 4 src) hdr))).
Definition reply_hdr (odd : bool) (src dst : Z) (hdr : bytes) : bytes :=
  splice 10 (le_bytes 2 (Chksum.inet_chksum odd (reply_hdr0 src dst hdr))) (reply_hdr0 src dst hdr).

(** The message with the type of a reply and its checksum adjusted. *)
Definition adjusted (c : Z) : Z :=
  if c >? PP_HTONS (0xffff - Z.shiftl ICMP_ECHO 8) then u16 (c + (PP_HTONS (Z.shiftl ICMP_ECHO 8) + 1))
  else u16 (c + PP_HTONS (Z.shiftl ICMP_ECHO 8)).
Definition reply_body (body : bytes) : bytes := splice 2 (le_bytes 2 (adjusted (hdr_word 2 2 body))) (splice 0 (le_bytes 1 0) body).

(** [rh] is [hdr] but for the time to live, the checksum, which is right, and the
    addresses. *)
Definition answers_hdr (src dst : Z) (hdr rh : bytes) : Prop :=
  (∀ odd, Chksum.inet_chksum odd rh = 0) ∧
  ∃ c, rh = take 8 hdr ++ [255] ++ take 1 (drop 9 hdr) ++ le_bytes 2 c ++ le_bytes 4 src ++ le_bytes 4 dst ++ drop 20 hdr.

Lemma reply_hdr_ok odd src dst hdr : wf_bytes hdr → (20 ≤ length hdr ≤ 60)%nat → answers_hdr src dst hdr (reply_hdr odd src dst hdr).
Proof.
  intros Hwf Hlen. destruct (split_block 8 12 hdr) as (a & m & opts & -> & Ha & Hm & _); [lia|].
  destruct m as [|ttl m]; [done|]. destruct m as [|proto m]; [done|]. do 11 (destruct m as [|? m]; try done). clear Hm.
  apply Forall_app in Hwf as [Hwa Hwf]. apply list.Forall_cons in Hwf as [_ Hwf]. apply list.Forall_cons in Hwf as [Hpr Hwf].
  apply (Forall_drop _ 10) in Hwf. cbn [drop app] in Hwf.
  set (hdr := a ++ _). assert (∀ c, splice 10 (le_bytes 2 c) (reply_hdr0 src dst hdr) =
    (a ++ [255; proto]) ++ le_bytes 2 c ++ (le_bytes 4 src ++ le_bytes 4 dst ++ opts)) as Esp.
  { intros c. unfold reply_hdr0, hdr. do 9 (destruct a as [|? a]; try done). }
  assert (reply_hdr0 src dst hdr = (a ++ [255; proto]) ++ [0; 0] ++ (le_bytes 4 src ++ le_bytes 4 dst ++ opts)) as E0.
  { unfold reply_hdr0, hdr. do 9 (destruct a as [|? a]; try done). }
  rewrite !length_app in Hlen. simpl in Hlen. unfold reply_hdr. split.
  - intros odd'. rewrite Esp, E0. eapply checksum_verifies; [| | | |reflexivity].
    + apply Forall_app_2; [done|]. repeat constructor; done || apply Hpr.
    + repeat apply Forall_app_2; done || apply le_bytes_wf.
    + by rewrite length_app, Ha.
    + rewrite !length_app, !length_le_bytes. simpl. lia.
  - eexists. rewrite Esp. unfold hdr. do 9 (destruct a as [|? a]; try done).
Qed.

(** The same for the message: [body] begins with an echo request. *)
Definition answers_body (body rb : bytes) : Prop :=
  rfc1071 rb = 65535 ∧ ∃ c, rb = [ICMP_ER] ++ take 1 (drop 1 body) ++ le_bytes 2 c ++ drop 4 body.

Lemma reply_body_ok body : wf_bytes body → (4 ≤ length body)%nat → hdr_word 1 0 body = ICMP_ECHO → rfc1071 body = 65535 →
  answers_body body (reply_body body).
Proof.
  intros Hwf Hlen Hty Hck. destruct body as [|t [|code [|k1 [|k2 rest]]]]; try (simpl in Hlen; lia).
  assert (t = 8) as -> by (unfold hdr_word in Hty; simpl in Hty; unfold ICMP_ECHO in Hty; lia).
  repeat (apply list.Forall_cons in Hwf as [? Hwf]). pose proof (word_sum_nonneg _ Hwf) as Hr.
  set (c := k1 + 256 * k2). assert (is_u16 c) as Hc by clia.
  assert (reply_body (8 :: code :: k1 :: k2 :: rest) = [0; code] ++ le_bytes 2 (adjusted c) ++ rest) as E.
  { unfold reply_body. replace (hdr_word 2 2 _) with c by (unfold c, hdr_word; simpl; lia). done. }
  rewrite E. split; [|by eexists].
  assert (adjusted c = if c >? 0xfff7 then u16 (c + 9) else u16 (c + 8)) as Ea by done.
  assert (is_u16 (adjusted c)) as Hu by (rewrite Ea; destruct (c >? 0xfff7); apply u16_range).
  unfold rfc1071 in *. cbn [le_bytes app word_sum] in *. set (n := adjusted c) in *.
  assert (n mod 256 + 256 * (n / 256 mod 256) = n) as En by clia. rewrite En.
  pose proof (ones_complement_same (8 + 256 * code + (k1 + 256 * k2 + word_sum rest))) as Hs. rewrite Hck in Hs. fold c in Hs.
  destruct Hs as [Hs _]; [clia|]. symmetry. apply same_sum_unique; [done|clia|].
  rewrite Z.gtb_ltb in Ea. split; destruct (Z.ltb_spec 0xfff7 c); clearbody n c; clia.
Qed.

(** ** Sending the answer *)

Lemma bind_same {St B C} (m m' : M St B) (K : B → M St C) (s s' : St) : m s = m' s' → (m ≫= K) s = (m' ≫= K) s'.
Proof. intros E. unfold mbind, M_bind. by rewrite E. Qed.

Section Reply.
Context {A V : Type} `{HA : Alloc A} {elt_size : memp_t → Z} `{HL : !AllocLaws A elt_size}.
Context (hl : Z) (hl_range : 20 ≤ hl ≤ 60).
Context (uninit : world A → loc → Z → bytes) (custom_free_function : loc → M (world A) ()).
Context (stack_bytes : bytes) (addr : ptr → Z) (ptr_bytes : option loc → bytes).
Abbreviation S := (link A (ip_state V)).
Implicit Types (w : world A) (s : S) (r : loc).

(** The block of the answer: 16 bytes, the header, the message and the rest. *)
Record block s r (pre h b tl : bytes) : Prop := mk_block {
  bl_live : r ∈ live (lwld s);
  bl_data : data (lwld s) !! Own r = Some (pre ++ h ++ b ++ tl);
  bl_pre : length pre = 16%nat;
  bl_hdr : Z.of_nat (length h) = hl;
}.

Lemma block_with s r pre h b tl h' b' : block s r pre h b tl → length h' = length h →
  block (with_data r (pre ++ h' ++ b' ++ tl) s) r pre h' b' tl.
Proof. intros [H1 H2 H3 H4] El. constructor; [done|apply data_with|done|by rewrite El]. Qed.

Lemma block_set_hdr s r pre h b tl k n x : 0 ≤ k → k + Z.of_nat n ≤ hl → block s r pre h b tl →
  block (with_data r (pre ++ splice (Z.to_nat k) (le_bytes n x) h ++ b ++ tl) s) r pre (splice (Z.to_nat k) (le_bytes n x) h) b tl.
Proof. intros Hk Hn B. apply (block_with _ _ _ _ _ _ _ _ B). destruct B as [_ _ _ H4]. apply splice_length. rewrite length_le_bytes. lia. Qed.

Lemma block_set_body s r pre h b tl k n x : block s r pre h b tl →
  block (with_data r (pre ++ h ++ splice (Z.to_nat k) (le_bytes n x) b ++ tl) s) r pre h (splice (Z.to_nat k) (le_bytes n x) b) tl.
Proof. intros B. by apply (block_with _ _ _ _ _ _ _ _ B). Qed.

Lemma bind_set_hdr {C} s r pre h b tl k n x (K : () → M S C) : block s r pre h b tl → 0 ≤ k → k + Z.of_nat n ≤ hl →
  (set_field (Some (Own r, 16)) k n x ≫= K) s = K () (with_data r (pre ++ splice (Z.to_nat k) (le_bytes n x) h ++ b ++ tl) s).
Proof.
  intros [H1 H2 H3 H4] Hk Hn. rewrite (bind_set_field s r 16 _ k n x _ H1 H2) by (rewrite ?length_app; lia).
  replace (Z.to_nat (16 + k)) with (length pre + Z.to_nat k)%nat by lia. rewrite splice_app_l, splice_app_r; [done|].
  rewrite length_le_bytes. lia.
Qed.

Lemma bind_set_body {C} s r pre h b tl k n x (K : () → M S C) : block s r pre h b tl → 0 ≤ k → k + Z.of_nat n ≤ Z.of_nat (length b) →
  (set_field (Some (Own r, 16 + hl)) k n x ≫= K) s = K () (with_data r (pre ++ h ++ splice (Z.to_nat k) (le_bytes n x) b ++ tl) s).
Proof.
  intros [H1 H2 H3 H4] Hk Hn. rewrite (bind_set_field s r (16 + hl) _ k n x _ H1 H2) by (rewrite ?length_app; lia).
  replace (Z.to_nat (16 + hl + k)) with (length pre + (length h + Z.to_nat k))%nat by lia. rewrite !splice_app_l, splice_app_r; [done|].
  rewrite length_le_bytes. lia.
Qed.

Lemma bind_body {C} s r pre h b tl k n (K : Z → M S C) : block s r pre h b tl → 0 ≤ k → 0 ≤ n → k + n ≤ Z.of_nat (length b) →
  (field (Some (Own r, 16 + hl)) k n ≫= K) s = K (hdr_word (Z.to_nat n) (Z.to_nat k) b) s.
Proof.
  intros [H1 H2 H3 H4] Hk Hn Hkn. rewrite (bind_field s r (16 + hl) _ k n _ H1 H2) by (rewrite ?length_app; lia).
  replace (Z.to_nat (16 + hl + k)) with (length pre + (length h + Z.to_nat k))%nat by lia.
  rewrite (drop_app_add' pre) by done. rewrite (drop_app_add' h) by done. unfold hdr_word. rewrite drop_app_le, take_app_le by (rewrite ?length_drop; lia). done.
Qed.

Lemma bind_hdr_chksum {C} s r pre h b tl (K : Z → M S C) : block s r pre h b tl →
  (inet_chksum_at addr (Some (Own r, 16)) hl ≫= K) s = K (Chksum.inet_chksum (Z.odd (addr (Own r, 16))) h) s.
Proof.
  intros [H1 H2 H3 H4]. apply bind_Ret. unfold inet_chksum_at. rewrite (bind_load_at s r 16 _ 0 hl _ H1 H2) by (rewrite ?length_app; lia).
  change (Z.to_nat (16 + 0)) with 16%nat. rewrite drop_app_length', take_app_length' by lia. done.
Qed.

Lemma answers_dst src dst hdr rh : answers_hdr src dst hdr rh → (20 ≤ length hdr)%nat → is_u32 dst →
  length rh = length hdr ∧ ∀ x, le_word (take 4 (drop 16 (rh ++ x))) = dst.
Proof.
  intros [_ [c ->]] Hl Hd. do 20 (destruct hdr as [|? hdr]; [simpl in Hl; lia|]). split; [done|]. intros x.
  etransitivity; [|apply (le_word_bytes 4 dst); exact Hd]. done.
Qed.

(** [echo_reply] up to the call that sends the packet. *)
Lemma echo_reply_run s r src dst inp n hdr body : is_copy hl (lwld s) r hdr body → Z.of_nat (length hdr) = hl → wf_bytes hdr →
  8 ≤ Z.of_nat (length body) ≤ 1480 → netifs s !! inp = Some n → mtu n = 0 ∨ Z.of_nat (length body) + hl ≤ mtu n → is_u32 dst →
  ∃ w1 pre tl, echo_reply uninit custom_free_function stack_bytes addr ptr_bytes r src dst hl inp s =
      (_ ← etharp_output uninit custom_free_function stack_bytes inp r dst; mret ()) (with_mem w1 s) ∧
    changes [r] (lwld s) w1 ∧ pbs w1 !! r = Some (ram_pbuf r 16 (Z.of_nat (length body) + hl)) ∧ length pre = 16%nat ∧
    data w1 !! Own r = Some (pre ++ (reply_hdr (Z.odd (addr (Own r, 16))) src dst hdr ++ reply_body body) ++ tl).
Proof.
  intros [Hl Hpb (pre & tl & Hd & Hpre)] Hhl Hwf Hn Hnet Hmtu Hdst. unfold echo_reply. rewrite (bind_rd_at _ _ _ _ Hl Hpb). cbn [payload ram_pbuf].
  assert (8 ≤ length body)%nat as Hb8 by lia. set (m := Z.of_nat (length body)) in *.
  assert (pbuf_header (Some r) (s16 hl) (lwld s) = Ret (false, upd_pbs r (ram_pbuf r 16 (m + hl)) (lwld s))) as Hh.
  { unfold pbuf_header. replace (s16 hl) with hl by clia. rewrite (header_impl_ok _ r _ (Own r) (16 + hl) hl false Hl Hpb); [|done|by eexists; split; [done|lia]|lia|lia|simpl; lia|simpl; lia].
    simpl type. cbv iota. rewrite (proj2 (Z.leb_le _ _)) by lia. unfold moved, ram_pbuf. simpl. by replace (16 + hl - hl) with 16 by lia. }
  rewrite (bind_mem _ _ _ _ _ _ Hh) by done. rewrite with_mem_sent. cbv beta iota. set (w0 := upd_pbs _ _ _) in *. set (s0 := with_mem w0 s).
  erewrite (bind_rd_at s0 r (ram_pbuf r 16 (m + hl))); [|done|apply lookup_insert_eq]. cbn [payload ram_pbuf].
  assert (block s0 r pre hdr body tl) as B0 by (by constructor).
  assert (∀ x y, length (splice 2 (le_bytes 2 x) (splice 0 (le_bytes 1 y) body)) = length body) as Elb by (intros; slen).
  rewrite (bind_set_hdr _ _ _ _ _ _ 12 4 src _ B0) by lia. apply (block_set_hdr _ _ _ _ _ _ 12 4 src) in B0; [|lia..].
  rewrite (bind_set_hdr _ _ _ _ _ _ 16 4 dst _ B0) by lia. apply (block_set_hdr _ _ _ _ _ _ 16 4 dst) in B0; [|lia..].
  rewrite (bind_set_body _ _ _ _ _ _ 0 1 ICMP_ER _ B0) by lia. apply (block_set_body _ _ _ _ _ _ 0 1 ICMP_ER) in B0.
  rewrite (bind_body _ _ _ _ _ _ 2 2 _ B0) by (rewrite ?splice_length; rewrite ?length_le_bytes; lia).
  replace (hdr_word (Z.to_nat 2) (Z.to_nat 2) (splice (Z.to_nat 0) (le_bytes 1 ICMP_ER) body)) with (hdr_word 2 2 body)
    by (clear - Hb8; destruct body as [|? body]; [simpl in Hb8; lia|done]).
  set (c := hdr_word 2 2 body).
  assert (∀ (b : bool) x y, (if b then set_field (A := A) (V := V) (Some (Own r, 16 + hl)) 2 2 x else set_field (Some (Own r, 16 + hl)) 2 2 y) =
    set_field (Some (Own r, 16 + hl)) 2 2 (if b then x else y)) as Eif by (by intros []).
  rewrite Eif. fold (adjusted c).
  rewrite (bind_set_body _ _ _ _ _ _ 2 2 (adjusted c) _ B0) by (rewrite ?splice_length; rewrite ?length_le_bytes; lia).
  apply (block_set_body _ _ _ _ _ _ 2 2 (adjusted c)) in B0.
  rewrite (bind_set_hdr _ _ _ _ _ _ 8 1 (u8 ICMP_TTL) _ B0) by lia. apply (block_set_hdr _ _ _ _ _ _ 8 1 (u8 ICMP_TTL)) in B0; [|lia..].
  rewrite (bind_set_hdr _ _ _ _ _ _ 10 2 0 _ B0) by lia. apply (block_set_hdr _ _ _ _ _ _ 10 2 0) in B0; [|lia..].
  rewrite (bind_hdr_chksum _ _ _ _ _ _ _ B0).
  rewrite (bind_set_hdr _ _ _ _ _ _ 10 2 _ _ B0) by lia. apply (block_set_hdr _ _ _ _ _ _ 10 2 (Chksum.inet_chksum (Z.odd (addr (Own r, 16))) (reply_hdr0 src dst hdr))) in B0; [|lia..].
  rewrite !with_data_twice in *. change (block (with_data r (pre ++ reply_hdr (Z.odd (addr (Own r, 16))) src dst hdr ++ reply_body body ++ tl) s0) r pre
    (reply_hdr (Z.odd (addr (Own r, 16))) src dst hdr) (reply_body body) tl) in B0.
  match goal with |- context [with_data r ?x s0] => change x with (pre ++ reply_hdr (Z.odd (addr (Own r, 16))) src dst hdr ++ reply_body body ++ tl) end.
  pose proof (reply_hdr_ok (Z.odd (addr (Own r, 16))) src dst hdr Hwf ltac:(lia)) as Hans. set (rh := reply_hdr _ src dst hdr) in *. set (rb := reply_body body) in *.
  destruct (answers_dst src dst hdr rh Hans ltac:(lia) Hdst) as [Erh Eword]. set (bs := pre ++ rh ++ rb ++ tl) in *.
  assert (length rb = length body) as Erb by apply Elb.
  assert (length bs = length (pre ++ hdr ++ body ++ tl)) as Ebs by (unfold bs; rewrite !length_app; lia).
  exists (set_data <[Own r := bs]> w0), pre, tl. split_and!; [| |apply lookup_insert_eq|done|].
  - apply bind_same. destruct B0 as [Bl Bd _ _]. unfold ip4_output_if. rewrite (bind_netif _ inp n) by done. cbv zeta iota. unfold ip4_output_if_src.
    erewrite (bind_rd_at _ r (ram_pbuf r 16 (m + hl))); [|done|apply lookup_insert_eq]. rewrite bind_assert by done.
    erewrite bind_Ret; [|erewrite (bind_field _ r 16 bs 16 4); [reflexivity|done|done|lia|lia|rewrite Ebs, !length_app; lia]].
    change (Z.to_nat (16 + 16)) with (16 + 16)%nat. unfold bs at 1. rewrite (drop_app_add' pre) by done. rewrite Eword.
    erewrite (bind_rd_at _ r (ram_pbuf r 16 (m + hl))); [|done|apply lookup_insert_eq]. rewrite (bind_netif _ inp n) by done.
    replace (_ && _) with false; [done|]. symmetry. apply andb_false_iff. simpl tot_len. destruct Hmtu as [->|Hm]; [by left|right].
    rewrite Z.gtb_ltb. apply Z.ltb_ge. lia.
  - apply (changes_same (lwld s) w0); [apply changes_only; [apply only_upd|]|].
    + intros l. simpl. rewrite lookup_insert. case_decide as E; [subst l|done]. by rewrite Hpb.
    + eapply changes_with; [exact Hd|done].
  - simpl. rewrite lookup_insert_eq. unfold bs. by rewrite <- (assoc_L app).
Qed.
End Reply.

(** ** [icmp_input] *)

Section Icmp.
Context {A V : Type} `{HA : Alloc A} {elt_size : memp_t → Z} `{HL : !AllocLaws A elt_size}.
Context (hl : Z) (hl_range : 20 ≤ hl ≤ 60).
Implicit Types (w : world A) (s : link A (ip_state V)) (L : gmap loc Z) (p r : loc).

Lemma traded_gone p r w0 w1 w2 w3 : traded p r w0 w1 → except r w1 w2 → gone r w2 w3 → gone p w0 w3.
Proof.
  intros [T1 T2 T3 T4] [E1 E2 E3 _] [G1 G2 G3].
  assert (∀ l, l ∈ live w0 → l ≠ p → l ∈ live w1 ∧ l ≠ r) as Hl.
  { intros l Hl Hne. split; [rewrite T1; set_solver|by intros ->]. }
  assert (∀ x, valid x w0 = true → x ≠ Own p → valid x w1 = true ∧ x ≠ Own r) as Hx.
  { intros [l|] Hv Hne; [|done]. simpl in *. apply bool_decide_eq_true in Hv. destruct (Hl l Hv) as [? ?]; [congruence|].
    split; [by apply bool_decide_eq_true|congruence]. }
  constructor.
  - rewrite G1, E1, T1. set_solver.
  - intros l Hlv Hne. destruct (Hl l Hlv Hne). rewrite G2, E2, T2 by (done || by rewrite E1). done.
  - intros x Hv Hne. destruct (Hx x Hv Hne) as [Hv1 Hxr]. rewrite G3, E3, T3; try done.
    destruct x; [|done..]. simpl in *. by rewrite E1.
Qed.

Lemma except_trans p w1 w2 w3 : except p w1 w2 → except p w2 w3 → except p w1 w3.
Proof.
  intros [E1 E2 E3 E4] [F1 F2 F3 F4]. constructor; [congruence| | |congruence].
  - intros l Hl Hne. rewrite F2, E2 by (done || by rewrite E1). done.
  - intros x Hx Hne. rewrite F3, E3; try done. destruct x; [|done..]. simpl in *. by rewrite E1.
Qed.

Context (uninit : world A → loc → Z → bytes) (custom_free_function : loc → M (world A) ()).
Context (stack_bytes : bytes) (stack_length : length stack_bytes = 1514%nat).
Context (addr : ptr → Z) (ptr_bytes : option loc → bytes).
Hypothesis uninit_length : ∀ w l n, 0 ≤ n → Z.of_nat (length (uninit w l n)) = n.
Hypothesis pool_size : elt_size MEMP_PBUF_POOL = SIZEOF_STRUCT_PBUF + PBUF_POOL_BUFSIZE_ALIGNED.
Hypothesis ref_size : elt_size MEMP_PBUF = SIZEOF_STRUCT_PBUF.

(** The packet [m] in the pbuf [r] of the caller goes to [dst], and the pbuf is released. *)
Definition sent_and_gone w0 L0 s inp n r dst (m : bytes) s' : Prop :=
  ∃ w1 w1' L1 e s1, arp_ok w1' L0 (with_mem w1 s) L1 ∧ except r w0 w1' ∧
    match next_hop n dst with
    | None => e = ERR_RTE ∧ s1 = with_mem w1 s
    | Some h => output_post uninit custom_free_function stack_bytes w1' L0 (with_mem w1 s) inp n h r m e s1
    end ∧
    ∃ w2 w2' L2, s' = with_mem w2 s1 ∧ arp_ok w2' (delete r L0) s' L2 ∧ gone r w0 w2'.

Lemma output_post_owner w0 L0 s inp n h p m e s1 : output_post uninit custom_free_function stack_bytes w0 L0 s inp n h p m e s1 →
  ∃ w0' L', arp_ok w0' L0 s1 L' ∧ except p w0 w0'.
Proof.
  intros [(_ & i & hint & e1 & e2 & f & w' & w0' & L' & _ & _ & _ & -> & Hao & Hex & _)|(_ & i & w1 & w' & L' & e' & f & -> & _ & Hao & _)].
  - by exists w0', L'.
  - exists w0, L'. split; [done|]. by constructor.
Qed.

Lemma echo_reply_ok w0 L0 s L r src dst inp n hdr body : arp_ok w0 L0 s L → is_copy hl w0 r hdr body → r.1 = HEAP →
  Z.of_nat (length hdr) = hl → wf_bytes hdr → 8 ≤ Z.of_nat (length body) ≤ 1500 - hl →
  netifs s !! inp = Some n → netif_ok n → mtu n = 0 ∨ Z.of_nat (length body) + hl ≤ mtu n →
  is_u32 dst → unicast n dst = true → (∀ h, next_hop n dst = Some h → unicast n h = true) →
  ∃ s', (_ ← echo_reply uninit custom_free_function stack_bytes addr ptr_bytes r src dst hl inp; free_packet custom_free_function r) s = Ret ((), s') ∧
    sent_and_gone w0 L0 s inp n r dst (reply_hdr (Z.odd (addr (Own r, 16))) src dst hdr ++ reply_body body) s'.
Proof.
  intros Hao [Hl Hpb Hd] Hheap Hhl Hwf Hn Hnet Hok Hmtu Hdst Hu Huh. pose proof Hao as [Ht Hm Hh]. pose proof (am_grown _ _ _ _ _ Hm) as Hg.
  assert (is_copy hl (lwld s) r hdr body) as Hc.
  { constructor; [rewrite (gr_live _ _ _ _ _ _ Hg); set_solver|by rewrite (gr_pbs _ _ _ _ _ _ Hg)|].
    rewrite (gr_data _ _ _ _ _ _ Hg); [done|]. by apply bool_decide_eq_true. }
  destruct (echo_reply_run hl hl_range uninit custom_free_function stack_bytes addr ptr_bytes s r src dst inp n hdr body Hc Hhl Hwf ltac:(lia) Hnet Hmtu Hdst)
    as (w1 & pre & tl & Hrun & Hch & Hpb1 & Hpre & Hd1). set (m := reply_hdr _ _ _ _ ++ _) in *. set (k := Z.of_nat (length body) + hl) in *.
  assert (Z.of_nat (length m) = k) as Hk.
  { unfold m, reply_hdr, reply_hdr0, reply_body. rewrite length_app. repeat (rewrite splice_length by slen). lia. }
  destruct (rebase_ok _ _ _ _ _ _ _ Hm Hch Hl) as [Hm1 Hex]; [unfold owner; by rewrite Hpb1, (ic_pbs _ _ _ _ _ Hc)|].
  assert (arp_ok (rebase w1 w0) L0 (with_mem w1 s) L) as Hao1 by done.
  assert (ip_packet (rebase w1 w0) r [(r, ram_pbuf r 16 k)] [m]) as Hip.
  { assert (is_ram (rebase w1 w0) {[r]} r 16 k (pre ++ m ++ tl)) as Hram.
    { constructor; [set_solver|done|done|rewrite !length_app; lia]. }
    assert (m = take (Z.to_nat k) (drop (Z.to_nat 16) (pre ++ m ++ tl))) as Em.
    { change (Z.to_nat 16) with 16%nat. by rewrite drop_app_length', take_app_length' by lia. }
    pose proof (ram_packet _ _ _ _ _ _ Hram Hl ltac:(unfold is_u16; lia)) as Hp. rewrite <- Em in Hp.
    constructor; [constructor|].
    - exact Hp.
    - constructor; [simpl; lia|constructor].
    - by eexists _, _.
    - simpl. lia.
    - eexists _, [], _, [], 16, (pre ++ m ++ tl). split_and!; try done; [apply list.NoDup_singleton|by left|]. simpl. rewrite !length_app. lia. }
  destruct (etharp_output_ok uninit custom_free_function stack_bytes stack_length uninit_length pool_size ref_size (rebase w1 w0) L0 (with_mem w1 s) L inp n dst r
    _ _ Hao1 Hnet Hok Hu Huh Hip) as (e & s1 & Hrun1 & Hpost).
  cbn [concat] in Hpost. rewrite app_nil_r in Hpost.
  assert (∃ w2' L2, arp_ok w2' L0 s1 L2 ∧ except r (rebase w1 w0) w2') as (w2' & L2 & Hao2 & Hex2).
  { destruct (next_hop n dst) as [h|].
    - by eapply output_post_owner.
    - destruct Hpost as [_ ->]. exists (rebase w1 w0), L. split; [done|by constructor]. }
  assert (owner w2' r = Some (None, 1)) as Hown by (rewrite (ex_owner _ _ _ Hex2); unfold owner; simpl; by rewrite Hpb1).
  assert (r ∈ live w2') as Hl2 by (by rewrite (ex_live _ _ _ Hex2)).
  unfold owner in Hown. destruct (pbs w2' !! r) as [pb2|] eqn:Hpb2; [|done]. injection Hown as Hnx2 Href2.
  destruct (free_packet_ok custom_free_function _ _ _ _ r pb2 Hao2 Hl2) as (w3 & w3' & L3 & Hfree & Hao3 & Hgone); [by rewrite Hheap| |done|done|].
  { by rewrite (gr_pbs _ _ _ _ _ _ (am_grown _ _ _ _ _ (ao_mem _ _ _ _ Hao2))). }
  exists (with_mem w3 s1). split.
  - erewrite bind_Ret; [exact Hfree|]. rewrite Hrun. by rewrite (bind_Ret _ _ _ _ _ Hrun1).
  - exists w1, (rebase w1 w0), L, e, s1. split_and!; [done|done|done|]. exists w3, w3', L3. split_and!; [done|done|].
    eapply gone_except; [|exact Hgone]. by eapply except_trans.
Qed.

(** An echo request for the address [dest] of the interface [n]. *)
Definition is_echo n (dest : Z) (body : bytes) : bool :=
  (8 <=? Z.of_nat (length body)) && (hdr_word 1 0 body =? ICMP_ECHO) && negb (ip4_addr_ismulticast dest) &&
  (ip4_addr_isbroadcast_u32 dest n =? 0) && (rfc1071 body =? 65535).

(** The packet [p] is released and nothing else happens. *)
Definition dropped w0 L0 s p s' : Prop := ∃ w w' L', s' = with_mem w s ∧ arp_ok w' (delete p L0) s' L' ∧ gone p w0 w'.

(** The packet is answered, or released without an answer when memory is short. *)
Definition echo_post w0 L0 s inp n p dest src (hdr body : bytes) s' : Prop :=
  dropped w0 L0 s p s' ∧ (∃ w, pbuf_alloc uninit custom_free_function PBUF_LINK (Z.of_nat (length body) + hl) PBUF_RAM (lwld s) = Ret (None, w)) ∨
  ∃ rh rb r w1 w1' L1' L1, answers_hdr dest src hdr rh ∧ answers_body body rb ∧
    (∃ w, pbuf_alloc uninit custom_free_function PBUF_LINK (Z.of_nat (length body) + hl) PBUF_RAM (lwld s) = Ret (Some r, w)) ∧
    arp_ok w1' L1' (with_mem w1 s) L1 ∧ sent_and_gone w1' L1' (with_mem w1 s) inp n r src (rh ++ rb) s' ∧
    ∃ w2 L2, arp_ok w2 (delete p L0) s' L2 ∧ gone p w0 w2.

Lemma free_request w0 L0 s L p pb bs hdr body : arp_ok w0 L0 s L → request hl w0 p pb bs hdr body →
  ∃ s', free_packet custom_free_function p s = Ret ((), s') ∧ dropped w0 L0 s p s'.
Proof.
  intros Hao [Hp Hpay Hty Hnx Hbs Hh [Hcu Href]]. pose proof (packet_cons _ _ _ _ _ _ _ Hp) as (_ & Hl & Hpb & _).
  destruct (free_packet_ok custom_free_function w0 L0 s L p pb Hao Hl Hcu) as (w & w' & L' & Hrun & Hao' & Hg); [|done|done|].
  { by rewrite (gr_pbs _ _ _ _ _ _ (am_grown _ _ _ _ _ (ao_mem _ _ _ _ Hao))). }
  exists (with_mem w s). split; [done|]. by exists w, w', L'.
Qed.

(** [icmp_input] on a packet in one pbuf. *)
Lemma icmp_input_ok w0 L0 s L p pb bs hdr body inp id n nd g : arp_ok w0 L0 s L → request hl w0 p pb bs hdr body →
  ip_data (upper s) = current (current_iphdr_src g) (current_iphdr_dest g) id inp hl (Own p, 14) →
  hdr_hlen hdr = hl → wf_bytes hdr → wf_bytes body → len pb ≤ 1500 - hl →
  netifs s !! inp = Some n → netifs s !! id = Some nd → netif_ok n → mtu n = 0 ∨ len pb + hl ≤ mtu n →
  is_u32 (current_iphdr_src g) → unicast n (current_iphdr_src g) = true →
  (∀ h, next_hop n (current_iphdr_src g) = Some h → unicast n h = true) →
  ∃ s', icmp_input uninit custom_free_function stack_bytes addr ptr_bytes p inp s = Ret ((), s') ∧
    if is_echo nd (current_iphdr_dest g) body
    then echo_post w0 L0 s inp n p (current_iphdr_dest g) (current_iphdr_src g) hdr body s'
    else dropped w0 L0 s p s'.
Proof.
  intros Hao Hrq0 Eg Hhl Hwh Hwb Hlen Hnet Hnd Hok Hmtu Hsrc Hu Huh. pose proof (am_grown _ _ _ _ _ (ao_mem _ _ _ _ Hao)) as Hg.
  pose proof (request_grown hl _ _ _ _ _ _ _ _ _ _ _ Hg Hrq0) as [Hp Hpay Hty Hnx Hbs [Hh Hfit] [Hcu Href]].
  pose proof (packet_cons _ _ _ _ _ _ _ Hp) as (_ & Hl & Hpb & _ & Hld & Hbl & Htl & _). simpl in Htl.
  destruct (free_request _ _ _ _ _ _ _ _ _ Hao Hrq0) as (sd & Hdrop & Hdr).
  set (src := current_iphdr_src g) in *. set (dest := current_iphdr_dest g) in *.
  unfold icmp_input. rewrite bind_rd_ip, Eg. cbn [current_ip4_header current current_iphdr_dest current_iphdr_src current_netif]. cbv zeta.
  assert (∀ C (K : Z → M (link A (ip_state V)) C), (IPH_HL (Some (Own p, 14)) ≫= K) s = K (Z.land (hdr_word 1 0 hdr) 0x0f) s) as Ehl.
  { intros C K. apply bind_Ret. unfold IPH_HL. rewrite (bind_field s p 14 bs 0 1) by (done || lia).
    change (Z.to_nat (14 + 0)) with 14%nat. rewrite <- Hh. unfold hdr_word. rewrite drop_0, take_take. by replace (1 `min` Z.to_nat hl)%nat with 1%nat by lia. }
  rewrite Ehl. fold (hdr_hlen hdr). rewrite Hhl, (bind_rd_at _ _ _ _ Hl Hpb). rewrite (proj2 (Z.ltb_ge hl IP_HLEN)) by (unfold IP_HLEN; lia).
  assert (∀ b, is_echo nd dest body = b → b = false → (free_packet custom_free_function p s = Ret ((), sd)) ∧
    if b then echo_post w0 L0 s inp n p dest src hdr body sd else dropped w0 L0 s p sd) as Hfail by (intros ? _ ->; done).
  assert (body = take (Z.to_nat (len pb)) (drop (Z.to_nat (14 + hl)) bs)) as Ebody by (apply (packet_bytes _ _ _ _ _ _ _ _ Hp Hpay Hbs); lia).
  destruct (Z.ltb_spec (len pb) 4) as [H4|H4].
  { exists sd. apply Hfail; [done|]. unfold is_echo. rewrite (proj2 (Z.leb_gt _ _)) by lia. done. }
  rewrite Hpay, (bind_field s p (14 + hl) bs 0 1) by (done || lia).
  replace (le_word (take (Z.to_nat 1) (drop (Z.to_nat (14 + hl + 0)) bs))) with (hdr_word 1 0 body).
  2:{ rewrite Ebody. unfold hdr_word. rewrite drop_0, take_take, Z.add_0_r. by replace (1 `min` Z.to_nat (len pb))%nat with 1%nat by lia. }
  destruct (hdr_word 1 0 body =? ICMP_ECHO) eqn:Ety.
  2:{ exists sd. apply Hfail; [done|]. unfold is_echo. by rewrite Ety, andb_false_r. }
  destruct (ip4_addr_ismulticast dest) eqn:Emc.
  { exists sd. apply Hfail; [done|]. unfold is_echo. by rewrite Emc, !andb_false_r. }
  erewrite bind_Ret by reflexivity. rewrite (bind_netif _ _ _ _ Hnd).
  destruct (ip4_addr_isbroadcast_u32 dest nd =? 0) eqn:Ebc; cbn [negb].
  2:{ exists sd. apply Hfail; [done|]. unfold is_echo. by rewrite Ebc, !andb_false_r. }
  rewrite Htl, Z.add_0_r. destruct (Z.ltb_spec (len pb) SIZEOF_ICMP_ECHO_HDR) as [H8|H8]; unfold SIZEOF_ICMP_ECHO_HDR in H8.
  { exists sd. apply Hfail; [done|]. unfold is_echo. rewrite (proj2 (Z.leb_gt _ _)) by lia. done. }
  pose proof (inet_chksum_pbuf_ok addr _ _ _ _ Hp ltac:(by apply list.Forall_singleton)) as Hck. cbn [concat] in Hck. rewrite app_nil_r in Hck.
  rewrite (bind_mem _ _ _ _ _ _ Hck) by done. rewrite with_mem_sent, with_mem_id.
  destruct (Z.eqb_spec (65535 - rfc1071 body) 0) as [E0|E0]; cbn [negb].
  2:{ exists sd. apply Hfail; [done|]. unfold is_echo. rewrite (proj2 (Z.eqb_neq (rfc1071 body) 65535)) by lia. by rewrite !andb_false_r. }
  assert (rfc1071 body = 65535) as Erfc by lia. apply Z.eqb_eq in Ety.
  assert (is_echo nd dest body = true) as ->.
  { unfold is_echo. by rewrite (proj2 (Z.leb_le _ _)), (proj2 (Z.eqb_eq _ _) Ety), Emc, Ebc, (proj2 (Z.eqb_eq _ _) Erfc) by lia. }
  assert (Z.of_nat (length hdr) = hl) as Elh by (rewrite <- Hh, length_take, length_drop; lia).
  destruct (echo_room_ok hl hl_range uninit custom_free_function uninit_length pool_size ref_size _ _ _ _ _ _ _ _ _ Hao Hrq0 ltac:(lia)) as ([r|] & w1 & L1 & Hroom & Hpost);
    rewrite (bind_Ret _ _ _ _ _ Hroom).
  - destruct Hpost as (k & w1' & Hao1 & Htr & Hcopy & Hheap & Hfresh & Halloc).
    destruct (echo_reply_ok _ _ (with_mem w1 s) _ r dest src inp n hdr body Hao1 Hcopy Hheap Elh Hwh ltac:(lia) Hnet Hok ltac:(rewrite Hbl; exact Hmtu) Hsrc Hu Huh)
      as (s' & Hrun & Hsent).
    exists s'. split; [done|]. right. eexists _, _, r, w1, w1', _, L1.
    split_and!; [by apply reply_hdr_ok; [|lia]|by apply reply_body_ok; [|lia|..]|by rewrite Hbl|exact Hao1|exact Hsent|].
    destruct Hsent as (w2 & w2' & L2 & e & s1 & _ & Hex & _ & w3 & w3' & L3 & -> & Hao3 & Hgone). exists w3', L3.
    assert (r ≠ p) as Hne by (intros ->; by apply (td_fresh _ _ _ _ Htr), (packet_cons _ _ _ _ _ _ _ (rq_packet _ _ _ _ _ _ _ Hrq0))).
    split; [|eapply (traded_gone p r w0 w1' w1' w3'); [done|by constructor|done]].
    by rewrite delete_delete, delete_insert_id in Hao3.
  - destruct Hpost as [Hao1 Hnone]. destruct (free_request _ _ _ _ _ _ _ _ _ Hao1 Hrq0) as (s' & Hrun & Hd). exists s'. split; [done|]. left.
    split; [exact Hd|]. exists w1. by rewrite Hbl.
Qed.
End Icmp.

(** ** From [ip4_input] to the answer *)

Lemma bind_bind {St B C D} (m : M St B) (K : B → M St C) (K' : C → M St D) s : ((m ≫= K) ≫= K') s = (m ≫= λ x, K x ≫= K') s.
Proof. unfold mbind, M_bind. by destruct (m s) as [[]|]. Qed.

Section Ping.
Context {A V : Type} `{HA : Alloc A} {elt_size : memp_t → Z} `{HL : !AllocLaws A elt_size}.
Context (uninit : world A → loc → Z → bytes) (custom_free_function : loc → M (world A) ()).
Context (stack_bytes : bytes) (addr : ptr → Z) (ptr_bytes : option loc → bytes) (ptr_of : bytes → option loc).
Context (tcp_input : loc → Z → M (link A (ip_state V)) ()).
Abbreviation S := (link A (ip_state V)).
Abbreviation ip4_input := (ip4_input uninit custom_free_function stack_bytes addr ptr_bytes ptr_of tcp_input).
Implicit Types (w : world A) (s : S) (p : loc).

Definition no_globals : ip_globals := mk_globals None None None 0 IPADDR_ANY IPADDR_ANY.
Definition reset_globals s : S := with_ip (lwld s) (set_ip_data no_globals (upper s)) s.

(** What an accepted packet that is not a fragment is passed on with. *)
Lemma ip4_input_deliver w0 L0 s L p pb o bs inp n id : arp_ok w0 L0 s L → rx_pbuf w0 p pb o bs → netifs s !! inp = Some n →
  Forall (λ id, is_Some (netifs s !! id)) (netif_list (upper s)) → let h := drop (Z.to_nat o) bs in wf_bytes h →
  verdict s n inp (Z.odd (addr (Own p, o))) h (len pb) = Some id → is_fragment h = false →
  let hl := hdr_hlen h in
  let g := current (hdr_word 4 12 h) (hdr_word 4 16 h) id inp hl (Own p, o) in
  20 ≤ hl ≤ 60 ∧ hl ≤ hdr_len h ≤ len pb ∧
  ∃ w1 pb1, let s1 := with_ip w1 (set_ip_data g (upper s)) s in
    ip4_input p inp s =
      (_ ← (if hdr_word 1 9 h =? IP_PROTO_TCP then tcp_input p inp
            else if hdr_word 1 9 h =? IP_PROTO_ICMP then icmp_input uninit custom_free_function stack_bytes addr ptr_bytes p inp
            else
              ip ← rd_ip;
              n ← rd_netif id;
              _ ← (if (ip4_addr_isbroadcast_u32 (current_iphdr_dest (ip_data ip)) n =? 0) && negb (ip4_addr_ismulticast (current_iphdr_dest (ip_data ip))) then
                     _ ← on_mem (pbuf_header_force (Some p) hl);
                     _ ← on_mem (upd p (set_payload (Some (Own p, o))));
                     icmp_dest_unreach uninit custom_free_function stack_bytes addr ptr_bytes p ICMP_DUR_PROTO
                   else mret ());
              free_packet custom_free_function p);
       _ ← upd_ip (set_ip_data no_globals); mret ERR_OK) s1 ∧
    arp_ok (rebase w1 w0) L0 s1 L ∧ except p w0 (rebase w1 w0) ∧ changes [p] (lwld s) w1 ∧ data (rebase w1 w0) !! Own p = Some bs ∧
    payload pb1 = Some (Own p, o + hl) ∧ type pb1 = PBUF_POOL ∧ next pb1 = None ∧ ref pb1 = 1 ∧ len pb1 = hdr_len h - hl ∧
    packet (rebase w1 w0) (Some p) [(p, pb1)] [drop (Z.to_nat hl) (take (Z.to_nat (hdr_len h)) h)].
Proof.
  intros Hao Hrx0 Hn Hids h Hwf Hv Hfr hl g. pose proof Hao as [Ht Hm Hh]. pose proof (rx_grown _ _ _ _ _ _ _ _ _ _ (am_grown _ _ _ _ _ Hm) Hrx0) as Hrx.
  destruct (ip4_input_run uninit custom_free_function stack_bytes addr ptr_bytes ptr_of tcp_input s p pb o bs inp n Hrx Hn Hids) as (m & i & Hrun & H0 & _ & Hi).
  fold h in Hrun, Hi. rewrite Hv in Hrun, Hi. destruct (Hi ltac:(by eexists)) as [-> ->]. clear Hi.
  assert (hdr_ok (Z.odd (addr (Own p, o))) h (len pb) = true) as Hok.
  { unfold verdict in Hv. by destruct (hdr_ok _ _ _). }
  unfold hdr_ok in Hok. rewrite !andb_true_iff, !Z.leb_le in Hok. destruct Hok as [[[[_ K1] K2] K3] _]. unfold IP_HLEN in K1. fold hl in K1, K2.
  assert (20 ≤ hl ≤ 60) as Hhl.
  { split; [done|]. unfold hl, hdr_hlen. change 0x0f with (Z.ones 4). rewrite Z.land_ones by lia. pose proof (Z.mod_pos_bound (hdr_word 1 0 h) (2 ^ 4)). lia. }
  split; [done|]. split; [done|].
  destruct (rx_changes _ _ _ (hdr_len h) _ _ Hrx H0) as (Hrx1 & Hch & El). set (w1 := upd_pbs _ _ _) in *. set (pb1 := cut_to _ pb) in *.
  assert (len pb1 = hdr_len h) as El1 by lia.
  set (s1 := with_ip w1 _ s) in *.
  destruct (deliver_run uninit custom_free_function stack_bytes addr ptr_bytes ptr_of tcp_input s1 p pb1 o bs inp id Hrx1) as (w2 & Hrun2 & Hch2 & Hd2 & Hpb2 & Hp2).
  { fold h hl. lia. }
  { unfold hdr_word. fold h. rewrite drop_0. assert (wf_bytes (take 1 h)) as Hw by (by apply Forall_take). apply le_word_range in Hw.
    rewrite length_take in Hw. destruct (decide (length h = 0)%nat) as [E|E]; [rewrite E in Hw; simpl in Hw; lia|].
    replace (1 `min` length h)%nat with 1%nat in Hw by lia. exact Hw. }
  fold h hl in Hrun2, Hpb2, Hp2. pose proof (changes_same _ _ _ _ Hch Hch2) as C.
  assert (next pb1 = next pb ∧ ref pb1 = ref pb ∧ type pb1 = type pb ∧ payload pb1 = payload pb) as (E1 & E2 & E3 & E4) by (unfold pb1, cut_to; by destruct (_ <? _)).
  destruct (rebase_ok _ _ _ _ _ _ _ Hm C (rx_live _ _ _ _ _ Hrx0)) as [Hm2 Hex].
  { unfold owner. rewrite Hpb2, (rx_pbs _ _ _ _ _ Hrx). simpl. by rewrite E1, E2. }
  exists w2, (moved (- hl) (Own p) o pb1). split_and!.
  - rewrite Hrun. unfold input_rest. rewrite Hfr. erewrite bind_Ret by reflexivity. fold hl.
    transitivity ((ip4_deliver uninit custom_free_function stack_bytes addr ptr_bytes tcp_input p hl inp id ≫= λ _, mret ERR_OK) s1); [done|].
    erewrite (bind_same (ip4_deliver _ _ _ _ _ _ _ _ _ _)) by exact Hrun2. cbv zeta. rewrite bind_bind. done.
  - done.
  - done.
  - done.
  - simpl. rewrite Hd2. apply Hrx1.
  - simpl. do 2 f_equal. lia.
  - simpl. rewrite E3. apply Hrx0.
  - simpl. rewrite E1. apply Hrx0.
  - simpl. rewrite E2. apply Hrx0.
  - simpl. lia.
  - rewrite El1 in Hp2. apply packet_rebase; [done| |].
    + intros l ->%list_elem_of_singleton. apply Hrx0.
    + intros x Hx. cbn [regions] in Hx. rewrite app_nil_r in Hx. unfold region_list in Hx. cbn [moved len payload] in Hx.
      destruct (len pb1 + - hl =? 0); [by apply elem_of_nil in Hx|]. apply list_elem_of_singleton in Hx as ->. simpl. apply bool_decide_eq_true, Hrx0.
Qed.
End Ping.
