(* ===== verification/IpSpec.v ===== *)
(** * IPv4 and ICMP: theorems

    What the IPv4 layer promises: packets go out with a header that verifies, over the
    interface the routing rule names; packets that come in are passed on or released;
    pings are answered. *)

From S2P Require Import Prelude CLib Def Mem Memp Alloc Pbuf PbufChain PbufWrite PbufOwn PbufOps PbufSpec PbufRam Chksum Ip4Addr Link LinkSpec Etharp EtharpTable EtharpSpec EtharpInput ArpSpec Ip4 Ip4Reass Ip4Input Ip4Spec Ip4InputSpec IcmpSpec.
Import Def.Def Pbuf Ip4Addr.Ip4Addr Link Etharp Ip4 Reass Ip4Input.

Section Claims.
Context {A V : Type} `{HA : Alloc A} {elt_size : memp_t → Z} `{HL : !AllocLaws A elt_size}.
Context (uninit : world A → loc → Z → bytes) (custom_free_function : loc → M (world A) ()).
Context (stack_bytes : bytes) (stack_length : length stack_bytes = 1514%nat).
Context (addr : ptr → Z) (ptr_bytes : option loc → bytes) (ptr_of : bytes → option loc).
Context (tcp_input : loc → Z → M (link A (ip_state V)) ()).
Hypothesis uninit_length : ∀ (w : world A) l n, 0 ≤ n → Z.of_nat (length (uninit w l n)) = n.
Hypothesis pool_size : elt_size MEMP_PBUF_POOL = SIZEOF_STRUCT_PBUF + PBUF_POOL_BUFSIZE_ALIGNED.
Hypothesis ref_size : elt_size MEMP_PBUF = SIZEOF_STRUCT_PBUF.
Abbreviation S := (link A (ip_state V)).
Abbreviation ip4_input := (ip4_input uninit custom_free_function stack_bytes addr ptr_bytes ptr_of tcp_input).
Implicit Types (w : world A) (s : S) (p : loc).

(** C16: a ping is answered.  [ip4_input] takes an echo request for an address of the
    host whose header and checksums are right, from a sender whose address on the link
    is known.  If memory for a copy is free, one frame goes to the sender: the request
    with its addresses exchanged, a fresh time to live, the type of a reply, and both
    checksums right.  The request is released, and the rest of memory is as it was. *)
Theorem ping_is_answered w0 L0 s L p pb bs inp n id nd h e : arp_ok w0 L0 s L → rx_pbuf w0 p pb 14 bs → wf_bytes bs →
  netifs s !! inp = Some n → Forall (λ id, is_Some (netifs s !! id)) (netif_list (upper s)) → netifs s !! id = Some nd →
  let m := drop 14 bs in
  let hl := hdr_hlen m in
  let body := drop (Z.to_nat hl) (take (Z.to_nat (hdr_len m)) m) in
  let src := hdr_word 4 12 m in
  let dest := hdr_word 4 16 m in
  verdict s n inp (Z.odd (addr (Own p, 14))) m (len pb) = Some id → is_fragment m = false →
  hdr_word 1 9 m = IP_PROTO_ICMP → is_echo nd dest body = true →
  netif_ok n → hdr_len m ≤ 1500 → mtu n = 0 ∨ hdr_len m ≤ mtu n →
  unicast n src = true → next_hop n src = Some h → unicast n h = true →
  e ∈ arp_table s → is_stable e = true → ipaddr e = h →
  ∃ wa s', changes [p] (lwld s) wa ∧ ip4_input p inp s = Ret (ERR_OK, s') ∧
    (∃ w2 L2, arp_ok w2 (delete p L0) s' L2 ∧ gone p w0 w2) ∧
    match pbuf_alloc uninit custom_free_function PBUF_LINK (hdr_len m) PBUF_RAM wa with
    | Ret (None, _) => wire s' = wire s
    | _ => ∃ rh rb f, answers_hdr dest src (take (Z.to_nat hl) m) rh ∧ answers_body body rb ∧
        wire s' = wire s ++ f ++ [eth_frame (ethaddr e) (hwaddr n) ETHTYPE_IP (rh ++ rb)] ∧
        (f = [] ∨ ∃ dst, f = [arp_request_frame n dst h])
    end.
Proof.
  intros Hao Hrx Hwf Hn Hids Hnd m hl body src dest Hv Hfr Hproto Hecho Hok Hlen Hmtu Hu Hnh Huh He Hst Eh.
  assert (wf_bytes m) as Hwm by (by apply Forall_drop).
  destruct (ip4_input_deliver uninit custom_free_function stack_bytes addr ptr_bytes ptr_of tcp_input w0 L0 s L p pb 14 bs inp n id Hao Hrx Hn Hids Hwm Hv Hfr)
    as (Hhl & Hll & w1 & pb1 & Hrun & Hao1 & Hex & Hch & Hd & Hpay & Hty & Hnx & Href & Hl1 & Hp).
  change (drop (Z.to_nat 14) bs) with m in *. fold hl in Hhl, Hll, Hrun, Hao1, Hpay, Hl1, Hp. fold body in Hp. rewrite Hproto in Hrun. cbn [Z.eqb Pos.eqb IP_PROTO_ICMP IP_PROTO_TCP] in Hrun.
  set (s1 := with_ip w1 _ s) in *. fold src dest in s1.
  pose proof (packet_cons _ _ _ _ _ _ _ Hp) as (_ & _ & _ & _ & _ & Hbl & _).
  assert (hl + len pb1 = hdr_len m) as Hsum by lia. pose proof (rx_fits _ _ _ _ _ Hrx) as [Hfit _].
  assert (request hl (rebase w1 w0) p pb1 bs (take (Z.to_nat hl) m) body) as Hrq.
  { constructor; try done; [|split; [apply Hrx|done]]. split; [done|lia]. }
  destruct (icmp_input_ok hl Hhl uninit custom_free_function stack_bytes stack_length addr ptr_bytes uninit_length pool_size ref_size
    (rebase w1 w0) L0 s1 L p pb1 bs (take (Z.to_nat hl) m) body inp id n nd (mk_globals None None None 0 src dest) Hao1 Hrq eq_refl) as (s2 & Hrun2 & Hpost).
  { change (Z.land (le_word (take 1 (take (Z.to_nat hl) m))) 0x0f * 4 = Z.land (le_word (take 1 m)) 0x0f * 4).
    rewrite take_take. by replace (1 `min` Z.to_nat hl)%nat with 1%nat by lia. }
  { by apply Forall_take. }
  { by apply Forall_drop, Forall_take. }
  { lia. }
  { done. }
  { done. }
  { done. }
  { destruct Hmtu; [by left|right; lia]. }
  { cbn [current_iphdr_src]. pose proof (le_word_range (take 4 (drop 12 m)) ltac:(by apply Forall_take, Forall_drop)) as Hr.
    rewrite length_take, length_drop in Hr. unfold is_u32, src, hdr_word. destruct Hr as [? Hr]. split; [done|]. eapply Z.lt_le_trans; [exact Hr|].
    change (2 ^ 32) with (256 ^ 4). apply Z.pow_le_mono_r; lia. }
  { done. }
  { cbn [current_iphdr_src]. rewrite Hnh. by intros ? [= <-]. }
  cbn [current_iphdr_src current_iphdr_dest] in Hpost. rewrite Hecho in Hpost.
  exists w1, (reset_globals s2). split; [done|]. split; [by rewrite Hrun, (bind_Ret _ _ _ _ _ Hrun2)|].
  assert (Z.of_nat (length body) + hl = hdr_len m) as Esum by lia.
  destruct Hpost as [[(w & w' & L' & -> & Hao2 & Hg) [wn Hnone]]|(rh & rb & r & w3 & w3' & L3' & L3 & Hrh & Hrb & [wr Hsome] & Hao3 & Hsent & w2 & L2 & Hao2 & Hg)].
  - rewrite <- Esum. change (lwld s1) with w1 in Hnone. rewrite Hnone. split; [|done]. exists w', L'. split; [by destruct Hao2|by eapply gone_except].
  - rewrite <- Esum. change (lwld s1) with w1 in Hsome. rewrite Hsome. split; [exists w2, L2; split; [by destruct Hao2|by eapply gone_except]|]. exists rh, rb.
    destruct Hsent as (w4 & w4' & L4 & err & s4 & _ & _ & Hout & w5 & w5' & L5 & -> & _). rewrite Hnh in Hout.
    destruct Hout as [(_ & i & hint & e1 & e1' & f & w6 & w6' & L6 & Hi & Hst1 & Ea & -> & _ & _ & Hf)|[Hno _]].
    + assert (e1 = e) as ->. { apply list_elem_of_lookup_1 in He as [j Hj]. assert (i = j) as <-; [|apply (inj Some); by rewrite <- Hi, <- Hj].
        assert (∀ x, is_stable x = true → nonempty x = true) as Hne by (intros x; by destruct (nonempty x) eqn:Ex; [|destruct (empty_class x Ex) as [-> _]]).
        eapply (to_distinct _ _ (ao_table _ _ _ _ Hao)); eauto. congruence. }
      exists f. split_and!; [done|done|done|]. unfold refreshed in Hf. destruct (_ && _); [|left; apply Hf].
      destruct Hf as [[_ ->]|(_ & -> & _)]; [right|by left]. eexists. by rewrite Ea.
    + by rewrite (Hno e) in Hst.
Qed.

(** C17: [ip4_input] takes a packet only when its header is well formed and
    verifies, its source is a host and an interface accepts its destination.  Every
    other packet is released, and nothing else changes but the globals with the
    current source and destination, which are set once the header verifies and then
    stay: no frame is sent, and the ARP table, the list of fragments, [ip_id] and the
    state of TCP are as before.  A TCP segment that is taken and not fragmented reaches
    [tcp_input] cut to the length of its header field and without the header, with the
    globals set to its addresses, and the globals are reset afterwards. *)
Theorem ip4_input_filters w0 L0 s L p pb o bs inp n : arp_ok w0 L0 s L → rx_pbuf w0 p pb o bs → wf_bytes bs →
  netifs s !! inp = Some n → Forall (λ id, is_Some (netifs s !! id)) (netif_list (upper s)) →
  let m := drop (Z.to_nat o) bs in
  let hl := hdr_hlen m in
  match verdict s n inp (Z.odd (addr (Own p, o))) m (len pb) with
  | None =>
      let i := if hdr_ok (Z.odd (addr (Own p, o))) m (len pb) then with_addrs (hdr_word 4 12 m) (hdr_word 4 16 m) (upper s) else upper s in
      ∃ w w0' L', ip4_input p inp s = Ret (ERR_OK, with_ip w i s) ∧ arp_ok w0' (delete p L0) (with_ip w i s) L' ∧ gone p w0 w0'
  | Some id => is_fragment m = false → hdr_word 1 9 m = IP_PROTO_TCP →
      20 ≤ hl ≤ 60 ∧ hl ≤ hdr_len m ≤ len pb ∧
      ∃ w1 w0' pb1, let s1 := with_ip w1 (set_ip_data (current (hdr_word 4 12 m) (hdr_word 4 16 m) id inp hl (Own p, o)) (upper s)) s in
        ip4_input p inp s = (_ ← tcp_input p inp; _ ← upd_ip (set_ip_data no_globals); mret ERR_OK) s1 ∧
        arp_ok w0' L0 s1 L ∧ except p w0 w0' ∧
        packet w0' (Some p) [(p, pb1)] [drop (Z.to_nat hl) (take (Z.to_nat (hdr_len m)) m)]
  end.
Proof.
  intros Hao Hrx Hwf Hn Hids m hl. destruct (verdict _ _ _ _ _ _) as [id|] eqn:Hv; [|by apply (ip4_input_drop _ _ _ _ _ _ _ w0 L0 s L p pb o bs inp n)].
  intros Hfr Hproto.
  destruct (ip4_input_deliver uninit custom_free_function stack_bytes addr ptr_bytes ptr_of tcp_input w0 L0 s L p pb o bs inp n id Hao Hrx Hn Hids
    ltac:(by apply Forall_drop) Hv Hfr) as (Hhl & Hll & w1 & pb1 & Hrun & Hao1 & Hex & _ & _ & _ & _ & _ & _ & _ & Hp).
  fold m in Hrun. rewrite Hproto in Hrun. split; [done|]. split; [done|]. by exists w1, (rebase w1 w0), pb1.
Qed.

(** C18: [ip4_output] sends a packet that fits the interface over the interface the
    routing rule names: the first usable one that is on the network of the
    destination, or that has no broadcast and the destination as its gateway; else the
    default one, if it is usable.  In front of the packet's bytes it puts a header with
    the identification [ip_id], which moves on by one, and a checksum that verifies,
    and the packet with its header goes to [etharp_output], which sends it or keeps it
    for an address that is not resolved, unless the heap has no room for a copy.
    Without a route nothing happens. *)
Theorem ip4_output_sends w0 L0 s L p pb cs d ds o bs src dest ttl tos proto : arp_ok w0 L0 s L →
  Forall (λ id, is_Some (netifs s !! id)) (netif_list (upper s)) →
  (∀ id, netif_default (upper s) = Some id → is_Some (netifs s !! id)) →
  packet w0 (Some p) ((p, pb) :: cs) (d :: ds) → head_room w0 p pb cs o bs 34 → positive cs →
  is_u8 ttl → is_u8 tos → is_u8 proto → is_u32 src → is_u32 dest → lens ((p, pb) :: cs) + 20 ≤ 1500 →
  ∃ r, route_post s dest r ∧
    let out := ip4_output uninit custom_free_function stack_bytes addr ptr_bytes p (Some src) dest ttl tos proto s in
    match r with
    | None => out = Ret (ERR_RTE, s)
    | Some id => ∀ n, netifs s !! id = Some n → netif_ok n → is_u32 (ip_addr n) → unicast n dest = true →
        (∀ h, next_hop n dest = Some h → unicast n h = true) → mtu n = 0 ∨ lens ((p, pb) :: cs) + 20 ≤ mtu n →
        ∃ e s' c, let hdr := ip_header tos (lens ((p, pb) :: cs) + 20) (ip_id (upper s)) 0 ttl proto c (if src =? IPADDR_ANY then ip_addr n else src) dest in
          out = Ret (e, s') ∧ (∀ odd, Chksum.inet_chksum odd hdr = 0) ∧ ip_post uninit custom_free_function stack_bytes w0 L0 s id n p dest (hdr ++ concat (d :: ds)) e s'
    end.
Proof.
  intros Hao Hids Hdef Hp Hhr Hpos Httl Htos Hpro Hsrc Hdst Hmax. destruct (ip4_route_ok s dest Hids Hdef) as (r & Hroute & Hr). exists r. split; [done|].
  cbv zeta. unfold ip4_output. pose proof (am_grown _ _ _ _ _ (ao_mem _ _ _ _ Hao)) as Hg.
  pose proof (packet_cons _ _ _ _ _ _ _ (packet_grown _ _ _ _ _ _ _ _ _ Hg Hp)) as (_ & Hl & Hpb & _).
  rewrite (bind_rd_at _ _ _ _ Hl Hpb), bind_assert by (by rewrite (hr_ref _ _ _ _ _ _ _ Hhr)). rewrite (bind_Ret _ _ _ _ _ Hroute).
  destruct r as [id|]; [|done]. intros n Hn Hok Hna Hu Huh Hmtu. unfold ip4_output_if. rewrite (bind_netif _ _ _ _ Hn). cbv zeta.
  set (a := if src =? IPADDR_ANY then ip_addr n else src). assert ((if src =? IPADDR_ANY then Some (ip_addr n) else Some src) = Some a) as -> by (unfold a; by destruct (src =? IPADDR_ANY)).
  assert (is_u32 a) as Ha by (unfold a; by destruct (src =? IPADDR_ANY)).
  destruct (ip4_output_if_src_ok uninit custom_free_function stack_bytes addr ptr_bytes stack_length uninit_length pool_size ref_size
    w0 L0 s L id n p pb cs d ds o bs ttl tos proto a dest) as (e & s' & Hrun & Hpost); try done.
  eexists e, s', _. split; [exact Hrun|]. split; [|exact Hpost]. intros odd. by apply ip_header_verifies.
Qed.
End Claims.

(** ** Witnesses *)

#[local] Instance ip_laws : AllocLaws allocators (λ t, Memp.size (example_pools t)) :=
  lwip_laws example_pools example_pools_ok.

(** A pbuf of the pool that holds the packet [m] behind an Ethernet header. *)
Definition pkt_alloc (w : world allocators) (m : bytes) : res (option loc * world allocators) :=
  pbuf_alloc zeros no_custom PBUF_RAW (14 + Z.of_nat (length m)) PBUF_POOL w.
Definition pkt_loc w (m : bytes) : loc := match pkt_alloc w m with Ret (Some p, _) => p | _ => (HEAP, -1) end.
Definition pkt_pb w (m : bytes) : pbuf :=
  mk_pbuf None (Some (Own (pkt_loc w m), 14)) (Z.of_nat (length m)) (Z.of_nat (length m)) PBUF_POOL 0 1.
Definition ip_block (m : bytes) : bytes := replicate 14 0 ++ m ++ replicate (578 - length m) 0.
Definition pkt_world w (m : bytes) : world allocators :=
  set_data <[Own (pkt_loc w m) := ip_block m]> (upd_pbs (pkt_loc w m) (pkt_pb w m) (run (pkt_alloc w m))).

(** The block the allocator gives out can hold [m]. *)
Definition pkt_fits w (m : bytes) : bool :=
  match pkt_alloc w m with
  | Ret (Some p, w) =>
      (Z.of_nat (length m) <=? 578) && bool_decide (p ∈ live w) && bool_decide (p.1 = POOL MEMP_PBUF_POOL) &&
      match pbs w !! p, data w !! Own p with
      | Some pb, Some bs => bool_decide (type pb = PBUF_POOL) && (Pbuf.flags pb =? 0) && (Z.of_nat (length bs) =? 592)
      | _, _ => false
      end
  | _ => false
  end.

Lemma pkt_world_ok w L m : inv w L → pkt_fits w m = true → let p := pkt_loc w m in
  ∃ L', inv (pkt_world w m) L' ∧ rx_pbuf (pkt_world w m) p (pkt_pb w m) 14 (ip_block m) ∧
    ∀ l, l ∈ live w → l ≠ p → l ∈ live (pkt_world w m) ∧ pbs (pkt_world w m) !! l = pbs w !! l ∧ data (pkt_world w m) !! Own l = data w !! Own l.
Proof.
  intros Hi0. unfold pkt_fits. destruct (pkt_alloc w m) as [[[p|] w1]|] eqn:E; [|discriminate|discriminate].
  destruct (pbs w1 !! p) as [pb|] eqn:Hpb; [|rewrite andb_false_r; discriminate]. destruct (data w1 !! Own p) as [bs|] eqn:Hbs; [|rewrite andb_false_r; discriminate].
  rewrite !andb_true_iff, Z.leb_le, !bool_decide_eq_true, !Z.eqb_eq. intros [[[Hm Hl] Hp] [[Hty Hfl] Hlen]].
  assert (pkt_loc w m = p) as Ep by (unfold pkt_loc; by rewrite E). assert (run (pkt_alloc w m) = w1) as Ew by (by rewrite E).
  assert (length (ip_block m) = length bs) as Eb by (unfold ip_block; rewrite !length_app, !length_replicate; lia).
  destruct (pbuf_alloc_ok no_custom zeros zeros_length eq_refl eq_refl w L PBUF_RAW (14 + Z.of_nat (length m)) PBUF_POOL Hi0) as (r & w' & Hrun & Hpost);
    [unfold is_u16; lia|done|]. unfold pkt_alloc in E. rewrite Hrun in E. injection E as -> ->. destruct Hpost as (L' & cs & [[Hi Hfr Hlv Hpbs Hdat _] _ _ _ _ _ _ _]).
  assert (changes [p] w1 (pkt_world w m)) as Hch.
  { unfold pkt_world. rewrite Ep, Ew. apply (changes_same w1 (upd_pbs p (pkt_pb w m) w1)).
    - apply changes_only; [apply only_upd|]. intros l. simpl. rewrite lookup_insert. case_decide as El; [subst l|done]. rewrite Hpb. simpl. by rewrite Hty, Hfl.
    - by eapply changes_with. }
  exists L'. split; [exact (inv_changes _ _ _ _ Hi Hch)|]. split.
  - apply mk_rx.
    + by rewrite (ch_live _ _ _ Hch), Ep.
    + apply lookup_insert_eq.
    + reflexivity.
    + reflexivity.
    + reflexivity.
    + reflexivity.
    + cbn [len pkt_pb]. lia.
    + apply lookup_insert_eq.
    + unfold IP_HLEN. cbn [len pkt_pb]. rewrite Eb. lia.
    + lia.
    + split; [rewrite Ep, Hp; discriminate|reflexivity].
  - rewrite Ep. intros l Hlw Hne. split_and!.
    + rewrite (ch_live _ _ _ Hch), Hlv. apply elem_of_union. by right.
    + rewrite (ch_pbs _ _ _ Hch); [by apply Hpbs|]. by intros ?%list_elem_of_singleton.
    + rewrite (ch_data _ _ _ Hch); [apply Hdat; by apply bool_decide_eq_true|]. intros x ->%list_elem_of_singleton. congruence.
Qed.

Definition ip_loc (m : bytes) : loc := pkt_loc w0 m.
Definition ip_pb (m : bytes) : pbuf := pkt_pb w0 m.
Definition ip_world (m : bytes) : world allocators := pkt_world w0 m.
Definition ip_fits (m : bytes) : bool := pkt_fits w0 m.
Definition ip_link (w : world allocators) : link allocators (ip_state ()) :=
  mk_link w {[1 := arp_nif]} (arp_waiting ++ replicate 8 zero_entry) 0 [] (mk_ip 7 no_globals [] 0 [1] (Some 1) ()).

Lemma ip_world_ok m : ip_fits m = true → ∃ L, arp_ok (ip_world m) L (ip_link (ip_world m)) L ∧ rx_pbuf (ip_world m) (ip_loc m) (ip_pb m) 14 (ip_block m).
Proof.
  intros Hf. destruct (pkt_world_ok w0 ∅ m w0_inv Hf) as (L & Hi & Hrx & _). exists L. split; [|exact Hrx].
  destruct (arp_waiting_ok (ip_world m) L Hi) as [H1 H2 H3]. constructor; [exact H1|exact H2|exact H3].
Qed.

(** An IP packet from 192.168.0.4 for 192.168.0.2. *)
Definition ip_msg (off proto : Z) (body : bytes) : bytes :=
  let hdr := ip_header 0 (20 + Z.of_nat (length body)) 9 off 64 proto 0 0x0400a8c0 0x0200a8c0 in
  splice 10 (le_bytes 2 (Chksum.inet_chksum false hdr)) hdr ++ body.
Definition ip_ping : bytes := ip_msg 0 1 [8; 0; 0xb4; 0x2a; 0; 1; 0; 2; 104; 101; 108; 108; 111].
(** A pointer as eight cells. *)
Definition ip_ptr_bytes (q : option loc) : bytes := Z.pos (encode q) :: replicate 7 0.
Definition ip_ptr_of (b : bytes) : option loc := match b with Z.pos x :: _ => mjoin (decode x) | _ => None end.

Lemma ip_ptr_back q : ip_ptr_of (ip_ptr_bytes q) = q.
Proof. unfold ip_ptr_of, ip_ptr_bytes. by rewrite decode_encode. Qed.

Definition ip_in (m : bytes) : res (err_t * link allocators (ip_state ())) :=
  ip4_input zeros no_custom arp_buf snd ip_ptr_bytes ip_ptr_of (λ _ _, mret ()) (ip_loc m) 1 (ip_link (ip_world m)).
Definition ip_wire {B} (r : res (B * link allocators (ip_state ()))) : list bytes := match r with Ret (_, s) => wire s | Err _ => [] end.

Lemma ping_is_answered_witness : ∃ s' w2 L0 L2 rh rb, ip_in ip_ping = Ret (ERR_OK, s') ∧ arp_ok w2 L0 s' L2 ∧
  wire s' = [eth_frame arp_mac (hwaddr arp_nif) ETHTYPE_IP (rh ++ rb)] ∧
  answers_hdr 0x0200a8c0 0x0400a8c0 (take 20 ip_ping) rh ∧ answers_body (drop 20 ip_ping) rb.
Proof.
  destruct (ip_world_ok ip_ping) as (L & Hao & Hrx); [vm_compute; reflexivity|].
  destruct (ping_is_answered zeros no_custom arp_buf eq_refl snd ip_ptr_bytes ip_ptr_of (λ _ _, mret ()) zeros_length eq_refl eq_refl
    (ip_world ip_ping) L (ip_link (ip_world ip_ping)) L (ip_loc ip_ping) (ip_pb ip_ping) (ip_block ip_ping) 1 arp_nif 1 arp_nif 0x0400a8c0
    (mk_entry None 0x0400a8c0 (Some 1) arp_mac 7 ETHARP_STATE_STABLE) Hao Hrx) as (wa & s' & _ & Hrun & (w2 & L2 & Hao2 & _) & Hpost).
  { apply (bool_decide_unpack _). vm_compute. reflexivity. }
  { reflexivity. }
  { repeat constructor. by eexists. }
  { reflexivity. }
  { vm_compute. reflexivity. }
  { vm_compute. reflexivity. }
  { vm_compute. reflexivity. }
  { vm_compute. reflexivity. }
  { exact arp_nif_ok. }
  { vm_compute. discriminate. }
  { right. vm_compute. discriminate. }
  { vm_compute. reflexivity. }
  { vm_compute. reflexivity. }
  { vm_compute. reflexivity. }
  { right. left. }
  { reflexivity. }
  { reflexivity. }
  assert (length (wire s') = 1%nat) as Ew.
  { transitivity (length (ip_wire (ip_in ip_ping))); [unfold ip_in; rewrite Hrun; reflexivity|vm_compute; reflexivity]. }
  assert (∃ rh rb f, answers_hdr 0x0200a8c0 0x0400a8c0 (take 20 ip_ping) rh ∧ answers_body (drop 20 ip_ping) rb ∧
    wire s' = f ++ [eth_frame arp_mac (hwaddr arp_nif) ETHTYPE_IP (rh ++ rb)]) as (rh & rb & f & Hh & Hb & Hw).
  { destruct (pbuf_alloc _ _ _ _ _ wa) as [[[r|] wr]|]; [|rewrite Hpost in Ew; discriminate Ew|].
    - destruct Hpost as (rh & rb & f & Hh & Hb & Hw & _). exists rh, rb, f. split; [exact Hh|]. split; [exact Hb|exact Hw].
    - destruct Hpost as (rh & rb & g & Hh & Hb & Hw & _). exists rh, rb, g. split; [exact Hh|]. split; [exact Hb|exact Hw]. }
  rewrite Hw, length_app in Ew. cbn [length] in Ew. assert (f = []) as -> by (apply nil_length_inv; lia).
  exists s', w2, (delete (ip_loc ip_ping) L), L2, rh, rb. split; [exact Hrun|]. split; [exact Hao2|]. split; [exact Hw|]. split; [exact Hh|exact Hb].
Defined.

Definition ip_seg : bytes := ip_msg 0 6 [0x1f; 0x90; 0; 7; 0; 0; 0; 1; 0; 0; 0; 2; 0x50; 0x10; 0x10; 0; 1; 2; 0; 0; 65].

Lemma ip4_input_filters_witness : hdr_word 1 9 ip_seg = IP_PROTO_TCP ∧
  ∃ w1 w0' L pb1, let s1 := with_ip w1 (set_ip_data (current 0x0400a8c0 0x0200a8c0 1 1 20 (Own (ip_loc ip_seg), 14)) (upper (ip_link w1))) (ip_link (ip_world ip_seg)) in
    ip_in ip_seg = (_ ← mret (); _ ← upd_ip (set_ip_data no_globals); mret ERR_OK) s1 ∧ arp_ok w0' L s1 L ∧
    packet w0' (Some (ip_loc ip_seg)) [(ip_loc ip_seg, pb1)] [drop 20 ip_seg].
Proof.
  split; [reflexivity|]. destruct (ip_world_ok ip_seg) as (L & Hao & Hrx); [vm_compute; reflexivity|].
  assert (wf_bytes (ip_block ip_seg)) as Hwf by (apply (bool_decide_unpack _); vm_compute; reflexivity).
  assert (Forall (λ id, is_Some (netifs (ip_link (ip_world ip_seg)) !! id)) [1]) as Hids by (repeat constructor; by eexists).
  pose proof (ip4_input_filters zeros no_custom arp_buf snd ip_ptr_bytes ip_ptr_of (λ _ _, mret ())
    (ip_world ip_seg) L (ip_link (ip_world ip_seg)) L (ip_loc ip_seg) (ip_pb ip_seg) 14 (ip_block ip_seg) 1 arp_nif Hao Hrx Hwf eq_refl Hids) as Hpost.
  cbv zeta in Hpost. replace (verdict _ _ _ _ _ _) with (Some 1) in Hpost by (vm_compute; reflexivity).
  destruct (Hpost ltac:(vm_compute; reflexivity) ltac:(vm_compute; reflexivity)) as (_ & _ & w1 & w0' & pb1 & Hrun & Hao1 & _ & Hp).
  exists w1, w0', L, pb1. split; [exact Hrun|]. split; [exact Hao1|exact Hp].
Defined.

Lemma ip4_output_sends_witness : ∃ e s' c d, let hdr := ip_header 0 60 7 0 255 6 c 0x0200a8c0 0x0400a8c0 in
  ip4_output zeros no_custom arp_buf snd ip_ptr_bytes arp_p (Some 0) 0x0400a8c0 255 0 6 (ip_link (arp_world PBUF_IP 40)) = Ret (e, s') ∧
  Chksum.inet_chksum false hdr = 0 ∧ length d = 40%nat ∧
  ∃ L, ip_post zeros no_custom arp_buf (arp_world PBUF_IP 40) L (ip_link (arp_world PBUF_IP 40)) 1 arp_nif arp_p 0x0400a8c0 (hdr ++ d) e s'.
Proof.
  destruct (arp_world_ok PBUF_IP 40) as (L & bs & Hg & Hr); [by vm_compute|lia|].
  pose proof (ram_live _ _ _ _ _ _ _ _ _ _ Hg Hr) as Hl. pose proof (ram_packet _ _ _ _ _ _ Hr Hl ltac:(split; reflexivity || discriminate)) as Hp.
  destruct (arp_waiting_ok _ L (gr_inv _ _ _ _ _ _ Hg)) as [H1 H2 H3].
  assert (arp_ok (arp_world PBUF_IP 40) L (ip_link (arp_world PBUF_IP 40)) L) as Hao by (constructor; [exact H1|exact H2|exact H3]).
  assert (head_room (arp_world PBUF_IP 40) arp_p (ram_pbuf arp_p (header_offset PBUF_IP) 40) [] (header_offset PBUF_IP) bs 34) as Hhr.
  { destruct Hr as [_ _ Hd Hrg]. constructor; [reflexivity|by left|apply list.NoDup_singleton|exact Hd|exact (proj2 (proj2 Hrg))|by vm_compute|reflexivity]. }
  destruct (ip4_output_sends zeros no_custom arp_buf eq_refl snd ip_ptr_bytes zeros_length eq_refl eq_refl
    (arp_world PBUF_IP 40) L (ip_link (arp_world PBUF_IP 40)) L arp_p (ram_pbuf arp_p (header_offset PBUF_IP) 40) [] (take (Z.to_nat 40) (drop (Z.to_nat (header_offset PBUF_IP)) bs)) []
    (header_offset PBUF_IP) bs 0 0x0400a8c0 255 0 6 Hao) as (r & Hr1 & Hpost).
  { repeat constructor. by eexists. }
  { intros id [= <-]. by eexists. }
  { exact Hp. }
  { exact Hhr. }
  { constructor. }
  1-5: split; vm_compute; congruence.
  { vm_compute. discriminate. }
  assert (r = Some 1) as ->.
  { destruct r as [id|].
    - destruct Hr1 as (n & Hn & _). f_equal. cbn in Hn. apply lookup_singleton_Some in Hn as [<- _]. reflexivity.
    - destruct Hr1 as [Hoff _]. inversion Hoff as [|? ? (n & Hn & Hon)]; subst. cbn in Hn. apply lookup_singleton_Some in Hn as [_ <-]. vm_compute in Hon. discriminate Hon. }
  destruct (Hpost arp_nif eq_refl arp_nif_ok) as (e & s' & c & Hrun & Hck & Hip).
  { split; vm_compute; congruence. }
  { vm_compute. reflexivity. }
  { intros h [= <-]. vm_compute. reflexivity. }
  { right. vm_compute. discriminate. }
  eexists e, s', c, _. split; [exact Hrun|]. split; [exact (Hck false)|]. split; [|exists L; exact Hip].
  cbn [concat]. rewrite app_nil_r. pose proof (packet_cons _ _ _ _ _ _ _ Hp) as (_ & _ & _ & _ & _ & Hlen & _). apply Nat2Z.inj. exact Hlen.
Defined.
