(* ===== verification/ReassSpec.v ===== *)
(** * Reassembly

    The fragments of a datagram are a list in memory: each packet holds a pointer to the
    next one and its range of bytes in the place of its header.  The list is the
    refinement of a list of ranges, kept in order;
    [ip_reass_chain_frag_into_datagram_and_validate] inserts a range, or rejects it, and
    decides whether the datagram is complete. *)

From S2P Require Import Prelude CLib Def Mem Memp Alloc Pbuf PbufChain PbufWrite PbufOwn PbufOps PbufSpec PbufRam Chksum Ip4Addr Link LinkSpec Etharp EtharpTable EtharpSpec EtharpInput ArpSpec Ip4 Ip4Reass Ip4Input Ip4Spec Ip4InputSpec IcmpSpec IpSpec.
Import Def.Def Pbuf Ip4Addr.Ip4Addr Link Etharp Ip4 Reass Ip4Input.

(** ** The list of ranges *)

Record frag := mk_frag { floc : loc; foff : Z; fstart : Z; fend : Z }.

(** Each range ends where the next begins. *)
Fixpoint contig (fs : list frag) : bool :=
  match fs with
  | f :: ((g :: _) as fs') => (fend f =? fstart g) && contig fs'
  | _ => true
  end.

(** The place of the range from [a] to [b], behind a fragment that ends at [pe]; a range
    that is there already or overlaps its neighbours has none. *)
Fixpoint place (a b : Z) (pe : option Z) (fs : list frag) : option nat :=
  match fs with
  | [] => Some O
  | f :: fs' =>
      if a <? fstart f then
        match pe with
        | Some e => if (a <? e) || (b >? fstart f) then None else Some O
        | None => Some O
        end
      else if a <? Z.max (fstart f + 1) (fend f) then None
      else Datatypes.S <$> place a b (Some (fend f)) fs'
  end.

Definition starts_at_0 (fs : list frag) : bool := match fs with g :: _ => fstart g =? 0 | [] => false end.

(** Is the datagram complete with [f] at place [k]?  The range in front of [f] is not
    looked at when [f] is not the last one. *)
Definition whole (k : nat) (f : frag) (fs : list frag) : bool :=
  (if (k =? length fs)%nat then contig (fs ++ [f]) else contig (take k fs)) &&
  starts_at_0 (take k fs ++ f :: drop k fs) && contig (f :: drop k fs).

Lemma place_last a b fs g : ∀ pe, place a b pe fs = Some (length fs) → list.last fs = Some g → fend g ≤ a.
Proof.
  induction fs as [|f fs IH]; intros pe; [done|]. cbn [place]. destruct (a <? fstart f); [destruct pe as [e|]; [destruct (_ || _); [done|]|]; done|].
  destruct (Z.ltb_spec a (Z.max (fstart f + 1) (fend f))); [done|]. destruct (place a b _ fs) as [j|] eqn:E; [|done]. intros [= ->].
  destruct fs as [|h fs]; [intros [= <-]; lia|]. by apply (IH (Some (fend f))).
Qed.

Lemma place_le a b fs : ∀ pe k, place a b pe fs = Some k → (k ≤ length fs)%nat.
Proof.
  induction fs as [|f fs IH]; intros pe k; simpl; [by intros [= <-]|].
  destruct (a <? fstart f); [destruct pe as [e|]; [destruct (_ || _); [done|]|]; intros [= <-]; lia|].
  destruct (a <? _); [done|]. destruct (place a b _ fs) as [j|] eqn:E; [|done]. intros [= <-]. apply IH in E. lia.
Qed.

Lemma contig_snoc fs f : contig (fs ++ [f]) = contig fs && match list.last fs with Some g => fend g =? fstart f | None => true end.
Proof.
  induction fs as [|g fs IH]; [done|]. destruct fs as [|h fs]; [simpl; by rewrite andb_comm|].
  change (contig ((g :: h :: fs) ++ [f])) with ((fend g =? fstart h) && contig ((h :: fs) ++ [f])). rewrite IH.
  change (contig (g :: h :: fs)) with ((fend g =? fstart h) && contig (h :: fs)). rewrite <- andb_assoc. do 2 f_equal.
Qed.

(** ** The list in memory *)

Section List.
Context {A V : Type} `{HA : Alloc A} {elt_size : memp_t → Z} `{HL : !AllocLaws A elt_size}.
Context (ptr_bytes : option loc → bytes) (ptr_of : bytes → option loc).
Hypothesis ptr_length : ∀ q, length (ptr_bytes q) = 8%nat.
Hypothesis ptr_back : ∀ q, ptr_of (ptr_bytes q) = q.
Abbreviation S := (link A (ip_state V)).
Implicit Types (w : world A) (s : S) (f g : frag) (fs : list frag).

(** The packet of the fragment, with the helper in the place of its header. *)
Record is_frag w f (nx : option loc) : Prop := mk_is_frag {
  if_live : floc f ∈ live w;
  if_pb : ∃ pb, pbs w !! floc f = Some pb ∧ payload pb = Some (Own (floc f), foff f);
  if_data : ∃ pre tl, data w !! Own (floc f) = Some (pre ++ (ptr_bytes nx ++ le_bytes 2 (fstart f) ++ le_bytes 2 (fend f)) ++ tl) ∧
    Z.of_nat (length pre) = foff f ∧ (8 ≤ length tl)%nat;
  if_range : is_u16 (fstart f) ∧ is_u16 (fend f);
}.

(** The links lead from [q] through [fs] to [q']. *)
Fixpoint seg w (q : option loc) fs (q' : option loc) : Prop :=
  match fs with
  | [] => q = q'
  | f :: fs' => q = Some (floc f) ∧ ∃ nx, is_frag w f nx ∧ seg w nx fs' q'
  end.

Abbreviation here f := (Some (Own (floc f), foff f)).

Lemma bind_here {C} s f nx (K : option ptr → M S C) : is_frag (lwld s) f nx → (payload_of (floc f) ≫= K) s = K (here f) s.
Proof. intros [Hl (pb & Hpb & Hpay) _ _]. by rewrite (bind_payload_of _ _ pb), Hpay. Qed.

Lemma bind_word {C} s f nx k x (K : Z → M S C) : is_frag (lwld s) f nx → (k = 8 ∧ x = fstart f ∨ k = 10 ∧ x = fend f) →
  (field (here f) k 2 ≫= K) s = K x s.
Proof.
  intros [Hl _ (pre & tl & Hd & Hpre & Htl) [Hr1 Hr2]] Hk. pose proof (ptr_length nx) as Hpl.
  rewrite (bind_field s (floc f) (foff f) _ k 2 _ Hl Hd) by (rewrite ?length_app, ?length_le_bytes, ?Hpl; lia).
  replace (Z.to_nat (foff f + k)) with (length pre + Z.to_nat k)%nat by lia. rewrite (drop_app_add' pre) by done. f_equal.
  destruct Hk as [[-> ->]|[-> ->]]; [change (Z.to_nat 8) with 8%nat|change (Z.to_nat 10) with (8 + 2)%nat].
  - rewrite <- !(assoc_L app), drop_app_length' by done. change (Z.to_nat 2) with 2%nat. rewrite take_app_length' by done. apply le_word_bytes. exact Hr1.
  - rewrite <- !(assoc_L app), (drop_app_add' (ptr_bytes nx)) by done. rewrite drop_app_length' by done. change (Z.to_nat 2) with 2%nat.
    rewrite take_app_length' by done. apply le_word_bytes. exact Hr2.
Qed.

Lemma bind_start {C} s f nx (K : Z → M S C) : is_frag (lwld s) f nx → (helper_start (here f) ≫= K) s = K (fstart f) s.
Proof. intros Hf. apply (bind_word _ _ _ _ _ _ Hf). by left. Qed.
Lemma bind_end {C} s f nx (K : Z → M S C) : is_frag (lwld s) f nx → (helper_end (here f) ≫= K) s = K (fend f) s.
Proof. intros Hf. apply (bind_word _ _ _ _ _ _ Hf). by right. Qed.

Lemma bind_next {C} s f nx (K : option loc → M S C) : is_frag (lwld s) f nx → (helper_next ptr_of (here f) ≫= K) s = K nx s.
Proof.
  intros [Hl _ (pre & tl & Hd & Hpre & Htl) _]. pose proof (ptr_length nx) as Hpl. apply bind_Ret. unfold helper_next.
  rewrite (bind_load_at s (floc f) (foff f) _ 0 8 _ Hl Hd) by (rewrite ?length_app, ?length_le_bytes, ?Hpl; lia).
  rewrite Z.add_0_r. replace (Z.to_nat (foff f)) with (length pre) by lia. rewrite drop_app_length, <- !(assoc_L app).
  change (Z.to_nat 8) with 8%nat. by rewrite take_app_length', ptr_back.
Qed.

(** The link of a fragment is changed. *)
Lemma set_next_ok s f nx nx' : is_frag (lwld s) f nx →
  ∃ w, set_helper_next ptr_bytes (here f) nx' s = Ret ((), with_mem w s) ∧ changes [floc f] (lwld s) w ∧ is_frag w f nx' ∧ pbs w = pbs (lwld s).
Proof.
  intros [Hl Hpb (pre & tl & Hd & Hpre & Htl) Hr]. pose proof (ptr_length nx) as Hpl. pose proof (ptr_length nx') as Hpl'.
  set (bs := pre ++ (ptr_bytes nx' ++ le_bytes 2 (fstart f) ++ le_bytes 2 (fend f)) ++ tl).
  exists (set_data <[Own (floc f) := bs]> (lwld s)). split_and!.
  - unfold set_helper_next, on_mem. rewrite (store_own (lwld s) (floc f) (foff f) 0 _ (ptr_bytes nx') Hl Hd) by (rewrite ?length_app, ?length_le_bytes, ?Hpl, ?Hpl'; lia).
    rewrite Z.add_0_r. replace (Z.to_nat (foff f)) with (length pre + 0)%nat by lia. rewrite splice_app_l, splice_0, <- !(assoc_L app).
    rewrite Hpl', drop_app_length' by lia. unfold bs. by rewrite <- !(assoc_L app).
  - eapply changes_with; [exact Hd|]. unfold bs. rewrite !length_app, Hpl, Hpl'. lia.
  - constructor; [done|done| |done]. exists pre, tl. split; [|done]. apply lookup_insert_eq.
  - done.
Qed.

Lemma is_frag_changes ls w w' f nx : changes ls w w' → floc f ∉ ls → is_frag w f nx → is_frag w' f nx.
Proof.
  intros [C1 C2 C3 C4 C5 C6] Hf [Hl (pb & Hpb & Hpay) (pre & tl & Hd & Hrest) Hr]. constructor; [by rewrite C1| | |done].
  - exists pb. by rewrite C3.
  - exists pre, tl. rewrite C5; [done|]. intros l Hl' [= E]. apply Hf. by rewrite E.
Qed.

Lemma seg_changes ls w w' fs : changes ls w w' → (∀ f, f ∈ fs → floc f ∉ ls) → ∀ q q', seg w q fs q' → seg w' q fs q'.
Proof.
  intros Hch Hf. induction fs as [|f fs IH]; intros q q'; simpl; [done|]. intros [-> (nx & Hn & Hs)]. split; [done|]. exists nx. split.
  - eapply is_frag_changes; [done|apply Hf; by left|done].
  - apply IH; [|done]. intros g Hg. apply Hf. by right.
Qed.

Lemma frags_app w fs gs : ∀ q q', seg w q (fs ++ gs) q' ↔ ∃ m, seg w q fs m ∧ seg w m gs q'.
Proof.
  induction fs as [|f fs IH]; intros q q'; simpl.
  - split; [by exists q|]. by intros (m & -> & ?).
  - split.
    + intros [-> (nx & Hn & Hs)]. apply IH in Hs as (m & H1 & H2). exists m. split; [|done]. split; [done|]. by exists nx.
    + intros (m & [-> (nx & Hn & Hs)] & H2). split; [done|]. exists nx. split; [done|]. apply IH. by exists m.
Qed.

Lemma seg_snoc w fs f q q' : seg w q (fs ++ [f]) q' ↔ seg w q fs (Some (floc f)) ∧ is_frag w f q'.
Proof.
  rewrite frags_app. simpl. split.
  - intros (m & Hs & -> & nx & Hf & ->). done.
  - intros [Hs Hf]. exists (Some (floc f)). split; [done|]. split; [done|]. by exists q'.
Qed.

(** ** The search *)

Definition locs (fs : list frag) : list loc := floc <$> fs.
Definition last_loc (fs : list frag) : option loc := floc <$> list.last fs.
Definition last_end (fs : list frag) : option Z := fend <$> list.last fs.

(** The new fragment becomes the first one when nothing is in front of it. *)
Definition inserted (ps : list frag) (i : nat) (l : loc) (x : ip_state V) : ip_state V :=
  match ps with [] => set_reassdatagrams (alter (set_rp (Some l)) i (reassdatagrams x)) x | _ => x end.
Definition head_of (ps : list frag) (l : loc) (q : option loc) : option loc := match ps with [] => Some l | _ => q end.

Lemma locs_not f fs ls : NoDup (locs (f :: fs)) → ls = [floc f] → ∀ h, h ∈ fs → floc h ∉ ls.
Proof.
  intros Hnd -> h Hh E%list_elem_of_singleton. apply list.NoDup_cons in Hnd as [Hn _]. apply Hn. apply list_elem_of_fmap. by exists h.
Qed.

(** The link of the last fragment in front is changed. *)
Lemma relink w w' ps g q0 q q' : NoDup (locs (ps ++ [g])) → seg w q0 (ps ++ [g]) q → changes [floc g] w w' → is_frag w' g q' →
  seg w' q0 (ps ++ [g]) q'.
Proof.
  intros Hnd [Hs _]%seg_snoc Hch Hg. apply seg_snoc. split; [|done]. eapply seg_changes; [done| |done].
  apply (locs_not g); [|done]. unfold locs in *. rewrite fmap_app in Hnd. by rewrite Permutation_app_comm in Hnd.
Qed.

Lemma last_frag w ps q0 q h : seg w q0 ps q → list.last ps = Some h → is_frag w h q ∧ h ∈ ps.
Proof. intros Hs [ps' ->]%list.last_Some. apply seg_snoc in Hs as [_ Hf]. split; [done|]. apply elem_of_app. right. by left. Qed.

Lemma place_loop_ok i s f nx0 q0 : is_frag (lwld s) f nx0 → ∀ fs ps q k, (length fs ≤ k)%nat →
  seg (lwld s) q0 ps q → seg (lwld s) q fs None → NoDup (locs (f :: ps ++ fs)) →
  let run := place_loop ptr_bytes ptr_of k i (floc f) (here f) (fstart f) (fend f) q (last_loc ps) (contig ps) s in
  match place (fstart f) (fend f) (last_end ps) fs with
  | None => ∃ w, run = Ret (None, with_mem w s) ∧ changes [floc f] (lwld s) w ∧ pbs w = pbs (lwld s)
  | Some j =>
      if (j =? length fs)%nat then run = Ret (Some (None, last_loc (ps ++ fs), contig (ps ++ fs)), s)
      else ∃ w l, run = Ret (Some (Some l, last_loc (ps ++ take j fs), contig (ps ++ take j fs)),
             with_ip w (inserted (ps ++ take j fs) i (floc f) (upper s)) s) ∧
           changes (locs (f :: ps ++ fs)) (lwld s) w ∧
           seg w (head_of (ps ++ take j fs) (floc f) q0) (ps ++ take j fs ++ f :: drop j fs) None
  end.
Proof.
  intros Hf. induction fs as [|g fs IH]; intros ps q k Hk Hps Hfs Hnd run.
  { simpl in Hfs. subst q. simpl. unfold run. destruct k; by rewrite app_nil_r. }
  destruct Hfs as [-> (nx & Hg & Hfs)]. destruct k as [|k]; [simpl in Hk; lia|]. unfold run. cbn [place_loop place].
  rewrite (bind_here _ _ _ _ Hg), (bind_start _ _ _ _ Hg), (bind_end _ _ _ _ Hg).
  pose proof (locs_not f (ps ++ g :: fs) _ Hnd eq_refl) as Hother.
  destruct (Z.ltb_spec (fstart f) (fstart g)) as [Hlt|Hge].
  - destruct (set_next_ok s f nx0 (Some (floc g)) Hf) as (w1 & Hset & Hch & Hf1 & Hpb1). rewrite (bind_Ret _ _ _ _ _ Hset).
    assert (seg w1 q0 ps (Some (floc g))) as Hps1 by (eapply seg_changes; [done| |done]; intros h Hh; apply Hother, elem_of_app; by left).
    assert (seg w1 (Some (floc g)) (g :: fs) None) as Hfs1.
    { eapply (seg_changes _ (lwld s)); [done| |split; [done|by exists nx]]. intros h Hh. apply Hother, elem_of_app. by right. }
    unfold last_loc, last_end. destruct (list.last ps) as [h|] eqn:El; cbn [fmap option_fmap option_map].
    + destruct (last_frag _ _ _ _ _ Hps1 El) as [Hh Hin]. rewrite (bind_here (with_mem w1 s) _ _ _ Hh), (bind_end (with_mem w1 s) _ _ _ Hh).
      destruct ((fstart f <? fend h) || (fend f >? fstart g)); [by exists w1|].
      destruct (set_next_ok (with_mem w1 s) h _ (Some (floc f)) Hh) as (w2 & Hset2 & Hch2 & Hh2 & _). rewrite (bind_Ret _ _ _ _ _ Hset2).
      apply list.last_Some in El as [ps' ->]. cbn [Nat.eqb length take drop app]. rewrite app_nil_r, list.last_snoc. exists w2, (floc g).
      assert (NoDup (locs (h :: f :: ps' ++ g :: fs))) as Hnd2.
      { assert (h :: f :: ps' ++ g :: fs ≡ₚ f :: (ps' ++ [h]) ++ g :: fs) as Ep by (rewrite <- (assoc_L app); simpl; solve_Permutation).
        unfold locs. by rewrite Ep. }
      pose proof (locs_not _ _ _ Hnd2 eq_refl) as Hno.
      split_and!.
      * destruct ps' as [|? ?]; done.
      * eapply changes_mono; [|exact (changes_trans _ _ _ _ _ Hch Hch2)]. intros l [->%list_elem_of_singleton| ->%list_elem_of_singleton]%elem_of_app; [by left|].
        right. unfold locs. apply list_elem_of_fmap. exists h. split; [done|]. apply elem_of_app. by left.
      * replace (head_of _ _ _) with q0 by (by destruct ps'). apply frags_app. exists (Some (floc f)). split.
        -- eapply relink; [|exact Hps1|exact Hch2|exact Hh2]. unfold locs in *. rewrite fmap_cons, fmap_app in Hnd. apply list.NoDup_cons in Hnd as [_ Hnd].
           by apply list.NoDup_app in Hnd as [? _].
        -- split; [done|]. exists (Some (floc g)). split; [eapply is_frag_changes; [exact Hch2|apply Hno; by left|done]|].
           eapply seg_changes; [exact Hch2| |exact Hfs1]. intros x Hx. apply Hno. right. apply elem_of_app. by right.
    + apply list.last_None in El as ->. cbn [Nat.eqb length take drop app]. exists w1, (floc g). split_and!; [done| |].
      * eapply changes_mono; [|exact Hch]. intros l ->%list_elem_of_singleton. by left.
      * split; [done|]. by exists (Some (floc g)).
  - assert ((if fstart f =? fstart g then true else fstart f <? fend g) = (fstart f <? Z.max (fstart g + 1) (fend g))) as Eov.
    { destruct (Z.eqb_spec (fstart f) (fstart g)), (Z.ltb_spec (fstart f) (fend g)), (Z.ltb_spec (fstart f) (Z.max (fstart g + 1) (fend g))); lia || done. }
    destruct (Z.ltb_spec (fstart f) (Z.max (fstart g + 1) (fend g))) as [Ho|Ho].
    { exists (lwld s). rewrite with_mem_id. split_and!; [|done|done].
      destruct (fstart f =? fstart g); [done|]. by rewrite Eov. }
    destruct (fstart f =? fstart g); [done|]. rewrite Eov.
    erewrite (bind_Ret _ _ _ (contig (ps ++ [g])) s).
    2:{ rewrite contig_snoc. unfold last_loc. destruct (list.last ps) as [h|] eqn:El; [|by rewrite andb_true_r]. cbn [fmap option_fmap option_map].
        destruct (last_frag _ _ _ _ _ Hps El) as [Hh _]. rewrite (bind_here _ _ _ _ Hh), (bind_end _ _ _ _ Hh).
        by destruct (fend h =? fstart g); rewrite ?andb_true_r, ?andb_false_r. }
    rewrite (bind_next _ _ _ _ Hg).
    assert (seg (lwld s) q0 (ps ++ [g]) nx) as Hps'.
    { apply seg_snoc. done. }
    specialize (IH (ps ++ [g]) nx k ltac:(simpl in Hk; lia) Hps' Hfs). rewrite <- (assoc_L app) in IH. specialize (IH Hnd).
    unfold last_end in IH. rewrite list.last_snoc in IH. cbn [fmap option_fmap option_map] in IH.
    assert (last_loc (ps ++ [g]) = Some (floc g)) as El by (unfold last_loc; by rewrite list.last_snoc). rewrite El in IH.
    destruct (place _ _ _ fs) as [j|]; [|exact IH]. cbn [fmap option_fmap option_map length Nat.eqb take drop].
    rewrite <- !(assoc_L app) in IH. destruct (j =? length fs)%nat; [exact IH|exact IH].
Qed.

(** ** The validation *)

Definition last_of (g : frag) (fs : list frag) : frag := default g (list.last fs).

Lemma last_of_cons g h fs : last_of g (h :: fs) = last_of h fs.
Proof. unfold last_of. destruct fs as [|x fs]; [done|]. change (list.last (h :: x :: fs)) with (list.last (x :: fs)).
  destruct (list.last (x :: fs)) eqn:E; [done|]. by apply list.last_None in E. Qed.

Lemma in_locs g fs : g ∈ fs → floc g ∈ locs fs.
Proof. intros Hg. apply list_elem_of_fmap. by exists g. Qed.

Lemma last_of_in g fs : last_of g fs ∈ g :: fs.
Proof. revert g. induction fs as [|h fs IH]; intros g; [by left|]. rewrite last_of_cons. right. apply IH. Qed.

Lemma seg_last w q g fs : is_frag w g q → seg w q fs None → is_frag w (last_of g fs) None.
Proof.
  revert g q. induction fs as [|h fs IH]; intros g q Hg Hs; [by simpl in Hs; subst|]. destruct Hs as [-> (nx & Hh & Hs)]. rewrite last_of_cons. by eapply IH.
Qed.

Lemma holes_loop_ok s fs : ∀ g q k, is_frag (lwld s) g q → seg (lwld s) q fs None → (length fs ≤ k)%nat →
  holes_loop ptr_of k (here g) q s = Ret (if contig (g :: fs) then Some (here (last_of g fs)) else None, s).
Proof.
  induction fs as [|h fs IH]; intros g q k Hg Hs Hk.
  - simpl in Hs. subst q. by destruct k.
  - destruct Hs as [-> (nx & Hh & Hs)]. destruct k as [|k]; [simpl in Hk; lia|]. cbn [holes_loop].
    rewrite (bind_here _ _ _ _ Hh), (bind_end _ _ _ _ Hg), (bind_start _ _ _ _ Hh). cbn [contig].
    destruct (fend g =? fstart h); cbn [negb andb]; [|done]. rewrite (bind_next _ _ _ _ Hh), last_of_cons. apply IH; [done|done|]. simpl in Hk. lia.
Qed.

Lemma seg_bound w q fs : seg w q fs None → NoDup (locs fs) → (length fs ≤ fuel w)%nat.
Proof.
  intros Hs Hnd. assert (length (locs fs) ≤ size (live w))%nat as Hle.
  { rewrite <- (size_list_to_set (C := gset loc) (locs fs)) by done. apply subseteq_size. intros l Hl. apply elem_of_list_to_set in Hl.
    clear Hnd. revert q Hs. induction fs as [|f fs IH]; intros q Hs; [by apply elem_of_nil in Hl|]. destruct Hs as [-> (nx & Hf & Hs)].
    unfold locs in Hl. rewrite fmap_cons in Hl. apply elem_of_cons in Hl as [->|Hl]; [apply Hf|by eapply IH]. }
  unfold locs in Hle. rewrite length_fmap in Hle. unfold fuel. lia.
Qed.

Lemma bind_reass {C} s i r (K : ip_reassdata → M S C) : reassdatagrams (upper s) !! i = Some r → (rd_reass i ≫= K) s = K r s.
Proof. intros Hr. apply bind_Ret. unfold rd_reass. rewrite bind_rd_ip. by rewrite Hr. Qed.

(** The outcome of the validation: complete or not, or an assertion fails. *)
Definition validated (r : ip_reassdata) (whole : bool) (one : bool) (e : Z) s : res (bool * S) :=
  if negb (Z.land (rflags r) IP_REASS_FLAG_LASTFRAG =? 0) && whole then
    if negb one && (e =? datagram_len r) then Ret (true, s) else Err AssertFail
  else Ret (false, s).

Lemma validate_ok s i r ps f rest v : reassdatagrams (upper s) !! i = Some r → seg (lwld s) (rp r) (ps ++ f :: rest) None →
  NoDup (locs (ps ++ f :: rest)) →
  validate ptr_of i (here f) v s =
    validated r (v && starts_at_0 (ps ++ f :: rest) && contig (f :: rest)) (bool_decide (ps = [] ∧ rest = [])) (fend (last_of f rest)) s.
Proof.
  intros Hr Hs Hnd. unfold validate, validated. rewrite (bind_reass _ _ _ _ Hr).
  destruct (Z.land (rflags r) IP_REASS_FLAG_LASTFRAG =? 0); [done|]. destruct v; [|done]. cbn [negb andb].
  pose proof Hs as Hs'. apply frags_app in Hs' as (m & Hps & -> & nx & Hf & Hrest).
  assert (∃ g gs nx', ps ++ f :: rest = g :: gs ∧ rp r = Some (floc g) ∧ is_frag (lwld s) g nx') as (g & gs & nx' & Eg & Erp & Hg).
  { destruct (ps ++ f :: rest) as [|g gs] eqn:E; [by destruct ps|]. destruct Hs as [Erp (nx' & Hg & _)]. by exists g, gs, nx'. }
  rewrite Erp, (bind_here _ _ _ _ Hg), (bind_start _ _ _ _ Hg), Eg. cbn [starts_at_0]. destruct (fstart g =? 0); cbn [negb andb]; [|done].
  rewrite (bind_next _ _ _ _ Hf). erewrite (bind_Ret get) by reflexivity.
  assert (length rest ≤ fuel (lwld s))%nat as Hfu.
  { apply (seg_bound _ nx); [done|]. unfold locs in *. rewrite fmap_app, fmap_cons in Hnd. apply list.NoDup_app in Hnd as (_ & _ & Hnd).
    by apply list.NoDup_cons in Hnd as [_ ?]. }
  rewrite (bind_Ret _ _ _ _ _ (holes_loop_ok s rest f nx (fuel (lwld s)) Hf Hrest Hfu)). destruct (contig (f :: rest)); [|done].
  pose proof (seg_last _ _ _ _ Hf Hrest) as Hl.
  assert (bool_decide (here g ≠ here (last_of f rest)) = negb (bool_decide (ps = [] ∧ rest = []))) as Ene.
  { rewrite <- bool_decide_not. apply bool_decide_ext. unfold last_of. destruct ps as [|p0 ps].
    - injection Eg as <- <-. destruct rest as [|h rest]; [naive_solver|]. split; [by intros _ [_ ?]|]. intros _ E.
      assert (floc f = floc (last_of h rest)) as El by (rewrite <- (last_of_cons f); unfold last_of; congruence).
      simpl in Hnd. apply list.NoDup_cons in Hnd as [Hn _]. apply Hn. rewrite El. apply (in_locs _ (h :: rest)), last_of_in.
    - injection Eg as <- <-. split; [by intros _ [? _]|]. intros _ E.
      assert (floc p0 = floc (last_of f rest)) as El by (unfold last_of; congruence).
      simpl in Hnd. apply list.NoDup_cons in Hnd as [Hn _]. apply Hn. rewrite El. apply (in_locs _ (ps ++ f :: rest)), elem_of_app. right. apply last_of_in. }
  rewrite Ene. destruct (bool_decide (ps = [] ∧ rest = [])); [done|]. cbn [negb andb]. rewrite bind_assert by done.
  rewrite (bind_next _ _ _ _ Hl), bind_assert by (by apply bool_decide_eq_true). rewrite (bind_end _ _ _ _ Hl).
  by destruct (fend _ =? datagram_len r).
Qed.

(** ** The new fragment *)

Definition frag_start (h : bytes) : Z := u16 (Z.land (lwip_htons (hdr_word 2 6 h)) IP_OFFMASK * 8).
Definition frag_len (h : bytes) : Z := u16 (lwip_htons (hdr_word 2 2 h) - Z.land (hdr_word 1 0 h) 0x0f * 4).
Definition frag_of (p : loc) (o : Z) (h : bytes) : frag := mk_frag p o (frag_start h) (u16 (frag_start h + frag_len h)).

Lemma helper_splices (pre h tl a b c : bytes) m : length pre = m → (20 ≤ length h)%nat → length a = 8%nat → length b = 2%nat → length c = 2%nat →
  splice (m + 10) c (splice (m + 8) b (splice (m + 0) a (pre ++ h ++ tl))) = pre ++ (a ++ b ++ c) ++ drop 12 h ++ tl.
Proof.
  intros <- Hh Ha Hb Hc. do 20 (destruct h as [|? h]; [simpl in Hh; lia|]). do 9 (destruct a as [|? a]; try done).
  do 3 (destruct b as [|? b]; try done). do 3 (destruct c as [|? c]; try done). by rewrite !splice_app_l.
Qed.

(** The fragment in one pbuf [p], with its header [h]. *)
Record new_frag w (p : loc) (o : Z) (h : bytes) : Prop := mk_new_frag {
  nf_live : p ∈ live w;
  nf_pb : ∃ pb, pbs w !! p = Some pb ∧ payload pb = Some (Own p, o) ∧ next pb = None ∧ ref pb = 1;
  nf_data : ∃ pre tl, data w !! Own p = Some (pre ++ h ++ tl) ∧ Z.of_nat (length pre) = o ∧ length h = 20%nat;
  nf_owner : p.1 ≠ CUSTOM;
}.

Lemma chain_frag_start s i p o h : new_frag (lwld s) p o h → let f := frag_of p o h in
  ∃ w1, is_frag w1 f None ∧ changes [p] (lwld s) w1 ∧ (∀ pb, pbs (lwld s) !! p = Some pb → pbs w1 !! p = Some pb) ∧
    ∀ custom_free_function, ip_reass_chain_frag_into_datagram_and_validate custom_free_function ptr_bytes ptr_of i p s =
      (r ← rd_reass i;
       s' ← get;
       place ← place_loop ptr_bytes ptr_of (fuel (lwld s')) i p (here f) (fstart f) (fend f) (rp r) None true;
       match place with
       | None =>
           clen ← on_mem (pbuf_clen (Some p));
           _ ← upd_ip (λ ip, set_pbufcount (u16 (ip_reass_pbufcount ip - clen)) ip);
           _ ← on_mem (pbuf_free custom_free_function (Some p));
           mret false
       | Some (Some _, _, valid) => validate ptr_of i (here f) valid
       | Some (None, Some pl, valid) =>
           ph ← payload_of pl;
           pend ← helper_end ph;
           _ ← assert_ (pend <=? fstart f);
           _ ← set_helper_next ptr_bytes ph (Some p);
           validate ptr_of i (here f) (if pend =? fstart f then valid else false)
       | Some (None, None, valid) =>
           r ← rd_reass i;
           _ ← assert_ (bool_decide (rp r = None));
           _ ← upd_reass i (set_rp (Some p));
           validate ptr_of i (here f) valid
       end) (with_mem w1 s).
Proof.
  intros [Hl (pb & Hpb & Hpay & Hnx & Href) (pre & tl & Hd & Hpre & Hh) Hcu] f. pose proof (ptr_length None) as Hp0.
  set (bs := pre ++ (ptr_bytes None ++ le_bytes 2 (fstart f) ++ le_bytes 2 (fend f)) ++ drop 12 h ++ tl).
  assert (length bs = length (pre ++ h ++ tl)) as Ebs by (unfold bs; rewrite !length_app, length_drop, Hp0, !length_le_bytes; lia).
  exists (set_data <[Own p := bs]> (lwld s)). split_and!.
  - constructor; [done|by exists pb| |split; apply u16_range]. exists pre, (drop 12 h ++ tl). split; [apply lookup_insert_eq|]. split; [done|].
    rewrite length_app, length_drop. lia.
  - by eapply changes_with.
  - done.
  - intros cust. unfold ip_reass_chain_frag_into_datagram_and_validate. rewrite (bind_payload_of _ _ _ _ Hl Hpb), Hpay.
    assert (∀ C k n (K : Z → M S C), 0 ≤ k → 0 ≤ n → k + n ≤ 20 → (field (Some (Own p, o)) k n ≫= K) s = K (hdr_word (Z.to_nat n) (Z.to_nat k) h) s) as Hfld.
    { intros C k n K Hk Hn Hkn. rewrite (bind_field s p o _ k n _ Hl Hd) by (rewrite ?length_app; lia).
      replace (Z.to_nat (o + k)) with (length pre + Z.to_nat k)%nat by lia. rewrite (drop_app_add' pre) by done. unfold hdr_word.
      by rewrite drop_app_le, take_app_le by (rewrite ?length_drop; lia). }
    rewrite Hfld by lia. erewrite (bind_Ret (IPH_HL _)); [|unfold IPH_HL; rewrite Hfld by lia; reflexivity]. rewrite Hfld by lia.
    change (Z.to_nat 2) with 2%nat. change (Z.to_nat 6) with 6%nat. change (Z.to_nat 1) with 1%nat. change (Z.to_nat 0) with 0%nat.
    fold (frag_len h) (frag_start h). cbv zeta. rewrite bind_assert by done.
    assert (set_helper_next (V := V) ptr_bytes (Some (Own p, o)) None s = Ret ((), with_data p (splice (Z.to_nat (o + 0)) (ptr_bytes None) (pre ++ h ++ tl)) s)) as Hset.
    { unfold set_helper_next, on_mem. by rewrite (store_own (lwld s) p o 0 _ (ptr_bytes None) Hl Hd) by (rewrite ?length_app; lia). }
    rewrite (bind_Ret _ _ _ _ _ Hset).
    do 2 (erewrite bind_set_field; [|exact Hl|apply data_with|lia|repeat (rewrite splice_length by (rewrite ?splice_length; rewrite ?length_le_bytes, ?length_app; lia)); rewrite ?length_app; lia];
      rewrite with_data_twice).
    replace (Z.to_nat (o + 0)) with (length pre + 0)%nat by lia. replace (Z.to_nat (o + 8)) with (length pre + 8)%nat by lia.
    replace (Z.to_nat (o + 10)) with (length pre + 10)%nat by lia.
    rewrite helper_splices by (done || lia || apply length_le_bytes). reflexivity.
Qed.

Context (custom_free_function : loc → M (world A) ()).

(** The new fragment is not kept. *)
Definition rejected s (L : gmap loc Z) (r : ip_reassdata) fs (p : loc) (res : res (bool * S)) : Prop :=
  ∃ w, res = Ret (false, with_ip w (set_pbufcount (u16 (ip_reass_pbufcount (upper s) - 1)) (upper s)) s) ∧
    inv w (delete p L) ∧ live w = live (lwld s) ∖ {[p]} ∧ seg w (rp r) fs None.

Lemma alter_insert (l : list ip_reassdata) (i : nat) (h : ip_reassdata → ip_reassdata) x : l !! i = Some x → alter h i l = <[i := h x]> l.
Proof. revert i. induction l as [|y l IH]; intros [|i] Hx; try done; simpl in *; [congruence|]. f_equal. by apply IH. Qed.

Lemma one_left j fs : bool_decide (take j fs = [] ∧ drop j fs = []) = bool_decide (fs = []).
Proof.
  apply bool_decide_ext. split; [|by intros ->; rewrite take_nil, drop_nil]. intros [E1 E2]. rewrite <- (take_drop j fs), E1, E2. done.
Qed.

Lemma set_rp_id r : set_rp (rp r) r = r.
Proof. by destruct r. Qed.

(** The state with the first fragment of the datagram set. *)
Definition with_head s (w : world A) (i : nat) (r : ip_reassdata) : S :=
  with_ip w (set_reassdatagrams (<[i := r]> (reassdatagrams (upper s))) (upper s)) s.

Lemma with_head_same s w i r : reassdatagrams (upper s) !! i = Some r → with_head s w i r = with_mem w s.
Proof. intros Hr. unfold with_head. rewrite list_insert_id by done. by destruct s as [? ? ? ? ? []]. Qed.

Lemma with_head_inserted s w i r ps l : reassdatagrams (upper s) !! i = Some r →
  with_ip w (inserted ps i l (upper s)) s = with_head s w i (set_rp (head_of ps l (rp r)) r).
Proof.
  intros Hr. unfold inserted, head_of. destruct ps as [|g ps].
  - unfold with_head. by rewrite (alter_insert _ _ _ _ Hr).
  - rewrite set_rp_id. by rewrite with_head_same.
Qed.

Lemma reass_finish_ok s w i r fs f j v : reassdatagrams (upper s) !! i = Some r → let r' := set_rp (head_of (take j fs) (floc f) (rp r)) r in
  seg w (rp r') (take j fs ++ f :: drop j fs) None → NoDup (locs (f :: fs)) →
  v = (if (j =? length fs)%nat then contig (fs ++ [f]) else contig (take j fs)) →
  validate ptr_of i (here f) v (with_head s w i r') =
    validated r' (whole j f fs) (bool_decide (fs = [])) (fend (last_of f (drop j fs))) (with_head s w i r').
Proof.
  intros Hr r' Hseg Hnd ->. rewrite (validate_ok (with_head s w i r') i r' (take j fs) f (drop j fs)); [|by apply list_lookup_insert_eq, (lookup_lt_Some _ _ _ Hr)|done|].
  - by rewrite one_left.
  - assert (take j fs ++ f :: drop j fs ≡ₚ f :: fs) as Ep by (rewrite <- (take_drop j fs) at 3; symmetry; apply Permutation_middle).
    unfold locs in *. by rewrite Ep.
Qed.

Lemma chain_rejects s s0 w L r fs p pb : s = with_mem w s0 → live w = live (lwld s0) → inv w L → p ∈ live w → pbs w !! p = Some pb → next pb = None → ref pb = 1 →
  p.1 ≠ CUSTOM → seg w (rp r) fs None → p ∉ locs fs →
  rejected s0 L r fs p ((clen ← on_mem (pbuf_clen (Some p));
           _ ← upd_ip (λ ip, set_pbufcount (u16 (ip_reass_pbufcount ip - clen)) ip);
           _ ← on_mem (pbuf_free custom_free_function (Some p));
           mret false) s).
Proof.
  intros -> Elv Hi Hl Hpb Hnx Href Hcu Hfs Hp. assert (chain w (Some p) [(p, pb)]) as Hc by (simpl; by rewrite Hnx).
  assert (pbuf_clen (Some p) w = Ret (1, w)) as Hclen.
  { unfold pbuf_clen. rewrite bind_get, (clen_loop_ok w _ (Some p) [(p, pb)]); try done. simpl. unfold fuel. lia. }
  rewrite (bind_mem _ _ _ _ _ _ Hclen) by done. rewrite with_mem_sent, bind_upd_ip.
  destruct (pbuf_free_ok custom_free_function w L p [(p, pb)] Hi Hc) as (w' & Hrun & Hi' & Hlv & Hd & _ & Hpbs).
  { apply list.Forall_singleton. simpl. split; [done|lia]. }
  { simpl. by rewrite Href. }
  simpl in *. rewrite Href in *. simpl in *. erewrite bind_mem; [|exact Hrun|done]. rewrite with_mem_sent. exists w'. split_and!; [done|done| |].
  - rewrite Hlv, Elv. set_solver.
  - assert (∀ f, f ∈ fs → floc f ≠ p) as Hne by (intros f Hf <-; by apply Hp, in_locs). clear Hp. revert Hfs. generalize (rp r) as q.
    induction fs as [|f fs IH]; intros q; [done|]. intros [-> (nx & [F1 (pb' & F2 & F3) F4 F5] & Hfs)]. split; [done|]. exists nx.
    assert (floc f ≠ p) as Hfp by (apply Hne; by left). split; [|apply IH; [|done]; intros g Hg; apply Hne; by right].
    constructor; [rewrite Hlv; set_solver| |by rewrite Hd|done]. exists pb'. split; [|done]. rewrite Hpbs; [done|]. by intros ?%list_elem_of_singleton.
Qed.

(** The new fragment is at place [j]. *)
Definition accepted_at s (i : nat) (r : ip_reassdata) fs f (j : nat) (res : res (bool * S)) : Prop :=
  ∃ w r', r' = set_rp (head_of (take j fs) (floc f) (rp r)) r ∧
    changes (locs (f :: fs)) (lwld s) w ∧ seg w (rp r') (take j fs ++ f :: drop j fs) None ∧
    res = validated r' (whole j f fs) (bool_decide (fs = [])) (fend (last_of f (drop j fs)))
      (with_head s w i r').

Lemma changes_into f fs g w w1 w2 : changes [floc f] w w1 → changes [floc g] w1 w2 → g ∈ fs → changes (locs (f :: fs)) w w2.
Proof.
  intros H1 H2 Hg. eapply changes_mono; [|exact (changes_trans _ _ _ _ _ H1 H2)]. intros l [->%list_elem_of_singleton| ->%list_elem_of_singleton]%elem_of_app; [by left|].
  right. by apply in_locs.
Qed.

Lemma chain_frag_ok s L i r fs p o h : inv (lwld s) L → reassdatagrams (upper s) !! i = Some r → seg (lwld s) (rp r) fs None →
  new_frag (lwld s) p o h → let f := frag_of p o h in NoDup (locs (f :: fs)) →
  let res := ip_reass_chain_frag_into_datagram_and_validate custom_free_function ptr_bytes ptr_of i p s in
  match place (fstart f) (fend f) None fs with
  | None => rejected s L r fs p res
  | Some j => accepted_at s i r fs f j res
  end.
Proof.
  intros Hi Hr Hfs Hnf f Hnd. destruct (chain_frag_start s i p o h Hnf) as (w1 & Hf & Hch & Hpb & Hrun). fold f in Hf, Hrun. rewrite Hrun. clear Hrun.
  rewrite (bind_reass (with_mem w1 s) _ _ _ Hr). erewrite (bind_Ret get) by reflexivity. cbn [lwld with_mem].
  pose proof (locs_not f fs _ Hnd eq_refl) as Hother.
  assert (seg w1 (rp r) fs None) as Hfs1 by (by eapply seg_changes).
  assert (length fs ≤ fuel w1)%nat as Hfu by (eapply seg_bound; [done|]; by apply list.NoDup_cons in Hnd as [_ ?]).
  pose proof (place_loop_ok i (with_mem w1 s) f None (rp r) Hf fs [] (rp r) (fuel w1) Hfu eq_refl Hfs1 Hnd) as Hpl. cbn [app] in Hpl.
  change (last_end []) with (@None Z) in Hpl. change (last_loc []) with (@None loc) in Hpl. change (contig []) with true in Hpl. change (floc f) with p in Hpl.
  destruct (place (fstart f) (fend f) None fs) as [j|] eqn:Epl.
  - pose proof (place_le _ _ _ _ _ Epl) as Hj.
    destruct (Nat.eqb_spec j (length fs)) as [Ej|Ej].
    + rewrite (bind_Ret _ _ _ _ _ Hpl). unfold last_loc. destruct (list.last fs) as [g|] eqn:El; cbn [fmap option_fmap option_map].
      * destruct (last_frag _ _ _ _ _ Hfs1 El) as [Hg Hin]. rewrite (bind_here (with_mem w1 s) _ _ _ Hg), (bind_end (with_mem w1 s) _ _ _ Hg).
        subst j. rewrite bind_assert by (apply Z.leb_le; by eapply place_last).
        destruct (set_next_ok (with_mem w1 s) g _ (Some p) Hg) as (w2 & Hset & Hch2 & Hg2 & _). rewrite (bind_Ret _ _ _ _ _ Hset).
        assert (head_of (take (length fs) fs) (floc f) (rp r) = rp r) as Eh by (rewrite take_ge by lia; by destruct fs).
        exists w2, r. rewrite Eh, set_rp_id. split; [done|]. split; [by eapply changes_into|].
        assert (seg w2 (rp r) (take (length fs) fs ++ f :: drop (length fs) fs) None) as Hseg.
        { rewrite take_ge, drop_ge by lia. apply seg_snoc. apply list.NoDup_cons in Hnd as [Hnf' Hnd']. split.
          - apply list.last_Some in El as [ps' ->]. by eapply relink.
          - eapply is_frag_changes; [exact Hch2| |exact Hf]. intros E%list_elem_of_singleton. apply Hnf'. rewrite E. by apply in_locs. }
        split; [done|]. pose proof (reass_finish_ok s w2 i r fs f (length fs) (if fend g =? fstart f then contig fs else false) Hr) as Hfin.
        cbv zeta in Hfin. rewrite Eh, set_rp_id in Hfin. rewrite (with_head_same _ _ _ _ Hr) in *. apply Hfin; [done|done|].
        rewrite Nat.eqb_refl, contig_snoc, El. by destruct (fend g =? fstart f); rewrite ?andb_true_r, ?andb_false_r.
      * apply list.last_None in El as ->. simpl in Ej, Hfs1. subst j. rewrite (bind_reass (with_mem w1 s) _ _ _ Hr).
        rewrite bind_assert by (by apply bool_decide_eq_true). exists w1, (set_rp (Some p) r). split; [done|].
        assert (seg w1 (Some p) [f] None) as Hseg by (split; [done|by exists None]).
        split; [done|]. split; [exact Hseg|].
        pose proof (reass_finish_ok s w1 i r [] f 0 true Hr Hseg Hnd eq_refl) as Hfin. cbv zeta in Hfin. cbn [take head_of] in Hfin. unfold upd_reass. rewrite bind_upd_ip.
        etransitivity; [|exact Hfin]. f_equal. unfold with_head. cbn [upper with_mem]. by rewrite (alter_insert _ _ _ _ Hr).
    + destruct Hpl as (w2 & l & Hpl & Hch2 & Hseg). rewrite (bind_Ret _ _ _ _ _ Hpl). exists w2. eexists. split; [done|].
      assert (changes (locs (f :: fs)) (lwld s) w2) as Hc.
      { eapply changes_same; [|exact Hch2]. eapply changes_mono; [|exact Hch]. intros x ->%list_elem_of_singleton. by left. }
      split; [done|]. split; [exact Hseg|].
      change (with_ip w2 (inserted (take j fs) i p (upper (with_mem w1 s))) (with_mem w1 s)) with (with_ip w2 (inserted (take j fs) i p (upper s)) s).
      rewrite (with_head_inserted _ _ _ _ _ _ Hr). apply (reass_finish_ok s w2 i r fs f j); [done|exact Hseg|done|].
      by rewrite (proj2 (Nat.eqb_neq _ _) Ej).
  - destruct Hpl as (w2 & Hpl & Hch2 & Hpb2). rewrite (bind_Ret _ _ _ _ _ Hpl). destruct Hnf as [Hl (pb & Hpb0 & _ & Hnx & Href) _ Hcu].
    pose proof (changes_same _ _ _ _ Hch Hch2) as C. apply list.NoDup_cons in Hnd as [Hnf' _].
    apply (chain_rejects _ s w2 L r fs p pb); try done.
    + apply (ch_live _ _ _ C).
    + by eapply inv_changes.
    + by rewrite (ch_live _ _ _ C).
    + rewrite Hpb2. by apply Hpb.
    + by eapply seg_changes.
Qed.
End List.

(** ** Completeness *)

Lemma contig_mid ps f rest : contig (ps ++ f :: rest) = contig (ps ++ [f]) && contig (f :: rest).
Proof.
  induction ps as [|g ps IH]; [done|]. destruct ps as [|h ps].
  - cbn [app contig]. by rewrite andb_true_r.
  - change (contig ((g :: h :: ps) ++ f :: rest)) with ((fend g =? fstart h) && contig ((h :: ps) ++ f :: rest)). rewrite IH.
    change (contig ((g :: h :: ps) ++ [f])) with ((fend g =? fstart h) && contig ((h :: ps) ++ [f])). by rewrite andb_assoc.
Qed.

Lemma place_prev a b fs g : ∀ pe j, place a b pe fs = Some j → list.last (take j fs) = Some g → fend g ≤ a.
Proof.
  induction fs as [|f fs IH]; intros pe j; cbn [place]; [by rewrite take_nil|]. destruct (a <? fstart f); [destruct pe as [e|]; [destruct (_ || _); [done|]|]; by intros [= <-]|].
  destruct (Z.ltb_spec a (Z.max (fstart f + 1) (fend f))); [done|]. destruct (place a b _ fs) as [k|] eqn:E; [|done]. intros [= <-]. cbn [take].
  destruct (take k fs) as [|h hs] eqn:Et; [intros [= <-]; lia|]. change (list.last (f :: h :: hs)) with (list.last (h :: hs)). rewrite <- Et. by apply (IH (Some (fend f))).
Qed.

(** A datagram that is found complete starts at 0 and has no hole but perhaps one in
    front of the fragment that came last. *)
Lemma whole_contig a b fs f j : fstart f = a → place a b None fs = Some j → whole j f fs = true →
  let fs' := take j fs ++ f :: drop j fs in
  starts_at_0 fs' = true ∧
  (contig fs' = true ∨ (j < length fs)%nat ∧ ∃ g, list.last (take j fs) = Some g ∧ fend g < fstart f).
Proof.
  intros Ea Hpl. unfold whole. rewrite !andb_true_iff. intros [[Hc Hst] Hr]. split; [done|].
  pose proof (place_le _ _ _ _ _ Hpl) as Hj. rewrite contig_mid, Hr, andb_true_r. destruct (Nat.eqb_spec j (length fs)) as [->|Hne].
  - left. by rewrite take_ge by lia.
  - rewrite contig_snoc, Hc. destruct (list.last (take j fs)) as [g|] eqn:El; [|by left].
    pose proof (place_prev _ _ _ _ _ _ Hpl El). destruct (Z.eqb_spec (fend g) (fstart f)); [by left|right]. split; [lia|]. exists g. split; [done|lia].
Qed.

(** ** Theorems *)

(** C19: the list of fragments in memory is a list of ranges in order.
    [ip_reass_chain_frag_into_datagram_and_validate] puts the new range in its place, or
    rejects one that starts where another one starts or overlaps its neighbours and
    releases its packet.  A range that goes in front of all others is not tested
    against the one behind it and is kept even if they overlap, although the note at
    the top of [ip4_frag.c] says that overlapping fragments are thrown away.  It
    answers that the datagram is complete when the last fragment is known and the ranges
    start at 0 and have no holes, but a hole right in front of the new range is seen only
    when the new range is the last one.  An assertion fails when the ranges are complete
    and do not end at the length the last fragment announced, or are a single one. *)
Theorem reassembly_refines_ranges {A V : Type} `{HA : Alloc A} {elt_size : memp_t → Z} `{HL : !AllocLaws A elt_size}
    (ptr_bytes : option loc → bytes) (ptr_of : bytes → option loc) custom_free_function (s : link A (ip_state V)) L i r fs p o h :
  (∀ q, length (ptr_bytes q) = 8%nat) → (∀ q, ptr_of (ptr_bytes q) = q) →
  inv (lwld s) L → reassdatagrams (upper s) !! i = Some r → seg ptr_bytes (lwld s) (rp r) fs None →
  new_frag (lwld s) p o h → let f := frag_of p o h in NoDup (locs (f :: fs)) →
  let res := ip_reass_chain_frag_into_datagram_and_validate custom_free_function ptr_bytes ptr_of i p s in
  match place (fstart f) (fend f) None fs with
  | None => rejected ptr_bytes s L r fs p res
  | Some j => accepted_at ptr_bytes s i r fs f j res ∧
      (whole j f fs = true → let fs' := take j fs ++ f :: drop j fs in
       starts_at_0 fs' = true ∧ (contig fs' = true ∨ (j < length fs)%nat ∧ ∃ g, list.last (take j fs) = Some g ∧ fend g < fstart f))
  end.
Proof.
  intros Hpl Hpb Hi Hr Hs Hnf f Hnd res. pose proof (chain_frag_ok ptr_bytes ptr_of Hpl Hpb custom_free_function s L i r fs p o h Hi Hr Hs Hnf Hnd) as Hok.
  cbv zeta in Hok. fold f res in Hok. destruct (place _ _ None fs) as [j|] eqn:E; [|exact Hok]. split; [exact Hok|]. by apply (whole_contig _ _ _ _ _ eq_refl E).
Qed.

(** ** Witnesses *)

#[local] Instance reass_laws : AllocLaws allocators (λ t, Memp.size (example_pools t)) :=
  lwip_laws example_pools example_pools_ok.

(** Two fragments of a datagram of 16 bytes, the second of which comes first. *)
Definition fr1 : bytes := ip_msg IP_MF 1 [8; 0; 0; 1; 2; 3; 4; 5].
Definition fr2 : bytes := ip_msg 1 1 [6; 7; 8; 9; 10; 11; 12; 13].
Definition fr_w1 : world allocators := pkt_world w0 fr1.
Definition fr_w2 : world allocators := pkt_world fr_w1 fr2.
Definition fr_p1 : loc := pkt_loc w0 fr1.
Definition fr_p2 : loc := pkt_loc fr_w1 fr2.
Definition fr_link : link allocators (ip_state ()) :=
  mk_link fr_w2 {[1 := arp_nif]} (arp_waiting ++ replicate 8 zero_entry) 0 []
    (mk_ip 7 no_globals [mk_reass 0 None (take 20 fr2) 16 IP_REASS_FLAG_LASTFRAG 3] 2 [1] (Some 1) ()).

Lemma own_inj (a b : loc) : Own a = Own b → a = b.
Proof. by intros [= E]. Qed.

Lemma rx_new_frag (w : world allocators) p pb bs m : rx_pbuf w p pb 14 bs → bs = replicate 14 0 ++ m → (20 ≤ length m)%nat → new_frag w p 14 (take 20 m).
Proof.
  intros [R1 R2 R3 R4 R5 R6 R7 R8 R9 R10 [R11 R12]] -> Hm. constructor; [exact R1| | |exact R11].
  - exists pb. split_and!; assumption.
  - exists (replicate 14 0), (drop 20 m). rewrite take_drop, length_take. split_and!; [exact R8|reflexivity|lia].
Qed.

Lemma new_frag_same (w w' : world allocators) p o h : new_frag w p o h → p ∈ live w' → pbs w' !! p = pbs w !! p → data w' !! Own p = data w !! Own p →
  new_frag w' p o h.
Proof. intros [N1 N2 N3 N4] Hl Hp Hd. constructor; [exact Hl|by rewrite Hp|by rewrite Hd|exact N4]. Qed.

Lemma reassembly_refines_ranges_witness : ∃ s1 s2,
  ip_reass_chain_frag_into_datagram_and_validate no_custom ip_ptr_bytes ip_ptr_of 0 fr_p2 fr_link = Ret (false, s1) ∧
  ip_reass_chain_frag_into_datagram_and_validate no_custom ip_ptr_bytes ip_ptr_of 0 fr_p1 s1 = Ret (true, s2).
Proof.
  destruct (pkt_world_ok w0 ∅ fr1 w0_inv ltac:(vm_compute; reflexivity)) as (L1 & Hi1 & Hrx1 & _). fold fr_w1 in Hi1, Hrx1.
  destruct (pkt_world_ok fr_w1 L1 fr2 Hi1 ltac:(vm_compute; reflexivity)) as (L2 & Hi2 & Hrx2 & Hsame). fold fr_w2 fr_p2 in Hi2, Hrx2, Hsame. fold fr_p1 in Hrx1.
  assert (fr_p1 ≠ fr_p2) as Hne by (vm_compute; discriminate).
  pose proof (rx_new_frag _ _ _ _ _ Hrx1 eq_refl ltac:(vm_compute; lia)) as Hn1. pose proof (rx_new_frag _ _ _ _ _ Hrx2 eq_refl ltac:(vm_compute; lia)) as Hn2.
  set (f1 := frag_of fr_p1 14 (take 20 (fr1 ++ replicate (578 - length fr1) 0))) in *.
  set (f2 := frag_of fr_p2 14 (take 20 (fr2 ++ replicate (578 - length fr2) 0))) in *.
  pose proof (reassembly_refines_ranges ip_ptr_bytes ip_ptr_of no_custom fr_link L2 0 _ [] fr_p2 14 _ (λ q, eq_refl) ip_ptr_back Hi2 eq_refl eq_refl Hn2 (list.NoDup_singleton _)) as [Hacc _].
  destruct Hacc as (w3 & r3 & -> & Hch & Hseg & Hres). fold f2 in Hch, Hseg, Hres.
  change (lwld fr_link) with fr_w2 in Hch. unfold validated in Hres. assert (whole 0 f2 [] = false) as Ew by (vm_compute; reflexivity). rewrite Ew, andb_false_r in Hres.
  set (r3 := set_rp _ _) in *. set (s3 := with_head fr_link w3 0 r3) in *. exists s3.
  assert (new_frag (lwld s3) fr_p1 14 (take 20 (fr1 ++ replicate (578 - length fr1) 0))) as Hn3.
  { destruct (Hsame fr_p1 (nf_live _ _ _ _ Hn1) Hne) as (Sl & Sp & Sd). eapply new_frag_same; [eapply new_frag_same; [exact Hn1|exact Sl|exact Sp|exact Sd]|..].
    - change (lwld s3) with w3. rewrite (ch_live _ _ _ Hch). exact Sl.
    - apply (ch_pbs _ _ _ Hch). intros E%list_elem_of_singleton. exact (Hne E).
    - apply (ch_data _ _ _ Hch). intros l Hl%list_elem_of_singleton E%own_inj. apply Hne. etransitivity; [exact E|exact Hl]. }
  assert (NoDup (locs [f1; f2])) as Hnd by (apply (bool_decide_unpack _); vm_compute; reflexivity).
  pose proof (reassembly_refines_ranges ip_ptr_bytes ip_ptr_of no_custom s3 L2 0 r3 [f2] fr_p1 14 _ (λ q, eq_refl) ip_ptr_back
    (inv_changes _ _ _ _ Hi2 Hch) eq_refl Hseg Hn3 Hnd) as Hacc. cbv zeta in Hacc. fold f1 in Hacc.
  assert (place (fstart f1) (fend f1) None [f2] = Some 0%nat) as Ep by (vm_compute; reflexivity). rewrite Ep in Hacc.
  destruct Hacc as [(w4 & r4 & -> & _ & _ & Hres4) _]. unfold validated in Hres4.
  assert (whole 0 f1 [f2] = true) as Ew4 by (vm_compute; reflexivity). rewrite Ew4 in Hres4.
  assert (fend (last_of f1 (drop 0 [f2])) = 16) as Ee by (vm_compute; reflexivity). rewrite Ee in Hres4.
  eexists. split; [exact Hres|exact Hres4].
Defined.

(** ** What goes wrong *)

(** A TCP layer that keeps the length field and the bytes of every packet it is given. *)
Definition seen_input (p : loc) (inp : Z) : M (link allocators (ip_state (list (Z * bytes)))) () :=
  pb ← on_mem (rd p);
  ip ← rd_ip;
  l ← field (current_ip4_header (ip_data ip)) 2 2;
  r ← on_mem (pbuf_copy_partial (Some p) (Some (replicate (Z.to_nat (tot_len pb)) 0)) (tot_len pb) 0);
  _ ← upd_ip (λ x, mk_ip (ip_id x) (ip_data x) (reassdatagrams x) (ip_reass_pbufcount x) (netif_list x) (netif_default x)
        (above x ++ [(lwip_htons l, r.2)]));
  free_packet no_custom p.

Definition seen_link : link allocators (ip_state (list (Z * bytes))) :=
  mk_link w0 {[1 := arp_nif]} (arp_waiting ++ replicate 8 zero_entry) 0 [] (mk_ip 7 no_globals [] 0 [1] (Some 1) []).

(** The host takes the fragments of one datagram from the wire: [(o, more, body)] is at
    offset [8 * o]. *)
Definition fragment (x : Z * bool * bytes) : bytes :=
  eth_frame (hwaddr arp_nif) arp_mac ETHTYPE_IP (ip_msg (x.1.1 + (if x.1.2 then IP_MF else 0)) IP_PROTO_TCP x.2).
Fixpoint receive (l : list (Z * bool * bytes)) : M (link allocators (ip_state (list (Z * bytes)))) () :=
  match l with
  | [] => mret ()
  | x :: l' => _ ← stack_input zeros no_custom arp_buf snd ip_ptr_bytes ip_ptr_of seen_input 1 (Some (fragment x)); receive l'
  end.
Definition delivered (l : list (Z * bool * bytes)) : option (list (Z * bytes)) :=
  match receive l seen_link with Ret (_, s) => Some (above (upper s)) | Err _ => None end.

(** C20: a datagram in four fragments is delivered whole when they come in order, but
    when the first, the last and then the third have come it is delivered without its
    second quarter: TCP gets 24 bytes under a header that counts 32. *)
Theorem missing_fragment_not_noticed a b c d : length a = 8%nat → length b = 8%nat → length c = 8%nat → length d = 8%nat →
  delivered [(0, true, a); (1, true, b); (2, true, c); (3, false, d)] = Some [(52, a ++ b ++ c ++ d)] ∧
  delivered [(0, true, a); (3, false, d); (2, true, c)] = Some [(52, a ++ c ++ d)].
Proof.
  intros Ha Hb Hc Hd. do 8 (destruct a as [|? a]; [discriminate Ha|]). destruct a; [|discriminate Ha].
  do 8 (destruct b as [|? b]; [discriminate Hb|]). destruct b; [|discriminate Hb].
  do 8 (destruct c as [|? c]; [discriminate Hc|]). destruct c; [|discriminate Hc].
  do 8 (destruct d as [|? d]; [discriminate Hd|]). destruct d; [|discriminate Hd].
  split; vm_compute; reflexivity.
Qed.

(** C21: four frames from the network stop the program: a last fragment that overlaps
    another one is thrown away but its end is kept as the length of the datagram, and the
    next fragment that makes the ranges contiguous fails the assertion that they end
    there. *)
Theorem overlapping_fragments_abort a b c d : length a = 8%nat → length b = 16%nat → length c = 8%nat → length d = 8%nat →
  receive [(0, true, a); (1, true, b); (2, false, c); (3, true, d)] seen_link = Err AssertFail.
Proof.
  intros Ha Hb Hc Hd. do 8 (destruct a as [|? a]; [discriminate Ha|]). destruct a; [|discriminate Ha].
  do 16 (destruct b as [|? b]; [discriminate Hb|]). destruct b; [|discriminate Hb].
  do 8 (destruct c as [|? c]; [discriminate Hc|]). destruct c; [|discriminate Hc].
  do 8 (destruct d as [|? d]; [discriminate Hd|]). destruct d; [|discriminate Hd].
  vm_compute; reflexivity.
Qed.

Lemma missing_fragment_not_noticed_witness :
  delivered [(0, true, replicate 8 1); (3, false, replicate 8 4); (2, true, replicate 8 3)] = Some [(52, replicate 8 1 ++ replicate 8 3 ++ replicate 8 4)].
Proof. apply (missing_fragment_not_noticed (replicate 8 1) (replicate 8 2) (replicate 8 3) (replicate 8 4)); reflexivity. Defined.

Lemma overlapping_fragments_abort_witness :
  receive [(0, true, replicate 8 1); (1, true, replicate 16 2); (2, false, replicate 8 3); (3, true, replicate 8 4)] seen_link = Err AssertFail.
Proof. apply overlapping_fragments_abort; reflexivity. Defined.
